(* ===== verification/_CoqProject ===== *)
-Q . S2P
Prelude.v
CMem.v
PageAlloc.v
PageTable.v
PageInv.v
VmSpace.v
UserRange.v
Heap.v
MemInit.v
Clone.v
VmProps.v
UserMem.v
Grow.v
Uart.v
ThreadList.v
Thread.v
Sched.v
SchedOps.v
SchedProps.v
Lock.v
Timer.v
CString.v
BlockIo.v
Vioblk.v
Kfs.v
KfsProps.v
Io.v
IoProps.v
Elf.v
ElfProps.v
Strtok.v
Shell.v
ShellProps.v
Console.v
Mkfs.v
MkfsProps.v
Device.v
Plic.v
Virtio.v
Intr.v
Process.v
Drivers.v
Syscall.v
ProcProps.v
ExecProps.v
SysProps.v
ForkProps.v
Boot.v
BootProps.v
Board.v
MainProps.v
