(* ===== verification/Prelude.v ===== *)
(** * A verified model of the customOperatingSystem kernel

    The repository is a small RISC-V teaching kernel in C (src/src/kern), user
    programs with their string library (src/src/user), and a host tool that packs
    the file system image (src/src/util/mkfs.c).  This library translates the
    kernel's own logic into executable definitions and proves what makes it
    correct.

    ** The parts and how they interact

    memory.c owns physical pages and Sv39 page tables and hands pages to the heap
    (ezheap.c).  thread.c keeps the thread table, the ready list and the wait
    lists of conditions; lock.h and timer.c build sleep locks and alarms on
    conditions.  intr.c dispatches interrupts, claimed through plic.c, to the
    timer and to the drivers.  uart.c moves bytes between its interrupt handler and
    readers and writers through ring buffers.  vioblk.c turns byte transfers into
    sector requests to a virtio disk, kfs.c implements files on top of any block
    object, and mkfs.c builds the image that kfs.c mounts.  device.c finds drivers
    by name.  elf.c loads a program from a file into the pages of a process.
    process.c and syscall.c put all of this behind descriptors, which fork shares
    between processes; excp.c takes the traps of user programs to them.  io.c has
    the transfer loops over I/O objects, objects in memory, and terminals;
    console.c is the kernel's own polled terminal.  string.c has the printf engine
    and the string functions all use.  main.c starts all of this and enters the
    first program; shell.c is the user program that runs the others.

    ** Files of the library

    - [Prelude]: machine words, the state-and-outcome monad, loops and their
      rules, tactics, the hint database [kern].
    - [CMem] byte-addressed memory with its framing lemmas; [PageAlloc] the free
      list of memory.c; [PageTable] page table entries, [walk_pt] and address
      helpers; [PageInv] the ownership invariant of pages, tables and leaves;
      [VmSpace] mapping, flags, unmapping, page faults and validation;
      [UserRange] loops over the user range (reclaim, unmap); [Heap] ezheap.c;
      [MemInit] [memory_init] and the hardware's translation [sv39_translate];
      [Clone] [memory_space_clone]; [VmProps] the theorems on memory.c and
      ezheap.c; [UserMem] loads and stores of the kernel at user addresses and the
      view of memory a user program has, which every operation is restated on;
      [Grow] the allocations that leave existing spaces and blocks alone.
    - [ThreadList] the linked thread lists; [Thread] the rest of thread.c and
      intr.h; [Sched], [SchedOps] the scheduler invariant and its preservation;
      [SchedProps] the theorems; [Lock] lock.h; [Timer] timer.c and timer.h.
    - [Uart] uart.c; [Plic] plic.c; [Virtio] the register accesses of virtio.c and
      virtio.h; [Intr] intr.c; [Device] device.c.
    - [CString] string.c; [BlockIo] the interface of a block object (io_ops);
      [Vioblk] vioblk.c on the feature words of virtio.c; [Kfs],
      [KfsProps] kfs.c and kfs.h; [Io], [IoProps] io.c and io.h; [Mkfs],
      [MkfsProps] mkfs.c and its composition with kfs.c.
    - [Strtok] the tokeniser and string lengths of string.c; [Console] console.c
      and the polled functions of uart.c; [Shell], [ShellProps] shell.c.
    - [Elf], [ElfProps] elf.c and elf.h over any object that can be read and
      positioned.
    - [Process] the process table of process.c and the signals of signals.c over
      the state of the whole kernel; [Syscall] the handlers and the dispatcher of
      syscall.c and the exception handlers of excp.c; [ProcProps] the theorems on
      descriptors and signals; [ExecProps] those on process_exec and on traps;
      [SysProps] those on reading and writing files from user programs;
      [ForkProps] the invariant of the whole kernel and the fork of a process.
    - [Drivers] the serial and block drivers as the objects the kernel calls;
      [Boot] main.c and the attach functions of uart.c and vioblk.c; [BootProps]
      what the initialisation functions establish, one after the other;
      [MainProps] the way from the loaded image to the first program; [Board] a
      concrete machine for it.

    ** Reading the model

    A kernel function is a function of type [M St A]: it takes the state of its
    component, a record with the C globals and structures as fields, and ends in an
    [outcome]: a return, a panic, a wait for a lock, or undefined behaviour, which
    is reported and never hidden.  Integers are [Z] with the wrap-around of their
    width written out.  Linked structures live in finite maps from addresses.  A
    function that suspends its thread ends with the state in which the next
    thread runs; [SchedProps] and [Lock] put such steps in sequence, [Uart] puts
    the steps of handler, reader and writer in any order.  Operations on the
    definitions of a component below go through [lift].

    What is outside of the sources is a parameter: the virtio disk
    ([Vioblk.VirtioDisk]) and its registers ([Virtio.VirtioMmio]), the interrupt
    controller ([Plic.Mmio]), the slots of the virtio devices
    ([BootProps.VirtioBus]), the characters on a line ([IoProps.RawTty]), the
    registers of the serial port ([Console.UartRegs]), the kernel's answers to
    the shell ([Shell.kernel]), the clock value, received bytes. Each has a
    class of laws with its documented behaviour and a concrete instance that the
    witnesses run on. Interfaces between components are classes too: [BlockIo]
    and [BlockIoSpec] are what kfs.c needs of a disk; the virtio driver over a
    disk ([Vioblk]) and the memory object of io.c ([IoProps]) are instances.
    [Process.Drivers] is what the kernel calls in a driver; [Drivers] has the
    instance of the serial and block drivers and proves that it has the laws
    ([DriversSpec]) the theorems on descriptors and fork ask for.

    A disk request ([Vioblk.vioblk_request]) is queued, notified, waited for and
    woken by the interrupt routine.  The device decides whether its interrupt comes
    before or after the driver sleeps; the theorems on transfers and start-up are on
    devices that interrupt after it ([vd_slow]) and have 512-byte blocks, and theorems
    show what happens otherwise.  Memory of a new thread keeps what it held before at
    [child_exit], which the code does not initialise: it is the argument [stale] of
    [thread_spawn] and [thread_fork_to_user].

    ** What the theorems show

    - Memory: boot maps the kernel one to one with the permissions of its
      sections and establishes the ownership invariant; mapping, unmapping,
      reclaiming, cloning and page faults change exactly the translations and free
      pages they should and keep the invariant; allocation is a stack; validation
      accepts exactly the ranges allowed when the start is aligned; heap blocks
      are aligned and disjoint.
    - Threads: in every state reachable by operations that meet their conditions
      ([SchedProps.allowed]) such operations complete without panic, and the queues,
      states and table stay consistent; a full table, the exit of main, a tid out of
      range and a join without children end as the theorem says;
      yielding is round robin; broadcast wakes all waiters in order; exit, join
      and spawn behave as specified; locks exclude each other and strand no
      waiter; alarms are woken when due, and from the first timer interrupt on the
      timer is never programmed later than the first of them.
    - Interrupts and devices: the controller's registers are changed only where
      meant; an external interrupt reaches its routine and is completed; the
      serial driver loses and reorders nothing in any interleaving and misses no
      wake-up; a registered device is found again; negotiation through the registers
      of a virtio device agrees on the features that its definition on words gives.
    - Storage: the disk driver transfers exact byte ranges at any alignment, on a
      device with 512-byte blocks that interrupts once the driver sleeps; files
      are read and written exactly, other bytes of the disk stay as they are; what
      is written is read back; files packed by mkfs are read back through mount,
      open and read.
    - Processes: a descriptor always refers to an open object; fork and exit keep
      reference counts balanced; closing rejects bad descriptors; the lowest
      pending signal is delivered first; the loader answers with the first check
      that fails or builds exactly the image the program headers describe, for files
      whose header sums do not wrap, whose physical addresses are the virtual ones,
      whose rounded sizes cover the offset in the page and whose segments share no
      page (theorems on defects show each of these cases), and exec
      leaves nothing of the old program; page faults of user programs are repaired,
      system calls return behind the calling instruction; reading and writing files
      moves exactly the bytes between what the program sees of its memory and the
      file, and a copy through user memory is exact.  A fork gives the child a space
      that shows what the parent's shows and descriptors that share its objects,
      switches to it, and keeps the invariants of heap, spaces, scheduler and
      descriptors ([ForkProps.kinv]), which exit keeps too.
    - Start-up: from zeroed static memory and a disk with an image made by mkfs,
      [main] initialises the components, attaches the devices, mounts the disk and
      enters user mode at the entry point of init_shell, in a space that shows the
      bytes given to mkfs and nothing else.
    - Text: the printf engine stays in its buffer and terminates the text, numbers
      that are not negative are printed and parsed back; terminals convert line endings by the automaton
      their documentation describes, whatever the split into partial transfers, and
      the conversion is undone on the other side, on the console too; line editing
      returns the edited line within its buffer; tokenising yields the words of a
      line and ends.
    - Shell: editing keys keep the line, the cursor and the screen in step with an
      abstract line editor; return runs the line typed or recalled, keeps what
      the command did, saves the line and starts a new one;
      the sizes and indices stay in range whatever is typed and answered.

    Theorems about defects state what the code does where it departs from its
    purpose ([MemInit.memory_init_last_page_twice],
    [VmProps.memory_validate_vptr_len_gaps], [SchedProps.exited_stack_never_freed],
    [SchedProps.stale_child_exit_fails], [Timer.first_alarm_late],
    [Lock.lock_contended_leaves_interrupts_off], [Vioblk.vioblk_lock_leaked],
    [Vioblk.vioblk_lost_wakeup], [Vioblk.vioblk_blksz_wrong_sector],
    [ProcProps.sysclose_leaked_lock], [ElfProps.range_check_wraps],
    [ElfProps.rounding_misses_page], [ElfProps.shared_page_replaced],
    [MkfsProps.mkfs_aligned_file_shifts], [ShellProps.shell_stale_line],
    [Console.console_crlf_doubled] and others).

    ** Bounds and fuel

    Loops over arrays and page ranges run a computed number of turns
    ([for_upto], [for_range]).  Loops over linked lists take the number of nodes of
    the structure as fuel, file transfers [n/4096 + 2] turns (every turn ends a
    block), disk transfers one turn per sector touched, [iowrite] one turn per byte,
    the printf engine one turn per format character: the theorems prove a result,
    so that this fuel is enough.  [ioterm_read] takes its fuel as an argument: two
    turns are enough while input is left, and without input no fuel is.  The polls of
    [Console] need one turn more than the port lets the kernel wait, which the laws
    of the port bound.  [strtok] splits a buffer in one turn per byte.  The loader
    reads every byte range in at most one turn per byte.

    ** Not modelled

    The translation look-aside buffer, the text of kernel messages, register
    contexts and the assembly of start.s, trapasm.s and thrasm.s (their effect on
    the running thread is in [Thread]), the layout of the virtqueue in memory.  The
    demonstration programs in src/user (fib, hello, the init programs) only make
    system calls. *)

From stdpp Require Import base gmap list strings numbers.
From Stdlib Require Import Lia ZArith.

Local Open Scope Z_scope.

(** ** Machine integers

    A [w]-bit C integer is a [Z]; the wrap-around of every operation that can
    overflow is written out with one of the functions below.  [char] is unsigned
    on RISC-V (the ABI's choice), so bytes are integers in [0,256). *)

Definition w8 (x : Z) : Z := x mod 256.
Definition w16 (x : Z) : Z := x mod 65536.
Definition w32 (x : Z) : Z := x mod 4294967296.
Definition w64 (x : Z) : Z := x mod 18446744073709551616.

(** Signed views: the value of an [int] (or [long]) that holds the given bits. *)
Definition s32 (x : Z) : Z :=
  let y := w32 x in if y <? 2147483648 then y else y - 4294967296.
Definition s64 (x : Z) : Z :=
  let y := w64 x in if y <? 9223372036854775808 then y else y - 18446744073709551616.

Definition NULL : Z := 0.
Definition UINT64_MAX : Z := 18446744073709551615.

(** Error numbers (error.h). *)
Definition EINVAL : Z := 1.
Definition EBUSY : Z := 2.
Definition ENOTSUP : Z := 3.
Definition ENODEV : Z := 4.
Definition EIO : Z := 5.
Definition EBADFMT : Z := 6.
Definition ENOENT : Z := 7.
Definition EACCESS : Z := 8.
Definition EBADFD : Z := 9.
Definition EMFILE : Z := 10.

(** ** Kernel computations

    A kernel function is a state transformer.  [Done] is a normal return;
    [Panic] is [panic()] or a failed [assert()], after which the machine is
    halted with failure and no further statement runs; [Halt] is
    [halt_success()]; [Block] is a call that waits for a lock held by an earlier
    call; [Undef] marks a point where the C program has undefined
    behaviour (a NULL dereference, an array access out of bounds); [NoFuel] is
    reported by a loop that ran out of its fuel. *)

Inductive outcome (St A : Type) : Type :=
| Done (a : A) (s : St)
| Panic (msg : string) (s : St)
| Halt (s : St)
| Block (s : St)
| Undef (why : string) (s : St)
| NoFuel.

Arguments Done {St A} a s.
Arguments Panic {St A} msg s.
Arguments Halt {St A} s.
Arguments Block {St A} s.
Arguments Undef {St A} why s.
Arguments NoFuel {St A}.

Definition M (St A : Type) : Type := St -> outcome St A.

Definition ret {St A} (a : A) : M St A := fun s => Done a s.

Definition bind {St A B} (c : M St A) (k : A -> M St B) : M St B := fun s =>
  match c s with
  | Done a s' => k a s'
  | Panic msg s' => Panic msg s'
  | Halt s' => Halt s'
  | Block s' => Block s'
  | Undef why s' => Undef why s'
  | NoFuel => NoFuel
  end.

Definition panic {St A} (msg : string) : M St A := fun s => Panic msg s.
Definition undef {St A} (why : string) : M St A := fun s => Undef why s.
Definition get {St} : M St St := fun s => Done s s.
Definition gets {St A} (f : St -> A) : M St A := fun s => Done (f s) s.
Definition modify {St} (f : St -> St) : M St unit := fun s => Done tt (f s).

(** [assert(c)] of halt.h. *)
Definition assert {St} (c : bool) (what : string) : M St unit :=
  if c then ret tt else panic what.

(** A call into a component whose state [T] is a part of the caller's state. *)
Definition lift {St T A} (getT : St -> T) (putT : T -> St -> St) (c : M T A) : M St A :=
  fun s =>
    match c (getT s) with
    | Done a t => Done a (putT t s)
    | Panic msg t => Panic msg (putT t s)
    | Halt t => Halt (putT t s)
    | Block t => Block (putT t s)
    | Undef why t => Undef why (putT t s)
    | NoFuel => NoFuel
    end.

Declare Scope kern_scope.
Delimit Scope kern_scope with kern.
Notation "x <- c ;; k" := (bind c (fun x => k))
  (at level 100, c at next level, k at level 200, right associativity) : kern_scope.
Notation "c ;; k" := (bind c (fun _ => k))
  (at level 100, k at level 200, right associativity) : kern_scope.

(** [for (i = 0; i < n; i++) body(i)]: [n] iterations from index [i]. *)
Fixpoint for_upto {St} (n : nat) (i : Z) (body : Z -> M St unit) : M St unit :=
  match n with
  | O => ret tt
  | S n' => bind (body i) (fun _ => for_upto n' (i + 1) body)
  end.

(** [for (x = lo; x < hi; x += step) body(x)], when [hi + step] does not wrap. *)
Definition for_range {St} (lo hi step : Z) (body : Z -> M St unit) : M St unit :=
  for_upto (Z.to_nat ((hi - lo + step - 1) / step)) 0 (fun k => body (lo + k * step)).

(** ** Lemmas on computations *)

Lemma bind_Done {St A B} (c : M St A) (k : A -> M St B) s a s' :
  c s = Done a s' -> bind c k s = k a s'.
Proof. intros H. unfold bind. by rewrite H. Qed.

Lemma bind_assoc {St A B C} (c : M St A) (k : A -> M St B) (h : B -> M St C) s :
  bind (bind c k) h s = bind c (fun a => bind (k a) h) s.
Proof. unfold bind. by destruct (c s). Qed.

Lemma bind_inv_Done {St A B} (c : M St A) (k : A -> M St B) s b s'' :
  bind c k s = Done b s'' -> exists a s', c s = Done a s' /\ k a s' = Done b s''.
Proof. unfold bind. destruct (c s) eqn:E; intros H; try discriminate. eauto. Qed.

(** Rule for loops: an invariant indexed by the loop counter. *)
Lemma for_upto_inv {St} (I : Z -> St -> Prop) (body : Z -> M St unit) n i s :
  I i s ->
  (forall j s1, i <= j < i + Z.of_nat n -> I j s1 ->
     exists s2, body j s1 = Done tt s2 /\ I (j + 1) s2) ->
  exists s', for_upto n i body s = Done tt s' /\ I (i + Z.of_nat n) s'.
Proof.
  revert i s. induction n as [|n IH]; intros i s HI Hstep.
  - exists s. split; [done|]. by replace (i + Z.of_nat 0) with i by lia.
  - destruct (Hstep i s) as (s1 & E1 & HI1); [lia|done|].
    destruct (IH (i + 1) s1 HI1) as (s' & E' & HI').
    { intros j s2 Hj. apply Hstep. lia. }
    exists s'. split.
    + simpl. by rewrite (bind_Done _ _ _ _ _ E1).
    + by replace (i + Z.of_nat (S n)) with (i + 1 + Z.of_nat n) by lia.
Qed.

Lemma for_range_inv {St} (I : Z -> St -> Prop) lo hi step (body : Z -> M St unit) s :
  0 < step -> lo <= hi -> I 0 s ->
  (forall k s1, 0 <= k -> lo + k * step < hi -> I k s1 ->
     exists s2, body (lo + k * step) s1 = Done tt s2 /\ I (k + 1) s2) ->
  exists s', for_range lo hi step body s = Done tt s' /\ I ((hi - lo + step - 1) / step) s'.
Proof.
  intros Hst Hle HI Hstep. unfold for_range.
  assert (Hp : 0 <= (hi - lo + step - 1) / step) by (apply Z.div_pos; lia).
  destruct (for_upto_inv I (fun k => body (lo + k * step))
    (Z.to_nat ((hi - lo + step - 1) / step)) 0 s) as (s' & E' & HI'); [done| |].
  - intros j s1 Hj. apply Hstep; [lia|].
    assert ((j + 1) * step <= (hi - lo + step - 1) / step * step)
      by (apply Z.mul_le_mono_nonneg_r; lia).
    pose proof (Z.mul_div_le (hi - lo + step - 1) step). lia.
  - exists s'. split; [done|]. by rewrite Z2Nat.id in HI' by lia.
Qed.

(** ** Parts of the state that a computation leaves alone *)

Definition keeps {St X A} (f : St -> X) (c : M St A) : Prop :=
  forall s a s', c s = Done a s' -> f s' = f s.

Lemma keeps_ret {St X A} (f : St -> X) (a : A) : keeps f (ret a).
Proof. by intros s b s' [= _ <-]. Qed.
Lemma keeps_gets {St X A} (f : St -> X) (g : St -> A) : keeps f (gets g).
Proof. by intros s b s' [= _ <-]. Qed.
Lemma keeps_panic {St X A} (f : St -> X) why : keeps f (panic (A := A) why).
Proof. by intros s b s' [=]. Qed.
Lemma keeps_undef {St X A} (f : St -> X) why : keeps f (undef (A := A) why).
Proof. by intros s b s' [=]. Qed.
Lemma keeps_modify {St X} (f : St -> X) (g : St -> St) : (forall s, f (g s) = f s) -> keeps f (modify g).
Proof. intros H s a s' [= _ <-]. apply H. Qed.
Lemma keeps_bind {St X A B} (f : St -> X) (c : M St A) (k : A -> M St B) :
  keeps f c -> (forall a, keeps f (k a)) -> keeps f (bind c k).
Proof.
  intros Hc Hk s b s' H. apply bind_inv_Done in H as (a & s1 & H1 & H2).
  by rewrite (Hk a _ _ _ H2), (Hc _ _ _ H1).
Qed.
Lemma keeps_if {St X A} (f : St -> X) (b : bool) (c d : M St A) : keeps f c -> keeps f d -> keeps f (if b then c else d).
Proof. by destruct b. Qed.
Lemma keeps_for_upto {St X} (f : St -> X) n i (body : Z -> M St unit) :
  (forall k, keeps f (body k)) -> keeps f (for_upto n i body).
Proof.
  intros H. revert i. induction n as [|n IH]; intros i; [apply keeps_ret|].
  apply keeps_bind; [apply H|]. intros _. apply IH.
Qed.

Lemma keeps_lift {St T X A} (f : St -> X) (g : St -> T) (p : T -> St -> St) (c : M T A) :
  (forall t s, f (p t s) = f s) -> keeps f (lift g p c).
Proof. intros H s a s' E. unfold lift in E. destruct (c (g s)); try discriminate. injection E as _ <-. apply H. Qed.

Ltac keep :=
  repeat first
    [ apply keeps_ret | apply keeps_gets | apply keeps_panic | apply keeps_undef
    | apply keeps_modify; intros ? | apply keeps_bind; [|intros ?] | apply keeps_if
    | apply keeps_for_upto; intros ? ].

(** ** Tactics and hint databases *)

(** The database [kern] holds the bounds of machine words and the
    well-formedness facts that components export. *)
Create HintDb kern.

(** Case analysis on the boolean comparisons of the code. *)
Ltac zbool :=
  repeat match goal with
  | |- context [Z.eqb ?x ?y] => destruct (Z.eqb_spec x y)
  | |- context [Z.ltb ?x ?y] => destruct (Z.ltb_spec x y)
  | |- context [Z.leb ?x ?y] => destruct (Z.leb_spec x y)
  | H : context [Z.eqb ?x ?y] |- _ => destruct (Z.eqb_spec x y)
  | H : context [Z.ltb ?x ?y] |- _ => destruct (Z.ltb_spec x y)
  | H : context [Z.leb ?x ?y] |- _ => destruct (Z.leb_spec x y)
  end.

(** One step of a computation whose first action is known to return. *)
Ltac mstep H := rewrite (bind_Done _ _ _ _ _ H).

Ltac unmonad :=
  unfold ret, bind, gets, get, modify, panic, undef, assert, lift in *; simpl in *.

(** ** Lemmas on machine words *)

Lemma w64_range x : 0 <= w64 x < 18446744073709551616.
Proof. unfold w64. apply Z.mod_pos_bound. lia. Qed.
Lemma w32_range x : 0 <= w32 x < 4294967296.
Proof. unfold w32. apply Z.mod_pos_bound. lia. Qed.
Lemma w16_range x : 0 <= w16 x < 65536.
Proof. unfold w16. apply Z.mod_pos_bound. lia. Qed.
Lemma w8_range x : 0 <= w8 x < 256.
Proof. unfold w8. apply Z.mod_pos_bound. lia. Qed.

Lemma w64_small x : 0 <= x < 18446744073709551616 -> w64 x = x.
Proof. apply Z.mod_small. Qed.
Lemma w32_small x : 0 <= x < 4294967296 -> w32 x = x.
Proof. apply Z.mod_small. Qed.
Lemma w16_small x : 0 <= x < 65536 -> w16 x = x.
Proof. apply Z.mod_small. Qed.
Lemma w8_small x : 0 <= x < 256 -> w8 x = x.
Proof. apply Z.mod_small. Qed.

#[export] Hint Resolve w64_range w32_range w16_range w8_range : kern.
#[export] Hint Rewrite w64_small w32_small w16_small w8_small using lia : kern.

(** Testing one bit with a mask. *)
Lemma land_bit v k : 0 <= k -> (Z.land v (Z.shiftl 1 k) =? 0) = negb (Z.testbit v k).
Proof.
  intros Hk. rewrite Z.shiftl_1_l.
  assert (E : Z.land v (2 ^ k) = if Z.testbit v k then 2 ^ k else 0).
  { apply Z.bits_inj'. intros i Hi. rewrite Z.land_spec, Z.pow2_bits_eqb by lia.
    destruct (Z.eqb_spec k i) as [->|Hne]; [|destruct (Z.testbit v k)].
    - destruct (Z.testbit v i); [by rewrite Z.pow2_bits_true|by rewrite Z.bits_0].
    - rewrite Z.pow2_bits_false by lia. by rewrite andb_false_r.
    - rewrite Z.bits_0. by rewrite andb_false_r. }
  rewrite E. destruct (Z.testbit v k); [|done].
  apply Z.eqb_neq. pose proof (Z.pow_pos_nonneg 2 k). lia.
Qed.

(** Division facts for power-of-two block sizes, in the form [lia] wants. *)
Ltac zdiv := Z.div_mod_to_equations; lia.
