(* ===== verification/CMem.v ===== *)
(** * Byte-addressed memory and the memory functions of string.c

    The kernel runs with an identity mapping of RAM, so a kernel pointer is a
    physical address: memory is a finite map from addresses to bytes, where an
    address that was never written reads as zero (RAM is zero at reset and the
    model never depends on it).  Multi-byte accesses are little-endian.

    [memset], [memcpy] and [memcmp] are the loops of src/user/string.c. *)

From stdpp Require Import base gmap list strings numbers.
From Stdlib Require Import Lia ZArith.
From S2P Require Import Prelude.
Local Open Scope Z_scope.

Abbreviation mem := (gmap Z Z).

Definition load8 (m : mem) (a : Z) : Z := w8 (default 0 (m !! a)).
Definition store8 (m : mem) (a v : Z) : mem := <[a := w8 v]> m.

(** [loadn m a n]: the little-endian integer in the [n] bytes at [a]. *)
Fixpoint loadn (m : mem) (a : Z) (n : nat) : Z :=
  match n with
  | O => 0
  | S n' => load8 m a + 256 * loadn m (a + 1) n'
  end.

Fixpoint storen (m : mem) (a : Z) (n : nat) (v : Z) : mem :=
  match n with
  | O => m
  | S n' => storen (store8 m a v) (a + 1) n' (v / 256)
  end.

Definition load64 (m : mem) (a : Z) : Z := loadn m a 8.
Definition store64 (m : mem) (a v : Z) : mem := storen m a 8 v.
Definition load32 (m : mem) (a : Z) : Z := loadn m a 4.
Definition store32 (m : mem) (a v : Z) : mem := storen m a 4 v.
Definition load16 (m : mem) (a : Z) : Z := loadn m a 2.

(** [while (n != 0) { *p++ = c; n -= 1; }] *)
Fixpoint memset (m : mem) (s c : Z) (n : nat) : mem :=
  match n with
  | O => m
  | S n' => memset (store8 m s c) (s + 1) c n'
  end.

(** [while (n != 0) { *p = *src; p += 1; src += 1; n -= 1; }] *)
Fixpoint memcpy (m : mem) (dst src : Z) (n : nat) : mem :=
  match n with
  | O => m
  | S n' => memcpy (store8 m dst (load8 m src)) (dst + 1) (src + 1) n'
  end.

(** [for (i = 0; i < n; i++) if (u1[i] != u2[i]) return u1[i] - u2[i];] *)
Fixpoint memcmp (m : mem) (p1 p2 : Z) (n : nat) : Z :=
  match n with
  | O => 0
  | S n' =>
      if load8 m p1 =? load8 m p2 then memcmp m (p1 + 1) (p2 + 1) n'
      else load8 m p1 - load8 m p2
  end.

(** The bytes [m[a], ..., m[a+n-1]]. *)
Fixpoint bytes (m : mem) (a : Z) (n : nat) : list Z :=
  match n with
  | O => []
  | S n' => load8 m a :: bytes m (a + 1) n'
  end.

(** ** Byte accesses *)

Lemma load8_range m a : 0 <= load8 m a < 256.
Proof. unfold load8. auto with kern. Qed.

Lemma load8_store8 m a v b :
  load8 (store8 m a v) b = if decide (a = b) then w8 v else load8 m b.
Proof.
  unfold load8, store8. case_decide as E.
  - subst. rewrite lookup_insert_eq. simpl. unfold w8. by rewrite Z.mod_mod by lia.
  - by rewrite lookup_insert_ne.
Qed.

Lemma load8_storen m a n v b :
  b < a \/ a + Z.of_nat n <= b -> load8 (storen m a n v) b = load8 m b.
Proof.
  revert m a v. induction n as [|n IH]; intros m a v H; [done|].
  simpl. rewrite IH by lia. rewrite load8_store8. case_decide; [lia|done].
Qed.

Lemma load8_memset m s c n b :
  load8 (memset m s c n) b =
  if decide (s <= b < s + Z.of_nat n) then w8 c else load8 m b.
Proof.
  revert m s. induction n as [|n IH]; intros m s; simpl.
  - case_decide; [lia|done].
  - rewrite IH, load8_store8. repeat case_decide; try done; lia.
Qed.

(** [memcpy] on ranges that do not overlap copies the source range (the C
    function has [restrict] parameters). *)
Lemma load8_memcpy m dst src n b :
  src + Z.of_nat n <= dst \/ dst + Z.of_nat n <= src ->
  load8 (memcpy m dst src n) b =
  if decide (dst <= b < dst + Z.of_nat n) then load8 m (b - dst + src) else load8 m b.
Proof.
  revert m dst src. induction n as [|n IH]; intros m dst src H; simpl.
  - case_decide; [lia|done].
  - rewrite IH by lia. rewrite !load8_store8.
    repeat case_decide; try lia; try done.
    + f_equal; lia.
    + subst. rewrite w8_small by apply load8_range. f_equal; lia.
Qed.

Lemma loadn_ext m1 m2 a n :
  (forall b, a <= b < a + Z.of_nat n -> load8 m1 b = load8 m2 b) ->
  loadn m1 a n = loadn m2 a n.
Proof.
  revert a. induction n as [|n IH]; intros a H; [done|]. simpl.
  rewrite (IH (a + 1)), H; [done|lia|]. intros b Hb. apply H. lia.
Qed.

Lemma bytes_ext m1 m2 a n :
  (forall b, a <= b < a + Z.of_nat n -> load8 m1 b = load8 m2 b) ->
  bytes m1 a n = bytes m2 a n.
Proof.
  revert a. induction n as [|n IH]; intros a H; [done|]. simpl.
  rewrite (IH (a + 1)), H; [done|lia|]. intros b Hb. apply H. lia.
Qed.

Lemma loadn_range m a n : 0 <= loadn m a n < 256 ^ Z.of_nat n.
Proof.
  revert a. induction n as [|n IH]; intros a; simpl loadn.
  - lia.
  - specialize (IH (a + 1)). pose proof (load8_range m a).
    replace (Z.of_nat (S n)) with (Z.succ (Z.of_nat n)) by lia.
    rewrite Z.pow_succ_r by lia. nia.
Qed.

Lemma loadn_storen_other m a n v b k :
  b + Z.of_nat k <= a \/ a + Z.of_nat n <= b -> loadn (storen m a n v) b k = loadn m b k.
Proof. intros H. apply loadn_ext. intros c Hc. apply load8_storen. lia. Qed.

Lemma loadn_storen_same m a n v :
  loadn (storen m a n v) a n = v mod 256 ^ Z.of_nat n.
Proof.
  revert m a v. induction n as [|n IH]; intros m a v.
  - simpl. by rewrite Z.mod_1_r.
  - simpl loadn. simpl storen. rewrite IH.
    rewrite load8_storen by lia. rewrite load8_store8. case_decide; [|done].
    replace (Z.of_nat (S n)) with (Z.succ (Z.of_nat n)) by lia.
    rewrite Z.pow_succ_r by lia. unfold w8.
    rewrite Z.rem_mul_r; lia.
Qed.

Lemma loadn_memset_0 m s n a k :
  s <= a -> a + Z.of_nat k <= s + Z.of_nat n -> loadn (memset m s 0 n) a k = 0.
Proof.
  revert a. induction k as [|k IH]; intros a H1 H2; [done|].
  simpl. rewrite IH by lia. rewrite load8_memset.
  case_decide; [unfold w8; rewrite Z.mod_0_l by lia; lia | lia].
Qed.

Lemma loadn_memset_other m s c n a k :
  a + Z.of_nat k <= s \/ s + Z.of_nat n <= a ->
  loadn (memset m s c n) a k = loadn m a k.
Proof.
  intros H. apply loadn_ext. intros b Hb. rewrite load8_memset. case_decide; [lia|done].
Qed.

(** ** The 64-bit instances used by the page tables *)

Lemma load64_range m a : 0 <= load64 m a < 18446744073709551616.
Proof. apply (loadn_range m a 8). Qed.

Lemma load64_store64_same m a v : load64 (store64 m a v) a = w64 v.
Proof. unfold load64, store64. by rewrite loadn_storen_same. Qed.

Lemma load64_store64_other m a v b :
  b + 8 <= a \/ a + 8 <= b -> load64 (store64 m a v) b = load64 m b.
Proof. intros H. apply loadn_storen_other. lia. Qed.

Lemma load8_store64_other m a v b :
  b < a \/ a + 8 <= b -> load8 (store64 m a v) b = load8 m b.
Proof. intros H. apply load8_storen. lia. Qed.

Lemma load64_ext m1 m2 a :
  (forall b, a <= b < a + 8 -> load8 m1 b = load8 m2 b) -> load64 m1 a = load64 m2 a.
Proof. intros H. apply (loadn_ext m1 m2 a 8). intros b Hb. apply H. lia. Qed.

Lemma load64_empty a : load64 ∅ a = 0.
Proof. unfold load64. cbn [loadn]. unfold load8. by rewrite !lookup_empty. Qed.

Lemma load64_memset_0 m s n a :
  s <= a -> a + 8 <= s + Z.of_nat n -> load64 (memset m s 0 n) a = 0.
Proof. intros H1 H2. unfold load64. apply loadn_memset_0; lia. Qed.

Lemma load64_memset_other m s c n a :
  a + 8 <= s \/ s + Z.of_nat n <= a -> load64 (memset m s c n) a = load64 m a.
Proof. intros H. unfold load64. apply loadn_memset_other; lia. Qed.

#[export] Hint Resolve load8_range load64_range : kern.

#[global] Arguments loadn : simpl never.
#[global] Arguments storen : simpl never.
#[global] Arguments memset : simpl never.
#[global] Arguments memcpy : simpl never.
#[global] Opaque load64 store64.

(** ** [bytes] *)

Lemma bytes_length m a n : length (bytes m a n) = n.
Proof. revert a. induction n as [|n IH]; intros a; simpl; [done|by rewrite IH]. Qed.

Lemma bytes_lookup m a n i :
  (i < n)%nat -> bytes m a n !! i = Some (load8 m (a + Z.of_nat i)).
Proof.
  revert a i. induction n as [|n IH]; intros a i H; [lia|].
  destruct i as [|i]; simpl.
  - do 2 f_equal. lia.
  - rewrite IH by lia. do 2 f_equal. lia.
Qed.

(** [memcmp] returns zero exactly when the two ranges hold the same bytes. *)
Lemma memcmp_zero_iff m p1 p2 n :
  memcmp m p1 p2 n = 0 <-> bytes m p1 n = bytes m p2 n.
Proof.
  revert p1 p2. induction n as [|n IH]; intros p1 p2; [done|]; cbn [memcmp bytes].
  destruct (Z.eqb_spec (load8 m p1) (load8 m p2)) as [E|E].
  - rewrite IH, E. split; [by intros ->|]. by intros [= ?].
  - split; [lia|]. intros [= ? ?]. done.
Qed.

(** [memcpy] makes the destination range equal to the source range. *)
Lemma bytes_memcpy m dst src n :
  src + Z.of_nat n <= dst \/ dst + Z.of_nat n <= src ->
  bytes (memcpy m dst src n) dst n = bytes m src n.
Proof.
  intros H. apply list_eq. intros i.
  destruct (decide (i < n)%nat) as [Hi|Hi].
  - rewrite !bytes_lookup by done. rewrite load8_memcpy by done.
    case_decide; [|lia]. do 2 f_equal. lia.
  - by rewrite !lookup_ge_None_2 by (rewrite bytes_length; lia).
Qed.

#[global] Arguments bytes : simpl never.
