(* ===== verification/PageAlloc.v ===== *)
(** * The physical page allocator (memory.c)

    The allocator keeps a singly linked list of free pages threaded through the
    first word of each free page ([union linked_page]).  [mstate] is the state
    of memory.c: physical memory, the head of the free list, the [satp]
    register and the tag of the main memory space.

    [free_seg] is the representation predicate of the list; the theorems show
    that [memory_alloc_page] and [memory_free_page] implement a stack of pages
    and touch no byte outside the page they take or give back. *)

From stdpp Require Import base gmap list strings numbers.
From Stdlib Require Import Lia ZArith.
From S2P Require Import Prelude CMem.
Local Open Scope Z_scope.
Local Open Scope kern_scope.

(** ** Constants (memory.h, config.h) *)

Definition PAGE_ORDER : Z := 12.
Definition PAGE_SIZE : Z := 4096.
Definition MEGA_SIZE : Z := 512 * PAGE_SIZE.
Definition GIGA_SIZE : Z := 512 * MEGA_SIZE.
Definition PTE_CNT : Z := PAGE_SIZE / 8.

Definition RAM_SIZE : Z := 8 * 1024 * 1024.
Definition RAM_START : Z := 0x80000000.
Definition RAM_END : Z := RAM_START + RAM_SIZE.
Definition USER_START_VMA : Z := 0xC0000000.
Definition USER_END_VMA : Z := 0xD0000000.
Definition USER_STACK_VMA : Z := USER_END_VMA.

(** ** State *)

Record mstate := MkM {
  ms_mem : mem;
  free_list : Z;
  satp : Z;
  main_mtag : Z;
  sstatus_sum : bool;
  memory_initialized : bool
}.

Definition set_mem (m : mem) (s : mstate) : mstate :=
  MkM m (free_list s) (satp s) (main_mtag s) (sstatus_sum s) (memory_initialized s).
Definition set_free_list (f : Z) (s : mstate) : mstate :=
  MkM (ms_mem s) f (satp s) (main_mtag s) (sstatus_sum s) (memory_initialized s).
Definition set_satp (v : Z) (s : mstate) : mstate :=
  MkM (ms_mem s) (free_list s) v (main_mtag s) (sstatus_sum s) (memory_initialized s).

(** [memset(p, 0, PAGE_SIZE)] *)
Definition zero_page (m : mem) (p : Z) : mem := memset m p 0 (Z.to_nat PAGE_SIZE).

(** ** Operations *)

Definition memory_alloc_page : M mstate Z :=
  page <- gets free_list ;;
  if page =? NULL then panic "no free pages in free_list: memory_alloc_page"
  else
    modify (fun s => set_free_list (load64 (ms_mem s) page) s) ;;
    modify (fun s => set_mem (zero_page (ms_mem s) page) s) ;;
    ret page.

Definition memory_free_page (pp : Z) : M mstate unit :=
  if negb (pp mod PAGE_SIZE =? 0) || (pp =? NULL)
  then panic "Invalid page address provided in memory_free_page"
  else
    modify (fun s => set_mem (zero_page (ms_mem s) pp) s) ;;
    modify (fun s => set_mem (store64 (ms_mem s) pp (free_list s)) s) ;;
    modify (fun s => set_free_list pp s).

(** ** Pages *)

(** A page frame the kernel may hold: aligned, not NULL, and with a page number
    that fits the 44-bit field of a page table entry. *)
Definition page (p : Z) : Prop :=
  p mod PAGE_SIZE = 0 /\ 0 < p /\ p < 0x100000000000000.

Definition in_page (p a : Z) : Prop := p <= a < p + PAGE_SIZE.

Lemma page_disjoint p q a :
  page p -> page q -> p <> q -> in_page p a -> a < q \/ q + PAGE_SIZE <= a.
Proof. unfold page, in_page, PAGE_SIZE. intros. zdiv. Qed.

Lemma zero_page_lookup m p a :
  load8 (zero_page m p) a = if decide (in_page p a) then 0 else load8 m a.
Proof.
  unfold zero_page, in_page. rewrite load8_memset.
  replace (Z.of_nat (Z.to_nat PAGE_SIZE)) with PAGE_SIZE by (unfold PAGE_SIZE; lia).
  done.
Qed.

Lemma zero_page_load64 m p a :
  p <= a -> a + 8 <= p + PAGE_SIZE -> load64 (zero_page m p) a = 0.
Proof.
  intros H1 H2. unfold zero_page. apply load64_memset_0; [done|]. unfold PAGE_SIZE in *. lia.
Qed.

Lemma zero_page_load64_other m p a :
  a + 8 <= p \/ p + PAGE_SIZE <= a -> load64 (zero_page m p) a = load64 m a.
Proof.
  intros H. unfold zero_page. apply load64_memset_other. unfold PAGE_SIZE in *. lia.
Qed.

Lemma zero_page_bytes m p :
  bytes (zero_page m p) p (Z.to_nat PAGE_SIZE) = replicate (Z.to_nat PAGE_SIZE) 0.
Proof.
  apply list_eq. intros i. destruct (decide (i < Z.to_nat PAGE_SIZE)%nat) as [Hi|Hi].
  - rewrite bytes_lookup, zero_page_lookup, lookup_replicate_2 by done.
    case_decide as E; [done|]. exfalso. apply E. unfold in_page, PAGE_SIZE in *. lia.
  - rewrite !lookup_ge_None_2; [done|rewrite length_replicate; lia|rewrite bytes_length; lia].
Qed.

(** Two memories that agree outside of page [p]. *)
Definition same_outside (p : Z) (m m' : mem) : Prop :=
  forall a, ~ in_page p a -> load8 m' a = load8 m a.

Lemma same_outside_refl p m : same_outside p m m.
Proof. by intros a _. Qed.

Lemma same_outside_trans p m1 m2 m3 :
  same_outside p m1 m2 -> same_outside p m2 m3 -> same_outside p m1 m3.
Proof. intros H1 H2 a Ha. by rewrite H2, H1. Qed.

Lemma same_outside_zero p m : same_outside p m (zero_page m p).
Proof. intros a Ha. rewrite zero_page_lookup. by case_decide. Qed.

Lemma same_outside_store64 p m a v :
  p <= a -> a + 8 <= p + PAGE_SIZE -> same_outside p m (store64 m a v).
Proof.
  intros H1 H2 b Hb. apply load8_store64_other. unfold in_page in Hb. lia.
Qed.

Lemma same_outside_load64 p q m m' a :
  same_outside p m m' -> page p -> page q -> p <> q ->
  q <= a -> a + 8 <= q + PAGE_SIZE -> load64 m' a = load64 m a.
Proof.
  intros H Hp Hq Hne H1 H2. apply load64_ext. intros b Hb. apply H. intros Hin.
  destruct (page_disjoint p q b) as [?|?]; auto; lia.
Qed.

Lemma same_outside_bytes p q m m' :
  same_outside p m m' -> page p -> page q -> p <> q ->
  bytes m' q (Z.to_nat PAGE_SIZE) = bytes m q (Z.to_nat PAGE_SIZE).
Proof.
  intros H Hp Hq Hne. apply bytes_ext. intros b Hb. apply H. intros Hin.
  destruct (page_disjoint p q b) as [?|?]; auto; unfold PAGE_SIZE in *; lia.
Qed.

(** ** The free list *)

(** [free_seg m head l last]: following [next] pointers from [head] visits the
    pages of [l] in order and then arrives at [last]. *)
Fixpoint free_seg (m : mem) (head : Z) (l : list Z) (last : Z) : Prop :=
  match l with
  | [] => head = last
  | p :: l' => head = p /\ free_seg m (load64 m p) l' last
  end.

Definition free_ok (s : mstate) (l : list Z) (last : Z) : Prop :=
  free_seg (ms_mem s) (free_list s) l last /\ NoDup l /\ Forall page l /\
  0 <= free_list s < 18446744073709551616.

Lemma free_seg_frame m m' p head l last :
  free_seg m head l last -> same_outside p m m' -> page p -> Forall page l ->
  p ∉ l -> free_seg m' head l last.
Proof.
  revert head. induction l as [|q l IH]; intros head Hseg Hso Hp Hl Hnin; [done|].
  destruct Hseg as [-> Hseg]. inversion_clear Hl as [|? ? Hq Hl'].
  apply not_elem_of_cons in Hnin as [Hne Hnin]. split; [done|].
  rewrite (same_outside_load64 p q m m' q) by (auto || (unfold PAGE_SIZE; lia)).
  by apply IH.
Qed.

Lemma free_seg_ext m m' head l last :
  free_seg m head l last -> (forall q, q ∈ l -> load64 m' q = load64 m q) ->
  free_seg m' head l last.
Proof.
  revert head. induction l as [|q l IH]; intros head Hseg Heq; [done|].
  destruct Hseg as [-> Hseg]. split; [done|]. rewrite Heq by set_solver.
  apply IH; [done|]. set_solver.
Qed.

Lemma free_ok_frame s s' p l last :
  free_ok s l last -> free_list s' = free_list s ->
  same_outside p (ms_mem s) (ms_mem s') -> page p -> p ∉ l -> free_ok s' l last.
Proof.
  intros (Hseg & Hnd & Hpg & Hr) Hfl Hso Hp Hnin. unfold free_ok. rewrite Hfl.
  split; [|done]. by eapply free_seg_frame.
Qed.

(** The allocator's effect on the state, as one equation. *)
Definition alloc_state (s : mstate) : mstate :=
  MkM (zero_page (ms_mem s) (free_list s)) (load64 (ms_mem s) (free_list s))
      (satp s) (main_mtag s) (sstatus_sum s) (memory_initialized s).

Lemma memory_alloc_page_eq s :
  free_list s <> NULL -> memory_alloc_page s = Done (free_list s) (alloc_state s).
Proof.
  intros H. unfold memory_alloc_page, bind, gets.
  destruct (Z.eqb_spec (free_list s) NULL); [done|]. reflexivity.
Qed.

Lemma free_ok_head_nonnull s p l last : free_ok s (p :: l) last -> free_list s <> NULL.
Proof.
  intros ([-> _] & _ & Hpg & _). inversion_clear Hpg as [|? ? (_ & ? & _) _]. unfold NULL. lia.
Qed.

Lemma free_ok_alloc s p l last :
  free_ok s (p :: l) last -> free_ok (alloc_state s) l last.
Proof.
  intros ([Hh Hseg] & Hnd & Hpg & Hr). inversion_clear Hpg. inversion_clear Hnd.
  split; [|split; [done|split; [done|apply load64_range]]]. simpl. rewrite Hh. eapply free_seg_frame; eauto.
  apply same_outside_zero.
Qed.

Definition free_state (p : Z) (s : mstate) : mstate :=
  MkM (store64 (zero_page (ms_mem s) p) p (free_list s)) p
      (satp s) (main_mtag s) (sstatus_sum s) (memory_initialized s).

Lemma memory_free_page_eq p s :
  page p -> memory_free_page p s = Done tt (free_state p s).
Proof.
  intros (Ha & Hp & _). unfold memory_free_page, NULL.
  destruct (Z.eqb_spec (p mod PAGE_SIZE) 0); [|done].
  destruct (Z.eqb_spec p 0); [lia|]. reflexivity.
Qed.

Lemma free_state_same_outside p s :
  same_outside p (ms_mem s) (ms_mem (free_state p s)).
Proof.
  simpl. eapply same_outside_trans; [apply same_outside_zero|].
  apply same_outside_store64; unfold PAGE_SIZE; lia.
Qed.

Lemma free_ok_free s p l last :
  free_ok s l last -> page p -> p ∉ l ->
  free_ok (free_state p s) (p :: l) last.
Proof.
  intros (Hseg & Hnd & Hpg & Hfl) Hp Hnin.
  split; [|split; [by constructor|split; [by constructor|]]].
  2:{ destruct Hp as (_ & ? & ?). simpl. lia. }
  split; [done|].
  assert (load64 (ms_mem (free_state p s)) p = free_list s) as ->.
  { simpl. rewrite load64_store64_same. apply w64_small. lia. }
  eapply free_seg_frame; eauto. apply free_state_same_outside.
Qed.

#[global] Opaque zero_page.
