(* ===== verification/PageTable.v ===== *)
(** * Sv39 page tables and [walk_pt] (memory.c, memory.h) *)

From stdpp Require Import base gmap list strings numbers.
From Stdlib Require Import Lia ZArith.
From S2P Require Import Prelude CMem PageAlloc.
Local Open Scope Z_scope.
Local Open Scope kern_scope.

(** ** Page table entries *)

Definition PTE_V : Z := 1.
Definition PTE_R : Z := 2.
Definition PTE_W : Z := 4.
Definition PTE_X : Z := 8.
Definition PTE_U : Z := 16.
Definition PTE_G : Z := 32.
Definition PTE_A : Z := 64.
Definition PTE_D : Z := 128.
Definition PTE_RWX : Z := 14.   (* PTE_R | PTE_W | PTE_X *)
Definition PTE_FLAGS_MASK : Z := 62.   (* PTE_R | PTE_W | PTE_X | PTE_U | PTE_G *)

(** [struct pte]: six bit fields of a 64-bit word. *)
Record pte := Pte {
  pte_flags : Z;      (* 8 bits *)
  pte_rsw : Z;        (* 2 bits *)
  pte_ppn : Z;        (* 44 bits *)
  pte_reserved : Z;   (* 7 bits *)
  pte_pbmt : Z;       (* 2 bits *)
  pte_n : Z           (* 1 bit *)
}.

Definition pte_encode (e : pte) : Z :=
  pte_flags e + pte_rsw e * 2^8 + pte_ppn e * 2^10 + pte_reserved e * 2^54
  + pte_pbmt e * 2^61 + pte_n e * 2^63.

Definition pte_decode (w : Z) : pte :=
  Pte (w mod 2^8) (w / 2^8 mod 2^2) (w / 2^10 mod 2^44) (w / 2^54 mod 2^7)
      (w / 2^61 mod 2^2) (w / 2^63 mod 2).

Definition pte_wf (e : pte) : Prop :=
  0 <= pte_flags e < 2^8 /\ 0 <= pte_rsw e < 2^2 /\ 0 <= pte_ppn e < 2^44 /\
  0 <= pte_reserved e < 2^7 /\ 0 <= pte_pbmt e < 2^2 /\ 0 <= pte_n e < 2.

(** [e.flags & mask], as a truth value. *)
Definition has (e : pte) (mask : Z) : bool := negb (Z.land (pte_flags e) mask =? 0).

(** Assignments to a bit field keep the low bits of the value. *)
Definition set_flags (f : Z) (e : pte) : pte :=
  Pte (f mod 2^8) (pte_rsw e) (pte_ppn e) (pte_reserved e) (pte_pbmt e) (pte_n e).
Definition set_ppn (n : Z) (e : pte) : pte :=
  Pte (pte_flags e) (pte_rsw e) (n mod 2^44) (pte_reserved e) (pte_pbmt e) (pte_n e).

Definition pagenum_to_pageptr (n : Z) : Z := w64 (Z.shiftl n PAGE_ORDER).
Definition pageptr_to_pagenum (p : Z) : Z := Z.shiftr p PAGE_ORDER.

Definition leaf_pte (pptr rwxug_flags : Z) : pte :=
  set_flags (Z.lor (Z.lor (Z.lor rwxug_flags PTE_A) PTE_D) PTE_V)
    (set_ppn (pageptr_to_pagenum pptr) (Pte 0 0 0 0 0 0)).
Definition ptab_pte (ptab g_flag : Z) : pte :=
  set_flags (Z.lor g_flag PTE_V)
    (set_ppn (pageptr_to_pagenum ptab) (Pte 0 0 0 0 0 0)).
Definition null_pte : pte := Pte 0 0 0 0 0 0.

Definition load_pte (m : mem) (a : Z) : pte := pte_decode (load64 m a).
Definition store_pte (m : mem) (a : Z) (e : pte) : mem := store64 m a (pte_encode e).

(** ** Address arithmetic *)

Definition VPN2 (vma : Z) : Z := Z.land (Z.shiftr vma (9+9+12)) 0x1FF.
Definition VPN1 (vma : Z) : Z := Z.land (Z.shiftr vma (9+12)) 0x1FF.
Definition VPN0 (vma : Z) : Z := Z.land (Z.shiftr vma 12) 0x1FF.

Definition wellformed_vma (vma : Z) : bool :=
  let bits := w64 (Z.shiftr (s64 vma) 38) in
  (bits =? 0) || (w64 (bits + 1) =? 0).

Definition aligned_addr (vma blksz : Z) : bool := vma mod blksz =? 0.
Definition round_up_addr (addr blksz : Z) : Z := w64 (w64 (addr + blksz - 1) / blksz * blksz).
Definition round_down_addr (addr blksz : Z) : Z := addr / blksz * blksz.

Definition mtag_to_root (mtag : Z) : Z := Z.shiftr (w64 (Z.shiftl mtag 20)) 8.

Definition active_space_mtag : M mstate Z := gets satp.
Definition active_space_root : M mstate Z :=
  mtag <- active_space_mtag ;; ret (mtag_to_root mtag).
Definition active_memory_space : M mstate Z := active_space_mtag.
Definition memory_space_switch (mtag : Z) : M mstate Z :=
  old <- gets satp ;; modify (set_satp mtag) ;; ret old.

(** ** The walk *)

Definition vpn (vma : Z) (level : nat) : Z :=
  match level with
  | O => VPN0 vma
  | 1%nat => VPN1 vma
  | _ => VPN2 vma
  end.

Definition slot (pt i : Z) : Z := pt + 8 * i.

Fixpoint walk_from (level : nat) (pt vma : Z) (create : bool) : M mstate Z :=
  match level with
  | O => ret (slot pt (vpn vma 0))
  | S level' =>
      m <- gets ms_mem ;;
      let a := slot pt (vpn vma level) in
      if negb (pt =? NULL) && has (load_pte m a) PTE_V then
        if has (load_pte m a) PTE_RWX then ret NULL
        else walk_from level' (w64 (Z.shiftl (pte_ppn (load_pte m a)) PAGE_ORDER)) vma create
      else if create then
        new_pt <- memory_alloc_page ;;
        if pt =? NULL then undef "walk_pt: store through a NULL page table" else
        modify (fun s => set_mem (store_pte (ms_mem s) a
          (set_ppn (Z.shiftr new_pt PAGE_ORDER) (load_pte (ms_mem s) a))) s) ;;
        modify (fun s => set_mem (store_pte (ms_mem s) a
          (set_flags PTE_V (load_pte (ms_mem s) a))) s) ;;
        walk_from level' new_pt vma create
      else ret NULL
  end.

Definition walk_pt (root vma : Z) (create : bool) : M mstate Z :=
  walk_from 2 root vma create.

(** ** Bit-field lemmas *)

Lemma pte_decode_wf w : pte_wf (pte_decode w).
Proof. unfold pte_wf, pte_decode; simpl. repeat split; zdiv. Qed.

Lemma pte_decode_encode e : pte_wf e -> pte_decode (pte_encode e) = e.
Proof.
  destruct e as [f r p v b n]. unfold pte_wf, pte_decode, pte_encode; simpl.
  intros (Hf & Hr & Hp & Hv & Hb & Hn). f_equal; zdiv.
Qed.

Lemma pte_encode_range e : pte_wf e -> 0 <= pte_encode e < 18446744073709551616.
Proof. unfold pte_wf, pte_encode. lia. Qed.

Lemma pte_encode_decode w : 0 <= w < 18446744073709551616 -> pte_encode (pte_decode w) = w.
Proof. intros H. unfold pte_encode, pte_decode; simpl. zdiv. Qed.

Lemma load_store_pte_same m a e : pte_wf e -> load_pte (store_pte m a e) a = e.
Proof.
  intros H. unfold load_pte, store_pte. rewrite load64_store64_same, w64_small.
  - by apply pte_decode_encode.
  - by apply pte_encode_range.
Qed.

Lemma load_store_pte_other m a e b :
  b + 8 <= a \/ a + 8 <= b -> load_pte (store_pte m a e) b = load_pte m b.
Proof. intros H. unfold load_pte, store_pte. by rewrite load64_store64_other. Qed.

Lemma set_flags_wf f e : pte_wf e -> pte_wf (set_flags f e).
Proof. unfold pte_wf, set_flags; simpl. intros (_ & H). split; [zdiv|done]. Qed.
Lemma set_ppn_wf n e : pte_wf e -> pte_wf (set_ppn n e).
Proof. unfold pte_wf, set_ppn; simpl. intros (? & ? & _ & H). repeat split; zdiv || tauto. Qed.
Lemma null_pte_wf : pte_wf null_pte.
Proof. unfold pte_wf, null_pte; simpl. lia. Qed.
Lemma leaf_pte_wf p f : pte_wf (leaf_pte p f).
Proof. apply set_flags_wf, set_ppn_wf, null_pte_wf. Qed.
Lemma load_pte_wf m a : pte_wf (load_pte m a).
Proof. apply pte_decode_wf. Qed.

#[export] Hint Resolve set_flags_wf set_ppn_wf null_pte_wf leaf_pte_wf load_pte_wf : kern.

Lemma land_1_mod2 x : Z.land x 1 = x mod 2.
Proof. change 1 with (Z.ones 1). by rewrite Z.land_ones by lia. Qed.

Lemma lor_1_odd x : Z.lor x 1 mod 2 = 1.
Proof.
  rewrite <- land_1_mod2. apply Z.bits_inj'. intros n Hn.
  rewrite Z.land_spec, Z.lor_spec. by destruct (Z.testbit 1 n), (Z.testbit x n).
Qed.

Lemma leaf_pte_valid p f : has (leaf_pte p f) PTE_V = true.
Proof.
  unfold has, leaf_pte, PTE_V. simpl pte_flags. rewrite land_1_mod2.
  pose proof (lor_1_odd (Z.lor (Z.lor f PTE_A) PTE_D)) as H.
  destruct (Z.eqb_spec (Z.lor (Z.lor (Z.lor f PTE_A) PTE_D) 1 mod 2 ^ 8 mod 2) 0); [|done].
  exfalso. zdiv.
Qed.

Lemma table_pte_valid e : has (set_flags PTE_V e) PTE_V = true.
Proof. reflexivity. Qed.
Lemma table_pte_nonleaf e : has (set_flags PTE_V e) PTE_RWX = false.
Proof. reflexivity. Qed.

Lemma zero_pte_invalid m a : load64 m a = 0 -> has (load_pte m a) PTE_V = false.
Proof. intros H. unfold load_pte. by rewrite H. Qed.

(** The page frame an entry names. *)
Definition ppage (e : pte) : Z := pte_ppn e * PAGE_SIZE.

Lemma shiftl_ppn e : pte_wf e -> w64 (Z.shiftl (pte_ppn e) PAGE_ORDER) = ppage e.
Proof.
  intros (_ & _ & H & _). unfold PAGE_ORDER, ppage, PAGE_SIZE.
  rewrite Z.shiftl_mul_pow2 by lia. apply w64_small. lia.
Qed.

Lemma pagenum_of_page p : page p -> pageptr_to_pagenum p mod 2^44 * PAGE_SIZE = p.
Proof.
  unfold page, pageptr_to_pagenum, PAGE_ORDER, PAGE_SIZE. intros (H1 & H2 & H3).
  rewrite Z.shiftr_div_pow2 by lia. change (2^12) with 4096. zdiv.
Qed.

Lemma ppage_leaf p f : page p -> ppage (leaf_pte p f) = p.
Proof. apply pagenum_of_page. Qed.

Lemma ppage_table p e :
  page p -> ppage (set_flags PTE_V (set_ppn (Z.shiftr p PAGE_ORDER) e)) = p.
Proof. apply pagenum_of_page. Qed.

(** ** Index lemmas *)

Lemma VPN2_div vma : VPN2 vma = vma / 2^30 mod 512.
Proof.
  unfold VPN2. change 0x1FF with (Z.ones 9).
  by rewrite Z.land_ones, Z.shiftr_div_pow2 by lia.
Qed.
Lemma VPN1_div vma : VPN1 vma = vma / 2^21 mod 512.
Proof.
  unfold VPN1. change 0x1FF with (Z.ones 9).
  by rewrite Z.land_ones, Z.shiftr_div_pow2 by lia.
Qed.
Lemma VPN0_div vma : VPN0 vma = vma / 2^12 mod 512.
Proof.
  unfold VPN0. change 0x1FF with (Z.ones 9).
  by rewrite Z.land_ones, Z.shiftr_div_pow2 by lia.
Qed.

Lemma vpn_range vma level : 0 <= vpn vma level < 512.
Proof.
  destruct level as [|[|level]]; simpl; rewrite ?VPN0_div, ?VPN1_div, ?VPN2_div; zdiv.
Qed.

Lemma VPN0_range vma : 0 <= VPN0 vma < 512.
Proof. exact (vpn_range vma 0). Qed.

(** A virtual address in the 39-bit space is determined up to the page offset
    by its three indices. *)
Lemma vpn_inj v w :
  0 <= v < 2^39 -> 0 <= w < 2^39 ->
  VPN2 v = VPN2 w -> VPN1 v = VPN1 w -> VPN0 v = VPN0 w ->
  v / PAGE_SIZE = w / PAGE_SIZE.
Proof.
  rewrite !VPN2_div, !VPN1_div, !VPN0_div. unfold PAGE_SIZE. intros. zdiv.
Qed.

Lemma slot_in_page q i :
  0 <= i < 512 -> q <= slot q i /\ slot q i + 8 <= q + PAGE_SIZE.
Proof. unfold slot, PAGE_SIZE. lia. Qed.

Lemma slot_disjoint p q i j :
  page p -> page q -> 0 <= i < 512 -> 0 <= j < 512 -> p <> q \/ i <> j ->
  slot p i + 8 <= slot q j \/ slot q j + 8 <= slot p i.
Proof. unfold page, slot, PAGE_SIZE. intros. zdiv. Qed.

Lemma mtag_to_root_sv39 r asid :
  page r -> 0 <= asid < 2^16 ->
  mtag_to_root (Z.lor (Z.lor (Z.shiftl 8 60) (Z.shiftl asid 44)) (pageptr_to_pagenum r)) = r.
Proof.
  intros (Ha & Hp & Hb) Has. unfold mtag_to_root, pageptr_to_pagenum, PAGE_ORDER, w64, PAGE_SIZE in *.
  change 18446744073709551616 with (2^64). rewrite <- Z.land_ones by lia.
  apply Z.bits_inj'. intros n Hn.
  rewrite Z.shiftr_spec, Z.land_spec, Z.shiftl_spec by lia.
  rewrite Z.testbit_ones by lia.
  assert (Hhi : forall k, 56 <= k -> Z.testbit r k = false).
  { intros k Hk. rewrite Z.testbit_false by lia.
    rewrite Z.div_small; [done|]. split; [lia|].
    eapply Z.lt_le_trans; [exact Hb|]. change 0x100000000000000 with (2^56).
    apply Z.pow_le_mono_r; lia. }
  assert (Hlo : forall k, 0 <= k < 12 -> Z.testbit r k = false).
  { intros k Hk. replace r with (r / 2^12 * 2^12) by (change (2^12) with 4096; zdiv).
    apply Z.mul_pow2_bits_low. lia. }
  destruct (Z.ltb_spec n 12) as [H12|H12].
  - rewrite Hlo by lia. rewrite Z.testbit_neg_r by lia. by rewrite andb_false_l.
  - rewrite !Z.lor_spec, !Z.shiftl_spec, Z.shiftr_spec by lia.
    replace (n + 8 - 20 + 12) with n by lia.
    destruct (Z.ltb_spec n 56) as [H56|H56].
    + rewrite !(Z.testbit_neg_r _ (_ - _)) by lia. simpl.
      destruct (0 <=? n + 8) eqn:E1, (n + 8 <? 64) eqn:E2; simpl;
        rewrite ?andb_true_r; try done; lia.
    + rewrite Hhi by lia. replace (n + 8 <? 64) with false by lia.
      by rewrite andb_false_r, andb_false_r.
Qed.
