(* ===== verification/PageInv.v ===== *)
(** * Ownership of page frames and the correctness of [walk_pt]

    The invariant [minv] assigns a role to every page frame the allocator
    manages: free, held (taken from the allocator and not yet attached to
    anything), root table of an address space, inner table, or data page of a
    user address.  The role of an inner table or data page includes the
    address space and the indices under which it is reached, so no frame is
    reached twice, no frame in use is on the free list, and address spaces
    share no user frame.  Only the indices of the user half of the root table
    ([3 <= VPN2], the part above the kernel's three gigabytes) are governed by
    roles; the kernel's global entries are shared by all spaces. *)

From stdpp Require Import base gmap list strings numbers.
From Stdlib Require Import Lia ZArith.
From S2P Require Import Prelude CMem PageAlloc PageTable.
Local Open Scope Z_scope.
Local Open Scope kern_scope.

Inductive role :=
| Free
| Held
| Root (r : Z)
| Tab1 (r i2 : Z)
| Tab0 (r i2 i1 : Z)
| Data (r i2 i1 i0 : Z).

#[export] Instance role_eq_dec : EqDecision role.
Proof. solve_decision. Defined.

(** The role of the frame named by a valid entry [i] of a frame of role [x]. *)
Definition child (x : role) (i : Z) : option role :=
  match x with
  | Root r => if 3 <=? i then Some (Tab1 r i) else None
  | Tab1 r i2 => Some (Tab0 r i2 i)
  | Tab0 r i2 i1 => Some (Data r i2 i1 i)
  | _ => None
  end.

Definition inner (x : role) : bool :=
  match x with Root _ | Tab1 _ _ => true | _ => false end.

(** Frames that are part of an address space. *)
Definition live (x : role) : bool :=
  match x with Free | Held => false | _ => true end.

Definition is_tab (x : role) : bool :=
  match x with Tab1 _ _ | Tab0 _ _ _ => true | _ => false end.

(** Frames that hold page table entries. *)
Definition tabular (x : role) : bool :=
  match x with Root _ | Tab1 _ _ | Tab0 _ _ _ => true | _ => false end.

Definition entry_ok (own : gmap Z role) (x : role) (i : Z) (e : pte) : Prop :=
  forall y, child x i = Some y -> has e PTE_V = true ->
    (inner x = true -> has e PTE_RWX = false) /\ own !! ppage e = Some y.

(** Frame [p] of role [y] is linked from a valid entry of its parent table. *)
Definition linked (m : mem) (own : gmap Z role) (p : Z) (y : role) : Prop :=
  exists q x i, own !! q = Some x /\ 0 <= i < 512 /\ child x i = Some y /\
    has (load_pte m (slot q i)) PTE_V = true /\ ppage (load_pte m (slot q i)) = p.

(** Invalid entries of a table have no flag set. *)
Definition clean (m : mem) (q : Z) : Prop :=
  forall i, 0 <= i < 512 -> has (load_pte m (slot q i)) PTE_V = false ->
    pte_flags (load_pte m (slot q i)) = 0.

Record minv (s : mstate) (own : gmap Z role) (l : list Z) (last : Z) : Prop := {
  mi_free : free_ok s l last;
  mi_page : forall p x, own !! p = Some x -> page p;
  mi_list : forall p, p ∈ l <-> own !! p = Some Free;
  mi_root : forall p r, own !! p = Some (Root r) -> p = r;
  mi_entry : forall q x i, own !! q = Some x -> 0 <= i < 512 ->
    entry_ok own x i (load_pte (ms_mem s) (slot q i));
  mi_linked : forall p y, own !! p = Some y -> is_tab y = true ->
    linked (ms_mem s) own p y;
  mi_clean : forall q r i2 i1, own !! q = Some (Tab0 r i2 i1) -> clean (ms_mem s) q
}.

(** What an operation that only adds to the address spaces preserves: roles of
    frames in use, valid table entries, the bytes of data pages, and the frames the
    allocator does not manage; and no entry of the upper half of a root becomes
    global. *)
Record extends (s : mstate) (own : gmap Z role) (s' : mstate) (own' : gmap Z role) : Prop := {
  ex_own : forall q x, own !! q = Some x -> live x = true -> own' !! q = Some x;
  ex_entry : forall q x i, own !! q = Some x -> live x = true -> 0 <= i < 512 ->
    has (load_pte (ms_mem s) (slot q i)) PTE_V = true ->
    load_pte (ms_mem s') (slot q i) = load_pte (ms_mem s) (slot q i);
  ex_bytes : forall q r i2 i1 i0, own !! q = Some (Data r i2 i1 i0) ->
    bytes (ms_mem s') q (Z.to_nat PAGE_SIZE) = bytes (ms_mem s) q (Z.to_nat PAGE_SIZE);
  ex_none : forall q, own !! q = None -> own' !! q = None;
  ex_global : forall q r i, own !! q = Some (Root r) -> 3 <= i < 512 ->
    has (load_pte (ms_mem s) (slot q i)) PTE_G = false -> has (load_pte (ms_mem s') (slot q i)) PTE_G = false;
  ex_satp : satp s' = satp s
}.

Lemma extends_refl s own : extends s own s own.
Proof. constructor; auto. Qed.

Lemma extends_trans s1 o1 s2 o2 s3 o3 :
  extends s1 o1 s2 o2 -> extends s2 o2 s3 o3 -> extends s1 o1 s3 o3.
Proof.
  intros [A1 A2 A3 A5 A6 A4] [B1 B2 B3 B5 B6 B4]. constructor.
  - intros. apply B1; auto.
  - intros q x i Hq Hx Hi Hv. rewrite <- (A2 q x i); auto.
    apply (B2 q x i); auto. by rewrite (A2 q x i).
  - intros q r i2 i1 i0 Hq. rewrite <- (A3 q r i2 i1 i0 Hq).
    apply (B3 q r i2 i1 i0). by apply A1.
  - auto.
  - intros q r i Hq Hi Hv. apply (B6 q r i); auto. eapply A6; eauto.
  - congruence.
Qed.

(** ** Elementary steps *)

Lemma load_pte_same_outside p q m m' i :
  same_outside p m m' -> page p -> page q -> p <> q -> 0 <= i < 512 ->
  load_pte m' (slot q i) = load_pte m (slot q i).
Proof.
  intros H Hp Hq Hne Hi. unfold load_pte. f_equal.
  destruct (slot_in_page q i Hi). by eapply same_outside_load64.
Qed.

Lemma child_inner x i y : child x i = Some y -> is_tab y = true -> inner x = true.
Proof.
  destruct x; cbn [child]; try done. by intros [= <-].
Qed.

Lemma child_live x i y : child x i = Some y -> live x = true /\ live y = true.
Proof.
  destruct x; cbn [child]; try done; try (by intros [= <-]).
  destruct (3 <=? i); [by intros [= <-]|done].
Qed.

Lemma tabular_live x : tabular x = true -> live x = true.
Proof. by destruct x. Qed.

Lemma child_tabular x i y : child x i = Some y -> tabular x = true.
Proof. by destruct x. Qed.

Lemma child_inj x x' i i' y : child x i = Some y -> child x' i' = Some y -> x = x' /\ i = i'.
Proof.
  destruct x, x'; cbn [child]; try done;
    repeat destruct (3 <=? _); try done; intros [= <-] [= ? ?]; by subst.
Qed.

(** A table role is held by at most one frame. *)
Lemma tab_unique s own l last p p' y :
  minv s own l last -> is_tab y = true ->
  own !! p = Some y -> own !! p' = Some y -> p = p'.
Proof.
  intros HI. assert (H1 : forall p p' r i2,
    own !! p = Some (Tab1 r i2) -> own !! p' = Some (Tab1 r i2) -> p = p').
  { intros q q' r i2 Hq Hq'.
    destruct (mi_linked _ _ _ _ HI _ _ Hq eq_refl) as (a & x & i & Ha & _ & Hc & _ & <-).
    destruct (mi_linked _ _ _ _ HI _ _ Hq' eq_refl) as (a' & x' & i' & Ha' & _ & Hc' & _ & <-).
    destruct (child_inj _ _ _ _ _ Hc Hc') as [<- <-].
    destruct x; cbn [child] in Hc; try done.
    by rewrite (mi_root _ _ _ _ HI _ _ Ha), (mi_root _ _ _ _ HI _ _ Ha'). }
  destruct y as [| | |r i2|r i2 i1|]; try done; intros _ Hp Hp'; [eauto|].
  destruct (mi_linked _ _ _ _ HI _ _ Hp eq_refl) as (a & x & i & Ha & _ & Hc & _ & <-).
  destruct (mi_linked _ _ _ _ HI _ _ Hp' eq_refl) as (a' & x' & i' & Ha' & _ & Hc' & _ & <-).
  destruct (child_inj _ _ _ _ _ Hc Hc') as [<- <-].
  destruct x as [| |r'|r' i2'| |]; cbn [child] in Hc; try done; [by destruct (3 <=? i)|].
  by rewrite (H1 a a' r' i2').
Qed.

(** Taking the first free page; it becomes a held page or a data page. *)
Lemma minv_alloc s own p l last x :
  minv s own (p :: l) last -> x <> Free -> is_tab x = false ->
  (forall r, x = Root r -> r = p) ->
  minv (alloc_state s) (<[p := x]> own) l last /\
  extends s own (alloc_state s) (<[p := x]> own).
Proof.
  intros [Hf Hpg Hl Hr He Hk Hcl] Hx Htab Hroot.
  assert (Hown : own !! p = Some Free) by (apply Hl; set_solver).
  assert (Hp : page p) by eauto.
  assert (Hfl : free_list s = p) by apply Hf.
  assert (Hso : same_outside p (ms_mem s) (ms_mem (alloc_state s))).
  { simpl. rewrite Hfl. apply same_outside_zero. }
  assert (Hnd : p ∉ l) by (destruct Hf as (_ & Hnd & _); by inversion_clear Hnd).
  assert (Hnp : forall q y i z, own !! q = Some y -> child y i = Some z -> q <> p).
  { intros q y i z Hq Hc ->. rewrite Hown in Hq. by simplify_eq. }
  split; constructor.
  - by eapply free_ok_alloc.
  - intros q y. rewrite lookup_insert. case_decide; [by subst|eauto].
  - intros q. rewrite lookup_insert. case_decide as E.
    + subst. split; [done|congruence].
    + rewrite <- (Hl q), elem_of_cons. naive_solver.
  - intros q r. rewrite lookup_insert. case_decide as E; [|eauto].
    intros [= Ex]. subst q. symmetry. by apply Hroot.
  - intros q y i. rewrite lookup_insert. case_decide as E.
    + intros [= ->] Hi z _ Hv. subst q. exfalso.
      destruct (slot_in_page p i Hi) as [H1 H2].
      rewrite zero_pte_invalid in Hv; [done|]. simpl. rewrite Hfl.
      by apply zero_page_load64.
    + intros Hq Hi z Hz. rewrite (load_pte_same_outside p q (ms_mem s)) by eauto.
      intros Hv. destruct (He q y i Hq Hi z Hz Hv) as [H1 H2]. split; [done|].
      rewrite lookup_insert_ne; [done|]. intros E2. rewrite <- E2, Hown in H2.
      destruct (child_live _ _ _ Hz) as [_ Hlv]. by simplify_eq.
  - intros q y. rewrite lookup_insert. case_decide as E; [by intros [= <-]; rewrite Htab|].
    intros Hq Hy. destruct (Hk q y Hq Hy) as (q' & z & i & Hq' & Hi & Hch & Hv & Hpp).
    assert (p <> q') as Hne by (intros <-; exact (Hnp p z i y Hq' Hch eq_refl)).
    exists q', z, i. rewrite lookup_insert_ne by done.
    rewrite (load_pte_same_outside p q' (ms_mem s)) by eauto. done.
  - intros q r i2 i1. rewrite lookup_insert. case_decide as E; [intros [= ->]; discriminate Htab|].
    intros Hq i Hi. rewrite (load_pte_same_outside p q (ms_mem s)) by eauto.
    exact (Hcl q r i2 i1 Hq i Hi).
  - intros q y Hq Hy. rewrite lookup_insert_ne; [done|]. intros ->. by simplify_eq.
  - intros q y i Hq Hy Hi _. apply (load_pte_same_outside p); eauto.
    intros ->. by simplify_eq.
  - intros q r i2 i1 i0 Hq. eapply same_outside_bytes; eauto. intros ->. congruence.
  - intros q Hq. rewrite lookup_insert_ne; congruence.
  - intros q r i Hq Hi Hv. rewrite (load_pte_same_outside p q (ms_mem s)); eauto; try lia. intros ->. congruence.
  - done.
Qed.

(** Writing one entry of a table frame; the entry of an inner table may only
    be written when it links nothing. *)
Lemma minv_store_entry s own l last q x i e :
  minv s own l last -> own !! q = Some x -> live x = true -> 0 <= i < 512 -> pte_wf e ->
  entry_ok own x i e ->
  (inner x = true -> has (load_pte (ms_mem s) (slot q i)) PTE_V = false) ->
  (inner x = false -> has e PTE_V = false -> pte_flags e = 0) ->
  minv (set_mem (store_pte (ms_mem s) (slot q i) e) s) own l last.
Proof.
  intros [Hf Hpg Hl Hr He Hk Hcl] Hq Hx Hi Hwf Hok Hnew Hfl.
  assert (Hp : page q) by eauto.
  assert (Hso : same_outside q (ms_mem s) (store_pte (ms_mem s) (slot q i) e)).
  { destruct (slot_in_page q i Hi). by apply same_outside_store64. }
  constructor; try done.
  - eapply free_ok_frame; eauto. rewrite Hl. intros E. by simplify_eq.
  - intros q' y j Hq' Hj. simpl.
    destruct (decide (q' = q /\ j = i)) as [[-> ->]|Hne].
    + rewrite load_store_pte_same by done. rewrite Hq in Hq'. by simplify_eq.
    + rewrite load_store_pte_other; [by apply He|].
      destruct (slot_disjoint q' q j i); eauto. lia.
  - intros p y Hy Ht. destruct (Hk p y Hy Ht) as (q' & z & j & Hq' & Hj & Hc & Hv & Hpp).
    exists q', z, j. simpl. rewrite load_store_pte_other; [done|].
    destruct (slot_disjoint q' q j i); eauto.
    destruct (decide (q' = q)) as [->|]; [|by left]. right. intros ->.
    assert (z = x) as -> by congruence.
    rewrite Hnew in Hv; [done|]. by eapply child_inner.
  - intros q' r i2 i1 Hq' j Hj. cbn [ms_mem set_mem].
    destruct (decide (q' = q /\ j = i)) as [[-> ->]|Hne].
    + rewrite load_store_pte_same by done. apply Hfl. rewrite Hq in Hq'. by simplify_eq.
    + rewrite load_store_pte_other; [exact (Hcl q' r i2 i1 Hq' j Hj)|].
      destruct (slot_disjoint q' q j i); eauto. lia.
Qed.

(** Writing an entry that was invalid keeps everything there was. *)
Lemma extends_store_entry s own l last q x i e :
  minv s own l last -> own !! q = Some x -> live x = true -> tabular x = true ->
  0 <= i < 512 -> has (load_pte (ms_mem s) (slot q i)) PTE_V = false -> inner x = false \/ i < 3 ->
  extends s own (set_mem (store_pte (ms_mem s) (slot q i) e) s) own.
Proof.
  intros HI Hq Hx Hch Hi Hv Hin. assert (Hp : page q) by exact (mi_page _ _ _ _ HI _ _ Hq).
  constructor; auto.
  - intros q' y j Hq' Hy Hj Hv'. cbn [ms_mem set_mem]. apply load_store_pte_other.
    assert (Hp' : page q') by exact (mi_page _ _ _ _ HI _ _ Hq').
    destruct (slot_disjoint q' q j i); auto.
    destruct (decide (q' = q)) as [->|]; [right|by left]. intros ->. congruence.
  - intros q' r i2 i1 i0 Hq'. destruct (slot_in_page q i Hi).
    apply (same_outside_bytes q); [by apply same_outside_store64|done|eapply mi_page; eauto|].
    intros ->. rewrite Hq in Hq'. by simplify_eq.
  - intros q' r j Hq' Hj Hg. cbn [ms_mem set_mem]. rewrite load_store_pte_other; [done|].
    assert (Hp' : page q') by exact (mi_page _ _ _ _ HI _ _ Hq'). destruct (slot_disjoint q' q j i); auto; [lia|].
    destruct (decide (q' = q)) as [->|]; [right|by left]. rewrite Hq in Hq'. injection Hq' as ->. destruct Hin; [done|lia].
Qed.

(** Writing inside a page that is in use and not a table. *)
Lemma minv_write_data s own l last p x m' :
  minv s own l last -> own !! p = Some x -> tabular x = false -> x <> Free -> same_outside p (ms_mem s) m' ->
  minv (set_mem m' s) own l last.
Proof.
  intros [Hf Hpg Hl Hr He Hk Hcl] Hp Htb Hnf Hso.
  assert (Hsame : forall q x j, own !! q = Some x -> tabular x = true -> 0 <= j < 512 ->
    load_pte m' (slot q j) = load_pte (ms_mem s) (slot q j)).
  { intros q y j Hq Hy Hj. apply (load_pte_same_outside p); eauto.
    intros ->. rewrite Hp in Hq. congruence. }
  constructor; try done.
  - eapply free_ok_frame; eauto. rewrite Hl. congruence.
  - intros q y i Hq Hi z Hc. cbn [ms_mem set_mem]. rewrite (Hsame q y i); auto; [by apply He|].
    by eapply child_tabular.
  - intros q y Hq Hy. destruct (Hk q y Hq Hy) as (a & z & j & Ha & Hj & Hc & Hv & Hpp).
    exists a, z, j. cbn [ms_mem set_mem]. rewrite (Hsame a z j); eauto using child_tabular.
  - intros q r' j2 j1 Hq i Hi. cbn [ms_mem set_mem]. rewrite (Hsame q _ i Hq) by done.
    exact (Hcl q r' j2 j1 Hq i Hi).
Qed.

(** ** The walk without creation *)

(** The entry address [walk_pt] computes on a memory, [NULL] when it finds no
    table: what [walk_pt] with [create = 0] returns. *)
Fixpoint find_slot (m : mem) (level : nat) (pt vma : Z) : Z :=
  match level with
  | O => slot pt (vpn vma 0)
  | S level' =>
      let e := load_pte m (slot pt (vpn vma level)) in
      if negb (pt =? NULL) && has e PTE_V then
        if has e PTE_RWX then NULL else find_slot m level' (ppage e) vma
      else NULL
  end.

Lemma walk_from_read level pt vma s :
  walk_from level pt vma false s = Done (find_slot (ms_mem s) level pt vma) s.
Proof.
  revert pt. induction level as [|level IH]; intros pt; [done|].
  cbn [walk_from find_slot]. unfold bind at 1, gets at 1.
  destruct (negb (pt =? NULL) && has _ PTE_V); [|done].
  destruct (has _ PTE_RWX); [done|].
  rewrite shiftl_ppn by auto with kern. apply IH.
Qed.

Lemma walk_pt_read root vma s :
  walk_pt root vma false s = Done (find_slot (ms_mem s) 2 root vma) s.
Proof. apply walk_from_read. Qed.

(** The role of the table a walk for [vma] in space [r] visits at [level]. *)
Definition path_role (r vma : Z) (level : nat) : role :=
  match level with
  | O => Tab0 r (VPN2 vma) (VPN1 vma)
  | 1%nat => Tab1 r (VPN2 vma)
  | _ => Root r
  end.

Lemma path_role_live r vma level : live (path_role r vma level) = true.
Proof. by destruct level as [|[|level]]. Qed.

Lemma path_role_tabular r vma level : tabular (path_role r vma level) = true.
Proof. by destruct level as [|[|level]]. Qed.

Lemma path_role_child r vma level :
  (level < 2)%nat -> 3 <= VPN2 vma ->
  child (path_role r vma (S level)) (vpn vma (S level)) = Some (path_role r vma level).
Proof.
  intros Hlt H. destruct level as [|[|level]]; cbn [child path_role vpn];
    [done| |lia].
  destruct (Z.leb_spec 3 (VPN2 vma)); [reflexivity|lia].
Qed.

Lemma path_role_inner r vma level : inner (path_role r vma (S level)) = true.
Proof. by destruct level as [|level]. Qed.

(** Under the invariant a walk that finds a table visits tables of the right
    roles, down to the level-0 table of the address. *)
Lemma find_slot_role s own l last level pt r vma :
  minv s own l last -> (level <= 2)%nat -> 3 <= VPN2 vma ->
  own !! pt = Some (path_role r vma level) ->
  find_slot (ms_mem s) level pt vma = NULL \/
  exists p0, own !! p0 = Some (path_role r vma 0) /\
    find_slot (ms_mem s) level pt vma = slot p0 (VPN0 vma).
Proof.
  intros HI. revert pt. induction level as [|level IH]; intros pt Hlv Hu Hpt.
  - right. by exists pt.
  - cbn [find_slot]. destruct (pt =? NULL); [by left|]. cbn [negb andb].
    destruct (has _ PTE_V) eqn:Hv; [|by left].
    edestruct (mi_entry _ _ _ _ HI pt) as [Hin Hch];
      [exact Hpt|apply (vpn_range vma (S level))|by apply path_role_child; [lia|]|exact Hv|].
    rewrite Hin by apply path_role_inner. apply IH; [lia|done|done].
Qed.

(** A successful walk is not disturbed by an extension. *)
Lemma find_slot_extends s own l last s' own' level pt r vma :
  minv s own l last -> extends s own s' own' -> (level <= 2)%nat -> 3 <= VPN2 vma ->
  own !! pt = Some (path_role r vma level) ->
  find_slot (ms_mem s) level pt vma <> NULL ->
  find_slot (ms_mem s') level pt vma = find_slot (ms_mem s) level pt vma.
Proof.
  intros HI Hex. revert pt. induction level as [|level IH]; intros pt Hlv Hu Hpt; [done|].
  cbn [find_slot]. destruct (pt =? NULL); [done|]. cbn [negb andb].
  destruct (has _ PTE_V) eqn:Hv; [|done].
  rewrite (ex_entry _ _ _ _ Hex pt _ _ Hpt); auto using path_role_live.
  2:{ apply (vpn_range vma (S level)). }
  rewrite Hv.
  edestruct (mi_entry _ _ _ _ HI pt) as [Hin Hch];
    [exact Hpt|apply (vpn_range vma (S level))|by apply path_role_child; [lia|]|exact Hv|].
  rewrite Hin by apply path_role_inner. apply IH; [lia|done|done].
Qed.

(** ** The walk with creation *)

(** The two assignments that link a new table into the table above it. *)
Definition link_table (a new_pt : Z) (s : mstate) : mstate :=
  let s1 := set_mem (store_pte (ms_mem s) a
              (set_ppn (Z.shiftr new_pt PAGE_ORDER) (load_pte (ms_mem s) a))) s in
  set_mem (store_pte (ms_mem s1) a (set_flags PTE_V (load_pte (ms_mem s1) a))) s1.

Lemma has_set_ppn n e mask : has (set_ppn n e) mask = has e mask.
Proof. done. Qed.

Lemma link_table_entry s a p :
  load_pte (ms_mem (link_table a p s)) a =
  set_flags PTE_V (set_ppn (Z.shiftr p PAGE_ORDER) (load_pte (ms_mem s) a)).
Proof.
  unfold link_table. cbn [ms_mem set_mem].
  rewrite (load_store_pte_same (ms_mem s)) by auto with kern.
  by rewrite load_store_pte_same by auto 6 with kern.
Qed.

Lemma link_table_other s q i p b :
  b + 8 <= slot q i \/ slot q i + 8 <= b ->
  load_pte (ms_mem (link_table (slot q i) p s)) b = load_pte (ms_mem s) b.
Proof.
  intros H. unfold link_table. cbn [ms_mem set_mem]. by rewrite !load_store_pte_other.
Qed.

(** Linking a held, empty table into an invalid entry of its parent. *)
Lemma minv_link_table s own l last q x i y p :
  minv s own l last -> own !! q = Some x -> 0 <= i < 512 -> child x i = Some y ->
  is_tab y = true -> own !! p = Some Held ->
  has (load_pte (ms_mem s) (slot q i)) PTE_V = false ->
  (forall j, 0 <= j < 512 -> has (load_pte (ms_mem s) (slot p j)) PTE_V = false) ->
  clean (ms_mem s) p ->
  minv (link_table (slot q i) p s) (<[p := y]> own) l last /\
  extends s own (link_table (slot q i) p s) (<[p := y]> own).
Proof.
  intros HI Hq Hi Hy Hty Hp Hinv Hemp Hcp.
  assert (Hin : inner x = true) by (by eapply child_inner).
  destruct (child_live _ _ _ Hy) as [Hlx Hly].
  assert (Hgq : page q) by exact (mi_page _ _ _ _ HI _ _ Hq).
  assert (Hgp : page p) by exact (mi_page _ _ _ _ HI _ _ Hp).
  assert (Hqp : q <> p) by (intros ->; rewrite Hp in Hq; by simplify_eq).
  set (s' := link_table (slot q i) p s).
  assert (Hent : load_pte (ms_mem s') (slot q i) =
    set_flags PTE_V (set_ppn (Z.shiftr p PAGE_ORDER) (load_pte (ms_mem s) (slot q i))))
    by apply link_table_entry.
  assert (Hoth : forall q' j, page q' -> 0 <= j < 512 -> q' <> q \/ j <> i ->
    load_pte (ms_mem s') (slot q' j) = load_pte (ms_mem s) (slot q' j)).
  { intros q' j Hq' Hj Hd. apply link_table_other. by apply slot_disjoint. }
  assert (Hso : same_outside q (ms_mem s) (ms_mem s')).
  { destruct (slot_in_page q i Hi).
    eapply same_outside_trans; by apply same_outside_store64. }
  assert (Hval : forall q' z j, own !! q' = Some z -> 0 <= j < 512 ->
    has (load_pte (ms_mem s) (slot q' j)) PTE_V = true ->
    load_pte (ms_mem s') (slot q' j) = load_pte (ms_mem s) (slot q' j)).
  { intros q' z j Hq' Hj Hv. apply Hoth; auto; [by eapply mi_page|].
    destruct (decide (q' = q)) as [->|]; [right|by left]. intros ->. congruence. }
  destruct HI as [Hf Hpg Hl Hr He Hk Hcl]. split; constructor.
  - eapply free_ok_frame; eauto. rewrite Hl. intros E. by simplify_eq.
  - intros q' z. rewrite lookup_insert. case_decide; [by subst|eauto].
  - intros q'. rewrite lookup_insert. case_decide as E; [|apply Hl].
    subst. rewrite Hl, Hp. split; intros [= ->]; done.
  - intros q' r. rewrite lookup_insert. case_decide; [|eauto]. by intros [= ->].
  - intros q' z j. rewrite lookup_insert. case_decide as E.
    + intros [= <-] Hj w _. subst q'. rewrite Hoth by auto. by rewrite Hemp.
    + intros Hq' Hj. destruct (decide (q' = q /\ j = i)) as [[-> ->]|Hd].
      * rewrite Hent. intros w Hw _. split; [intros _; apply table_pte_nonleaf|].
        rewrite ppage_table by done. rewrite lookup_insert_eq. congruence.
      * rewrite Hoth by (eauto; lia). intros w Hw Hv.
        destruct (He q' z j Hq' Hj w Hw Hv) as [H1 H2]. split; [done|].
        rewrite lookup_insert_ne; [done|]. intros E2. rewrite <- E2, Hp in H2.
        destruct (child_live _ _ _ Hw). by simplify_eq.
  - intros q' z. rewrite lookup_insert. case_decide as E.
    + intros [= <-] _. subst q'. exists q, x, i.
      rewrite lookup_insert_ne, Hent, table_pte_valid, ppage_table by done. done.
    + intros Hq' Hz. destruct (Hk q' z Hq' Hz) as (a & w & j & Ha & Hj & Hc & Hv & Hpp).
      exists a, w, j. rewrite (Hval a w j), lookup_insert_ne; auto.
      intros ->. rewrite Hp in Ha. by simplify_eq.
  - intros q' r i2 i1. rewrite lookup_insert. case_decide as E.
    + intros _ j Hj. subst q'. rewrite Hoth by auto. by apply Hcp.
    + intros Hq' j Hj. rewrite Hoth; eauto; [exact (Hcl q' r i2 i1 Hq' j Hj)|].
      left. intros ->. rewrite Hq in Hq'. by simplify_eq.
  - intros q' z Hq' Hz. rewrite lookup_insert_ne; [done|]. intros ->. by simplify_eq.
  - intros q' z j Hq' Hz Hj Hv. by eapply Hval.
  - intros q' r i2 i1 i0 Hq'. eapply same_outside_bytes; eauto.
    intros ->. rewrite Hq in Hq'. by simplify_eq.
  - intros q' Hq'. rewrite lookup_insert_ne; congruence.
  - intros q' r j Hq' Hj Hv. destruct (decide (q' = q /\ j = i)) as [[-> ->]|Hd]; [by rewrite Hent|].
    rewrite Hoth; eauto; try lia.
  - done.
Qed.

(** ** The mapping of an address space *)

(** The valid level-0 entry a walk from table [pt] at [level] reaches. *)
Definition lookup_from (m : mem) (level : nat) (pt vma : Z) : option pte :=
  let a := find_slot m level pt vma in
  if a =? NULL then None
  else let e := load_pte m a in if has e PTE_V then Some e else None.

(** The valid entry for [vma] in the space rooted at [r]. *)
Definition lookup_pte (m : mem) (r vma : Z) : option pte := lookup_from m 2 r vma.

(** All address spaces map the same user pages to the same entries. *)
Definition same_map (own : gmap Z role) (m m' : mem) : Prop :=
  forall r v, own !! r = Some (Root r) -> 3 <= VPN2 v ->
    lookup_pte m' r v = lookup_pte m r v.

Lemma lookup_from_S m level pt vma :
  lookup_from m (S level) pt vma =
  let e := load_pte m (slot pt (vpn vma (S level))) in
  if negb (pt =? NULL) && has e PTE_V then
    if has e PTE_RWX then None else lookup_from m level (ppage e) vma
  else None.
Proof.
  unfold lookup_from. cbn [find_slot]. cbv zeta.
  destruct (negb (pt =? NULL) && _); [|done]. by destruct (has _ PTE_RWX).
Qed.

(** A table without valid entries maps nothing. *)
Lemma lookup_from_empty m level pt vma :
  (forall i, 0 <= i < 512 -> has (load_pte m (slot pt i)) PTE_V = false) ->
  lookup_from m level pt vma = None.
Proof.
  intros H. destruct level as [|level].
  - unfold lookup_from, find_slot. rewrite H by apply vpn_range.
    by destruct (slot _ _ =? NULL).
  - rewrite lookup_from_S. cbv zeta. rewrite H by apply vpn_range.
    by rewrite andb_false_r.
Qed.

(** Memories that agree on the entries of the tables of [r] along the path of
    [v] map [v] alike. *)
Lemma lookup_path_ext s own l last m' level pt r v :
  minv s own l last -> (level <= 2)%nat -> 3 <= VPN2 v ->
  own !! pt = Some (path_role r v level) ->
  (forall q k i, own !! q = Some (path_role r v k) -> 0 <= i < 512 ->
     load_pte m' (slot q i) = load_pte (ms_mem s) (slot q i)) ->
  lookup_from m' level pt v = lookup_from (ms_mem s) level pt v.
Proof.
  intros HI Hlv Hu Hpt Hsame. revert pt Hlv Hpt.
  induction level as [|level IH]; intros pt Hlv Hpt.
  - unfold lookup_from, find_slot. by rewrite (Hsame pt 0%nat _ Hpt (vpn_range v 0)).
  - rewrite !lookup_from_S. cbv zeta.
    rewrite (Hsame pt (S level) _ Hpt (vpn_range v (S level))).
    destruct (pt =? NULL); [done|]. cbn [negb andb].
    destruct (has _ PTE_V) eqn:Hv; [|done].
    destruct (mi_entry _ _ _ _ HI pt _ _ Hpt (vpn_range v (S level)) _
                (path_role_child r v level ltac:(lia) Hu) Hv) as [Hin Hch].
    rewrite Hin by apply path_role_inner. apply IH; [lia|done].
Qed.

(** Memories that agree on the entries of all tables map the same pages. *)
Lemma lookup_from_ext s own l last m' level pt r v :
  minv s own l last -> (level <= 2)%nat -> 3 <= VPN2 v ->
  own !! pt = Some (path_role r v level) ->
  (forall q x i, own !! q = Some x -> tabular x = true -> 0 <= i < 512 ->
     load_pte m' (slot q i) = load_pte (ms_mem s) (slot q i)) ->
  lookup_from m' level pt v = lookup_from (ms_mem s) level pt v.
Proof.
  intros HI Hlv Hu Hpt Hsame. eapply lookup_path_ext; eauto.
  intros q k i Hq. eapply Hsame; eauto using path_role_tabular.
Qed.

(** Writing the root table of one space changes no other space. *)
Lemma lookup_other_root s own l last m' c r v :
  minv s own l last -> own !! c = Some (Root c) -> own !! r = Some (Root r) -> r <> c ->
  3 <= VPN2 v -> same_outside c (ms_mem s) m' ->
  lookup_pte m' r v = lookup_pte (ms_mem s) r v.
Proof.
  intros HI Hc Hr Hne Hu Hso. eapply lookup_path_ext; eauto.
  intros q k i Hq Hi. apply (load_pte_same_outside c); eauto using mi_page.
  intros ->. rewrite Hc in Hq. destruct k as [|[|k]]; cbn in Hq; congruence.
Qed.

Lemma same_map_write_data s own l last p x m' :
  minv s own l last -> own !! p = Some x -> tabular x = false -> same_outside p (ms_mem s) m' ->
  same_map own (ms_mem s) m'.
Proof.
  intros HI Hp Htb Hso r' v Hr Hu. eapply lookup_from_ext; eauto.
  intros q y j Hq Hy Hj. apply (load_pte_same_outside p); eauto using mi_page.
  intros ->. rewrite Hp in Hq. congruence.
Qed.

Lemma same_map_alloc s own p l last :
  minv s own (p :: l) last -> same_map own (ms_mem s) (ms_mem (alloc_state s)).
Proof.
  intros HI r v Hr Hu.
  assert (Hfl : free_list s = p) by apply (mi_free _ _ _ _ HI).
  assert (Hpf : own !! p = Some Free) by (apply (mi_list _ _ _ _ HI); set_solver).
  eapply lookup_from_ext; eauto.
  intros q x i Hq Hx Hi. apply (load_pte_same_outside p); auto.
  - simpl. rewrite Hfl. apply same_outside_zero.
  - exact (mi_page _ _ _ _ HI _ _ Hpf).
  - exact (mi_page _ _ _ _ HI _ _ Hq).
  - intros ->. by simplify_eq.
Qed.

(** Linking an empty table changes no mapping. *)
Lemma same_map_link s own l last q x i y p :
  minv s own l last -> own !! q = Some x -> 0 <= i < 512 -> child x i = Some y ->
  inner x = true -> page p -> q <> p ->
  has (load_pte (ms_mem s) (slot q i)) PTE_V = false ->
  (forall j, 0 <= j < 512 -> has (load_pte (ms_mem s) (slot p j)) PTE_V = false) ->
  same_map own (ms_mem s) (ms_mem (link_table (slot q i) p s)).
Proof.
  intros HI Hq Hi Hy Hinn Hgp Hne Hinv Hemp r v Hr Hu.
  assert (Hgq : page q) by exact (mi_page _ _ _ _ HI _ _ Hq).
  set (m' := ms_mem (link_table (slot q i) p s)).
  assert (Hemp' : forall j, 0 <= j < 512 -> has (load_pte m' (slot p j)) PTE_V = false).
  { intros j Hj. unfold m'. rewrite link_table_other; [by apply Hemp|].
    apply slot_disjoint; auto. }
  assert (Hgen : forall level pt, (level <= 2)%nat -> own !! pt = Some (path_role r v level) ->
            lookup_from m' level pt v = lookup_from (ms_mem s) level pt v).
  { induction level as [|level IH]; intros pt Hlv Hpt;
      pose proof (mi_page _ _ _ _ HI _ _ Hpt) as Hgpt.
    - unfold lookup_from, find_slot, m'. rewrite link_table_other; [done|].
      apply slot_disjoint; auto using vpn_range. left. intros ->.
      rewrite Hq in Hpt. by simplify_eq.
    - rewrite !lookup_from_S. cbv zeta.
      destruct (decide (pt = q /\ vpn v (S level) = i)) as [[-> Ei]|Hd].
      + rewrite Ei, Hinv, andb_false_r. unfold m'. rewrite link_table_entry.
        rewrite table_pte_valid, table_pte_nonleaf, ppage_table by done.
        destruct (negb (q =? NULL) && true); [|done]. by apply lookup_from_empty.
      + assert (load_pte m' (slot pt (vpn v (S level))) =
                load_pte (ms_mem s) (slot pt (vpn v (S level)))) as ->.
        { apply link_table_other, slot_disjoint; auto using vpn_range. lia. }
        destruct (pt =? NULL); [done|]. cbn [negb andb].
        destruct (has (load_pte (ms_mem s) (slot pt (vpn v (S level)))) PTE_V) eqn:Hv; [|done].
        destruct (mi_entry _ _ _ _ HI pt _ _ Hpt (vpn_range v (S level)) _
                    (path_role_child r v level ltac:(lia) Hu) Hv) as [Hin Hch].
        rewrite Hin by apply path_role_inner. apply IH; [lia|done]. }
  by apply Hgen.
Qed.

Lemma walk_from_S_true level pt vma s :
  pt <> NULL -> has (load_pte (ms_mem s) (slot pt (vpn vma (S level)))) PTE_V = false ->
  free_list s <> NULL ->
  walk_from (S level) pt vma true s =
  walk_from level (free_list s) vma true
    (link_table (slot pt (vpn vma (S level))) (free_list s) (alloc_state s)).
Proof.
  intros Hpt Hv Hf. cbn [walk_from]. unfold bind at 1, gets at 1.
  rewrite Hv, andb_false_r.
  rewrite (bind_Done _ _ _ _ _ (memory_alloc_page_eq s Hf)).
  destruct (Z.eqb_spec pt NULL); [done|]. reflexivity.
Qed.

Lemma walk_from_S_valid level pt vma create s :
  pt <> NULL -> has (load_pte (ms_mem s) (slot pt (vpn vma (S level)))) PTE_V = true ->
  has (load_pte (ms_mem s) (slot pt (vpn vma (S level)))) PTE_RWX = false ->
  walk_from (S level) pt vma create s =
  walk_from level (ppage (load_pte (ms_mem s) (slot pt (vpn vma (S level))))) vma create s.
Proof.
  intros Hpt Hv Hl. cbn [walk_from]. unfold bind at 1, gets at 1.
  destruct (Z.eqb_spec pt NULL); [done|]. rewrite Hv, Hl. cbn [negb andb].
  by rewrite shiftl_ppn by auto with kern.
Qed.

Lemma find_slot_S m level pt vma :
  pt <> NULL -> has (load_pte m (slot pt (vpn vma (S level)))) PTE_V = true ->
  has (load_pte m (slot pt (vpn vma (S level)))) PTE_RWX = false ->
  find_slot m (S level) pt vma =
  find_slot m level (ppage (load_pte m (slot pt (vpn vma (S level))))) vma.
Proof.
  intros Hpt Hv Hl. cbn [find_slot]. destruct (Z.eqb_spec pt NULL); [done|].
  by rewrite Hv, Hl.
Qed.

Record walked (s : mstate) (own : gmap Z role) (l : list Z) (last r vma : Z)
    (level : nat) (pt p0 : Z) (s' : mstate) (own' : gmap Z role) (l' : list Z) : Prop := {
  wk_inv : minv s' own' l' last;
  wk_ext : extends s own s' own';
  wk_role : own' !! p0 = Some (path_role r vma 0);
  wk_find : find_slot (ms_mem s') level pt vma = slot p0 (VPN0 vma);
  wk_len : (length l <= length l' + level)%nat;
  wk_map : same_map own (ms_mem s) (ms_mem s')
}.

Lemma minv_page_nonnull s own l last p x :
  minv s own l last -> own !! p = Some x -> p <> NULL.
Proof.
  intros HI Hp. destruct (mi_page _ _ _ _ HI p x Hp) as (_ & H & _). unfold NULL. lia.
Qed.

Lemma walk_from_create level s own l last r vma pt :
  minv s own l last -> (level <= 2)%nat -> 3 <= VPN2 vma ->
  own !! pt = Some (path_role r vma level) -> (level <= length l)%nat ->
  exists p0 s' own' l',
    walk_from level pt vma true s = Done (slot p0 (VPN0 vma)) s' /\
    walked s own l last r vma level pt p0 s' own' l'.
Proof.
  revert s own l pt. induction level as [|level IH]; intros s own l pt HI Hlv Hu Hpt Hlen.
  { exists pt, s, own, l. split; [done|]. constructor; auto using extends_refl; [lia|done]. }
  assert (Hnn : pt <> NULL) by (eapply minv_page_nonnull; eauto).
  pose proof (vpn_range vma (S level)) as Hvr.
  pose proof (path_role_child r vma level ltac:(lia) Hu) as Hch.
  set (a := slot pt (vpn vma (S level))) in *.
  destruct (has (load_pte (ms_mem s) a) PTE_V) eqn:Hv.
  - destruct (mi_entry _ _ _ _ HI pt _ _ Hpt Hvr _ Hch Hv) as [Hnl Hown].
    specialize (Hnl (path_role_inner r vma level)).
    rewrite walk_from_S_valid by done.
    destruct (IH s own l _ HI ltac:(lia) Hu Hown ltac:(lia))
      as (p0 & s' & own' & l' & Hrun & [W1 W2 W3 W4 W5 W6]).
    exists p0, s', own', l'. split; [done|]. constructor; auto; [|lia].
    assert (E : load_pte (ms_mem s') a = load_pte (ms_mem s) a).
    { apply (ex_entry _ _ _ _ W2 pt _ _ Hpt); auto using path_role_live. }
    unfold a in *. rewrite find_slot_S; rewrite ?E; auto.
  - destruct l as [|p l]; [simpl in Hlen; lia|].
    assert (Hfl : free_list s = p) by apply (mi_free _ _ _ _ HI).
    assert (Hfn : free_list s <> NULL) by (eapply free_ok_head_nonnull, (mi_free _ _ _ _ HI)).
    assert (Hpf : own !! p = Some Free) by (apply (mi_list _ _ _ _ HI); set_solver).
    assert (Hne : pt <> p) by (intros ->; destruct level as [|[|level]]; simplify_eq).
    destruct (minv_alloc s own p l last Held HI) as [HI1 Hex1]; [done..|].
    set (own1 := <[p:=Held]> own) in *.
    assert (Hpt1 : own1 !! pt = Some (path_role r vma (S level))).
    { unfold own1. by rewrite lookup_insert_ne by done. }
    assert (Hp1 : own1 !! p = Some Held) by apply lookup_insert_eq.
    assert (Hgp : page p) by exact (mi_page _ _ _ _ HI1 _ _ Hp1).
    assert (Hv1 : has (load_pte (ms_mem (alloc_state s)) a) PTE_V = false).
    { unfold a. rewrite (load_pte_same_outside p pt (ms_mem s)); auto.
      - simpl. rewrite Hfl. apply same_outside_zero.
      - eapply mi_page; eauto. }
    assert (Hzero : forall j, 0 <= j < 512 -> load64 (ms_mem (alloc_state s)) (slot p j) = 0).
    { intros j Hj. simpl. rewrite Hfl.
      destruct (slot_in_page p j Hj). by apply zero_page_load64. }
    assert (Hempty : forall j, 0 <= j < 512 ->
              has (load_pte (ms_mem (alloc_state s)) (slot p j)) PTE_V = false).
    { intros j Hj. by apply zero_pte_invalid, Hzero. }
    assert (Hclean : clean (ms_mem (alloc_state s)) p).
    { intros j Hj _. unfold load_pte. by rewrite Hzero. }
    assert (Htab : is_tab (path_role r vma level) = true) by (by destruct level as [|[|level]]; [| |lia]).
    destruct (minv_link_table _ _ _ _ pt _ _ _ p HI1 Hpt1 Hvr Hch Htab Hp1 Hv1 Hempty Hclean)
      as [HI2 Hex2].
    set (own2 := <[p:=path_role r vma level]> own1) in *.
    assert (Hp2 : own2 !! p = Some (path_role r vma level)) by apply lookup_insert_eq.
    assert (Hpt2 : own2 !! pt = Some (path_role r vma (S level)))
      by (by apply (ex_own _ _ _ _ Hex2); [|apply path_role_live]).
    rewrite walk_from_S_true by done. rewrite Hfl. fold a.
    destruct (IH _ own2 l p HI2 ltac:(lia) Hu Hp2 ltac:(simpl in Hlen; lia))
      as (p0 & s' & own' & l' & Hrun & [W1 W2 W3 W4 W5 W6]).
    exists p0, s', own', l'. split; [done|].
    assert (E : load_pte (ms_mem s') a = load_pte (ms_mem (link_table a p (alloc_state s))) a).
    { apply (ex_entry _ _ _ _ W2 pt _ _ Hpt2); auto using path_role_live.
      fold a. rewrite link_table_entry. apply table_pte_valid. }
    rewrite link_table_entry in E.
    constructor; auto.
    + eapply extends_trans; [exact Hex1|]. eapply extends_trans; eauto.
    + unfold a in *.
      rewrite find_slot_S by (rewrite ?E; auto using table_pte_valid, table_pte_nonleaf).
      rewrite E, ppage_table by done. done.
    + simpl. lia.
    + intros r' v Hr' Hu'.
      assert (Hr1 : own1 !! r' = Some (Root r')) by (by apply (ex_own _ _ _ _ Hex1)).
      assert (Hr2 : own2 !! r' = Some (Root r')) by (by apply (ex_own _ _ _ _ Hex2)).
      rewrite (W6 r' v Hr2 Hu').
      rewrite (same_map_link _ _ _ _ pt _ _ _ p HI1 Hpt1 Hvr Hch
                 (path_role_inner r vma level) Hgp Hne Hv1 Hempty r' v Hr1 Hu').
      exact (same_map_alloc s own p l last HI r' v Hr' Hu').
Qed.
