(* ===== verification/VmSpace.v ===== *)
(** * Address spaces: mapping, unmapping, flags, validation (memory.c)

    The operations of memory.c on the active address space, and the theorems
    that relate them to the ownership invariant of [PageInv].  TLB contents are
    not modelled, so [sfence_vma] is the identity; console output is not
    modelled either. *)

From stdpp Require Import base gmap list strings numbers.
From Stdlib Require Import Lia ZArith.
From S2P Require Import Prelude CMem PageAlloc PageTable PageInv.
Local Open Scope Z_scope.
Local Open Scope kern_scope.

(** ** Operations *)

Definition memory_alloc_and_map_page (vma rwxug_flags : Z) : M mstate Z :=
  if negb (wellformed_vma vma) || negb (aligned_addr vma PAGE_SIZE) then ret NULL
  else
    physical_page <- memory_alloc_page ;;
    if physical_page =? NULL then panic "Out of physical memory!" else
    root <- active_space_root ;;
    pte <- walk_pt root vma true ;;
    if pte =? NULL then memory_free_page physical_page ;; ret NULL
    else
      modify (fun s => set_mem (store_pte (ms_mem s) pte (leaf_pte physical_page rwxug_flags)) s) ;;
      ret vma.

(** The rollback of [memory_alloc_and_map_range] hands the virtual addresses of
    the pages mapped so far to [memory_free_page], which takes a physical page;
    that call is outside the model (and never happens when the first page can
    be mapped in an empty part of the user range). *)
Fixpoint map_range_loop (n : nat) (pages_mapped start_vma flags : Z) : M mstate Z :=
  match n with
  | O => ret start_vma
  | S n' =>
      result <- memory_alloc_and_map_page (w64 (start_vma + pages_mapped * PAGE_SIZE)) flags ;;
      if result =? NULL then
        if 0 <? pages_mapped then undef "rollback frees virtual addresses"
        else ret NULL
      else map_range_loop n' (pages_mapped + 1) start_vma flags
  end.

Definition memory_alloc_and_map_range (vma size rwxug_flags : Z) : M mstate Z :=
  let end_vma := w64 (vma + size) in
  let num_pages := w64 (end_vma - vma) / PAGE_SIZE in
  map_range_loop (Z.to_nat num_pages) 0 vma rwxug_flags.

Definition memory_set_page_flags (vp rwxug_flags : Z) : M mstate unit :=
  if negb (vp mod PAGE_SIZE =? 0) then ret tt
  else
    root <- active_space_root ;;
    pte <- walk_pt root vp false ;;
    m <- gets ms_mem ;;
    if (pte =? NULL) || negb (has (load_pte m pte) PTE_V) then ret tt
    else
      modify (fun s => set_mem (store_pte (ms_mem s) pte
        (set_flags (Z.land (pte_flags (load_pte (ms_mem s) pte)) (Z.lnot PTE_FLAGS_MASK))
           (load_pte (ms_mem s) pte))) s) ;;
      modify (fun s => set_mem (store_pte (ms_mem s) pte
        (set_flags (Z.lor (pte_flags (load_pte (ms_mem s) pte)) rwxug_flags)
           (load_pte (ms_mem s) pte))) s).

Definition memory_set_range_flags (vp size rwxug_flags : Z) : M mstate unit :=
  let end_addr := w64 (vp + size) in
  let num_pages := w64 (end_addr - vp) / PAGE_SIZE in
  for_upto (Z.to_nat num_pages) 0 (fun current_page =>
    memory_set_page_flags (w64 (vp + current_page * PAGE_SIZE)) rwxug_flags).

Definition USER_PAGES : nat := Z.to_nat ((USER_END_VMA - USER_START_VMA) / PAGE_SIZE).

(** One iteration of the loop of [memory_unmap_and_free_user]. *)
Definition unmap_user_page (root_pt vma : Z) : M mstate unit :=
  pte <- walk_pt root_pt vma false ;;
  m <- gets ms_mem ;;
  let e := load_pte m pte in
  if (pte =? NULL) || negb (has e PTE_V) then ret tt
  else if negb (has e PTE_U) then ret tt
  else if has e PTE_RWX then
    modify (fun s => set_mem (store_pte (ms_mem s) pte (set_flags 0 e)) s) ;;
    memory_free_page (w64 (Z.shiftl (pte_ppn e) 12))
  else ret tt.

Definition memory_unmap_and_free_user : M mstate unit :=
  old_satp <- active_space_mtag ;;
  let root_pt := mtag_to_root old_satp in
  for_upto USER_PAGES 0 (fun k => unmap_user_page root_pt (USER_START_VMA + k * PAGE_SIZE)).

(** One iteration of the loop of [memory_space_reclaim]. *)
Definition reclaim_page (old_root_pa vaddr : Z) : M mstate unit :=
  pte <- walk_pt old_root_pa vaddr false ;;
  m <- gets ms_mem ;;
  let e := load_pte m pte in
  if pte =? NULL then ret tt
  else if negb (has e PTE_V) then ret tt
  else if has e PTE_G then ret tt
  else if has e PTE_RWX then
    memory_free_page (w64 (Z.shiftl (pte_ppn e) 12)) ;;
    modify (fun s => set_mem (memset (ms_mem s) pte 0 8) s)
  else ret tt.

Definition memory_space_reclaim : M mstate unit :=
  old_satp <- active_space_mtag ;;
  let old_root_pa := mtag_to_root old_satp in
  main <- gets main_mtag ;;
  modify (set_satp main) ;;
  for_upto USER_PAGES 0 (fun k => reclaim_page old_root_pa (USER_START_VMA + k * PAGE_SIZE)).

Definition memory_handle_page_fault (vptr : Z) : M mstate unit :=
  if (vptr <? USER_START_VMA) || (USER_END_VMA <=? vptr)
  then panic "page fault in invalid address space"
  else
    let va := round_down_addr vptr PAGE_SIZE in
    if negb (aligned_addr va PAGE_SIZE) then panic "page fault at non-aligned address" else
    root_pt <- active_space_root ;;
    pa_pte <- walk_pt root_pt va true ;;
    if pa_pte =? NULL then panic "Page fault: PTE not found" else
    new_pp <- memory_alloc_and_map_page va (Z.lor (Z.lor PTE_R PTE_W) PTE_U) ;;
    if new_pp =? NULL then panic "Page fault: Memory allocation failed" else ret tt.

(** Whether the entry the walk finds for [vma] is valid and has [flags]. *)
Definition page_allows (m : mem) (root vma flags : Z) : bool :=
  let a := find_slot m 2 root vma in
  let e := load_pte m a in
  negb (a =? NULL) && has e PTE_V && (Z.land (pte_flags e) flags =? flags).

(** The loop [for (cur = start; cur < end; cur += PAGE_SIZE)]; the addition
    wraps, so the loop has fuel. *)
Fixpoint validate_loop (fuel : nat) (cur end_vma flags : Z) : M mstate Z :=
  if cur <? end_vma then
    match fuel with
    | O => fun _ => NoFuel
    | S fuel' =>
        root <- active_space_root ;;
        pte <- walk_pt root cur false ;;
        m <- gets ms_mem ;;
        let e := load_pte m pte in
        if (pte =? NULL) || negb (has e PTE_V) then ret (-1)
        else if negb (Z.land (pte_flags e) flags =? flags) then ret (-1)
        else validate_loop fuel' (w64 (cur + PAGE_SIZE)) end_vma flags
    end
  else ret 0.

Definition memory_validate_vptr_len (fuel : nat) (vp len rwxug_flags : Z) : M mstate Z :=
  if negb (wellformed_vma vp) || (len =? 0) then ret (-1)
  else validate_loop fuel vp (w64 (vp + len)) rwxug_flags.

(** The byte a supervisor load at a user virtual address reads: the access
    faults (and the supervisor's exception handler panics) when the page is
    not readable, or is a user page and [sstatus.SUM] is clear. *)
Definition user_load8 (e : pte) (vma : Z) : M mstate Z :=
  sum <- gets sstatus_sum ;;
  if negb (has e PTE_R) || (has e PTE_U && negb sum)
  then panic "page fault in supervisor mode"
  else m <- gets ms_mem ;; ret (load8 m (ppage e + vma mod PAGE_SIZE)).

Fixpoint vstr_loop (fuel : nat) (cur ug_flags : Z) : M mstate Z :=
  match fuel with
  | O => fun _ => NoFuel
  | S fuel' =>
      root <- active_space_root ;;
      pte <- walk_pt root cur false ;;
      m <- gets ms_mem ;;
      let e := load_pte m pte in
      if (pte =? NULL) || negb (has e PTE_V) then ret (-1)
      else if negb (Z.land (pte_flags e) ug_flags =? ug_flags) then ret (-1)
      else
        c <- user_load8 e cur ;;
        if c =? 0 then ret 0 else vstr_loop fuel' (w64 (cur + 1)) ug_flags
  end.

Definition memory_validate_vstr (fuel : nat) (vs ug_flags : Z) : M mstate Z :=
  if negb (wellformed_vma vs) then ret (-1) else vstr_loop fuel vs ug_flags.

(** ** The mapping of an address space *)

Definition user_vma (v : Z) : Prop := USER_START_VMA <= v < USER_END_VMA.

Lemma user_vpn2 v : user_vma v -> VPN2 v = 3.
Proof. unfold user_vma, USER_START_VMA, USER_END_VMA. rewrite VPN2_div. intros. zdiv. Qed.

Lemma user_wellformed v : user_vma v -> wellformed_vma v = true.
Proof.
  unfold user_vma, USER_START_VMA, USER_END_VMA. intros H.
  unfold wellformed_vma, s64. rewrite (w64_small v) by lia.
  destruct (Z.ltb_spec v 9223372036854775808); [|lia].
  rewrite Z.shiftr_div_pow2 by lia. by rewrite Z.div_small by lia.
Qed.

Lemma slot_nonnull p i : page p -> 0 <= i -> slot p i <> NULL.
Proof. unfold page, slot, NULL. lia. Qed.

Definition page_role (r vma : Z) : role := Data r (VPN2 vma) (VPN1 vma) (VPN0 vma).

(** Every valid user entry names a data page owned by its space and address. *)
Lemma lookup_pte_owned s own l last r vma e :
  minv s own l last -> own !! r = Some (Root r) -> 3 <= VPN2 vma ->
  lookup_pte (ms_mem s) r vma = Some e -> own !! ppage e = Some (page_role r vma).
Proof.
  intros HI Hr Hu. unfold lookup_pte, lookup_from.
  destruct (find_slot_role s own l last 2 r r vma HI) as [->|(p0 & Hp0 & ->)]; auto; [done|].
  destruct (slot p0 (VPN0 vma) =? NULL); [done|].
  destruct (has _ PTE_V) eqn:Hv; [|done]. intros [= <-].
  by destruct (mi_entry _ _ _ _ HI p0 _ _ Hp0 (VPN0_range vma) _ eq_refl Hv) as [_ ?].
Qed.

(** Writing the level-0 entry of [vma] changes the mapping of that page only. *)
Lemma find_slot_store_leaf s own l last p0 r vma e r' v level pt :
  minv s own l last -> own !! p0 = Some (path_role r vma 0) -> (level <= 2)%nat ->
  own !! pt = Some (path_role r' v level) -> 3 <= VPN2 v ->
  find_slot (store_pte (ms_mem s) (slot p0 (VPN0 vma)) e) level pt v =
  find_slot (ms_mem s) level pt v.
Proof.
  intros HI Hp0. revert pt. induction level as [|level IH]; intros pt Hlv Hpt Hu; [done|].
  cbn [find_slot].
  assert (Hpg : page pt) by exact (mi_page _ _ _ _ HI _ _ Hpt).
  assert (Hpg0 : page p0) by exact (mi_page _ _ _ _ HI _ _ Hp0).
  assert (Hne : pt <> p0).
  { intros ->. rewrite Hp0 in Hpt. by destruct level. }
  rewrite load_store_pte_other.
  2:{ destruct (slot_disjoint pt p0 (vpn v (S level)) (VPN0 vma)); auto; try lia;
        [apply vpn_range|apply (VPN0_range vma)]. }
  destruct (pt =? NULL); [done|]. cbn [negb andb].
  destruct (has _ PTE_V) eqn:Hv; [|done].
  destruct (mi_entry _ _ _ _ HI pt _ _ Hpt (vpn_range v (S level)) _
              (path_role_child r' v level ltac:(lia) Hu) Hv) as [Hin Hch].
  rewrite Hin by apply path_role_inner. apply IH; auto. lia.
Qed.

Lemma lookup_pte_store_leaf s own l last p0 r vma e r' v :
  minv s own l last -> own !! p0 = Some (path_role r vma 0) ->
  own !! r' = Some (Root r') -> 3 <= VPN2 v -> 3 <= VPN2 vma ->
  find_slot (ms_mem s) 2 r vma = slot p0 (VPN0 vma) ->
  own !! r = Some (Root r) -> pte_wf e ->
  lookup_pte (store_pte (ms_mem s) (slot p0 (VPN0 vma)) e) r' v =
  if decide (page_role r' v = page_role r vma)
  then if has e PTE_V then Some e else None
  else lookup_pte (ms_mem s) r' v.
Proof.
  intros HI Hp0 Hr' Hu Hu' Hfind Hr Hwf. unfold lookup_pte, lookup_from.
  rewrite (find_slot_store_leaf s own l last p0 r vma e r' v 2 r') by auto.
  destruct (find_slot_role s own l last 2 r' r' v HI) as [H0|(q0 & Hq0 & H0)]; auto.
  - rewrite H0, Z.eqb_refl. case_decide as E; [|done]. exfalso.
    unfold page_role in E. injection E as E1 E2 E3 E4. subst r'.
    assert (Hsame : find_slot (ms_mem s) 2 r v = find_slot (ms_mem s) 2 r vma).
    { cbn [find_slot vpn]. by rewrite E2, E3, E4. }
    rewrite H0, Hfind in Hsame. symmetry in Hsame. revert Hsame.
    apply slot_nonnull; [exact (mi_page _ _ _ _ HI _ _ Hp0)|apply (VPN0_range vma)].
  - rewrite H0.
    assert (Hpq : page q0) by exact (mi_page _ _ _ _ HI _ _ Hq0).
    assert (Hpp : page p0) by exact (mi_page _ _ _ _ HI _ _ Hp0).
    destruct (Z.eqb_spec (slot q0 (VPN0 v)) NULL) as [E|_].
    { exfalso. revert E. apply slot_nonnull; [done|apply (VPN0_range v)]. }
    case_decide as E.
    + unfold page_role in E. injection E as E1 E2 E3 E4. subst r'.
      assert (Hsame : find_slot (ms_mem s) 2 r v = find_slot (ms_mem s) 2 r vma).
      { cbn [find_slot vpn]. by rewrite E2, E3, E4. }
      rewrite H0, Hfind in Hsame. rewrite Hsame. by rewrite load_store_pte_same.
    + rewrite load_store_pte_other; [done|].
      destruct (slot_disjoint q0 p0 (VPN0 v) (VPN0 vma)); auto; try lia;
        [apply (VPN0_range v)|apply (VPN0_range vma)|].
      destruct (decide (q0 = p0)) as [->|]; [right|by left].
      intros E0. apply E. rewrite Hp0 in Hq0. unfold page_role.
      cbn [path_role] in Hq0. by injection Hq0 as -> -> ->; rewrite E0.
Qed.

(** ** Mapping one page *)

(** The page [pp] has become the page of [vma] in space [r], mapped with [e]:
    every other mapping of every space, and the contents of every page in use,
    are unchanged. *)
Record maps_page (s : mstate) (own : gmap Z role) (r vma pp : Z) (e : pte) (content : list Z)
    (s' : mstate) (own' : gmap Z role) : Prop := {
  mp_lookup : forall r' v, own !! r' = Some (Root r') -> 3 <= VPN2 v ->
    lookup_pte (ms_mem s') r' v =
    if decide (page_role r' v = page_role r vma) then Some e
    else lookup_pte (ms_mem s) r' v;
  mp_own : own' !! pp = Some (page_role r vma);
  mp_keep : forall q x, own !! q = Some x -> live x = true -> own' !! q = Some x;
  mp_content : bytes (ms_mem s') pp (Z.to_nat PAGE_SIZE) = content;
  mp_bytes : forall q r' i2 i1 i0, own !! q = Some (Data r' i2 i1 i0) ->
    bytes (ms_mem s') q (Z.to_nat PAGE_SIZE) = bytes (ms_mem s) q (Z.to_nat PAGE_SIZE);
  mp_satp : satp s' = satp s
}.

Lemma root_active s : active_space_root s = Done (mtag_to_root (satp s)) s.
Proof. done. Qed.

Lemma map_page_run s own pp l last r vma flags :
  minv s own (pp :: l) last -> (2 <= length l)%nat ->
  mtag_to_root (satp s) = r -> own !! r = Some (Root r) ->
  user_vma vma -> vma mod PAGE_SIZE = 0 ->
  exists s' own' l',
    memory_alloc_and_map_page vma flags s = Done vma s' /\
    minv s' own' l' last /\ (length l <= length l' + 2)%nat /\
    maps_page s own r vma pp (leaf_pte pp flags) (replicate (Z.to_nat PAGE_SIZE) 0) s' own'.
Proof.
  intros HI Hlen Hsatp Hr Hu Hal.
  assert (Hvpn : 3 <= VPN2 vma) by (rewrite user_vpn2 by done; lia).
  assert (Hfl : free_list s = pp) by apply (mi_free _ _ _ _ HI).
  assert (Hfn : free_list s <> NULL) by (eapply free_ok_head_nonnull, (mi_free _ _ _ _ HI)).
  assert (Hpf : own !! pp = Some Free) by (apply (mi_list _ _ _ _ HI); set_solver).
  assert (Hpg : page pp) by exact (mi_page _ _ _ _ HI _ _ Hpf).
  destruct (minv_alloc s own pp l last (page_role r vma) HI) as [HI1 Hex1]; [done..|].
  set (own1 := <[pp:=page_role r vma]> own) in *.
  assert (Hr1 : own1 !! r = Some (Root r)) by (by apply (ex_own _ _ _ _ Hex1)).
  assert (Hpp1 : own1 !! pp = Some (page_role r vma)) by apply lookup_insert_eq.
  destruct (walk_from_create 2 (alloc_state s) own1 l last r vma r HI1)
    as (p0 & s2 & own2 & l' & Hwalk & [W1 W2 W3 W4 W5 W6]); auto.
  set (a := slot p0 (VPN0 vma)) in *.
  set (s3 := set_mem (store_pte (ms_mem s2) a (leaf_pte pp flags)) s2).
  assert (Hpg0 : page p0) by exact (mi_page _ _ _ _ W1 _ _ W3).
  assert (Hpp2 : own2 !! pp = Some (page_role r vma)) by (by apply (ex_own _ _ _ _ W2)).
  exists s3, own2, l'. split; [|split; [|split; [done|]]].
  - unfold memory_alloc_and_map_page.
    rewrite user_wellformed by done. unfold aligned_addr. rewrite Hal. cbn [negb orb Z.eqb].
    rewrite (bind_Done _ _ _ _ _ (memory_alloc_page_eq s Hfn)).
    destruct (Z.eqb_spec (free_list s) NULL); [done|].
    rewrite (bind_Done _ _ _ _ _ (root_active _)). cbn [satp alloc_state]. rewrite Hsatp.
    unfold walk_pt. rewrite (bind_Done _ _ _ _ _ Hwalk).
    destruct (Z.eqb_spec a NULL) as [E|_].
    { exfalso. revert E. apply slot_nonnull; [done|apply VPN0_range]. }
    by rewrite Hfl.
  - eapply minv_store_entry; eauto using VPN0_range with kern; [|done|by intros _; rewrite leaf_pte_valid].
    intros y [= <-] _. split; [done|]. by rewrite ppage_leaf.
  - assert (Hne : p0 <> pp) by (intros E; rewrite E, Hpp2 in W3; discriminate).
    assert (Hso : same_outside p0 (ms_mem s2) (ms_mem s3)).
    { destruct (slot_in_page p0 _ (VPN0_range vma)). by apply same_outside_store64. }
    constructor; auto.
    + intros r' v Hr' Hv. simpl.
      assert (Hr'1 : own1 !! r' = Some (Root r')) by (by apply (ex_own _ _ _ _ Hex1)).
      assert (Hr'2 : own2 !! r' = Some (Root r')) by (by apply (ex_own _ _ _ _ W2)).
      unfold a. rewrite (lookup_pte_store_leaf s2 own2 l' last p0 r vma); auto with kern.
      2:{ by apply (ex_own _ _ _ _ W2). }
      rewrite leaf_pte_valid. case_decide; [done|].
      rewrite (W6 r' v Hr'1 Hv). eapply same_map_alloc; eauto.
    + intros q x Hq Hx. apply (ex_own _ _ _ _ W2); [|done]. by apply (ex_own _ _ _ _ Hex1).
    + rewrite (same_outside_bytes p0 pp (ms_mem s2)) by done.
      rewrite (ex_bytes _ _ _ _ W2 _ _ _ _ _ Hpp1). simpl. rewrite Hfl. apply zero_page_bytes.
    + intros q r' i2 i1 i0 Hq.
      assert (Hq1 : own1 !! q = Some (Data r' i2 i1 i0)) by (by apply (ex_own _ _ _ _ Hex1)).
      assert (Hq2 : own2 !! q = Some (Data r' i2 i1 i0)) by (by apply (ex_own _ _ _ _ W2)).
      rewrite (same_outside_bytes p0 q (ms_mem s2)); [|done|done| |].
      * rewrite (ex_bytes _ _ _ _ W2 _ _ _ _ _ Hq1). by rewrite (ex_bytes _ _ _ _ Hex1 _ _ _ _ _ Hq).
      * exact (mi_page _ _ _ _ W1 _ _ Hq2).
      * intros E. rewrite E, Hq2 in W3. discriminate.
    + simpl. by rewrite (ex_satp _ _ _ _ W2).
Qed.

(** ** Unmapping one page *)

Lemma ppage_page s own l last p0 r vma :
  minv s own l last -> own !! p0 = Some (path_role r vma 0) ->
  has (load_pte (ms_mem s) (slot p0 (VPN0 vma))) PTE_V = true ->
  own !! ppage (load_pte (ms_mem s) (slot p0 (VPN0 vma))) = Some (page_role r vma).
Proof.
  intros HI Hp0 Hv.
  by destruct (mi_entry _ _ _ _ HI p0 _ _ Hp0 (VPN0_range vma) _ eq_refl Hv) as [_ ?].
Qed.

Section FreeLeaf.
(** Common setting of the two loops that unmap user pages: the entry of [vma]
    at [a] is valid and names page [d]; in [s'] the entry is invalid, [d] is
    the new head of the free list, and no other byte has changed. *)
Context (s s' : mstate) (own : gmap Z role) (l : list Z) (last r vma p0 : Z).
Let a := slot p0 (VPN0 vma).
Let d := ppage (load_pte (ms_mem s) a).
Hypothesis HI : minv s own l last.
Hypothesis Hr : own !! r = Some (Root r).
Hypothesis Hu : 3 <= VPN2 vma.
Hypothesis Hp0 : own !! p0 = Some (path_role r vma 0).
Hypothesis Hfind : find_slot (ms_mem s) 2 r vma = a.
Hypothesis Hv : has (load_pte (ms_mem s) a) PTE_V = true.
Hypothesis Hfl : free_list s' = d.
Hypothesis Hlink : load64 (ms_mem s') d = free_list s.
Hypothesis Hinv : pte_flags (load_pte (ms_mem s') a) = 0.
Hypothesis Hmem : forall b, ~ in_page d b -> ~ (a <= b < a + 8) ->
  load8 (ms_mem s') b = load8 (ms_mem s) b.

Lemma freed_invalid : has (load_pte (ms_mem s') a) PTE_V = false.
Proof using Hinv. unfold has. by rewrite Hinv. Qed.

Lemma freed_role : own !! d = Some (page_role r vma).
Proof using HI Hp0 Hv. by eapply ppage_page. Qed.

Lemma freed_load64 q j :
  page q -> q <> d -> 0 <= j < 512 -> q <> p0 \/ j <> VPN0 vma ->
  load64 (ms_mem s') (slot q j) = load64 (ms_mem s) (slot q j).
Proof using HI Hp0 Hv Hmem.
  intros Hq Hd Hj Hne. apply load64_ext. intros b Hb.
  assert (Hgd : page d) by exact (mi_page _ _ _ _ HI _ _ freed_role).
  assert (Hg0 : page p0) by exact (mi_page _ _ _ _ HI _ _ Hp0).
  destruct (slot_in_page q j Hj). apply Hmem.
  - intros Hin. destruct (page_disjoint d q b) as [?|?]; auto; lia.
  - unfold a. destruct (slot_disjoint q p0 j (VPN0 vma)); auto using VPN0_range; lia.
Qed.

Lemma freed_load_pte q j :
  page q -> q <> d -> 0 <= j < 512 -> q <> p0 \/ j <> VPN0 vma ->
  load_pte (ms_mem s') (slot q j) = load_pte (ms_mem s) (slot q j).
Proof using HI Hp0 Hv Hmem. intros. unfold load_pte. by rewrite freed_load64. Qed.

Lemma minv_free_leaf : minv s' (<[d := Free]> own) (d :: l) last.
Proof using HI Hp0 Hv Hfl Hlink Hinv Hmem.
  pose proof freed_role as Hd. pose proof freed_invalid as Hinv'.
  destruct (HI) as [Hf Hpg Hl Hrt He Hk Hcl].
  assert (Hnd : d ∉ l) by (by rewrite Hl, Hd).
  constructor.
  - destruct Hf as (Hseg & Hndl & Hpl & Hrg).
    split; [|split; [by constructor|split; [constructor; eauto|]]].
    + split; [done|]. rewrite Hlink. eapply free_seg_ext; [exact Hseg|].
      intros q Hq. assert (Hqf : own !! q = Some Free) by (by apply Hl).
      pose proof (freed_load64 q 0) as H0. unfold slot in H0.
      replace (q + 8 * 0) with q in H0 by lia. apply H0; [eauto| |lia|].
      * intros ->. by rewrite Hd in Hqf.
      * left. intros ->. rewrite Hp0 in Hqf. discriminate.
    + rewrite Hfl. destruct (Hpg _ _ Hd) as (_ & ? & ?). lia.
  - intros q x. rewrite lookup_insert. case_decide; [by subst; eauto|eauto].
  - intros q. rewrite lookup_insert, elem_of_cons. case_decide as E.
    + subst. naive_solver.
    + rewrite Hl. naive_solver.
  - intros q r'. rewrite lookup_insert. case_decide; [done|eauto].
  - intros q x j. rewrite lookup_insert. case_decide as E; [by intros [= <-]|].
    intros Hq Hj y Hc Hvj.
    destruct (decide (q = p0 /\ j = VPN0 vma)) as [[-> ->]|Hne].
    { exfalso. fold a in Hvj. congruence. }
    rewrite freed_load_pte in * by (eauto; lia).
    destruct (He q x j Hq Hj y Hc Hvj) as [H1 H2]. split; [done|].
    rewrite lookup_insert_ne; [done|]. intros E2. rewrite <- E2, Hd in H2.
    injection H2 as <-. apply Hne.
    destruct (child_inj (path_role r vma 0) x (VPN0 vma) j _ eq_refl Hc) as [<- <-].
    split; [|done].
    exact (tab_unique s own l last q p0 (path_role r vma 0) HI eq_refl Hq Hp0).
  - intros q y. rewrite lookup_insert. case_decide as E; [by intros [= <-]|].
    intros Hq Hy. destruct (Hk q y Hq Hy) as (q' & x & j & Hq' & Hj & Hc & Hvj & Hpp).
    assert (Hq'd : q' <> d) by (intros ->; rewrite Hd in Hq'; by simplify_eq).
    assert (Hne : q' <> p0 \/ j <> VPN0 vma).
    { left. intros ->. rewrite Hp0 in Hq'. simplify_eq. by apply child_inner in Hc. }
    exists q', x, j. rewrite lookup_insert_ne, freed_load_pte by eauto. done.
  - intros q r' i2 i1. rewrite lookup_insert. case_decide as E; [by intros [= <-]|].
    intros Hq j Hj. destruct (decide (q = p0 /\ j = VPN0 vma)) as [[-> ->]|Hne]; [done|].
    rewrite freed_load_pte by (eauto; lia). exact (Hcl q r' i2 i1 Hq j Hj).
Qed.

Lemma lookup_free_leaf r' v :
  own !! r' = Some (Root r') -> 3 <= VPN2 v ->
  lookup_pte (ms_mem s') r' v =
  if decide (page_role r' v = page_role r vma) then None else lookup_pte (ms_mem s) r' v.
Proof using HI Hr Hu Hp0 Hfind Hv Hinv Hmem.
  intros Hr' Hv'. pose proof freed_role as Hd.
  assert (Hgen : forall level pt, (level <= 2)%nat -> own !! pt = Some (path_role r' v level) ->
    find_slot (ms_mem s') level pt v = find_slot (ms_mem s) level pt v).
  { induction level as [|level IH]; intros pt Hlv Hpt; [done|]. cbn [find_slot].
    assert (Hpd : pt <> d) by (intros ->; rewrite Hd in Hpt; by destruct level).
    assert (Hp0' : pt <> p0) by (intros ->; rewrite Hp0 in Hpt; by destruct level).
    rewrite (freed_load_pte pt) by (eauto using vpn_range, mi_page).
    destruct (pt =? NULL); [done|]. cbn [negb andb].
    destruct (has (load_pte (ms_mem s) (slot pt (vpn v (S level)))) PTE_V) eqn:Hvv; [|done].
    destruct (mi_entry _ _ _ _ HI pt _ _ Hpt (vpn_range v (S level)) _
                (path_role_child r' v level ltac:(lia) Hv') Hvv) as [Hin Hch].
    rewrite Hin by apply path_role_inner. apply IH; [lia|done]. }
  unfold lookup_pte, lookup_from. rewrite Hgen by (done || lia).
  case_decide as E.
  - unfold page_role in E. injection E as -> E2 E3 E4.
    assert (find_slot (ms_mem s) 2 r v = a) as ->.
    { rewrite <- Hfind. cbn [find_slot vpn]. by rewrite E2, E3, E4. }
    rewrite freed_invalid. by destruct (a =? NULL).
  - destruct (find_slot_role s own l last 2 r' r' v HI) as [-> | (q0 & Hq0 & ->)]; auto.
    destruct (slot q0 (VPN0 v) =? NULL); [done|].
    rewrite freed_load_pte; [done|by eapply mi_page| |apply VPN0_range|].
    + intros ->. rewrite Hd in Hq0. discriminate.
    + destruct (decide (q0 = p0)) as [->|]; [right|by left]. intros E4. apply E.
      rewrite Hp0 in Hq0. cbn [path_role] in Hq0. unfold page_role.
      by injection Hq0 as -> -> ->; rewrite E4.
Qed.
End FreeLeaf.

