(* ===== verification/UserRange.v ===== *)
(** * The loops over the user range (memory.c)

    [memory_unmap_and_free_user] and [memory_space_reclaim] visit the 65536
    pages of the user range and give back the pages whose entries they select.
    One induction over the iterations covers both: it shows that exactly the
    selected pages go back to the free list, in the order of their addresses,
    and that nothing else changes. *)

From stdpp Require Import base gmap list strings numbers.
From Stdlib Require Import Lia ZArith.
From S2P Require Import Prelude CMem PageAlloc PageTable PageInv VmSpace.
Local Open Scope Z_scope.
Local Open Scope kern_scope.

(** ** Pages of the user range *)

Definition user_page (k : Z) : Z := USER_START_VMA + k * PAGE_SIZE.

Lemma USER_PAGES_eq : Z.of_nat USER_PAGES = 65536.
Proof. unfold USER_PAGES. rewrite Z2Nat.id; [reflexivity|]. vm_compute. discriminate. Qed.

#[global] Opaque USER_PAGES.

Lemma user_page_vma k : 0 <= k < 65536 -> user_vma (user_page k).
Proof. unfold user_vma, user_page, USER_START_VMA, USER_END_VMA, PAGE_SIZE. lia. Qed.

Lemma user_page_vpn2 k : 0 <= k < 65536 -> 3 <= VPN2 (user_page k).
Proof. intros H. rewrite user_vpn2 by (by apply user_page_vma). lia. Qed.

Lemma user_page_S n : user_page (Z.of_nat (S n)) = user_page (Z.of_nat n) + PAGE_SIZE.
Proof. unfold user_page. lia. Qed.

Lemma user_page_of vma :
  user_vma vma -> vma mod PAGE_SIZE = 0 -> exists k, 0 <= k < 65536 /\ vma = user_page k.
Proof.
  unfold user_vma, user_page, USER_START_VMA, USER_END_VMA, PAGE_SIZE. intros H Ha.
  exists ((vma - 0xC0000000) / 4096). zdiv.
Qed.

Lemma round_down_user_page v :
  user_vma v -> exists k, 0 <= k < 65536 /\ round_down_addr v PAGE_SIZE = user_page k.
Proof.
  unfold user_vma, user_page, round_down_addr, USER_START_VMA, USER_END_VMA, PAGE_SIZE. intros H.
  exists ((v - 0xC0000000) / 4096). zdiv.
Qed.

Lemma user_page_range k v :
  0 <= k < 65536 -> user_page k <= v < user_page k + PAGE_SIZE -> user_vma v.
Proof. unfold user_vma, user_page, USER_START_VMA, USER_END_VMA, PAGE_SIZE. lia. Qed.

(** Addresses of the 39-bit space above the kernel's three gigabytes. *)
Definition upper (v : Z) : Prop := 0 <= v < 2^39 /\ 3 <= VPN2 v.

Lemma user_upper v : user_vma v -> upper v.
Proof.
  intros H. split; [|rewrite user_vpn2 by done; lia].
  unfold user_vma, USER_START_VMA, USER_END_VMA in H. lia.
Qed.

Lemma page_role_eq r v k :
  upper v -> 0 <= k < 65536 ->
  page_role r v = page_role r (user_page k) <->
  user_page k <= v < user_page k + PAGE_SIZE.
Proof.
  intros [Hv Hv2] Hk. pose proof (user_page_vma k Hk) as Hu. unfold page_role. split.
  - intros [= E2 E1 E0].
    assert (v / PAGE_SIZE = user_page k / PAGE_SIZE) as E.
    { apply vpn_inj; auto. unfold user_vma, USER_START_VMA, USER_END_VMA in Hu. lia. }
    unfold user_page, PAGE_SIZE, USER_START_VMA in *. zdiv.
  - intros H. assert (v / 2^12 = user_page k / 2^12) as E.
    { unfold user_page, PAGE_SIZE, USER_START_VMA in *. zdiv. }
    rewrite !VPN2_div, !VPN1_div, !VPN0_div.
    change (2^30) with (2^12 * 2^18). change (2^21) with (2^12 * 2^9).
    rewrite <- !Z.div_div by lia. by rewrite E.
Qed.

Lemma lookup_pte_role m r v v' :
  page_role r v = page_role r v' -> lookup_pte m r v = lookup_pte m r v'.
Proof.
  unfold page_role. intros [= E2 E1 E0]. unfold lookup_pte, lookup_from. cbn [find_slot vpn].
  by rewrite E2, E1, E0.
Qed.

(** ** The common induction *)

Section UnmapLoop.
(** [sel] says which valid leaf entries the loop unmaps and frees; [step] is
    the body of the loop. *)
Context (sel : pte -> bool) (step : Z -> Z -> M mstate unit).

Definition step_keeps : Prop := forall s own l last r vma,
  minv s own l last -> own !! r = Some (Root r) -> 3 <= VPN2 vma ->
  (forall e, lookup_pte (ms_mem s) r vma = Some e -> sel e = false) ->
  step r vma s = Done tt s.
Definition step_frees : Prop := forall s own l last r vma e,
  minv s own l last -> own !! r = Some (Root r) -> 3 <= VPN2 vma ->
  lookup_pte (ms_mem s) r vma = Some e -> sel e = true ->
  exists s', step r vma s = Done tt s' /\ satp s' = satp s /\
    minv s' (<[ppage e := Free]> own) (ppage e :: l) last /\
    (forall r' v, own !! r' = Some (Root r') -> 3 <= VPN2 v ->
       lookup_pte (ms_mem s') r' v =
       if decide (page_role r' v = page_role r vma) then None
       else lookup_pte (ms_mem s) r' v) /\
    (forall q r' i2 i1 i0, own !! q = Some (Data r' i2 i1 i0) -> q <> ppage e ->
       bytes (ms_mem s') q (Z.to_nat PAGE_SIZE) = bytes (ms_mem s) q (Z.to_nat PAGE_SIZE)) /\
    (forall q, own !! q = Some (Root q) ->
       bytes (ms_mem s') q (Z.to_nat PAGE_SIZE) = bytes (ms_mem s) q (Z.to_nat PAGE_SIZE)).

Definition selected (m : mem) (r k : Z) : option Z :=
  match lookup_pte m r (user_page k) with
  | Some e => if sel e then Some (ppage e) else None
  | None => None
  end.

(** The pages the first [n] iterations free, in the order of the addresses. *)
Definition freed (m : mem) (r : Z) (n : nat) : list Z :=
  omap (selected m r) (seqZ 0 (Z.of_nat n)).

Lemma freed_S m r n :
  freed m r (S n) = freed m r n ++ option_list (selected m r (Z.of_nat n)).
Proof.
  unfold freed. replace (Z.of_nat (S n)) with (Z.of_nat n + 1) by lia.
  rewrite seqZ_app by lia. rewrite omap_app. f_equal.
Qed.

Lemma freed_data s own l last r n q :
  minv s own l last -> own !! r = Some (Root r) -> Z.of_nat n <= 65536 ->
  q ∈ freed (ms_mem s) r n ->
  exists k, 0 <= k < Z.of_nat n /\ own !! q = Some (page_role r (user_page k)).
Proof.
  intros HI Hr Hn. unfold freed. rewrite list_elem_of_omap.
  intros (k & Hk & Hs). apply elem_of_seqZ in Hk. unfold selected in Hs.
  destruct (lookup_pte _ _ _) as [e|] eqn:E; [|done]. destruct (sel e); [|done].
  injection Hs as <-. exists k. split; [lia|].
  eapply lookup_pte_owned; eauto. apply user_page_vpn2. lia.
Qed.

(** State after [n] iterations. *)
Record unmapped (s : mstate) (own : gmap Z role) (l : list Z) (last r : Z) (n : nat)
    (s' : mstate) (own' : gmap Z role) : Prop := {
  um_inv : minv s' own' (reverse (freed (ms_mem s) r n) ++ l) last;
  um_own : forall q, own' !! q =
    if decide (q ∈ freed (ms_mem s) r n) then Some Free else own !! q;
  um_lookup : forall r' v, own !! r' = Some (Root r') -> upper v ->
    lookup_pte (ms_mem s') r' v =
    match lookup_pte (ms_mem s) r' v with
    | Some e => if bool_decide (r' = r /\ USER_START_VMA <= v < user_page (Z.of_nat n)) && sel e
                then None else Some e
    | None => None
    end;
  um_bytes : forall q r' i2 i1 i0, own !! q = Some (Data r' i2 i1 i0) ->
    q ∉ freed (ms_mem s) r n ->
    bytes (ms_mem s') q (Z.to_nat PAGE_SIZE) = bytes (ms_mem s) q (Z.to_nat PAGE_SIZE);
  um_satp : satp s' = satp s;
  um_roots : forall q, own !! q = Some (Root q) ->
    bytes (ms_mem s') q (Z.to_nat PAGE_SIZE) = bytes (ms_mem s) q (Z.to_nat PAGE_SIZE)
}.

Context (Hkeep : step_keeps) (Hfree : step_frees).
Context (s : mstate) (own : gmap Z role) (l : list Z) (last r : Z).
Hypothesis HI : minv s own l last.
Hypothesis Hr : own !! r = Some (Root r).

Lemma unmapped_root n s1 own1 r' :
  Z.of_nat n <= 65536 -> unmapped s own l last r n s1 own1 ->
  own !! r' = Some (Root r') -> own1 !! r' = Some (Root r').
Proof using HI Hr.
  intros Hn U Hr'. rewrite (um_own _ _ _ _ _ _ _ _ U). case_decide as E; [|done].
  destruct (freed_data s own l last r n r' HI Hr Hn E) as (k & _ & Hk). rewrite Hk in Hr'. discriminate.
Qed.

Lemma unmapped_next n s1 own1 r' v :
  Z.of_nat n < 65536 -> unmapped s own l last r n s1 own1 ->
  own !! r' = Some (Root r') -> upper v ->
  page_role r' v = page_role r (user_page (Z.of_nat n)) ->
  lookup_pte (ms_mem s1) r' v = lookup_pte (ms_mem s) r' v.
Proof using.
  intros Hn U Hr' Hv E. rewrite (um_lookup _ _ _ _ _ _ _ _ U) by done.
  destruct (lookup_pte (ms_mem s) r' v) as [e|]; [|done].
  assert (r' = r) as -> by (by injection E).
  apply page_role_eq in E; [|done|lia].
  rewrite bool_decide_eq_false_2 by lia. done.
Qed.

Lemma range_S (v : Z) (r' : Z) n :
  upper v -> Z.of_nat n < 65536 ->
  bool_decide (r' = r /\ USER_START_VMA <= v < user_page (Z.of_nat (S n))) =
  bool_decide (page_role r' v = page_role r (user_page (Z.of_nat n))) ||
  bool_decide (r' = r /\ USER_START_VMA <= v < user_page (Z.of_nat n)).
Proof using.
  intros Hv Hn. rewrite <- bool_decide_or. apply bool_decide_ext. rewrite user_page_S.
  destruct (decide (r' = r)) as [->|Hne].
  - rewrite page_role_eq by (done || lia). unfold user_page in *.
    unfold PAGE_SIZE, USER_START_VMA in *. lia.
  - split; [naive_solver|]. intros [[= ? _ _ _]|[? _]]; congruence.
Qed.

(** An iteration that selects nothing. *)
Lemma unmapped_skip n s1 own1 :
  Z.of_nat n < 65536 -> unmapped s own l last r n s1 own1 ->
  selected (ms_mem s) r (Z.of_nat n) = None ->
  unmapped s own l last r (S n) s1 own1.
Proof using.
  intros Hn U Hs. pose proof (freed_S (ms_mem s) r n) as HS. rewrite Hs in HS.
  simpl in HS. rewrite app_nil_r in HS.
  destruct U as [U1 U2 U3 U4 U5 U6]. constructor; rewrite ?HS; auto.
  intros r' v Hr' Hv. rewrite U3 by done. rewrite range_S by done.
  destruct (bool_decide_reflect (page_role r' v = page_role r (user_page (Z.of_nat n))))
    as [E|]; [|done].
  unfold selected in Hs. assert (r' = r) as -> by (by injection E).
  assert (lookup_pte (ms_mem s) r v = lookup_pte (ms_mem s) r (user_page (Z.of_nat n))) as ->.
  { by apply lookup_pte_role. }
  destruct (lookup_pte _ _ _) as [e|]; [|done]. destruct (sel e); [done|].
  by rewrite !andb_false_r.
Qed.

Lemma unmapped_step n s1 own1 :
  Z.of_nat n < 65536 -> unmapped s own l last r n s1 own1 ->
  exists s2 own2, step r (user_page (Z.of_nat n)) s1 = Done tt s2 /\
    unmapped s own l last r (S n) s2 own2.
Proof using Hkeep Hfree HI Hr.
  intros Hn U. set (vma := user_page (Z.of_nat n)).
  assert (Hu : upper vma) by (by apply user_upper, user_page_vma; lia).
  assert (Hr1 : own1 !! r = Some (Root r)) by (eapply unmapped_root; eauto; lia).
  assert (Hsame : lookup_pte (ms_mem s1) r vma = lookup_pte (ms_mem s) r vma)
    by (by eapply unmapped_next).
  pose proof (freed_S (ms_mem s) r n) as HS. unfold selected in HS. fold vma in HS.
  destruct (lookup_pte (ms_mem s) r vma) as [e|] eqn:El.
  1: destruct (sel e) eqn:Es.
  - destruct (Hfree s1 own1 _ last r vma e (um_inv _ _ _ _ _ _ _ _ U))
      as (s2 & E2 & Hsatp & HI2 & Hlk & Hby & Hrt); [done|apply Hu|done|done|].
    exists s2, (<[ppage e:=Free]> own1). split; [done|].
    assert (Hmem : forall q, q ∈ freed (ms_mem s) r (S n) <->
      q = ppage e \/ q ∈ freed (ms_mem s) r n).
    { intros q. rewrite HS. simpl. set_solver. }
    constructor.
    + rewrite HS. simpl. by rewrite reverse_snoc.
    + intros q. rewrite lookup_insert, (um_own _ _ _ _ _ _ _ _ U q).
      repeat case_decide; try done; rewrite Hmem in *; naive_solver.
    + intros r' v Hr' Hv. rewrite Hlk by (eapply unmapped_root || apply Hv; eauto; lia).
      rewrite range_S by done. case_decide as E.
      * rewrite bool_decide_eq_true_2 by done. simpl.
        assert (lookup_pte (ms_mem s) r' v = Some e) as ->.
        { rewrite <- El. assert (r' = r) as -> by (by injection E). by apply lookup_pte_role. }
        by rewrite Es.
      * rewrite bool_decide_eq_false_2 by done. simpl. by apply (um_lookup _ _ _ _ _ _ _ _ U).
    + intros q r' i2 i1 i0 Hq Hnq. rewrite Hmem in Hnq.
      rewrite (Hby q r' i2 i1 i0); [|rewrite (um_own _ _ _ _ _ _ _ _ U); case_decide; tauto|tauto].
      apply (um_bytes _ _ _ _ _ _ _ _ U q r' i2 i1 i0); tauto.
    + rewrite Hsatp. apply (um_satp _ _ _ _ _ _ _ _ U).
    + intros q Hq. rewrite Hrt by (eapply unmapped_root; eauto; lia). by apply (um_roots _ _ _ _ _ _ _ _ U).
  - exists s1, own1. split; [|by apply unmapped_skip; unfold selected; fold vma; rewrite ?El, ?Es].
    eapply Hkeep; eauto using um_inv; [apply Hu|]. intros e' He'. congruence.
  - exists s1, own1. split; [|by apply unmapped_skip; unfold selected; fold vma; rewrite ?El].
    eapply Hkeep; eauto using um_inv; [apply Hu|]. intros e' He'. congruence.
Qed.

Lemma unmap_loop :
  exists s' own', for_upto USER_PAGES 0 (fun k => step r (user_page k)) s = Done tt s' /\
    unmapped s own l last r USER_PAGES s' own'.
Proof using Hkeep Hfree HI Hr.
  destruct (for_upto_inv
    (fun j s1 => 0 <= j /\ exists own1, unmapped s own l last r (Z.to_nat j) s1 own1)
    (fun k => step r (user_page k)) USER_PAGES 0 s) as (s' & E & _ & own' & U).
  - split; [lia|]. exists own. constructor; try done.
    intros r' v Hr' Hv. destruct (lookup_pte _ _ _); [|done].
    rewrite bool_decide_eq_false_2; [done|]. unfold user_page, PAGE_SIZE. lia.
  - rewrite USER_PAGES_eq. intros j s1 Hj [_ [own1 U]].
    destruct (unmapped_step (Z.to_nat j) s1 own1) as (s2 & own2 & E & U2); [lia|done|].
    rewrite Z2Nat.id in E by lia. exists s2. split; [done|]. split; [lia|].
    exists own2. by replace (Z.to_nat (j + 1)) with (S (Z.to_nat j)) by lia.
  - exists s', own'. split; [done|]. rewrite Z.add_0_l, Nat2Z.id in U. done.
Qed.
End UnmapLoop.

(** ** The two loop bodies *)

Lemma lookup_pte_slot s own l last r vma e :
  minv s own l last -> own !! r = Some (Root r) -> 3 <= VPN2 vma ->
  lookup_pte (ms_mem s) r vma = Some e ->
  exists p0, own !! p0 = Some (path_role r vma 0) /\
    find_slot (ms_mem s) 2 r vma = slot p0 (VPN0 vma) /\
    slot p0 (VPN0 vma) <> NULL /\
    load_pte (ms_mem s) (slot p0 (VPN0 vma)) = e /\ has e PTE_V = true.
Proof.
  intros HI Hr Hu. unfold lookup_pte, lookup_from.
  destruct (find_slot_role s own l last 2 r r vma HI) as [->|(p0 & Hp0 & ->)]; auto; [done|].
  destruct (Z.eqb_spec (slot p0 (VPN0 vma)) NULL); [done|].
  destruct (has _ PTE_V) eqn:Hv; [|done]. intros [= <-]. by exists p0.
Qed.

(** The entry of [vma] lies outside of the page it names. *)
Lemma table_page_apart s own l last r vma p0 e :
  minv s own l last -> own !! r = Some (Root r) -> 3 <= VPN2 vma ->
  own !! p0 = Some (path_role r vma 0) -> lookup_pte (ms_mem s) r vma = Some e ->
  (slot p0 (VPN0 vma) + 8 <= ppage e \/ ppage e + 8 <= slot p0 (VPN0 vma)) /\
  (forall b, slot p0 (VPN0 vma) <= b < slot p0 (VPN0 vma) + 8 -> ~ in_page (ppage e) b).
Proof.
  intros HI Hr Hu Hp0 Hl.
  pose proof (lookup_pte_owned s own l last r vma e HI Hr Hu Hl) as Hd.
  assert (Hgd : page (ppage e)) by exact (mi_page _ _ _ _ HI _ _ Hd).
  assert (Hg0 : page p0) by exact (mi_page _ _ _ _ HI _ _ Hp0).
  assert (Hne : ppage e <> p0) by (intros E; rewrite E, Hp0 in Hd; discriminate).
  destruct (slot_in_page p0 _ (VPN0_range vma)). split.
  - unfold page, PAGE_SIZE in *. zdiv.
  - intros b Hb Hin. destruct (page_disjoint _ p0 b Hgd Hg0 Hne Hin); lia.
Qed.

Lemma same_outside_load_pte p m m' a :
  same_outside p m m' -> (forall b, a <= b < a + 8 -> ~ in_page p b) ->
  load_pte m' a = load_pte m a.
Proof. intros H Ha. unfold load_pte. f_equal. apply load64_ext. auto. Qed.

Lemma free_state_link s p :
  0 <= free_list s < 18446744073709551616 ->
  load64 (ms_mem (free_state p s)) p = free_list s.
Proof. intros H. simpl. rewrite load64_store64_same. apply w64_small. lia. Qed.

(** From the state equations of a body that clears the entry of [vma] and frees
    its page to the conclusion [step_frees] asks for. *)
Lemma free_leaf_summary s s' own l last r vma p0 e :
  minv s own l last -> own !! r = Some (Root r) -> 3 <= VPN2 vma ->
  own !! p0 = Some (path_role r vma 0) ->
  find_slot (ms_mem s) 2 r vma = slot p0 (VPN0 vma) ->
  load_pte (ms_mem s) (slot p0 (VPN0 vma)) = e -> has e PTE_V = true ->
  free_list s' = ppage e -> load64 (ms_mem s') (ppage e) = free_list s ->
  pte_flags (load_pte (ms_mem s') (slot p0 (VPN0 vma))) = 0 ->
  (forall b, ~ in_page (ppage e) b -> ~ (slot p0 (VPN0 vma) <= b < slot p0 (VPN0 vma) + 8) ->
     load8 (ms_mem s') b = load8 (ms_mem s) b) ->
  minv s' (<[ppage e := Free]> own) (ppage e :: l) last /\
  (forall r' v, own !! r' = Some (Root r') -> 3 <= VPN2 v ->
     lookup_pte (ms_mem s') r' v =
     if decide (page_role r' v = page_role r vma) then None
     else lookup_pte (ms_mem s) r' v) /\
  (forall q r' i2 i1 i0, own !! q = Some (Data r' i2 i1 i0) -> q <> ppage e ->
     bytes (ms_mem s') q (Z.to_nat PAGE_SIZE) = bytes (ms_mem s) q (Z.to_nat PAGE_SIZE)) /\
  (forall q, own !! q = Some (Root q) ->
     bytes (ms_mem s') q (Z.to_nat PAGE_SIZE) = bytes (ms_mem s) q (Z.to_nat PAGE_SIZE)).
Proof.
  intros HI Hr Hu Hp0 Hfs He Hv Hfl Hlk Hinv Hmem. subst e.
  split; [by eapply minv_free_leaf|split].
  - intros. by eapply lookup_free_leaf.
  - assert (Hkeep : forall q x, own !! q = Some x -> q <> ppage (load_pte (ms_mem s) (slot p0 (VPN0 vma))) -> q <> p0 ->
      bytes (ms_mem s') q (Z.to_nat PAGE_SIZE) = bytes (ms_mem s) q (Z.to_nat PAGE_SIZE)).
    { intros q x Hq Hne Hpq. apply bytes_ext. intros b Hb.
      assert (Hgq : page q) by exact (mi_page _ _ _ _ HI _ _ Hq).
      assert (Hg0 : page p0) by exact (mi_page _ _ _ _ HI _ _ Hp0).
      assert (Hgd : page (ppage (load_pte (ms_mem s) (slot p0 (VPN0 vma)))))
        by (eapply mi_page, ppage_page; eauto).
      assert (Hbq : in_page q b) by (unfold in_page, PAGE_SIZE in *; lia).
      apply Hmem.
      + intros Hin. destruct (page_disjoint _ q b Hgd Hgq) as [?|?]; auto;
          unfold in_page in Hbq; lia.
      + destruct (slot_in_page p0 _ (VPN0_range vma)).
        intros Hs. destruct (page_disjoint p0 q b Hg0 Hgq (not_eq_sym Hpq)) as [?|?];
          unfold in_page in *; lia. }
    split.
    + intros q r' i2 i1 i0 Hq Hne. apply (Hkeep q _ Hq Hne). intros ->. rewrite Hp0 in Hq. discriminate.
    + intros q Hq. apply (Hkeep q _ Hq); intros ->; [|rewrite Hp0 in Hq; discriminate].
      assert (HD : own !! ppage (load_pte (ms_mem s) (slot p0 (VPN0 vma))) = Some (page_role r vma))
        by (eapply ppage_page; eauto). rewrite HD in Hq. discriminate.
Qed.

Definition user_leaf (e : pte) : bool := has e PTE_U && has e PTE_RWX.
Definition nonglobal_leaf (e : pte) : bool := negb (has e PTE_G) && has e PTE_RWX.

Lemma unmap_user_page_keeps : step_keeps user_leaf unmap_user_page.
Proof.
  intros s own l last r vma HI Hr Hu Hsel. unfold unmap_user_page, user_leaf in *.
  mstep (walk_pt_read r vma s). unfold lookup_pte, lookup_from in Hsel. unmonad.
  destruct (_ =? NULL); [done|]. destruct (has _ PTE_V) eqn:Hv; [|done]. simpl.
  specialize (Hsel _ eq_refl). destruct (has _ PTE_U); [|done]. simpl in *. by rewrite Hsel.
Qed.

Lemma unmap_user_page_frees : step_frees user_leaf unmap_user_page.
Proof.
  intros s own l last r vma e HI Hr Hu Hl Hsel.
  destruct (lookup_pte_slot s own l last r vma e) as (p0 & Hp0 & Hfs & Hn & He & Hv); auto.
  assert (Hg : page (ppage e)) by (eapply mi_page, lookup_pte_owned; eauto).
  set (a := slot p0 (VPN0 vma)) in *.
  set (s1 := set_mem (store_pte (ms_mem s) a (set_flags 0 e)) s).
  exists (free_state (ppage e) s1). split; [|split; [done|]].
  - unfold unmap_user_page. mstep (walk_pt_read r vma s). rewrite Hfs. fold a.
    unfold bind at 1, gets. rewrite He, Hv. apply andb_true_iff in Hsel as [-> ->].
    destruct (Z.eqb_spec a NULL); [done|]. simpl.
    unfold bind, modify. fold s1.
    change (Z.shiftl (pte_ppn e) 12) with (Z.shiftl (pte_ppn e) PAGE_ORDER).
    rewrite shiftl_ppn by (rewrite <- He; auto with kern).
    by apply memory_free_page_eq.
  - assert (Hwf : pte_wf e) by (rewrite <- He; auto with kern).
    pose proof (free_state_same_outside (ppage e) s1) as Hso.
    destruct (table_page_apart s own l last r vma p0 e) as [Hpd Hap]; auto.
    apply (free_leaf_summary s _ own l last r vma p0 e HI Hr Hu Hp0 Hfs He Hv); [done|..].
    + by apply (free_state_link s1), (mi_free _ _ _ _ HI).
    + rewrite (same_outside_load_pte _ _ _ _ Hso Hap).
      cbn [ms_mem s1 set_mem]. rewrite load_store_pte_same by auto with kern. done.
    + intros b Hb1 Hb2. rewrite (Hso b Hb1). apply load8_store64_other. lia.
Qed.

Lemma reclaim_page_keeps : step_keeps nonglobal_leaf reclaim_page.
Proof.
  intros s own l last r vma HI Hr Hu Hsel. unfold reclaim_page, nonglobal_leaf in *.
  mstep (walk_pt_read r vma s). unfold lookup_pte, lookup_from in Hsel. unmonad.
  destruct (_ =? NULL); [done|]. destruct (has _ PTE_V) eqn:Hv; [|done]. simpl.
  specialize (Hsel _ eq_refl). destruct (has _ PTE_G); [done|]. simpl in *. by rewrite Hsel.
Qed.

Lemma reclaim_page_frees : step_frees nonglobal_leaf reclaim_page.
Proof.
  intros s own l last r vma e HI Hr Hu Hl Hsel.
  destruct (lookup_pte_slot s own l last r vma e) as (p0 & Hp0 & Hfs & Hn & He & Hv); auto.
  assert (Hg : page (ppage e)) by (eapply mi_page, lookup_pte_owned; eauto).
  set (a := slot p0 (VPN0 vma)) in *.
  set (s1 := free_state (ppage e) s).
  exists (set_mem (memset (ms_mem s1) a 0 8) s1). split; [|split; [done|]].
  - unfold reclaim_page. mstep (walk_pt_read r vma s). rewrite Hfs. fold a.
    unfold bind at 1, gets. rewrite He, Hv.
    apply andb_true_iff in Hsel as [HG ->]. rewrite negb_true_iff in HG. rewrite HG.
    destruct (Z.eqb_spec a NULL); [done|]. simpl.
    change (Z.shiftl (pte_ppn e) 12) with (Z.shiftl (pte_ppn e) PAGE_ORDER).
    rewrite shiftl_ppn by (rewrite <- He; auto with kern).
    by mstep (memory_free_page_eq (ppage e) s Hg).
  - destruct (table_page_apart s own l last r vma p0 e) as [Hpd Hap]; auto.
    apply (free_leaf_summary s _ own l last r vma p0 e HI Hr Hu Hp0 Hfs He Hv); [done|..].
    + cbn [ms_mem set_mem]. rewrite load64_memset_other by (fold a in Hpd; lia).
      by apply free_state_link, (mi_free _ _ _ _ HI).
    + unfold load_pte. cbn [ms_mem set_mem]. by rewrite load64_memset_0 by (fold a; lia).
    + intros b Hb1 Hb2. cbn [ms_mem set_mem]. rewrite load8_memset, decide_False by (fold a in Hb2; lia).
      by apply free_state_same_outside.
Qed.
