(* ===== verification/Heap.v ===== *)
(** * The kernel heap (ezheap.c)

    [kmalloc] carves 16-byte aligned blocks off the high end of the current
    heap region and takes a fresh page when a request does not fit; [kfree]
    does nothing.  [heap_inv] keeps the blocks handed out so far as a ghost
    list: they lie outside of every frame that is free or part of an address
    space, and they are disjoint from each other and from the free region. *)

From stdpp Require Import base gmap list strings numbers.
From Stdlib Require Import Lia ZArith.
From S2P Require Import Prelude CMem PageAlloc PageTable PageInv.
Local Open Scope Z_scope.
Local Open Scope kern_scope.

(** ** State and operations *)

Record hstate := MkH {
  heap_start : Z;
  heap_end : Z;
  heap_initialized : bool;
  h_vm : mstate
}.

Definition set_heap (st en : Z) (h : hstate) : hstate :=
  MkH st en (heap_initialized h) (h_vm h).
Definition set_vm (s : mstate) (h : hstate) : hstate :=
  MkH (heap_start h) (heap_end h) (heap_initialized h) s.

(** A call from heap code into memory.c. *)
Definition on_vm {A} (c : M mstate A) : M hstate A := lift h_vm set_vm c.

Definition heap_init (st en : Z) : M hstate unit :=
  assert (st <? en) "start < end" ;;
  modify (fun h => MkH st en true (h_vm h)).

Definition round16 (size : Z) : Z := w64 (w64 (size + 16 - 1) / 16 * 16).

Definition kmalloc (size0 : Z) : M hstate Z :=
  let size := round16 size0 in
  if PAGE_SIZE <? size then panic "heap alloc request too large" else
  h <- get ;;
  let room := w64 (heap_end h - heap_start h) in
  if size <=? room then
    modify (set_heap (heap_start h) (heap_end h - size)) ;;
    ret (heap_end h - size)
  else
    new_block <- on_vm memory_alloc_page ;;
    if room <? w64 (PAGE_SIZE - size) then
      modify (set_heap new_block (new_block + PAGE_SIZE - size)) ;;
      ret (new_block + PAGE_SIZE - size)
    else ret new_block.

Definition SIZE_MAX : Z := UINT64_MAX.

(** [SIZE_MAX / size] traps nowhere on RISC-V: division by zero yields all ones. *)
Definition kcalloc (n size : Z) : M hstate Z :=
  if (if size =? 0 then UINT64_MAX else SIZE_MAX / size) <? n
  then panic "heap alloc request too large" else
  ptr <- kmalloc (w64 (n * size)) ;;
  on_vm (modify (fun s => set_mem (memset (ms_mem s) ptr 0 (Z.to_nat (w64 (n * size)))) s)) ;;
  ret ptr.

Definition krealloc (ptr size : Z) : M hstate Z := panic "krealloc not implemented".

Definition kfree (ptr : Z) : M hstate unit := ret tt.

(** ** Invariant *)

Definition page_of (a : Z) : Z := a / PAGE_SIZE * PAGE_SIZE.

(** Bytes the page allocator and the address spaces do not own. *)
Definition heap_byte (own : gmap Z role) (a : Z) : Prop :=
  own !! page_of a = None \/ own !! page_of a = Some Held.

Definition span := (Z * Z)%type.   (* address, size *)
Definition inside (b : span) (a : Z) : Prop := b.1 <= a < b.1 + b.2.
Definition apart (b c : span) : Prop := forall a, inside b a -> inside c a -> False.

Fixpoint all_apart (l : list span) : Prop :=
  match l with
  | [] => True
  | b :: l' => Forall (apart b) l' /\ all_apart l'
  end.

Record heap_inv (h : hstate) (own : gmap Z role) (l : list Z) (last : Z)
    (blocks : list span) : Prop := {
  hi_vm : minv (h_vm h) own l last;
  hi_range : 0 <= heap_start h <= heap_end h /\ heap_end h < 2^63;
  hi_align : heap_end h mod 16 = 0;
  hi_bytes : Forall (fun b => forall a, inside b a -> heap_byte own a)
    ((heap_start h, heap_end h - heap_start h) :: blocks);
  hi_apart : all_apart ((heap_start h, heap_end h - heap_start h) :: blocks)
}.

(** ** Lemmas *)

Lemma round16_small size :
  0 <= size <= PAGE_SIZE ->
  round16 size = (size + 15) / 16 * 16 /\ size <= round16 size < size + 16 /\
  round16 size <= PAGE_SIZE /\ round16 size mod 16 = 0.
Proof.
  unfold round16, PAGE_SIZE. intros H. rewrite (w64_small (size + 16 - 1)) by lia.
  rewrite w64_small by zdiv. replace (size + 16 - 1) with (size + 15) by lia.
  repeat split; zdiv.
Qed.

Lemma page_of_inside p a : p mod PAGE_SIZE = 0 -> in_page p a -> page_of a = p.
Proof. unfold page_of, in_page, PAGE_SIZE. intros. zdiv. Qed.

(** Taking a page from the allocator for the heap. *)
Lemma heap_byte_hold own p a :
  own !! p = Some Free -> heap_byte own a -> heap_byte (<[p := Held]> own) a /\ page_of a <> p.
Proof.
  unfold heap_byte. intros Hp Ha. destruct (decide (page_of a = p)) as [E|Hne].
  - rewrite E in Ha. naive_solver.
  - by rewrite lookup_insert_ne.
Qed.

Lemma fresh_apart own p n b :
  own !! p = Some Free -> page p -> 0 <= n ->
  (forall a, inside b a -> heap_byte own a) ->
  forall q k, p <= q -> q + k <= p + PAGE_SIZE -> apart (q, k) b.
Proof.
  intros Hp (Hal & _) Hn Hb q k Hq Hk a Ha Hab. unfold inside in Ha; simpl in Ha.
  destruct (Hb a Hab) as [H|H]; rewrite (page_of_inside p) in H;
    unfold in_page; try done; try lia; congruence.
Qed.

Lemma apart_sub b c c' :
  (forall a, inside c' a -> inside c a) -> apart c b -> apart c' b.
Proof. unfold apart. eauto. Qed.

Lemma minv_hold s own p l last :
  minv s own (p :: l) last -> minv (alloc_state s) (<[p := Held]> own) l last.
Proof. intros H. by apply (minv_alloc s own p l last Held H). Qed.

Section Kmalloc.
Context (h : hstate) (own : gmap Z role) (l : list Z) (last : Z) (blocks : list span) (size : Z).
Hypothesis HI : heap_inv h own l last blocks.
Hypothesis Hsize : 0 < size <= PAGE_SIZE.
Let n := round16 size.

Lemma kmalloc_room : w64 (heap_end h - heap_start h) = heap_end h - heap_start h.
Proof. apply w64_small. destruct (hi_range _ _ _ _ _ HI). lia. Qed.

Lemma kmalloc_fits :
  n <= heap_end h - heap_start h ->
  let p := heap_end h - n in
  kmalloc size h = Done p (set_heap (heap_start h) p h) /\
  p mod 16 = 0 /\
  heap_inv (set_heap (heap_start h) p h) own l last ((p, n) :: blocks).
Proof.
  intros Hfit p. destruct (round16_small size) as (_ & Hn1 & Hn2 & Hn3); [lia|]. fold n in Hn1, Hn2, Hn3.
  destruct (HI) as [H1 H2 H3 H4 H5]. inversion_clear H4 as [|? ? Hreg Hblk].
  destruct H5 as [Hap1 Hap2]. assert (Hpal : p mod 16 = 0) by (unfold p; zdiv).
  split; [|split; [done|]].
  - unfold kmalloc. fold n. destruct (Z.ltb_spec PAGE_SIZE n); [lia|].
    unfold bind at 1, get. rewrite kmalloc_room.
    destruct (Z.leb_spec n (heap_end h - heap_start h)); [done|lia].
  - constructor; simpl; try done; [lia| |].
    + constructor; [|constructor; [|done]]; intros a Ha; apply Hreg; unfold inside in *; simpl in *; lia.
    + assert (Hsub : forall q k, heap_start h <= q -> q + k <= heap_end h ->
        Forall (apart (q, k)) blocks).
      { intros q k Hq Hk. eapply Forall_impl; [|exact Hap1]. intros b. apply apart_sub.
        intros a. unfold inside. simpl. lia. }
      split; [constructor; [|apply Hsub; lia]|split; [apply Hsub; lia|done]].
      intros a. unfold inside. simpl. lia.
Qed.

Lemma kmalloc_fresh p l' :
  l = p :: l' -> heap_end h - heap_start h < n ->
  exists q h', kmalloc size h = Done q h' /\ q mod 16 = 0 /\
    heap_inv h' (<[p := Held]> own) l' last ((q, n) :: blocks) /\ h_vm h' = alloc_state (h_vm h).
Proof.
  intros El Hfit. destruct (round16_small size) as (_ & Hn1 & Hn2 & Hn3); [lia|]. fold n in Hn1, Hn2, Hn3.
  destruct (HI) as [H1 H2 H3 H4 H5]. rewrite El in H1. pose proof H1 as H1'.
  inversion_clear H4 as [|? ? Hreg Hblk]. destruct H5 as [Hap1 Hap2].
  assert (Hp : own !! p = Some Free) by (apply (mi_list _ _ _ _ H1); set_solver).
  assert (Hpg : page p) by exact (mi_page _ _ _ _ H1 _ _ Hp).
  assert (Hfl : free_list (h_vm h) = p) by apply (mi_free _ _ _ _ H1).
  assert (Hnn : free_list (h_vm h) <> NULL) by (eapply free_ok_head_nonnull, (mi_free _ _ _ _ H1)).
  apply minv_hold in H1'.
  assert (Hnew : forall q k a, p <= q -> q + k <= p + PAGE_SIZE -> inside (q, k) a ->
    heap_byte (<[p := Held]> own) a).
  { intros q k a Hq Hk Ha. right. unfold inside in Ha; simpl in Ha.
    rewrite (page_of_inside p); [apply lookup_insert_eq|apply Hpg|unfold in_page; lia]. }
  assert (Hold : forall b, (forall a, inside b a -> heap_byte own a) ->
    forall a, inside b a -> heap_byte (<[p := Held]> own) a).
  { intros b Hb a Ha. by apply heap_byte_hold; auto. }
  assert (Hfr : forall q k, p <= q -> q + k <= p + PAGE_SIZE -> Forall (apart (q, k)) blocks).
  { intros q k Hq Hk. eapply Forall_impl; [|exact Hblk]. intros b Hb.
    eapply (fresh_apart own p 0 b); eauto; lia. }
  assert (Hb' : Forall (fun b => forall a, inside b a -> heap_byte (<[p := Held]> own) a) blocks)
    by (eapply Forall_impl; [|exact Hblk]; auto).
  unfold kmalloc. fold n. destruct (Z.ltb_spec PAGE_SIZE n); [lia|].
  unfold bind at 1, get. rewrite kmalloc_room.
  destruct (Z.leb_spec n (heap_end h - heap_start h)); [lia|].
  unfold bind at 1, on_vm, lift. rewrite (memory_alloc_page_eq _ Hnn), Hfl.
  rewrite (w64_small (PAGE_SIZE - n)) by (unfold PAGE_SIZE in *; lia).
  destruct Hpg as (Hal & Hp0 & Hp1).
  destruct (Z.ltb_spec (heap_end h - heap_start h) (PAGE_SIZE - n)); eexists _, _.
  - split; [done|]. split; [unfold PAGE_SIZE in *; zdiv|]. split; [|done].
    constructor; simpl; [done| |unfold PAGE_SIZE in *; zdiv| |]; [unfold PAGE_SIZE in *; lia|..].
    + constructor; [|constructor; [|done]]; intros a; eapply Hnew; lia.
    + split; [constructor; [|apply Hfr; lia]|split; [apply Hfr; lia|done]].
      intros a. unfold inside. simpl. lia.
  - split; [done|]. split; [unfold PAGE_SIZE in *; zdiv|]. split; [|done].
    constructor; simpl; try done.
    + constructor; [by apply Hold|constructor; [|done]]. intros a. eapply Hnew; lia.
    + split; [constructor; [|done]|split; [apply Hfr; lia|done]].
      intros a Ha1 Ha2. eapply (fresh_apart own p 0 _ Hp); [done|lia|exact Hreg| | |exact Ha2|exact Ha1]; lia.
Qed.
End Kmalloc.

(** [kmalloc] panics on a request larger than a page, with one exception:
    for the fifteen largest sizes the rounding wraps around to zero, the size
    check passes and the caller gets a pointer to a block of no bytes. *)
Theorem kmalloc_size_check size h :
  (PAGE_SIZE < size < 2^64 - 15 ->
     kmalloc size h = Panic "heap alloc request too large" h) /\
  (2^64 - 15 <= size < 2^64 ->
     kmalloc size h = Done (heap_end h) (set_heap (heap_start h) (heap_end h) h)).
Proof.
  unfold kmalloc, PAGE_SIZE. split; intros H.
  - assert (4096 < round16 size) as Hr.
    { unfold round16, w64. rewrite (Z.mod_small (size + 16 - 1)) by lia.
      rewrite Z.mod_small by zdiv. zdiv. }
    destruct (Z.ltb_spec 4096 (round16 size)); [done|lia].
  - assert (round16 size = 0) as ->.
    { unfold round16, w64. replace (size + 16 - 1) with (size + 15 - 2^64 + 1 * 2^64) by lia.
      change 18446744073709551616 with (2^64). rewrite Z.mod_add by lia.
      rewrite (Z.mod_small (_ - _)) by lia. rewrite Z.div_small by lia. done. }
    unfold bind, get, modify, ret. simpl.
    destruct (Z.leb_spec 0 (w64 (heap_end h - heap_start h))).
    + by rewrite Z.sub_0_r.
    + pose proof (w64_range (heap_end h - heap_start h)). lia.
Qed.

Lemma kmalloc_size_check_witness :
  kmalloc SIZE_MAX (MkH 0x80010000 0x80011000 true (MkM ∅ 0 0 0 false false)) =
  Done 0x80011000 (MkH 0x80010000 0x80011000 true (MkM ∅ 0 0 0 false false)).
Proof.
  apply (proj2 (kmalloc_size_check SIZE_MAX (MkH 0x80010000 0x80011000 true (MkM ∅ 0 0 0 false false)))).
  unfold SIZE_MAX, UINT64_MAX. lia.
Defined.
