(* ===== verification/MemInit.v ===== *)
(** * Boot: the direct map and the free page pool (memory.c, [memory_init])

    The addresses the linker script (kernel.ld) provides and the addresses of
    the three static page tables are the fields of [layout]; [layout_ok] states
    what the linker script guarantees of them.  The theorems show that after
    [memory_init] the hardware translates every kernel address to itself with
    the permissions of its section, that the ownership invariant of [PageInv]
    and the heap invariant of [Heap] hold, and what the free list looks like. *)

From stdpp Require Import base gmap list strings numbers.
From Stdlib Require Import Lia ZArith.
From S2P Require Import Prelude CMem PageAlloc PageTable PageInv Heap.
Local Open Scope Z_scope.
Local Open Scope kern_scope.

(** ** The operation *)

Record layout := MkLayout {
  kimg_start : Z;
  kimg_text_start : Z;
  kimg_text_end : Z;
  kimg_rodata_start : Z;
  kimg_rodata_end : Z;
  kimg_data_start : Z;
  kimg_end : Z;
  main_pt2 : Z;
  main_pt1_0x80000 : Z;
  main_pt0_0x80000 : Z
}.

Definition HEAP_INIT_MIN : Z := 256.
Definition RISCV_SATP_MODE_Sv39 : Z := 8.
Definition RISCV_SATP_MODE_shift : Z := 60.
Definition RISCV_SATP_ASID_shift : Z := 44.

Definition RG : Z := Z.lor PTE_R PTE_G.
Definition RWG : Z := Z.lor (Z.lor PTE_R PTE_W) PTE_G.
Definition RXG : Z := Z.lor (Z.lor PTE_R PTE_X) PTE_G.

(** [pt[i] = e] *)
Definition set_entry (pt i : Z) (e : pte) : M hstate unit :=
  on_vm (modify (fun s => set_mem (store_pte (ms_mem s) (slot pt i) e) s)).

Definition map_kernel (L : layout) : M hstate unit :=
  for_range 0 RAM_START GIGA_SIZE (fun pma =>
    set_entry (main_pt2 L) (VPN2 pma) (leaf_pte pma RWG)) ;;
  set_entry (main_pt2 L) (VPN2 RAM_START) (ptab_pte (main_pt1_0x80000 L) PTE_G) ;;
  set_entry (main_pt1_0x80000 L) (VPN1 RAM_START) (ptab_pte (main_pt0_0x80000 L) PTE_G) ;;
  for_range (kimg_text_start L) (kimg_text_end L) PAGE_SIZE (fun pp =>
    set_entry (main_pt0_0x80000 L) (VPN0 pp) (leaf_pte pp RXG)) ;;
  for_range (kimg_rodata_start L) (kimg_rodata_end L) PAGE_SIZE (fun pp =>
    set_entry (main_pt0_0x80000 L) (VPN0 pp) (leaf_pte pp RG)) ;;
  for_range (kimg_data_start L) (RAM_START + MEGA_SIZE) PAGE_SIZE (fun pp =>
    set_entry (main_pt0_0x80000 L) (VPN0 pp) (leaf_pte pp RWG)) ;;
  for_range (RAM_START + MEGA_SIZE) RAM_END MEGA_SIZE (fun pp =>
    set_entry (main_pt1_0x80000 L) (VPN1 pp) (leaf_pte pp RWG)).

Definition sv39_mtag (asid root : Z) : Z :=
  Z.lor (Z.lor (Z.shiftl RISCV_SATP_MODE_Sv39 RISCV_SATP_MODE_shift)
               (Z.shiftl asid RISCV_SATP_ASID_shift))
        (pageptr_to_pagenum root).

Definition link_free_page (pp : Z) : M hstate unit :=
  on_vm (modify (fun s => set_mem (store64 (ms_mem s) pp (free_list s)) s) ;;
         modify (set_free_list pp)).

Definition memory_init (L : layout) : M hstate unit :=
  assert (RAM_START =? kimg_start L) "RAM_START == _kimg_start" ;;
  if MEGA_SIZE <? kimg_end L - kimg_start L then panic "Kernel too large" else
  map_kernel L ;;
  let mtag := sv39_mtag 0 (main_pt2 L) in
  on_vm (modify (fun s => MkM (ms_mem s) (free_list s) mtag mtag
                              (sstatus_sum s) (memory_initialized s))) ;;
  let heap_start := kimg_end L in
  let heap_end0 := round_up_addr heap_start PAGE_SIZE in
  let heap_end :=
    if heap_end0 - heap_start <? HEAP_INIT_MIN
    then heap_end0 + round_up_addr (HEAP_INIT_MIN - (heap_end0 - heap_start)) PAGE_SIZE
    else heap_end0 in
  if RAM_END <? heap_end then panic "Not enough memory" else
  heap_init heap_start heap_end ;;
  on_vm (modify (set_free_list heap_end)) ;;
  for_range heap_end RAM_END PAGE_SIZE link_free_page ;;
  on_vm (modify (fun s => MkM (ms_mem s) (free_list s) (satp s) (main_mtag s) true true)).

(** ** The hardware's view of a page table

    Address translation of the Sv39 scheme: a leaf entry at level 2, 1 or 0
    maps a gigapage, a megapage or a page; a misaligned superpage faults. *)
Definition sv39_translate (m : mem) (root va : Z) : option (Z * Z) :=
  let leaf e size := if ppage e mod size =? 0 then Some (ppage e + va mod size, pte_flags e) else None in
  let e2 := load_pte m (slot root (VPN2 va)) in
  if negb (has e2 PTE_V) then None
  else if has e2 PTE_RWX then leaf e2 GIGA_SIZE
  else
    let e1 := load_pte m (slot (ppage e2) (VPN1 va)) in
    if negb (has e1 PTE_V) then None
    else if has e1 PTE_RWX then leaf e1 MEGA_SIZE
    else
      let e0 := load_pte m (slot (ppage e1) (VPN0 va)) in
      if negb (has e0 PTE_V) then None
      else if has e0 PTE_RWX then leaf e0 PAGE_SIZE
      else None.

(** ** What the linker script guarantees *)

Record layout_ok (L : layout) : Prop := {
  lo_start : kimg_start L = RAM_START;
  lo_text : kimg_text_start L = RAM_START;
  lo_order : RAM_START <= kimg_text_end L <= kimg_rodata_start L /\
    kimg_rodata_start L <= kimg_rodata_end L <= kimg_data_start L /\
    kimg_data_start L <= kimg_end L;
  lo_align : kimg_rodata_start L mod PAGE_SIZE = 0 /\ kimg_data_start L mod PAGE_SIZE = 0 /\
    kimg_end L mod PAGE_SIZE = 0;
  lo_size : kimg_end L - RAM_START <= MEGA_SIZE;
  lo_tables : Forall (fun t => t mod PAGE_SIZE = 0 /\ RAM_START <= t /\ t + PAGE_SIZE <= kimg_end L)
    [main_pt2 L; main_pt1_0x80000 L; main_pt0_0x80000 L];
  lo_distinct : NoDup [main_pt2 L; main_pt1_0x80000 L; main_pt0_0x80000 L]
}.

(** The static tables are in .bss, which is zero when the kernel starts. *)
Definition bss_zero (L : layout) (m : mem) : Prop :=
  forall i, 0 <= i < 512 -> load64 m (slot (main_pt2 L) i) = 0.

(** ** Loops that fill consecutive entries *)

Definition upd_mem (m : mem) (h : hstate) : hstate := set_vm (set_mem m (h_vm h)) h.
Definition hmem (h : hstate) : mem := ms_mem (h_vm h).

Lemma set_entry_eq pt i e h :
  set_entry pt i e h = Done tt (upd_mem (store_pte (hmem h) (slot pt i) e) h).
Proof. done. Qed.

Lemma upd_mem_upd m m' h : upd_mem m (upd_mem m' h) = upd_mem m h.
Proof. done. Qed.

Lemma load_pte_ext m m' a :
  (forall b, a <= b < a + 8 -> load8 m' b = load8 m b) -> load_pte m' a = load_pte m a.
Proof. intros H. unfold load_pte. f_equal. by apply load64_ext. Qed.

(** [m'] is [m] with the entries [i0, i0+n) of [pt] set by [ent]. *)
Record filled (pt i0 n : Z) (ent : Z -> pte) (m m' : mem) : Prop := {
  fl_new : forall k, 0 <= k < n -> load_pte m' (slot pt (i0 + k)) = ent k;
  fl_old : forall b, ~ (slot pt i0 <= b < slot pt (i0 + n)) -> load8 m' b = load8 m b
}.

Lemma filled_other pt i0 n ent m m' a :
  filled pt i0 n ent m m' -> a + 8 <= slot pt i0 \/ slot pt (i0 + n) <= a ->
  load_pte m' a = load_pte m a.
Proof. intros H Ha. apply load_pte_ext. intros b Hb. apply (fl_old _ _ _ _ _ _ H). lia. Qed.

Lemma filled_one pt i e m : pte_wf e -> filled pt i 1 (fun _ => e) m (store_pte m (slot pt i) e).
Proof.
  intros He. constructor.
  - intros k Hk. replace (i + k) with i by lia. by apply load_store_pte_same.
  - intros b Hb. apply load8_store64_other. unfold slot in *. lia.
Qed.

Lemma filled_snoc pt i0 n ent m m' e :
  0 <= n -> pte_wf e -> e = ent n -> filled pt i0 n ent m m' ->
  filled pt i0 (n + 1) ent m (store_pte m' (slot pt (i0 + n)) e).
Proof.
  intros Hn He -> [H1 H2]. constructor.
  - intros k Hk. destruct (decide (k = n)) as [->|Hne].
    + by apply load_store_pte_same.
    + rewrite load_store_pte_other by (unfold slot; lia). apply H1. lia.
  - intros b Hb. unfold slot in *.
    unfold store_pte. rewrite load8_store64_other by lia. apply H2. lia.
Qed.

Lemma fill_loop pt lo hi step i0 (idx : Z -> Z) (ent : Z -> pte) h :
  0 < step -> lo <= hi -> (forall x, pte_wf (ent x)) ->
  (forall k, 0 <= k -> lo + k * step < hi -> idx (lo + k * step) = i0 + k) ->
  exists m', for_range lo hi step (fun x => set_entry pt (idx x) (ent x)) h =
      Done tt (upd_mem m' h) /\
    filled pt i0 ((hi - lo + step - 1) / step) (fun k => ent (lo + k * step)) (hmem h) m'.
Proof.
  intros Hst Hle Hwf Hidx.
  destruct (for_range_inv (fun k h1 => 0 <= k /\ exists m', h1 = upd_mem m' h /\
      filled pt i0 k (fun k => ent (lo + k * step)) (hmem h) m')
    lo hi step (fun x => set_entry pt (idx x) (ent x)) h Hst Hle) as (h' & E & _ & m' & -> & Hf).
  - split; [lia|]. exists (hmem h). split; [by destruct h as [? ? ? []]|].
    constructor; [lia|done].
  - intros k h1 Hk Hlt (_ & m' & -> & Hf). rewrite Hidx by done.
    eexists. split; [apply set_entry_eq|]. split; [lia|]. rewrite upd_mem_upd.
    eexists. split; [done|]. by apply filled_snoc.
  - eauto.
Qed.

(** ** The direct map *)

Definition pages_between (lo hi : Z) : Z := (hi - lo + PAGE_SIZE - 1) / PAGE_SIZE.
Definition ram_index (a : Z) : Z := (a - RAM_START) / PAGE_SIZE.

Record direct_map (L : layout) (m : mem) : Prop := {
  dm_mmio : forall k, 0 <= k < 2 -> load_pte m (slot (main_pt2 L) k) = leaf_pte (k * GIGA_SIZE) RWG;
  dm_pt1 : load_pte m (slot (main_pt2 L) 2) = ptab_pte (main_pt1_0x80000 L) PTE_G;
  dm_pt0 : load_pte m (slot (main_pt1_0x80000 L) 0) = ptab_pte (main_pt0_0x80000 L) PTE_G;
  dm_text : forall k, 0 <= k < pages_between RAM_START (kimg_text_end L) ->
    load_pte m (slot (main_pt0_0x80000 L) k) = leaf_pte (RAM_START + k * PAGE_SIZE) RXG;
  dm_rodata : forall k, 0 <= k < pages_between (kimg_rodata_start L) (kimg_rodata_end L) ->
    load_pte m (slot (main_pt0_0x80000 L) (ram_index (kimg_rodata_start L) + k)) =
    leaf_pte (kimg_rodata_start L + k * PAGE_SIZE) RG;
  dm_data : forall k, 0 <= k < pages_between (kimg_data_start L) (RAM_START + MEGA_SIZE) ->
    load_pte m (slot (main_pt0_0x80000 L) (ram_index (kimg_data_start L) + k)) =
    leaf_pte (kimg_data_start L + k * PAGE_SIZE) RWG;
  dm_mega : forall k, 1 <= k < 4 ->
    load_pte m (slot (main_pt1_0x80000 L) k) = leaf_pte (RAM_START + k * MEGA_SIZE) RWG;
  dm_upper : forall i, 3 <= i < 512 -> load64 m (slot (main_pt2 L) i) = 0
}.

Lemma VPN0_ram pp : RAM_START <= pp < RAM_START + MEGA_SIZE -> VPN0 pp = ram_index pp.
Proof. unfold ram_index, RAM_START, MEGA_SIZE, PAGE_SIZE. rewrite VPN0_div. intros. zdiv. Qed.

Lemma VPN1_ram pp : RAM_START <= pp < RAM_END -> VPN1 pp = (pp - RAM_START) / MEGA_SIZE.
Proof. unfold RAM_END, RAM_SIZE, RAM_START, MEGA_SIZE, PAGE_SIZE. rewrite VPN1_div. intros. zdiv. Qed.

Lemma VPN2_giga k : 0 <= k -> 0 + k * GIGA_SIZE < RAM_START -> VPN2 (0 + k * GIGA_SIZE) = 0 + k.
Proof. unfold GIGA_SIZE, MEGA_SIZE, PAGE_SIZE, RAM_START. rewrite VPN2_div. intros. zdiv. Qed.

Lemma VPN1_mega k :
  0 <= k -> RAM_START + MEGA_SIZE + k * MEGA_SIZE < RAM_END ->
  VPN1 (RAM_START + MEGA_SIZE + k * MEGA_SIZE) = 1 + k.
Proof.
  unfold RAM_END, RAM_SIZE, MEGA_SIZE, PAGE_SIZE, RAM_START. rewrite VPN1_div. intros. zdiv.
Qed.

Section MapKernel.
Context (L : layout) (h : hstate).
Hypothesis HL : layout_ok L.
Hypothesis Hbss : bss_zero L (hmem h).
Local Notation p2 := (main_pt2 L).
Local Notation p1 := (main_pt1_0x80000 L).
Local Notation p0 := (main_pt0_0x80000 L).

(** The three tables, pairwise a page or more apart. *)
Lemma tables_apart :
  (p2 + 4096 <= p1 \/ p1 + 4096 <= p2) /\ (p2 + 4096 <= p0 \/ p0 + 4096 <= p2) /\
  (p1 + 4096 <= p0 \/ p0 + 4096 <= p1).
Proof.
  destruct (HL) as [_ _ _ _ _ Ht Hd].
  inversion_clear Ht as [|? ? H2 Ht']. inversion_clear Ht' as [|? ? H1 Ht''].
  inversion_clear Ht'' as [|? ? H0 _]. unfold PAGE_SIZE in *.
  inversion_clear Hd as [|? ? Hd2 Hd']. inversion_clear Hd' as [|? ? Hd1 _].
  apply not_elem_of_cons in Hd2 as [? Hd2]. apply not_elem_of_cons in Hd2 as [? _].
  apply not_elem_of_cons in Hd1 as [? _].
  repeat split; zdiv.
Qed.

(** The sections occupy increasing ranges of entries of the level-0 table. *)
Lemma index_bounds :
  0 <= pages_between RAM_START (kimg_text_end L) <= ram_index (kimg_rodata_start L) /\
  0 <= pages_between (kimg_rodata_start L) (kimg_rodata_end L) /\
  ram_index (kimg_rodata_start L) + pages_between (kimg_rodata_start L) (kimg_rodata_end L)
    <= ram_index (kimg_data_start L) /\
  0 <= pages_between (kimg_data_start L) (RAM_START + MEGA_SIZE) /\
  ram_index (kimg_data_start L) + pages_between (kimg_data_start L) (RAM_START + MEGA_SIZE) = 512.
Proof.
  destruct (HL) as [_ _ Ho (Ha1 & Ha2 & Ha3) Hsz _ _].
  unfold pages_between, ram_index, MEGA_SIZE, PAGE_SIZE, RAM_START in *. repeat split; zdiv.
Qed.

(** The loops over pages of the first megapage of RAM. *)
Lemma fill_pages lo hi flags h' :
  RAM_START <= lo <= hi -> hi <= RAM_START + MEGA_SIZE ->
  lo mod PAGE_SIZE = 0 ->
  exists m', for_range lo hi PAGE_SIZE (fun pp => set_entry p0 (VPN0 pp) (leaf_pte pp flags)) h' =
      Done tt (upd_mem m' h') /\
    filled p0 (ram_index lo) (pages_between lo hi)
      (fun k => leaf_pte (lo + k * PAGE_SIZE) flags) (hmem h') m'.
Proof.
  intros Hlo Hhi Hal.
  apply (fill_loop p0 lo hi PAGE_SIZE (ram_index lo) VPN0 (fun pp => leaf_pte pp flags));
    [done|lia|auto with kern|].
  intros k Hk Hlt. rewrite VPN0_ram by (unfold PAGE_SIZE in *; lia).
  unfold ram_index, RAM_START, PAGE_SIZE in *. zdiv.
Qed.

(** Consecutive fills of disjoint parts of the three tables add up to the
    direct map. *)
Lemma direct_map_of_fills m1 m2 m3 m4 m5 m6 m7 :
  filled p2 0 2 (fun k => leaf_pte (0 + k * GIGA_SIZE) RWG) (hmem h) m1 ->
  filled p2 2 1 (fun _ => ptab_pte p1 PTE_G) m1 m2 ->
  filled p1 0 1 (fun _ => ptab_pte p0 PTE_G) m2 m3 ->
  filled p0 (ram_index RAM_START) (pages_between RAM_START (kimg_text_end L))
    (fun k => leaf_pte (RAM_START + k * PAGE_SIZE) RXG) m3 m4 ->
  filled p0 (ram_index (kimg_rodata_start L))
    (pages_between (kimg_rodata_start L) (kimg_rodata_end L))
    (fun k => leaf_pte (kimg_rodata_start L + k * PAGE_SIZE) RG) m4 m5 ->
  filled p0 (ram_index (kimg_data_start L))
    (pages_between (kimg_data_start L) (RAM_START + MEGA_SIZE))
    (fun k => leaf_pte (kimg_data_start L + k * PAGE_SIZE) RWG) m5 m6 ->
  filled p1 1 3 (fun k => leaf_pte (RAM_START + MEGA_SIZE + k * MEGA_SIZE) RWG) m6 m7 ->
  direct_map L m7 /\ (forall b, kimg_end L <= b -> load8 m7 b = load8 (hmem h) b).
Proof.
  intros [N1 O1] [N2 O2] [N3 O3] [N4 O4] [N5 O5] [N6 O6] [N7 O7].
  pose proof index_bounds as (B1 & B2 & B3 & B4 & B5).
  pose proof tables_apart as (A1 & A2 & A3).
  pose proof (lo_tables L HL) as Htab.
  inversion_clear Htab as [|? ? T2 Ht']. inversion_clear Ht' as [|? ? T1 Ht''].
  inversion_clear Ht'' as [|? ? T0 _].
  change (ram_index RAM_START) with 0 in *. unfold slot in *.
  unfold PAGE_SIZE in T2, T1, T0.
  assert (Hchain : forall a,
    (forall b, a <= b < a + 8 -> load8 m7 b = load8 (hmem h) b) -> load64 m7 a = load64 (hmem h) a)
    by (intros; by apply load64_ext).
  split; [constructor|]; unfold slot.
  - intros k Hk. transitivity (load_pte m1 (p2 + 8 * (0 + k))); [|rewrite N1 by lia; done].
    apply load_pte_ext. intros b Hb. rewrite O7, O6, O5, O4, O3, O2 by lia. done.
  - transitivity (load_pte m2 (p2 + 8 * (2 + 0))); [|rewrite N2 by lia; done].
    apply load_pte_ext. intros b Hb. rewrite O7, O6, O5, O4, O3 by lia. done.
  - transitivity (load_pte m3 (p1 + 8 * (0 + 0))); [|rewrite N3 by lia; done].
    apply load_pte_ext. intros b Hb. rewrite O7, O6, O5, O4 by lia. done.
  - intros k Hk. transitivity (load_pte m4 (p0 + 8 * (0 + k))); [|rewrite N4 by lia; done].
    apply load_pte_ext. intros b Hb. rewrite O7, O6, O5 by lia. done.
  - intros k Hk. rewrite <- N5 by lia.
    apply load_pte_ext. intros b Hb. rewrite O7, O6 by lia. done.
  - intros k Hk. rewrite <- N6 by lia.
    apply load_pte_ext. intros b Hb. rewrite O7 by lia. done.
  - intros k Hk. replace k with (1 + (k - 1)) at 1 by lia. rewrite N7 by lia. f_equal. lia.
  - intros i Hi. transitivity (load64 (hmem h) (p2 + 8 * i)); [|apply Hbss; lia].
    apply Hchain. intros b Hb. rewrite O7, O6, O5, O4, O3, O2, O1 by lia. done.
  - intros b Hb. rewrite O7, O6, O5, O4, O3, O2, O1 by lia. done.
Qed.

Lemma map_kernel_ok :
  exists m', map_kernel L h = Done tt (upd_mem m' h) /\ direct_map L m' /\
    (forall b, kimg_end L <= b -> load8 m' b = load8 (hmem h) b).
Proof.
  destruct (HL) as [_ Htx Ho (Ha1 & Ha2 & Ha3) Hsz Htab _].
  pose proof tables_apart as (A1 & A2 & A3).
  inversion_clear Htab as [|? ? T2 Ht']. inversion_clear Ht' as [|? ? T1 Ht''].
  inversion_clear Ht'' as [|? ? T0 _].
  unfold map_kernel. rewrite Htx.
  destruct (fill_loop p2 0 RAM_START GIGA_SIZE 0 VPN2 (fun x => leaf_pte x RWG) h)
    as (m1 & E1 & F1); [done|done|auto with kern| |].
  { apply VPN2_giga. }
  mstep E1. clear E1. mstep (set_entry_eq p2 (VPN2 RAM_START) (ptab_pte p1 PTE_G) (upd_mem m1 h)).
  rewrite upd_mem_upd. change (VPN2 RAM_START) with 2.
  pose proof (filled_one p2 2 (ptab_pte p1 PTE_G) m1 ltac:(unfold ptab_pte; auto with kern)) as F2.
  change (hmem (upd_mem m1 h)) with m1. set (m2 := store_pte m1 _ _) in *.
  mstep (set_entry_eq p1 (VPN1 RAM_START) (ptab_pte p0 PTE_G) (upd_mem m2 h)).
  rewrite upd_mem_upd. change (VPN1 RAM_START) with 0.
  pose proof (filled_one p1 0 (ptab_pte p0 PTE_G) m2 ltac:(unfold ptab_pte; auto with kern)) as F3.
  change (hmem (upd_mem m2 h)) with m2. set (m3 := store_pte m2 _ _) in *.
  destruct (fill_pages RAM_START (kimg_text_end L) RXG (upd_mem m3 h)) as (m4 & E4 & F4); [lia|lia|done|].
  mstep E4. clear E4. rewrite upd_mem_upd. change (hmem (upd_mem m3 h)) with m3 in F4.
  destruct (fill_pages (kimg_rodata_start L) (kimg_rodata_end L) RG (upd_mem m4 h))
    as (m5 & E5 & F5); [lia|lia|done|].
  mstep E5. clear E5. rewrite upd_mem_upd. change (hmem (upd_mem m4 h)) with m4 in F5.
  destruct (fill_pages (kimg_data_start L) (RAM_START + MEGA_SIZE) RWG (upd_mem m5 h))
    as (m6 & E6 & F6); [lia|lia|done|].
  mstep E6. clear E6. rewrite upd_mem_upd. change (hmem (upd_mem m5 h)) with m5 in F6.
  destruct (fill_loop p1 (RAM_START + MEGA_SIZE) RAM_END MEGA_SIZE 1 VPN1
    (fun x => leaf_pte x RWG) (upd_mem m6 h)) as (m7 & E7 & F7); [done|done|auto with kern| |].
  { apply VPN1_mega. }
  rewrite upd_mem_upd in E7. change (hmem (upd_mem m6 h)) with m6 in F7.
  exists m7. split; [exact E7|]. clearbody m2 m3. by apply (direct_map_of_fills m1 m2 m3 m4 m5 m6 m7).
Qed.
End MapKernel.

(** ** Translation of kernel addresses *)

(** The permissions the comment in [memory_init] promises for each range. *)
Definition kernel_perm (L : layout) (va : Z) : option Z :=
  if (0 <=? va) && (va <? RAM_START) then Some RWG
  else if (RAM_START <=? va) && (va <? RAM_START + pages_between RAM_START (kimg_text_end L) * PAGE_SIZE)
  then Some RXG
  else if (kimg_rodata_start L <=? va) &&
    (va <? kimg_rodata_start L + pages_between (kimg_rodata_start L) (kimg_rodata_end L) * PAGE_SIZE)
  then Some RG
  else if (kimg_data_start L <=? va) && (va <? RAM_END) then Some RWG
  else None.

(** The flags of a leaf entry made with [f]. *)
Definition leaf_flags (f : Z) : Z := pte_flags (leaf_pte 0 f).

Lemma ppage_of_leaf p f : p mod PAGE_SIZE = 0 -> 0 <= p < 2^56 -> ppage (leaf_pte p f) = p.
Proof.
  unfold ppage, leaf_pte, pageptr_to_pagenum, PAGE_ORDER, PAGE_SIZE. simpl pte_ppn. intros.
  rewrite Z.shiftr_div_pow2 by lia. change (2^12) with 4096. zdiv.
Qed.

Lemma ppage_of_ptab p f : p mod PAGE_SIZE = 0 -> 0 <= p < 2^56 -> ppage (ptab_pte p f) = p.
Proof. exact (ppage_of_leaf p f). Qed.

Section Translate.
Context (L : layout) (m : mem).
Hypothesis HL : layout_ok L.
Hypothesis HD : direct_map L m.

Lemma translate_mmio va : 0 <= va < RAM_START ->
  sv39_translate m (main_pt2 L) va = Some (va, leaf_flags RWG).
Proof.
  intros Hva. unfold sv39_translate.
  assert (E : VPN2 va = va / GIGA_SIZE /\ 0 <= va / GIGA_SIZE < 2).
  { rewrite VPN2_div. unfold RAM_START, GIGA_SIZE, MEGA_SIZE, PAGE_SIZE in *. zdiv. }
  destruct E as [-> Hk]. rewrite (dm_mmio _ _ HD) by done.
  change (has (leaf_pte _ RWG) PTE_V) with true. change (has (leaf_pte _ RWG) PTE_RWX) with true.
  cbn [negb]. rewrite ppage_of_leaf.
  - unfold RAM_START, GIGA_SIZE, MEGA_SIZE, PAGE_SIZE in *.
    rewrite Z.mod_mul by lia. cbn. f_equal. f_equal. zdiv.
  - unfold GIGA_SIZE, MEGA_SIZE, PAGE_SIZE. zdiv.
  - unfold RAM_START, GIGA_SIZE, MEGA_SIZE, PAGE_SIZE in *. zdiv.
Qed.

Lemma translate_ram_root va : RAM_START <= va < RAM_END ->
  sv39_translate m (main_pt2 L) va =
  let e1 := load_pte m (slot (main_pt1_0x80000 L) ((va - RAM_START) / MEGA_SIZE)) in
  if negb (has e1 PTE_V) then None
  else if has e1 PTE_RWX then
    if ppage e1 mod MEGA_SIZE =? 0 then Some (ppage e1 + va mod MEGA_SIZE, pte_flags e1) else None
  else
    let e0 := load_pte m (slot (ppage e1) (VPN0 va)) in
    if negb (has e0 PTE_V) then None
    else if has e0 PTE_RWX then
      if ppage e0 mod PAGE_SIZE =? 0 then Some (ppage e0 + va mod PAGE_SIZE, pte_flags e0) else None
    else None.
Proof.
  intros Hva. unfold sv39_translate.
  assert (VPN2 va = 2) as ->.
  { rewrite VPN2_div. unfold RAM_END, RAM_SIZE, RAM_START in *. zdiv. }
  rewrite (dm_pt1 _ _ HD), VPN1_ram by done.
  change (has (ptab_pte _ PTE_G) PTE_V) with true. change (has (ptab_pte _ PTE_G) PTE_RWX) with false.
  cbn [negb]. rewrite ppage_of_ptab; [done|..].
  all: pose proof (lo_tables L HL) as Htab; inversion_clear Htab as [|? ? T2 Ht'];
    inversion_clear Ht' as [|? ? T1 _]; pose proof (lo_size L HL);
    unfold RAM_START, MEGA_SIZE, PAGE_SIZE in *; lia.
Qed.

Lemma translate_mega va : RAM_START + MEGA_SIZE <= va < RAM_END ->
  sv39_translate m (main_pt2 L) va = Some (va, leaf_flags RWG).
Proof.
  intros Hva. rewrite translate_ram_root by (unfold MEGA_SIZE, PAGE_SIZE in *; lia). cbv zeta.
  assert (Hk : 1 <= (va - RAM_START) / MEGA_SIZE < 4).
  { unfold RAM_END, RAM_SIZE, MEGA_SIZE, PAGE_SIZE in *. zdiv. }
  rewrite (dm_mega _ _ HD) by done.
  change (has (leaf_pte _ RWG) PTE_V) with true. change (has (leaf_pte _ RWG) PTE_RWX) with true.
  cbn [negb]. rewrite ppage_of_leaf.
  - unfold RAM_START, RAM_END, RAM_SIZE, MEGA_SIZE, PAGE_SIZE in *.
    destruct (Z.eqb_spec ((2147483648 + (va - 2147483648) / (512 * 4096) * (512 * 4096)) mod (512 * 4096)) 0);
      [|zdiv].
    cbn. f_equal. f_equal. zdiv.
  - unfold RAM_START, MEGA_SIZE, PAGE_SIZE. zdiv.
  - unfold RAM_START, MEGA_SIZE, PAGE_SIZE in *. zdiv.
Qed.

(** A page of the first megapage whose level-0 entry is the leaf [f]. *)
Lemma translate_page va f : RAM_START <= va < RAM_START + MEGA_SIZE ->
  load_pte m (slot (main_pt0_0x80000 L) (ram_index va)) = leaf_pte (page_of va) f ->
  has (leaf_pte 0 f) PTE_RWX = true ->
  sv39_translate m (main_pt2 L) va = Some (va, leaf_flags f).
Proof.
  intros Hva He Hf.
  rewrite translate_ram_root by (unfold RAM_END, RAM_SIZE, MEGA_SIZE, PAGE_SIZE in *; lia).
  replace ((va - RAM_START) / MEGA_SIZE) with 0
    by (unfold RAM_START, MEGA_SIZE, PAGE_SIZE in *; zdiv).
  cbv zeta. rewrite (dm_pt0 _ _ HD), VPN0_ram by done.
  change (has (ptab_pte _ PTE_G) PTE_V) with true. change (has (ptab_pte _ PTE_G) PTE_RWX) with false.
  cbn [negb]. rewrite ppage_of_ptab, He.
  - rewrite leaf_pte_valid. change (has (leaf_pte (page_of va) f) PTE_RWX) with (has (leaf_pte 0 f) PTE_RWX).
    rewrite Hf. cbn [negb]. rewrite ppage_of_leaf; unfold page_of, RAM_START, MEGA_SIZE, PAGE_SIZE in *.
    + rewrite Z.mod_mul by lia. cbn. f_equal. f_equal. zdiv.
    + zdiv.
    + zdiv.
  - pose proof (lo_tables L HL) as Htab; inversion_clear Htab as [|? ? T2 Ht'];
    inversion_clear Ht' as [|? ? T1 Ht'']; inversion_clear Ht'' as [|? ? T0 _]; lia.
  - pose proof (lo_tables L HL) as Htab; inversion_clear Htab as [|? ? T2 Ht'];
    inversion_clear Ht' as [|? ? T1 Ht'']; inversion_clear Ht'' as [|? ? T0 _].
    pose proof (lo_size L HL); unfold RAM_START, MEGA_SIZE, PAGE_SIZE in *; lia.
Qed.

(** A run of [n] pages from [lo] mapped by consecutive entries. *)
Lemma translate_run lo n f va :
  RAM_START <= lo -> lo mod PAGE_SIZE = 0 -> lo + n * PAGE_SIZE <= RAM_START + MEGA_SIZE ->
  (forall k, 0 <= k < n ->
     load_pte m (slot (main_pt0_0x80000 L) (ram_index lo + k)) = leaf_pte (lo + k * PAGE_SIZE) f) ->
  has (leaf_pte 0 f) PTE_RWX = true -> lo <= va < lo + n * PAGE_SIZE ->
  sv39_translate m (main_pt2 L) va = Some (va, leaf_flags f).
Proof.
  intros Hlo Hal Hhi He Hf Hva. apply translate_page; [lia| |done].
  replace (ram_index va) with (ram_index lo + (va - lo) / PAGE_SIZE)
    by (unfold ram_index, RAM_START, MEGA_SIZE, PAGE_SIZE in *; clear He; zdiv).
  rewrite He by (clear He; unfold PAGE_SIZE in *; zdiv).
  f_equal. clear He. unfold page_of, PAGE_SIZE in *. zdiv.
Qed.

Lemma section_bounds :
  RAM_START + pages_between RAM_START (kimg_text_end L) * PAGE_SIZE <= RAM_START + MEGA_SIZE /\
  kimg_rodata_start L + pages_between (kimg_rodata_start L) (kimg_rodata_end L) * PAGE_SIZE
    <= RAM_START + MEGA_SIZE /\
  kimg_data_start L + pages_between (kimg_data_start L) (RAM_START + MEGA_SIZE) * PAGE_SIZE
    = RAM_START + MEGA_SIZE.
Proof using HL.
  destruct (HL) as [_ _ Ho (Ha1 & Ha2 & Ha3) Hsz _ _].
  unfold pages_between, MEGA_SIZE, PAGE_SIZE, RAM_START in *. repeat split; zdiv.
Qed.

Lemma kernel_translate va f : kernel_perm L va = Some f ->
  sv39_translate m (main_pt2 L) va = Some (va, leaf_flags f).
Proof.
  destruct (lo_align L HL) as (Ha1 & Ha2 & _). pose proof (lo_order L HL) as Ho.
  pose proof section_bounds as (B1 & B2 & B3). unfold kernel_perm.
  repeat match goal with |- context [if ?c then _ else _] =>
    let E := fresh in destruct c eqn:E;
      [apply andb_true_iff in E as [?%Z.leb_le ?%Z.ltb_lt]|] end; intros [= <-].
  - by apply translate_mmio.
  - eapply (translate_run RAM_START); try done. apply (dm_text _ _ HD).
  - eapply (translate_run (kimg_rodata_start L)); try done; [lia|apply (dm_rodata _ _ HD)].
  - destruct (Z.lt_ge_cases va (RAM_START + MEGA_SIZE)); [|by apply translate_mega].
    eapply (translate_run (kimg_data_start L)); try done; [lia|..|apply (dm_data _ _ HD)|]; lia.
Qed.
End Translate.

(** ** The free page pool *)

(** The [n] pages from [base], the highest first. *)
Fixpoint pages_down (base : Z) (n : nat) : list Z :=
  match n with
  | O => []
  | S n' => (base + Z.of_nat n' * PAGE_SIZE) :: pages_down base n'
  end.

Lemma pages_down_elem base n p :
  p ∈ pages_down base n <-> exists k, 0 <= k < Z.of_nat n /\ p = base + k * PAGE_SIZE.
Proof.
  induction n as [|n IH]; cbn [pages_down].
  - split; [by intros ?%not_elem_of_nil|]. intros (k & Hk & _). lia.
  - rewrite elem_of_cons, IH. split.
    + intros [->|(k & Hk & ->)]; eexists; split; [|done| |done]; lia.
    + intros (k & Hk & ->). destruct (decide (k = Z.of_nat n)) as [->|]; [by left|].
      right. exists k. split; [lia|done].
Qed.

Lemma pages_down_NoDup base n : NoDup (pages_down base n).
Proof.
  induction n as [|n IH]; cbn [pages_down]; constructor; [|done].
  rewrite pages_down_elem. intros (k & Hk & E). unfold PAGE_SIZE in E. lia.
Qed.

Lemma pages_down_length base n : length (pages_down base n) = n.
Proof. induction n; simpl; lia. Qed.

(** State of the loop that builds the free list, after [k] pages. *)
Record pool (base : Z) (h : hstate) (k : Z) (h' : hstate) : Prop := {
  po_seg : free_seg (hmem h') (free_list (h_vm h')) (pages_down base (Z.to_nat k)) base;
  po_range : 0 <= free_list (h_vm h') < 18446744073709551616;
  po_mem : forall b, b < base -> load8 (hmem h') b = load8 (hmem h) b;
  po_self : 1 <= k -> load64 (hmem h') base = base;
  po_rest : h' = set_vm (set_free_list (free_list (h_vm h')) (set_mem (hmem h') (h_vm h))) h
}.

Lemma pool_step base h k h1 :
  page base -> base + k * PAGE_SIZE < RAM_END -> 0 <= k ->
  free_list (h_vm h) = base -> pool base h k h1 ->
  exists h2, link_free_page (base + k * PAGE_SIZE) h1 = Done tt h2 /\ pool base h (k + 1) h2.
Proof.
  intros (Hal & Hb0 & Hb1) Hlt Hk Hfl [P1 P2 P3 P4 P5]. eexists. split; [reflexivity|].
  remember (base + k * PAGE_SIZE) as pp eqn:Epp.
  assert (Hrange : 0 <= pp < 18446744073709551616).
  { unfold RAM_END, RAM_START, RAM_SIZE, PAGE_SIZE in *. lia. }
  assert (Hlink : load64 (store64 (hmem h1) pp (free_list (h_vm h1))) pp = free_list (h_vm h1)).
  { rewrite load64_store64_same. by apply w64_small. }
  assert (Hk0 : k = 0 -> free_list (h_vm h1) = base) by (intros ->; exact P1).
  constructor; simpl; try done.
  - replace (Z.to_nat (k + 1)) with (S (Z.to_nat k)) by lia. cbn [pages_down].
    rewrite Z2Nat.id, <- Epp by lia. split; [done|]. unfold hmem in *. simpl.
    rewrite Hlink. eapply free_seg_ext; [exact P1|].
    intros q (j & Hj & ->)%pages_down_elem. apply load64_store64_other.
    unfold PAGE_SIZE in *. lia.
  - intros b Hb. unfold hmem in *. simpl. rewrite load8_store64_other; [by apply P3|].
    unfold PAGE_SIZE in *. lia.
  - intros _. unfold hmem in *. simpl. destruct (decide (k = 0)) as [->|Hne].
    + assert (pp = base) as E by lia. rewrite E in *. by rewrite Hlink, Hk0.
    + rewrite load64_store64_other; [apply P4; lia|]. unfold PAGE_SIZE in *. lia.
  - unfold hmem. rewrite P5. done.
Qed.

(** ** The state after boot *)

(** The roles of the frames at boot: the main root table, and free pages. *)
Definition boot_own (root : Z) (l : list Z) : gmap Z role :=
  <[root := Root root]> (list_to_map ((fun p => (p, Free)) <$> l)).

Lemma boot_own_lookup root l q :
  NoDup l -> boot_own root l !! q =
  if decide (q = root) then Some (Root root) else if decide (q ∈ l) then Some Free else None.
Proof.
  intros Hnd. unfold boot_own. rewrite lookup_insert.
  destruct (decide (root = q)) as [->|]; [by rewrite decide_True|].
  rewrite (decide_False (P := q = root)) by done.
  assert (Hfst : ((fun p : Z => (p, Free)) <$> l).*1 = l).
  { rewrite <- list_fmap_compose. apply list_fmap_id. }
  case_decide as E.
  - apply elem_of_list_to_map_1; [by rewrite Hfst|]. apply list_elem_of_fmap. eauto.
  - apply not_elem_of_list_to_map_1. by rewrite Hfst.
Qed.

(** A zero root table and a free list satisfy the ownership invariant. *)
Lemma minv_boot s root l last :
  free_ok s l last -> page root -> root ∉ l ->
  (forall i, 3 <= i < 512 -> load64 (ms_mem s) (slot root i) = 0) ->
  minv s (boot_own root l) l last.
Proof.
  intros Hf Hp Hn Hz. destruct (Hf) as (_ & Hnd & Hpl & _).
  assert (Hlk := fun q => boot_own_lookup root l q Hnd).
  constructor; [done|..].
  - intros q x. rewrite Hlk. repeat case_decide; intros [= <-]; [by subst|].
    by eapply Forall_forall in Hpl; [|apply list_elem_of_In].
  - intros q. rewrite Hlk. repeat case_decide; [subst; naive_solver|naive_solver..].
  - intros q r. rewrite Hlk. repeat case_decide; intros [= <-]. done.
  - intros q x i. rewrite Hlk. repeat case_decide; intros [= <-] Hi y Hc; [|done].
    cbn [child] in Hc. destruct (Z.leb_spec 3 i); [|done]. subst q.
    rewrite zero_pte_invalid by (apply Hz; lia). done.
  - intros q y. rewrite Hlk. by repeat case_decide; intros [= <-].
  - intros q r i2 i1. rewrite Hlk. by repeat case_decide.
Qed.

Lemma direct_map_ext L m m' :
  layout_ok L -> (forall b, b < kimg_end L -> load8 m' b = load8 m b) ->
  direct_map L m -> direct_map L m'.
Proof.
  intros HL Hm [D1 D2 D3 D4 D5 D6 D7 D8].
  pose proof (index_bounds L HL) as (B1 & B2 & B3 & B4 & B5).
  pose proof (lo_tables L HL) as Htab. inversion_clear Htab as [|? ? T2 Ht'].
  inversion_clear Ht' as [|? ? T1 Ht'']. inversion_clear Ht'' as [|? ? T0 _].
  assert (Hpte : forall t i, t + PAGE_SIZE <= kimg_end L -> 0 <= i < 512 ->
    load_pte m' (slot t i) = load_pte m (slot t i)).
  { intros t i Ht Hi. apply load_pte_ext. intros b Hb. apply Hm.
    unfold slot, PAGE_SIZE in *. lia. }
  constructor.
  - intros. rewrite Hpte by lia. auto.
  - by rewrite Hpte by lia.
  - by rewrite Hpte by lia.
  - intros. rewrite Hpte by lia. auto.
  - intros. rewrite Hpte by lia. auto.
  - intros. rewrite Hpte by lia. auto.
  - intros. rewrite Hpte by lia. auto.
  - intros i Hi. rewrite <- (D8 i Hi). apply load64_ext. intros b Hb. apply Hm.
    unfold slot, PAGE_SIZE in *. lia.
Qed.

Definition pool_base (L : layout) : Z := kimg_end L + PAGE_SIZE.
Definition pool_count (L : layout) : nat := Z.to_nat ((RAM_END - pool_base L) / PAGE_SIZE).
Definition pool_pages (L : layout) : list Z := pages_down (pool_base L) (pool_count L).

Lemma pool_base_bounds L :
  layout_ok L -> page (pool_base L) /\ RAM_START < pool_base L /\ pool_base L + PAGE_SIZE <= RAM_END.
Proof.
  intros HL. pose proof (lo_size L HL). pose proof (lo_order L HL).
  destruct (lo_align L HL) as (_ & _ & Ha).
  unfold pool_base, page, RAM_END, RAM_SIZE, RAM_START, MEGA_SIZE, PAGE_SIZE in *.
  repeat split; zdiv.
Qed.

Lemma pool_pages_elem L p :
  layout_ok L -> p ∈ pool_pages L <-> page p /\ pool_base L <= p < RAM_END.
Proof.
  intros HL. destruct (pool_base_bounds L HL) as ((Ha & _) & Hb & He).
  unfold pool_pages, pool_count. rewrite pages_down_elem.
  unfold page, RAM_END, RAM_SIZE, RAM_START, PAGE_SIZE in *. split.
  - intros (k & Hk & ->). repeat split; zdiv.
  - intros ((H1 & H2 & H3) & H4). exists ((p - pool_base L) / 4096). split; zdiv.
Qed.

(** What [memory_init] leaves behind. *)
Record booted (L : layout) (h' : hstate) : Prop := {
  bt_map : direct_map L (hmem h');
  bt_satp : satp (h_vm h') = sv39_mtag 0 (main_pt2 L) /\ main_mtag (h_vm h') = satp (h_vm h');
  bt_flags : sstatus_sum (h_vm h') = true /\ memory_initialized (h_vm h') = true /\
    heap_initialized h' = true;
  bt_heap : heap_start h' = kimg_end L /\ heap_end h' = pool_base L;
  bt_free : free_ok (h_vm h') (pool_pages L) (pool_base L);
  bt_self : load64 (hmem h') (pool_base L) = pool_base L
}.

Lemma heap_end_computed L : layout_ok L ->
  (let e0 := round_up_addr (kimg_end L) PAGE_SIZE in
   if e0 - kimg_end L <? HEAP_INIT_MIN
   then e0 + round_up_addr (HEAP_INIT_MIN - (e0 - kimg_end L)) PAGE_SIZE else e0) = pool_base L.
Proof.
  intros HL. pose proof (lo_size L HL). pose proof (lo_order L HL).
  destruct (lo_align L HL) as (_ & _ & Ha).
  assert (round_up_addr (kimg_end L) PAGE_SIZE = kimg_end L) as ->.
  { unfold round_up_addr, RAM_START, MEGA_SIZE, PAGE_SIZE in *.
    rewrite (w64_small (_ - 1)) by lia. rewrite w64_small by zdiv. zdiv. }
  cbv zeta. by rewrite Z.sub_diag.
Qed.

Lemma memory_init_run L h :
  layout_ok L -> bss_zero L (hmem h) ->
  exists h', memory_init L h = Done tt h' /\ booted L h'.
Proof.
  intros HL Hz. destruct (pool_base_bounds L HL) as (Hpb & Hb & He).
  destruct (map_kernel_ok L h HL Hz) as (m1 & E1 & D1 & O1).
  pose proof (lo_size L HL) as Hsz. pose proof (lo_start L HL) as Hst.
  set (base := pool_base L) in *.
  set (mt := sv39_mtag 0 (main_pt2 L)).
  set (h2 := MkH (kimg_end L) base true
    (MkM m1 base mt mt (sstatus_sum (h_vm h)) (memory_initialized (h_vm h)))).
  destruct (for_range_inv (pool base h2) base RAM_END PAGE_SIZE link_free_page h2)
    as (h3 & E3 & [P1 P2 P3 P4 P5]); [done|unfold PAGE_SIZE in He; lia| | |].
  { constructor; try done. simpl. destruct Hpb as (_ & ? & ?). lia. }
  { intros k h3 Hk Hlt. by apply pool_step. }
  eexists. split.
  - unfold memory_init. rewrite Hst. unfold assert. rewrite Z.eqb_refl.
    unfold bind at 1, ret. destruct (Z.ltb_spec MEGA_SIZE (kimg_end L - RAM_START)); [lia|].
    mstep E1. unfold bind at 1, on_vm at 1, lift, modify. cbv zeta.
    pose proof (heap_end_computed L HL) as Hc. cbv zeta in Hc. rewrite Hc. fold base.
    destruct (Z.ltb_spec RAM_END base); [unfold PAGE_SIZE in He; lia|].
    unfold heap_init, assert.
    destruct (Z.ltb_spec (kimg_end L) base); [|unfold base, pool_base, PAGE_SIZE in *; lia].
    unfold bind at 1, ret, modify. unfold bind at 1. unfold bind at 1, on_vm at 1, lift.
    cbn [h_vm set_vm upd_mem set_mem set_free_list ms_mem free_list satp main_mtag sstatus_sum
         memory_initialized heap_start heap_end heap_initialized].
    mstep E3. reflexivity.
  - assert (Hcount : Z.to_nat ((RAM_END - base + PAGE_SIZE - 1) / PAGE_SIZE) = pool_count L).
    { unfold pool_count. fold base. f_equal. destruct Hpb as (Ha & _).
      unfold RAM_END, RAM_START, RAM_SIZE, PAGE_SIZE in *. zdiv. }
    rewrite Hcount in P1. unfold hmem in *.
    constructor; simpl.
    + apply (direct_map_ext L m1); [done| |done]. intros b Hb'. unfold hmem. simpl.
      apply P3. unfold base, pool_base, PAGE_SIZE. lia.
    + rewrite P5. done.
    + rewrite P5. done.
    + rewrite P5. done.
    + split; [exact P1|]. split; [apply pages_down_NoDup|]. split; [|done].
      apply Forall_forall. intros p Hp. apply list_elem_of_In in Hp.
      by apply pool_pages_elem in Hp as [? _].
    + apply P4. unfold RAM_END, RAM_START, RAM_SIZE, PAGE_SIZE in *. zdiv.
Qed.

(** [n] allocations in a row, with the pages they return. *)
Fixpoint alloc_many (n : nat) : M mstate (list Z) :=
  match n with
  | O => ret []
  | S n' => p <- memory_alloc_page ;; l <- alloc_many n' ;; ret (p :: l)
  end.

Lemma alloc_many_run l last s :
  free_ok s l last ->
  exists s', alloc_many (length l) s = Done l s' /\ free_ok s' [] last.
Proof.
  revert s. induction l as [|p l IH]; intros s Hf; [by exists s|].
  destruct (IH (alloc_state s) (free_ok_alloc _ _ _ _ Hf)) as (s' & E & Hf').
  exists s'. split; [|done]. cbn [length alloc_many].
  mstep (memory_alloc_page_eq s (free_ok_head_nonnull _ _ _ _ Hf)). mstep E.
  destruct Hf as ([-> _] & _). done.
Qed.

Lemma sv39_mtag_root asid r :
  page r -> 0 <= asid < 2^16 -> mtag_to_root (sv39_mtag asid r) = r.
Proof.
  unfold sv39_mtag, RISCV_SATP_MODE_Sv39, RISCV_SATP_MODE_shift, RISCV_SATP_ASID_shift.
  exact (mtag_to_root_sv39 r asid).
Qed.

Lemma main_pt2_page L : layout_ok L -> page (main_pt2 L) /\ main_pt2 L + PAGE_SIZE <= kimg_end L.
Proof.
  intros HL. pose proof (lo_tables L HL) as Htab. inversion_clear Htab as [|? ? T2 _].
  pose proof (lo_size L HL).
  unfold page, RAM_START, MEGA_SIZE, PAGE_SIZE in *. lia.
Qed.

(** Boot establishes the invariants of the page allocator and of the heap. *)
Lemma booted_heap_inv L h' :
  layout_ok L -> booted L h' ->
  heap_inv h' (boot_own (main_pt2 L) (pool_pages L)) (pool_pages L) (pool_base L) [].
Proof.
  intros HL [D _ _ [Hs He] Hf _]. destruct (main_pt2_page L HL) as [Hp2 Hp2e].
  destruct (pool_base_bounds L HL) as (Hpb & Hb1 & Hb2).
  assert (Hnd : NoDup (pool_pages L)) by apply pages_down_NoDup.
  assert (Hn2 : main_pt2 L ∉ pool_pages L).
  { rewrite pool_pages_elem by done. unfold pool_base, PAGE_SIZE in *. lia. }
  assert (Hbase : pool_base L = kimg_end L + 4096) by done.
  constructor.
  - apply minv_boot; auto. apply (dm_upper _ _ D).
  - rewrite Hs, He. pose proof (lo_order L HL).
    unfold RAM_END, RAM_SIZE, RAM_START, PAGE_SIZE in *. lia.
  - rewrite He. destruct Hpb as (Ha & _). unfold PAGE_SIZE in Ha. zdiv.
  - constructor; [|done]. rewrite Hs, He. intros a Ha. left. unfold inside in Ha; simpl in Ha.
    destruct (lo_align L HL) as (_ & _ & Hal).
    assert (page_of a = kimg_end L) as ->.
    { unfold page_of, PAGE_SIZE in *. zdiv. }
    rewrite boot_own_lookup by done. unfold PAGE_SIZE in *.
    rewrite !decide_False; [done| |lia]. rewrite pool_pages_elem by done. lia.
  - split; constructor.
Qed.

(** ** Properties *)

Definition boot_layout : layout :=
  MkLayout 0x80000000 0x80000000 0x80003010 0x80004000 0x80004100 0x80005000 0x80010000
    0x8000C000 0x8000D000 0x8000E000.

Lemma boot_layout_ok : layout_ok boot_layout.
Proof.
  constructor; unfold RAM_START, MEGA_SIZE, PAGE_SIZE; simpl; try reflexivity; try lia;
    try (repeat split; lia || reflexivity).
  - repeat apply Forall_cons_2; try apply Forall_nil_2; split; try lia; reflexivity || (split; lia).
  - repeat constructor; rewrite ?not_elem_of_cons; repeat split; try lia; apply not_elem_of_nil.
Qed.

Definition boot_state : hstate := MkH 0 0 false (MkM ∅ 0 0 0 false false).

Lemma boot_bss : bss_zero boot_layout (hmem boot_state).
Proof. intros i Hi. apply load64_empty. Qed.

(** C1: after [memory_init] the processor's Sv39 translation, started from the
    page table [satp] names, maps every address of the MMIO range, the kernel
    image and RAM to itself, with the permissions of its section: RW below
    [RAM_START], RX for text, R for read-only data, RW for data, heap and the
    free page pool. *)
Theorem memory_init_direct_map L h :
  layout_ok L -> bss_zero L (hmem h) ->
  exists h', memory_init L h = Done tt h' /\
    forall va f, kernel_perm L va = Some f ->
      sv39_translate (ms_mem (h_vm h')) (mtag_to_root (satp (h_vm h'))) va =
      Some (va, leaf_flags f).
Proof.
  intros HL Hz. destruct (memory_init_run L h HL Hz) as (h' & E & B).
  exists h'. split; [done|]. intros va f Hf. destruct (bt_satp _ _ B) as [-> _].
  rewrite sv39_mtag_root by (lia || by apply main_pt2_page).
  apply kernel_translate; [done|apply (bt_map _ _ B)|done].
Qed.

Lemma memory_init_direct_map_witness :
  exists h', memory_init boot_layout boot_state = Done tt h' /\
    forall va f, kernel_perm boot_layout va = Some f ->
      sv39_translate (ms_mem (h_vm h')) (mtag_to_root (satp (h_vm h'))) va =
      Some (va, leaf_flags f).
Proof. exact (memory_init_direct_map boot_layout boot_state boot_layout_ok boot_bss). Defined.

(** [memory_init] establishes the ownership invariant and the heap
    invariant: every page from the end of the initial heap to the end of RAM is
    free, no page is free and in use, and the heap's region is disjoint from
    the free pages and the page tables. *)
Theorem memory_init_establishes_inv L h :
  layout_ok L -> bss_zero L (hmem h) ->
  exists h', memory_init L h = Done tt h' /\
    heap_inv h' (boot_own (main_pt2 L) (pool_pages L)) (pool_pages L) (pool_base L) [] /\
    (forall p, p ∈ pool_pages L <-> page p /\ kimg_end L + PAGE_SIZE <= p < RAM_END) /\
    mtag_to_root (main_mtag (h_vm h')) = main_pt2 L.
Proof.
  intros HL Hz. destruct (memory_init_run L h HL Hz) as (h' & E & B).
  exists h'. split; [done|]. split; [by apply booted_heap_inv|].
  split; [intros p; by apply pool_pages_elem|].
  destruct (bt_satp _ _ B) as [E1 E2]. rewrite E2, E1.
  rewrite sv39_mtag_root by (lia || by apply main_pt2_page). done.
Qed.

Lemma memory_init_establishes_inv_witness :
  exists h', memory_init boot_layout boot_state = Done tt h' /\
    heap_inv h' (boot_own 0x8000C000 (pool_pages boot_layout)) (pool_pages boot_layout)
      (pool_base boot_layout) [].
Proof.
  destruct (memory_init_establishes_inv boot_layout boot_state boot_layout_ok boot_bss)
    as (h' & E & HI & _).
  exists h'. split; [exact E|exact HI].
Defined.

(** the free list [memory_init] builds ends in a page that is its own
    successor: the allocator hands out every page of the pool once, and the
    next allocation, instead of failing, returns the first page of the pool a
    second time while its first owner still has it. *)
Theorem memory_init_last_page_twice L h :
  layout_ok L -> bss_zero L (hmem h) ->
  exists h' s1 s2, memory_init L h = Done tt h' /\
    alloc_many (pool_count L) (h_vm h') = Done (pool_pages L) s1 /\
    memory_alloc_page s1 = Done (pool_base L) s2 /\
    pool_base L ∈ pool_pages L /\ NoDup (pool_pages L).
Proof.
  intros HL Hz. destruct (memory_init_run L h HL Hz) as (h' & E & B).
  destruct (pool_base_bounds L HL) as (Hpb & _ & Hb).
  destruct (alloc_many_run _ _ _ (bt_free _ _ B)) as (s1 & E1 & (Hh & _)).
  unfold pool_pages in E1 at 1. rewrite pages_down_length in E1. simpl in Hh.
  assert (Hn : free_list s1 <> NULL) by (rewrite Hh; destruct Hpb; unfold NULL; lia).
  exists h', s1, (alloc_state s1). split; [done|]. split; [done|].
  split; [by rewrite (memory_alloc_page_eq s1 Hn), Hh|]. split; [|apply pages_down_NoDup].
  apply pool_pages_elem; [done|]. split; [done|]. unfold PAGE_SIZE in Hb. lia.
Qed.

Lemma memory_init_last_page_twice_witness :
  exists h' s1 s2, memory_init boot_layout boot_state = Done tt h' /\
    alloc_many (pool_count boot_layout) (h_vm h') = Done (pool_pages boot_layout) s1 /\
    memory_alloc_page s1 = Done (pool_base boot_layout) s2.
Proof.
  destruct (memory_init_last_page_twice boot_layout boot_state boot_layout_ok boot_bss)
    as (h' & s1 & s2 & E & E1 & E2 & _).
  exists h', s1, s2. split; [exact E|]. split; [exact E1|exact E2].
Defined.
