(* ===== verification/Clone.v ===== *)
(** * Cloning an address space (memory.c, [memory_space_clone])

    The child gets the kernel's global entries and, for every mapped page of
    the parent's user range, a fresh page with the parent's flags and a copy of
    its contents.  The theorem at the end states this, together with what does
    not change: every other address space, and the contents of every page that
    was in use. *)

From stdpp Require Import base gmap list strings numbers.
From Stdlib Require Import Lia ZArith.
From S2P Require Import Prelude CMem PageAlloc PageTable PageInv VmSpace UserRange Heap MemInit.
Local Open Scope Z_scope.
Local Open Scope kern_scope.

(** ** The operation *)

(** [child_root[i] = main_pt2[i]] for the global entries. *)
Definition copy_global_entry (main child_root i : Z) : M mstate unit :=
  m <- gets ms_mem ;;
  if has (load_pte m (slot main i)) PTE_G
  then modify (set_mem (store_pte m (slot child_root i) (load_pte m (slot main i))))
  else ret tt.

Definition clone_page (parent_root_pt child_root vma : Z) : M mstate unit :=
  parent_pte <- walk_pt parent_root_pt vma false ;;
  m <- gets ms_mem ;;
  if (parent_pte =? NULL) || negb (has (load_pte m parent_pte) PTE_V) then ret tt
  else
    let parent_phys_page := pagenum_to_pageptr (pte_ppn (load_pte m parent_pte)) in
    child_pte <- walk_pt child_root vma true ;;
    child_pt <- memory_alloc_page ;;
    if child_pte =? NULL then undef "memory_space_clone: store through a NULL entry" else
    modify (fun s => set_mem (store_pte (ms_mem s) child_pte
      (set_ppn (pageptr_to_pagenum child_pt) (load_pte (ms_mem s) child_pte))) s) ;;
    modify (fun s => set_mem (store_pte (ms_mem s) child_pte
      (set_flags (Z.lor (pte_flags (load_pte (ms_mem s) child_pte))
                        (pte_flags (load_pte (ms_mem s) parent_pte)))
         (load_pte (ms_mem s) child_pte))) s) ;;
    m' <- gets ms_mem ;;
    let child_phys_page := pagenum_to_pageptr (pte_ppn (load_pte m' child_pte)) in
    modify (set_mem (memcpy m' child_phys_page parent_phys_page (Z.to_nat PAGE_SIZE))).

(** [main] is the address of [main_pt2], [parent_mtag] the tag of the current
    process. *)
Definition memory_space_clone (main parent_mtag asid : Z) : M mstate Z :=
  let parent_root_pt := mtag_to_root parent_mtag in
  new_root <- memory_alloc_page ;;
  if new_root =? NULL then ret 0 else
  modify (fun s => set_mem (zero_page (ms_mem s) new_root) s) ;;
  for_upto (Z.to_nat PTE_CNT) 0 (copy_global_entry main new_root) ;;
  for_upto USER_PAGES 0 (fun k => clone_page parent_root_pt new_root (user_page k)) ;;
  ret (sv39_mtag asid new_root).

(** ** One page *)

(** Two stores to the entry [a] of an unmapped page, the second one valid. *)
Lemma extends_write_fresh s own s1 own1 p m' :
  extends s own s1 own1 -> (forall x, own !! p = Some x -> live x = false) -> page p ->
  (forall q x, own !! q = Some x -> page q) -> same_outside p (ms_mem s1) m' ->
  extends s own (set_mem m' s1) own1.
Proof.
  intros [E1 E2 E3 E5 E6 E4] Hp Hg Hpg Hso. constructor; auto.
  - intros q x i Hq Hx Hi Hv. rewrite <- (E2 q x i) by done.
    apply (load_pte_same_outside p); eauto. intros ->. specialize (Hp x Hq). congruence.
  - intros q r i2 i1 i0 Hq. rewrite <- (E3 q r i2 i1 i0 Hq).
    apply (same_outside_bytes p); eauto. intros ->. discriminate (Hp _ Hq).
  - intros q r i Hq Hi Hv. cbn [ms_mem set_mem]. rewrite (load_pte_same_outside p q (ms_mem s1)); eauto; try lia.
    intros ->. discriminate (Hp _ Hq).
Qed.

(** What one iteration does for a mapped page. *)
Record page_cloned (s : mstate) (own : gmap Z role) (l : list Z) (last c vma : Z) (e : pte)
    (s' : mstate) (own' : gmap Z role) (l' : list Z) (e' : pte) : Prop := {
  pc_inv : minv s' own' l' last;
  pc_len : (length l <= length l' + 3)%nat;
  pc_ext : extends s own s' own';
  pc_lookup : forall r' v, own !! r' = Some (Root r') -> 3 <= VPN2 v ->
    lookup_pte (ms_mem s') r' v =
    if decide (page_role r' v = page_role c vma) then Some e' else lookup_pte (ms_mem s) r' v;
  pc_flags : pte_flags e' = pte_flags e;
  pc_own : own' !! ppage e' = Some (page_role c vma);
  pc_content : bytes (ms_mem s') (ppage e') (Z.to_nat PAGE_SIZE) =
    bytes (ms_mem s) (ppage e) (Z.to_nat PAGE_SIZE)
}.

Lemma land_flags_0 e : pte_flags e = 0 -> has e PTE_V = false.
Proof. unfold has. by intros ->. Qed.

Section ClonePage.
(** The state [s] after the walk that created the child's tables: the entry
    at [a] is invalid, [pp] is the next free page, the parent's entry at [b]
    is valid. *)
Context (s : mstate) (own : gmap Z role) (pp : Z) (l : list Z) (last r c vma p0 q0 : Z).
Local Notation a := (slot p0 (VPN0 vma)).
Local Notation b := (slot q0 (VPN0 vma)).
Local Notation e := (load_pte (ms_mem s) b).
Hypothesis HI : minv s own (pp :: l) last.
Hypothesis Hc : own !! c = Some (Root c).
Hypothesis Hu : 3 <= VPN2 vma.
Hypothesis Hp0 : own !! p0 = Some (path_role c vma 0).
Hypothesis Hq0 : own !! q0 = Some (path_role r vma 0).
Hypothesis Hfind : find_slot (ms_mem s) 2 c vma = a.
Hypothesis Hva : has (load_pte (ms_mem s) a) PTE_V = false.
Hypothesis Hvb : has e PTE_V = true.

Context (s3 s4 s5 : mstate) (own3 : gmap Z role) (e1 e2 : pte).
Hypothesis Ds3 : s3 = alloc_state s.
Hypothesis Down3 : own3 = <[pp := page_role c vma]> own.
Hypothesis De1 : e1 = set_ppn (pageptr_to_pagenum pp) (load_pte (ms_mem s3) a).
Hypothesis Ds4 : s4 = set_mem (store_pte (ms_mem s3) a e1) s3.
Hypothesis De2 : e2 =
  set_flags (Z.lor (pte_flags (load_pte (ms_mem s4) a)) (pte_flags (load_pte (ms_mem s4) b)))
    (load_pte (ms_mem s4) a).
Hypothesis Ds5 : s5 = set_mem (store_pte (ms_mem s4) a e2) s4.

Lemma cp_fresh : own !! pp = Some Free.
Proof. apply (mi_list _ _ _ _ HI). by left. Qed.

Lemma cp_pages : page pp /\ page p0 /\ page q0 /\ pp <> p0 /\ pp <> q0 /\ p0 <> q0.
Proof.
  pose proof cp_fresh as Hf.
  split; [exact (mi_page _ _ _ _ HI _ _ Hf)|]. split; [exact (mi_page _ _ _ _ HI _ _ Hp0)|].
  split; [exact (mi_page _ _ _ _ HI _ _ Hq0)|].
  repeat split; intros E; rewrite E in *; [rewrite Hp0 in Hf|rewrite Hq0 in Hf|rewrite Hq0 in Hp0];
    try discriminate.
  cbn [path_role] in Hp0. congruence.
Qed.

Lemma cp_alloc :
  minv s3 own3 l last /\ extends s own s3 own3 /\ same_map own (ms_mem s) (ms_mem s3) /\
  load_pte (ms_mem s3) a = load_pte (ms_mem s) a /\ load_pte (ms_mem s3) b = e.
Proof.
  destruct cp_pages as (Hg & Hg0 & Hgq & N1 & N2 & N3).
  destruct (minv_alloc s own pp l last (page_role c vma) HI) as [HI1 Hex1]; [done..|].
  rewrite <- Ds3, <- Down3 in HI1, Hex1.
  assert (Hso : same_outside pp (ms_mem s) (ms_mem s3)).
  { rewrite Ds3. simpl. assert (free_list s = pp) as -> by apply (mi_free _ _ _ _ HI).
    apply same_outside_zero. }
  split; [done|]. split; [done|]. split; [rewrite Ds3; by eapply same_map_alloc|].
  split; apply (load_pte_same_outside pp); auto using VPN0_range.
Qed.

Lemma cp_clean : pte_flags (load_pte (ms_mem s3) a) = 0.
Proof.
  destruct cp_alloc as (_ & _ & _ & -> & _).
  exact (mi_clean _ _ _ _ HI p0 _ _ _ Hp0 _ (VPN0_range vma) Hva).
Qed.

Lemma cp_entries :
  load_pte (ms_mem s4) a = e1 /\ load_pte (ms_mem s4) b = e /\ pte_flags e1 = 0 /\
  pte_flags e2 = pte_flags e /\ ppage e2 = pp /\ pte_wf e1 /\ pte_wf e2.
Proof.
  destruct cp_pages as (Hg & Hg0 & Hgq & N1 & N2 & N3).
  destruct cp_alloc as (_ & _ & _ & Ea & Eb).
  assert (Hwf1 : pte_wf e1) by (rewrite De1; auto with kern).
  assert (H1 : load_pte (ms_mem s4) a = e1) by (rewrite Ds4; by apply load_store_pte_same).
  assert (H2 : load_pte (ms_mem s4) b = e).
  { rewrite Ds4. cbn [ms_mem set_mem]. rewrite load_store_pte_other; [done|].
    apply slot_disjoint; [exact Hgq|exact Hg0|apply VPN0_range|apply VPN0_range|].
    left. intros E. apply N3. by symmetry. }
  assert (Hf1 : pte_flags e1 = 0) by (rewrite De1; cbn [set_ppn pte_flags]; exact cp_clean).
  split; [done|]. split; [done|]. split; [done|].
  assert (He2 : e2 = set_flags (pte_flags e) e1) by (by rewrite De2, H1, H2, Hf1, Z.lor_0_l).
  rewrite He2. split; [|split; [rewrite De1; by apply pagenum_of_page|split; auto with kern]].
  pose proof (load_pte_wf (ms_mem s) b) as (Hr & _). cbn [set_flags pte_flags].
  by apply Z.mod_small.
Qed.

Lemma cp_stored :
  minv s5 own3 l last /\ extends s own s5 own3 /\
  (forall r' v, own !! r' = Some (Root r') -> 3 <= VPN2 v ->
    lookup_pte (ms_mem s5) r' v =
    if decide (page_role r' v = page_role c vma) then Some e2 else lookup_pte (ms_mem s) r' v).
Proof.
  destruct cp_alloc as (HI3 & Hex3 & Hmap & Ea & _).
  destruct cp_entries as (L1 & L2 & Hf1 & Hfl & Hpp & Hw1 & Hw2).
  pose proof cp_clean as Hcl. destruct cp_pages as (Hg & Hg0 & Hgq & N1 & N2 & N3).
  assert (Hp3 : own3 !! p0 = Some (path_role c vma 0)) by (by rewrite Down3, lookup_insert_ne).
  assert (Hc3 : own3 !! c = Some (Root c)) by (by apply (ex_own _ _ _ _ Hex3)).
  assert (Hv3 : has (load_pte (ms_mem s3) a) PTE_V = false) by (by apply land_flags_0).
  assert (Hve1 : has e1 PTE_V = false) by (by apply land_flags_0).
  assert (Hve2 : has e2 PTE_V = true) by (unfold has; by rewrite Hfl).
  assert (Hfind3 : find_slot (ms_mem s3) 2 c vma = a).
  { rewrite <- Hfind. eapply find_slot_extends; eauto. rewrite Hfind. by apply slot_nonnull; [|apply VPN0_range]. }
  assert (HI4 : minv s4 own3 l last).
  { rewrite Ds4. eapply minv_store_entry; eauto using VPN0_range.
    intros y _ Hv. congruence. }
  assert (HI5 : minv s5 own3 l last).
  { rewrite Ds5. eapply minv_store_entry; eauto using VPN0_range; [|done|congruence].
    intros y [= <-] _. split; [done|]. rewrite Hpp, Down3. apply lookup_insert_eq. }
  assert (Hex4 : extends s3 own3 s4 own3) by (rewrite Ds4; eapply extends_store_entry; eauto using VPN0_range).
  assert (Hex5 : extends s4 own3 s5 own3).
  { rewrite Ds5. eapply extends_store_entry; eauto using VPN0_range. by rewrite L1. }
  split; [done|]. split; [eapply extends_trans; [eauto|]; eapply extends_trans; eauto|].
  intros r' v Hr' Hv'.
  assert (Hr3 : own3 !! r' = Some (Root r')) by (by apply (ex_own _ _ _ _ Hex3)).
  rewrite Ds5. cbn [ms_mem set_mem].
  rewrite (lookup_pte_store_leaf s4 own3 l last p0 c vma); auto.
  2:{ rewrite Ds4. cbn [ms_mem set_mem].
      by rewrite (find_slot_store_leaf s3 own3 l last p0 c vma e1 c vma 2 c). }
  rewrite Hve2. case_decide as E; [done|]. rewrite Ds4. cbn [ms_mem set_mem].
  rewrite (lookup_pte_store_leaf s3 own3 l last p0 c vma); auto.
  rewrite decide_False by done. by apply Hmap.
Qed.
End ClonePage.

Lemma pagenum_to_pageptr_ppage e : pte_wf e -> pagenum_to_pageptr (pte_ppn e) = ppage e.
Proof. exact (shiftl_ppn e). Qed.

Lemma memcpy_same_outside m p q :
  page p -> page q -> p <> q ->
  same_outside p m (memcpy m p q (Z.to_nat PAGE_SIZE)) /\
  bytes (memcpy m p q (Z.to_nat PAGE_SIZE)) p (Z.to_nat PAGE_SIZE) = bytes m q (Z.to_nat PAGE_SIZE).
Proof.
  intros (Hp & _) (Hq & _) Hne.
  assert (Hd : q + Z.of_nat (Z.to_nat PAGE_SIZE) <= p \/ p + Z.of_nat (Z.to_nat PAGE_SIZE) <= q).
  { unfold PAGE_SIZE in *. zdiv. }
  split; [|by apply bytes_memcpy]. intros a Ha. rewrite load8_memcpy by done.
  rewrite decide_False; [done|]. unfold in_page, PAGE_SIZE in *. lia.
Qed.

Lemma clone_page_skip s r c vma :
  lookup_pte (ms_mem s) r vma = None -> clone_page r c vma s = Done tt s.
Proof.
  intros Hl. unfold clone_page. mstep (walk_pt_read r vma s). unfold bind at 1, gets.
  unfold lookup_pte, lookup_from in Hl.
  destruct (_ =? NULL); [done|]. by destruct (has _ PTE_V).
Qed.

(** The intermediate states of [ClonePage] exist. *)
Lemma clone_states s (own : gmap Z role) pp c vma p0 q0 :
  exists (s3 s4 s5 : mstate) (own3 : gmap Z role) (e1 e2 : pte),
    s3 = alloc_state s /\ own3 = <[pp := page_role c vma]> own /\
    e1 = set_ppn (pageptr_to_pagenum pp) (load_pte (ms_mem s3) (slot p0 (VPN0 vma))) /\
    s4 = set_mem (store_pte (ms_mem s3) (slot p0 (VPN0 vma)) e1) s3 /\
    e2 = set_flags (Z.lor (pte_flags (load_pte (ms_mem s4) (slot p0 (VPN0 vma))))
                          (pte_flags (load_pte (ms_mem s4) (slot q0 (VPN0 vma)))))
           (load_pte (ms_mem s4) (slot p0 (VPN0 vma))) /\
    s5 = set_mem (store_pte (ms_mem s4) (slot p0 (VPN0 vma)) e2) s4.
Proof. repeat eexists. Qed.

Lemma clone_page_run s own l last r c vma e :
  minv s own l last -> own !! r = Some (Root r) -> own !! c = Some (Root c) -> r <> c ->
  3 <= VPN2 vma -> lookup_pte (ms_mem s) r vma = Some e -> lookup_pte (ms_mem s) c vma = None ->
  (3 <= length l)%nat ->
  exists s' own' l' e', clone_page r c vma s = Done tt s' /\
    page_cloned s own l last c vma e s' own' l' e'.
Proof.
  intros HI Hr Hc Hne Hu Hl Hlc Hlen.
  destruct (lookup_pte_slot s own l last r vma e HI Hr Hu Hl) as (q0 & Hq0 & Hfs & Hn & He & Hv).
  destruct (walk_from_create 2 s own l last c vma c HI) as (p0 & s2 & own2 & l2 & Hwalk & W);
    [done|done|done|lia|]. destruct W as [W1 W2 W3 W4 W5 W6].
  destruct l2 as [|pp l3]; [simpl in W5; lia|].
  assert (Hc2 : own2 !! c = Some (Root c)) by (by apply (ex_own _ _ _ _ W2)).
  assert (Hq2 : own2 !! q0 = Some (path_role r vma 0)) by (by apply (ex_own _ _ _ _ W2)).
  assert (Hd : own !! ppage e = Some (page_role r vma)) by (by eapply lookup_pte_owned).
  assert (Hd2 : own2 !! ppage e = Some (page_role r vma)) by (by apply (ex_own _ _ _ _ W2)).
  assert (He2 : load_pte (ms_mem s2) (slot q0 (VPN0 vma)) = e).
  { rewrite <- He. apply (ex_entry _ _ _ _ W2 q0 _ _ Hq0); [done|apply VPN0_range|by rewrite He]. }
  assert (Hg0 : page p0) by exact (mi_page _ _ _ _ W1 _ _ W3).
  assert (Han : slot p0 (VPN0 vma) <> NULL) by (apply slot_nonnull; [done|apply VPN0_range]).
  assert (Hva : has (load_pte (ms_mem s2) (slot p0 (VPN0 vma))) PTE_V = false).
  { pose proof (W6 c vma Hc Hu) as Hx. rewrite Hlc in Hx. unfold lookup_pte, lookup_from in Hx.
    cbv zeta in Hx. rewrite W4 in Hx. destruct (Z.eqb_spec (slot p0 (VPN0 vma)) NULL); [done|].
    destruct (has (load_pte (ms_mem s2) _) PTE_V); [discriminate|done]. }
  assert (Hvb : has (load_pte (ms_mem s2) (slot q0 (VPN0 vma))) PTE_V = true) by (by rewrite He2).
  destruct (clone_states s2 own2 pp c vma p0 q0) as (s3 & s4 & s5 & own3 & e1 & e2 & D1 & D2 & D3 & D4 & D5 & D6).
  destruct (cp_stored s2 own2 pp l3 last r c vma p0 q0 W1 Hc2 Hu W3 Hq2 W4 Hva Hvb
    s3 s4 s5 own3 e1 e2 D1 D2 D3 D4 D5 D6) as (HI5 & Hex5 & Hlk5).
  destruct (cp_entries s2 own2 pp l3 last r c vma p0 q0 W1 W3 Hq2 W4 Hva Hvb
    s3 s4 s5 own3 e1 e2 D1 D2 D3 D4 D5 D6) as (L1 & L2 & _ & Hfl & Hpp & Hw1 & Hw2).
  pose proof (cp_fresh s2 own2 pp l3 last W1) as Hfr.
  assert (Hfree : forall x, own !! pp = Some x -> live x = false).
  { intros x Hx. destruct (live x) eqn:E; [|done].
    rewrite (ex_own _ _ _ _ W2 pp x Hx E) in Hfr. injection Hfr as ->. discriminate E. }
  assert (Hfn : free_list s2 <> NULL) by (eapply free_ok_head_nonnull, (mi_free _ _ _ _ W1)).
  assert (Hfl2 : free_list s2 = pp) by apply (mi_free _ _ _ _ W1).
  assert (Hgp : page pp) by exact (mi_page _ _ _ _ W1 _ _ Hfr).
  assert (Hgd : page (ppage e)) by exact (mi_page _ _ _ _ HI _ _ Hd).
  assert (Hpd : pp <> ppage e) by (intros E; rewrite E, Hd2 in Hfr; discriminate).
  assert (Hwe : pte_wf e) by (rewrite <- He; auto with kern).
  assert (Hop : own3 !! pp = Some (page_role c vma)) by (rewrite D2; apply lookup_insert_eq).
  destruct (memcpy_same_outside (ms_mem s5) pp (ppage e) Hgp Hgd Hpd) as [Hso Hcp].
  assert (Hex : extends s own s5 own3) by (eapply extends_trans; eauto).
  exists (set_mem (memcpy (ms_mem s5) pp (ppage e) (Z.to_nat PAGE_SIZE)) s5), own3, l3, e2. split.
  - unfold clone_page. mstep (walk_pt_read r vma s). rewrite Hfs. unfold bind at 1, gets at 1.
    rewrite He, Hv, (proj2 (Z.eqb_neq _ _) Hn). cbn [orb negb].
    unfold walk_pt. mstep Hwalk. mstep (memory_alloc_page_eq s2 Hfn). rewrite Hfl2.
    rewrite (proj2 (Z.eqb_neq _ _) Han).
    unfold bind, modify, gets. rewrite <- D1, <- D3, <- D4, <- D5, <- D6.
    assert (load_pte (ms_mem s5) (slot p0 (VPN0 vma)) = e2) as ->
      by (rewrite D6; by apply load_store_pte_same).
    by rewrite !pagenum_to_pageptr_ppage, Hpp by done.
  - constructor.
    + eapply minv_write_data; eauto.
    + simpl in W5. lia.
    + apply (extends_write_fresh s own s5 own3 pp); auto. apply (mi_page _ _ _ _ HI).
    + intros r' v Hr' Hv'. cbn [ms_mem set_mem].
      assert (Hr2 : own2 !! r' = Some (Root r')) by (by apply (ex_own _ _ _ _ W2)).
      assert (Hr5 : own3 !! r' = Some (Root r')) by (by apply (ex_own _ _ _ _ Hex)).
      rewrite (same_map_write_data s5 own3 l3 last pp _ _ HI5 Hop eq_refl Hso r' v Hr5 Hv').
      rewrite Hlk5 by done. case_decide; [done|]. by apply W6.
    + by rewrite Hfl, He2.
    + by rewrite Hpp.
    + rewrite Hpp. cbn [ms_mem set_mem]. rewrite Hcp. by apply (ex_bytes _ _ _ _ Hex _ _ _ _ _ Hd).
Qed.

(** ** The loop over the user range *)

(** The mapped pages among the first [n] pages of the user range. *)
Definition mapped (m : mem) (r : Z) (n : nat) : list Z := freed (fun _ => true) m r n.

(** The child's entry for an address the parent maps with [e]. *)
Definition copy_of (s s' : mstate) (own' : gmap Z role) (c v : Z) (e : pte) : Prop :=
  exists e', lookup_pte (ms_mem s') c v = Some e' /\ pte_flags e' = pte_flags e /\
    own' !! ppage e' = Some (page_role c v) /\
    bytes (ms_mem s') (ppage e') (Z.to_nat PAGE_SIZE) = bytes (ms_mem s) (ppage e) (Z.to_nat PAGE_SIZE).

Record cloned (s : mstate) (own : gmap Z role) (l : list Z) (last r c : Z) (n : nat)
    (s' : mstate) (own' : gmap Z role) (l' : list Z) : Prop := {
  cl_inv : minv s' own' l' last;
  cl_len : (length l <= length l' + 3 * length (mapped (ms_mem s) r n))%nat;
  cl_ext : extends s own s' own';
  cl_other : forall r' v, own !! r' = Some (Root r') -> r' <> c -> 3 <= VPN2 v ->
    lookup_pte (ms_mem s') r' v = lookup_pte (ms_mem s) r' v;
  cl_mapped : forall v e, upper v -> USER_START_VMA <= v < user_page (Z.of_nat n) ->
    lookup_pte (ms_mem s) r v = Some e -> copy_of s s' own' c v e;
  cl_unmapped : forall v, upper v ->
    (USER_START_VMA <= v < user_page (Z.of_nat n) -> lookup_pte (ms_mem s) r v = None) ->
    lookup_pte (ms_mem s') c v = None
}.

Lemma mapped_S m r n :
  length (mapped m r (S n)) =
  (length (mapped m r n) + if lookup_pte m r (user_page (Z.of_nat n)) then 1 else 0)%nat.
Proof.
  unfold mapped. rewrite freed_S, length_app. f_equal. unfold selected.
  by destruct (lookup_pte m r _).
Qed.

Lemma mapped_mono m r n k : (n <= k)%nat -> (length (mapped m r n) <= length (mapped m r k))%nat.
Proof. induction 1; [done|]. rewrite mapped_S. lia. Qed.

Lemma mapped_ext m m' r n :
  (forall k, 0 <= k < 65536 -> lookup_pte m' r (user_page k) = lookup_pte m r (user_page k)) ->
  Z.of_nat n <= 65536 -> length (mapped m' r n) = length (mapped m r n).
Proof.
  intros H. induction n as [|n IH]; intros Hn; [done|].
  rewrite !mapped_S, H, IH by lia. done.
Qed.

Section CloneLoop.
Context (s : mstate) (own : gmap Z role) (l : list Z) (last r c : Z).
Hypothesis HI : minv s own l last.
Hypothesis Hr : own !! r = Some (Root r).
Hypothesis Hc : own !! c = Some (Root c).
Hypothesis Hne : r <> c.
Hypothesis Hlen : (3 * length (mapped (ms_mem s) r USER_PAGES) <= length l)%nat.
Hypothesis Hempty : forall v, 3 <= VPN2 v -> lookup_pte (ms_mem s) c v = None.

(** The addresses of page [n], and the rest of the range so far. *)
Lemma range_cases v n :
  upper v -> Z.of_nat n < 65536 -> USER_START_VMA <= v < user_page (Z.of_nat (S n)) ->
  USER_START_VMA <= v < user_page (Z.of_nat n) \/
  page_role c v = page_role c (user_page (Z.of_nat n)).
Proof.
  intros Hv Hn H. rewrite user_page_S in H. rewrite page_role_eq by (done || lia).
  destruct (Z.lt_ge_cases v (user_page (Z.of_nat n))); [left|right]; lia.
Qed.

Lemma not_same_page v n :
  upper v -> Z.of_nat n < 65536 -> USER_START_VMA <= v < user_page (Z.of_nat n) ->
  page_role c v <> page_role c (user_page (Z.of_nat n)).
Proof. intros Hv Hn H. rewrite page_role_eq by (done || lia). lia. Qed.

Lemma same_page_parent v n :
  page_role c v = page_role c (user_page (Z.of_nat n)) ->
  lookup_pte (ms_mem s) r v = lookup_pte (ms_mem s) r (user_page (Z.of_nat n)).
Proof. intros E. apply lookup_pte_role. unfold page_role in *. by injection E as -> -> ->. Qed.

Lemma cloned_skip n s1 own1 l1 :
  Z.of_nat n < 65536 -> cloned s own l last r c n s1 own1 l1 ->
  lookup_pte (ms_mem s) r (user_page (Z.of_nat n)) = None ->
  cloned s own l last r c (S n) s1 own1 l1.
Proof.
  intros Hn [C1 C2 C3 C4 C5 C6] Hnone. constructor; auto.
  - rewrite mapped_S, Hnone. lia.
  - intros v e Hv Hrg He. destruct (range_cases v n Hv Hn Hrg) as [?|E]; [by apply C5|].
    rewrite (same_page_parent _ _ E) in He. congruence.
  - intros v Hv Hrg. apply C6; [done|]. intros Hrg'. apply Hrg. rewrite user_page_S.
    unfold PAGE_SIZE. lia.
Qed.

Lemma cloned_add n s1 own1 l1 e s2 own2 l2 e' :
  Z.of_nat n < 65536 -> cloned s own l last r c n s1 own1 l1 ->
  lookup_pte (ms_mem s) r (user_page (Z.of_nat n)) = Some e ->
  page_cloned s1 own1 l1 last c (user_page (Z.of_nat n)) e s2 own2 l2 e' ->
  cloned s own l last r c (S n) s2 own2 l2.
Proof.
  intros Hn [C1 C2 C3 C4 C5 C6] He [P1 P2 P3 P4 P5 P6 P7].
  assert (Hroot : forall r', own !! r' = Some (Root r') -> own1 !! r' = Some (Root r')).
  { intros r' Hr'. by apply (ex_own _ _ _ _ C3). }
  constructor.
  - done.
  - rewrite mapped_S, He. lia.
  - by eapply extends_trans.
  - intros r' v Hr' Hrc Hv. rewrite P4 by auto. rewrite decide_False by (intros [= E _ _ _]; done).
    by apply C4.
  - intros v e0 Hv Hrg He0. destruct (range_cases v n Hv Hn Hrg) as [Hin|E].
    + destruct (C5 v e0 Hv Hin He0) as (e1 & L1 & F1 & O1 & B1).
      exists e1. rewrite P4 by (auto; apply Hv).
      rewrite decide_False by (by apply not_same_page). split; [done|]. split; [done|].
      split; [by apply (ex_own _ _ _ _ P3)|].
      by rewrite (ex_bytes _ _ _ _ P3 _ _ _ _ _ O1).
    + rewrite (same_page_parent _ _ E) in He0. assert (e0 = e) as -> by congruence.
      exists e'. rewrite P4 by (auto; apply Hv). rewrite decide_True by done.
      split; [done|]. split; [done|]. split; [by rewrite E|]. rewrite P7.
      assert (Hu : 3 <= VPN2 (user_page (Z.of_nat n))) by (apply user_page_vpn2; lia).
      exact (ex_bytes _ _ _ _ C3 _ _ _ _ _ (lookup_pte_owned _ _ _ _ _ _ _ HI Hr Hu He)).
  - intros v Hv Hrg. rewrite P4 by (auto; apply Hv). rewrite decide_False.
    + apply C6; [done|]. intros Hrg'. apply Hrg. rewrite user_page_S. unfold PAGE_SIZE. lia.
    + intros E. assert (Hx := E). apply page_role_eq in Hx; [|done|lia].
      rewrite (same_page_parent _ _ E) in Hrg. rewrite He in Hrg. discriminate Hrg.
      rewrite user_page_S. unfold user_page, PAGE_SIZE in *. lia.
Qed.

Lemma cloned_step n s1 own1 l1 :
  Z.of_nat n < 65536 -> cloned s own l last r c n s1 own1 l1 ->
  exists s2 own2 l2, clone_page r c (user_page (Z.of_nat n)) s1 = Done tt s2 /\
    cloned s own l last r c (S n) s2 own2 l2.
Proof.
  intros Hn C. set (vma := user_page (Z.of_nat n)).
  assert (Hu : upper vma) by (by apply user_upper, user_page_vma; lia).
  assert (Hsame : lookup_pte (ms_mem s1) r vma = lookup_pte (ms_mem s) r vma)
    by (by apply (cl_other _ _ _ _ _ _ _ _ _ _ C); [..|apply Hu]).
  destruct (lookup_pte (ms_mem s) r vma) as [e|] eqn:He.
  - destruct (clone_page_run s1 own1 l1 last r c vma e) as (s2 & own2 & l2 & e' & E & P).
    + apply C.
    + by apply (ex_own _ _ _ _ (cl_ext _ _ _ _ _ _ _ _ _ _ C)).
    + by apply (ex_own _ _ _ _ (cl_ext _ _ _ _ _ _ _ _ _ _ C)).
    + done.
    + apply Hu.
    + done.
    + apply (cl_unmapped _ _ _ _ _ _ _ _ _ _ C); [done|]. unfold vma. lia.
    + pose proof (cl_len _ _ _ _ _ _ _ _ _ _ C).
      pose proof (mapped_S (ms_mem s) r n) as HS. fold vma in HS. rewrite He in HS.
      pose proof (mapped_mono (ms_mem s) r (S n) USER_PAGES).
      pose proof USER_PAGES_eq. lia.
    + exists s2, own2, l2. split; [done|]. by eapply cloned_add.
  - exists s1, own1, l1. split; [by apply clone_page_skip|]. by apply cloned_skip.
Qed.

Lemma clone_loop :
  exists s' own' l',
    for_upto USER_PAGES 0 (fun k => clone_page r c (user_page k)) s = Done tt s' /\
    cloned s own l last r c USER_PAGES s' own' l'.
Proof.
  destruct (for_upto_inv
    (fun j s1 => 0 <= j /\ exists own1 l1, cloned s own l last r c (Z.to_nat j) s1 own1 l1)
    (fun k => clone_page r c (user_page k)) USER_PAGES 0 s) as (s' & E & _ & own' & l' & C).
  - split; [lia|]. exists own, l. constructor; auto using extends_refl.
    + simpl. lia.
    + intros v e _. unfold user_page, PAGE_SIZE. simpl. lia.
    + intros v Hv _. apply Hempty, Hv.
  - rewrite USER_PAGES_eq. intros j s1 Hj (_ & own1 & l1 & C).
    destruct (cloned_step (Z.to_nat j) s1 own1 l1) as (s2 & own2 & l2 & E & C2); [lia|done|].
    rewrite Z2Nat.id in E by lia. exists s2. split; [done|]. split; [lia|].
    exists own2, l2. by replace (Z.to_nat (j + 1)) with (S (Z.to_nat j)) by lia.
  - exists s', own', l'. split; [done|]. rewrite Z.add_0_l, Nat2Z.id in C. done.
Qed.
End CloneLoop.

(** ** The kernel's global entries *)

Section CopyGlobals.
Context (s : mstate) (own : gmap Z role) (l : list Z) (last g c : Z).
Hypothesis HI : minv s own l last.
Hypothesis Hg : own !! g = Some (Root g).
Hypothesis Hc : own !! c = Some (Root c).
Hypothesis Hne : g <> c.
Hypothesis Hzero : forall i, 0 <= i < 512 -> load_pte (ms_mem s) (slot c i) = null_pte.
Hypothesis Huser : forall i, 3 <= i < 512 -> has (load_pte (ms_mem s) (slot g i)) PTE_G = false.

Definition global_entry (i : Z) : pte :=
  if has (load_pte (ms_mem s) (slot g i)) PTE_G then load_pte (ms_mem s) (slot g i) else null_pte.

Record globals_copied (j : Z) (s' : mstate) : Prop := {
  gc_inv : minv s' own l last;
  gc_ext : extends s own s' own;
  gc_out : same_outside c (ms_mem s) (ms_mem s');
  gc_entry : forall i, 0 <= i < 512 ->
    load_pte (ms_mem s') (slot c i) = if i <? j then global_entry i else null_pte
}.

Lemma copy_global_step j s1 :
  0 <= j < 512 -> globals_copied j s1 ->
  exists s2, copy_global_entry g c j s1 = Done tt s2 /\ globals_copied (j + 1) s2.
Proof.
  intros Hj [G1 G2 G3 G4].
  assert (Hpg : page g) by exact (mi_page _ _ _ _ HI _ _ Hg).
  assert (Hpc : page c) by exact (mi_page _ _ _ _ HI _ _ Hc).
  assert (Hs : load_pte (ms_mem s1) (slot g j) = load_pte (ms_mem s) (slot g j)).
  { apply (load_pte_same_outside c); auto. }
  assert (Hcj : load_pte (ms_mem s1) (slot c j) = null_pte).
  { rewrite G4 by done. by rewrite Z.ltb_irrefl. }
  unfold copy_global_entry, bind, gets. rewrite Hs.
  destruct (has (load_pte (ms_mem s) (slot g j)) PTE_G) eqn:HG.
  - eexists. split; [reflexivity|].
    assert (Hj3 : j < 3) by (destruct (Z.lt_ge_cases j 3); [done|]; rewrite Huser in HG; [done|lia]).
    constructor; cbn [ms_mem set_mem].
    + eapply (minv_store_entry s1); eauto with kern; [|by rewrite Hcj|done].
      intros y Hy. cbn [child] in Hy. destruct (Z.leb_spec 3 j); [lia|done].
    + eapply extends_trans; [exact G2|]. eapply (extends_store_entry s1); eauto. by rewrite Hcj.
    + destruct (slot_in_page c j Hj). eapply same_outside_trans; [exact G3|].
      by apply same_outside_store64.
    + intros i Hi. destruct (decide (i = j)) as [->|Hij].
      * rewrite load_store_pte_same by auto with kern.
        replace (j <? j + 1) with true by lia. unfold global_entry. by rewrite HG.
      * rewrite load_store_pte_other, G4 by (done || destruct (slot_disjoint c c i j); auto).
        by replace (i <? j + 1) with (i <? j) by lia.
  - exists s1. split; [done|]. constructor; auto. intros i Hi. rewrite G4 by done.
    destruct (decide (i = j)) as [->|Hij].
    + rewrite Z.ltb_irrefl. replace (j <? j + 1) with true by lia. unfold global_entry. by rewrite HG.
    + by replace (i <? j + 1) with (i <? j) by lia.
Qed.

Lemma copy_globals :
  exists s', for_upto (Z.to_nat PTE_CNT) 0 (copy_global_entry g c) s = Done tt s' /\
    globals_copied 512 s'.
Proof.
  destruct (for_upto_inv (fun j s1 => globals_copied j s1) (copy_global_entry g c)
    (Z.to_nat PTE_CNT) 0 s) as (s' & E & G).
  - constructor; auto using extends_refl, same_outside_refl.
    intros i Hi. destruct (Z.ltb_spec i 0); [lia|auto].
  - change (Z.of_nat (Z.to_nat PTE_CNT)) with 512. intros j s1 Hj. apply copy_global_step. lia.
  - by exists s'.
Qed.
End CopyGlobals.

(** ** The whole operation *)

(** Memories with the same bytes satisfy the same invariant. *)
Lemma minv_same_bytes s own l last m' :
  (forall b, load8 m' b = load8 (ms_mem s) b) -> minv s own l last -> minv (set_mem m' s) own l last.
Proof.
  intros Hb [(F1 & F2 & F3 & F4) Hpg Hl Hr He Hk Hcl].
  assert (Hp : forall a, load_pte m' a = load_pte (ms_mem s) a) by (intros a; by apply load_pte_ext).
  constructor; cbn [ms_mem set_mem]; auto.
  - split; [|done]. eapply free_seg_ext; [exact F1|]. intros q _. by apply load64_ext.
  - intros q x i Hq Hi. rewrite Hp. by apply He.
  - intros p y Hy Ht. destruct (Hk p y Hy Ht) as (q & x & i & H). exists q, x, i. by rewrite Hp.
  - intros q r i2 i1 Hq i Hi. rewrite Hp. exact (Hcl q r i2 i1 Hq i Hi).
Qed.

Lemma rezero_bytes m p b : load8 (zero_page (zero_page m p) p) b = load8 (zero_page m p) b.
Proof. rewrite !zero_page_lookup. by case_decide. Qed.

(** The state before the two loops: the new root table is taken and zero. *)
Lemma clone_root s own c l last :
  minv s own (c :: l) last ->
  let s1 := set_mem (zero_page (ms_mem (alloc_state s)) c) (alloc_state s) in
  let own1 := <[c := Root c]> own in
  minv s1 own1 l last /\ extends s own s1 own1 /\ same_map own (ms_mem s) (ms_mem s1) /\
  (forall i, 0 <= i < 512 -> load_pte (ms_mem s1) (slot c i) = null_pte).
Proof.
  intros HI s1 own1.
  assert (Hf : own !! c = Some Free) by (apply (mi_list _ _ _ _ HI); by left).
  assert (Hg : page c) by exact (mi_page _ _ _ _ HI _ _ Hf).
  assert (Hfl : free_list s = c) by apply (mi_free _ _ _ _ HI).
  destruct (minv_alloc s own c l last (Root c) HI) as [HI1 Hex1]; [done|done|by intros ? [= ->]|].
  assert (Hb : forall b, load8 (ms_mem s1) b = load8 (ms_mem (alloc_state s)) b).
  { intros b. unfold s1. cbn [ms_mem set_mem alloc_state]. rewrite Hfl. apply rezero_bytes. }
  assert (Hp : forall a, load_pte (ms_mem s1) a = load_pte (ms_mem (alloc_state s)) a)
    by (intros a; by apply load_pte_ext).
  split; [by apply minv_same_bytes|]. split; [|split].
  - destruct Hex1 as [E1 E2 E3 E4 E5 E6]. constructor; auto.
    + intros q x i. rewrite Hp. apply E2.
    + intros q r i2 i1 i0 Hq. rewrite <- (E3 q r i2 i1 i0 Hq). by apply bytes_ext.
    + intros q r i. rewrite Hp. apply E5.
  - intros r v Hr Hu. rewrite <- (same_map_alloc s own c l last HI r v Hr Hu).
    assert (Hr1 : own1 !! r = Some (Root r)) by (by apply (ex_own _ _ _ _ Hex1)).
    eapply lookup_from_ext; eauto.
  - intros i Hi. unfold s1, load_pte. cbn [ms_mem set_mem]. destruct (slot_in_page c i Hi).
    by rewrite zero_page_load64.
Qed.

Lemma user_page_end : user_page (Z.of_nat USER_PAGES) = USER_END_VMA.
Proof. by rewrite USER_PAGES_eq. Qed.

(** The specification of the clone [c] of the space [r]. *)
Record clone_spec (s : mstate) (own : gmap Z role) (main r c : Z)
    (s' : mstate) (own' : gmap Z role) : Prop := {
  cs_root : own' !! c = Some (Root c);
  cs_mapped : forall v e, user_vma v -> lookup_pte (ms_mem s) r v = Some e -> copy_of s s' own' c v e;
  cs_unmapped : forall v, upper v -> (user_vma v -> lookup_pte (ms_mem s) r v = None) ->
    lookup_pte (ms_mem s') c v = None;
  cs_other : forall r' v, own !! r' = Some (Root r') -> 3 <= VPN2 v ->
    lookup_pte (ms_mem s') r' v = lookup_pte (ms_mem s) r' v;
  cs_bytes : forall q r' i2 i1 i0, own !! q = Some (Data r' i2 i1 i0) ->
    own' !! q = Some (Data r' i2 i1 i0) /\
    bytes (ms_mem s') q (Z.to_nat PAGE_SIZE) = bytes (ms_mem s) q (Z.to_nat PAGE_SIZE);
  cs_kernel : forall i, 0 <= i < 512 -> has (load_pte (ms_mem s) (slot main i)) PTE_G = true ->
    has (load_pte (ms_mem s) (slot main i)) PTE_V = true ->
    load_pte (ms_mem s') (slot c i) = load_pte (ms_mem s) (slot main i)
}.

Lemma clone_run s own c l last main r parent_mtag asid :
  minv s own (c :: l) last -> mtag_to_root parent_mtag = r ->
  own !! r = Some (Root r) -> own !! main = Some (Root main) ->
  (forall i, 3 <= i < 512 -> has (load_pte (ms_mem s) (slot main i)) PTE_G = false) ->
  (3 * length (mapped (ms_mem s) r USER_PAGES) <= length l)%nat ->
  exists s' own' l', memory_space_clone main parent_mtag asid s = Done (sv39_mtag asid c) s' /\
    minv s' own' l' last /\ clone_spec s own main r c s' own' /\ extends s own s' own' /\
    (length l <= length l' + 3 * length (mapped (ms_mem s) r USER_PAGES))%nat.
Proof.
  intros HI Hroot Hr Hm Huser Hlen.
  assert (Hf : own !! c = Some Free) by (apply (mi_list _ _ _ _ HI); by left).
  assert (Hfl : free_list s = c) by apply (mi_free _ _ _ _ HI).
  assert (Hfn : free_list s <> NULL) by (eapply free_ok_head_nonnull, (mi_free _ _ _ _ HI)).
  assert (Hrc : r <> c) by (intros ->; rewrite Hf in Hr; discriminate).
  assert (Hmc : main <> c) by (intros ->; rewrite Hf in Hm; discriminate).
  destruct (clone_root s own c l last HI) as (HI1 & Hex1 & Hmap1 & Hz1).
  remember (set_mem (zero_page (ms_mem (alloc_state s)) c) (alloc_state s)) as s1 eqn:Es1.
  remember (<[c := Root c]> own) as own1 eqn:Eo1.
  assert (Hc1 : own1 !! c = Some (Root c)) by (rewrite Eo1; apply lookup_insert_eq).
  assert (Hr1 : own1 !! r = Some (Root r)) by (by apply (ex_own _ _ _ _ Hex1)).
  assert (Hm1 : own1 !! main = Some (Root main)) by (by apply (ex_own _ _ _ _ Hex1)).
  assert (Hmain : forall i, 0 <= i < 512 -> load_pte (ms_mem s1) (slot main i) = load_pte (ms_mem s) (slot main i)).
  { intros i Hi. apply (load_pte_same_outside c); eauto using mi_page.
    rewrite Es1. cbn [ms_mem set_mem alloc_state]. rewrite Hfl.
    eapply same_outside_trans; apply same_outside_zero. }
  destruct (copy_globals s1 own1 l last main c) as (s2 & E2 & [G1 G2 G3 G4]); auto.
  { intros i Hi. rewrite Hmain by lia. auto. }
  assert (Hother2 : forall r' v, own1 !! r' = Some (Root r') -> r' <> c -> 3 <= VPN2 v ->
    lookup_pte (ms_mem s2) r' v = lookup_pte (ms_mem s1) r' v).
  { intros r' v Hr' Hne Hv. exact (lookup_other_root s1 own1 l last _ c r' v HI1 Hc1 Hr' Hne Hv G3). }
  assert (Hempty2 : forall v, 3 <= VPN2 v -> lookup_pte (ms_mem s2) c v = None).
  { intros v Hv. unfold lookup_pte. rewrite lookup_from_S. cbv zeta. cbn [vpn].
    pose proof (vpn_range v 2) as Hvr. cbn [vpn] in Hvr. rewrite G4 by done.
    replace (VPN2 v <? 512) with true by lia. unfold global_entry.
    rewrite Hmain, Huser by lia. by rewrite andb_false_r. }
  assert (Hold : forall r' v, own !! r' = Some (Root r') -> 3 <= VPN2 v ->
    lookup_pte (ms_mem s2) r' v = lookup_pte (ms_mem s) r' v).
  { intros r' v Hr' Hv. rewrite Hother2; [by apply Hmap1|by apply (ex_own _ _ _ _ Hex1)| |done].
    intros ->. rewrite Hf in Hr'. discriminate. }
  assert (Hmap2 : length (mapped (ms_mem s2) r USER_PAGES) = length (mapped (ms_mem s) r USER_PAGES)).
  { apply mapped_ext; [|by rewrite USER_PAGES_eq]. intros k Hk. apply Hold; [done|]. by apply user_page_vpn2. }
  assert (Hlen2 : (3 * length (mapped (ms_mem s2) r USER_PAGES) <= length l)%nat).
  { rewrite Hmap2. exact Hlen. }
  destruct (clone_loop s2 own1 l last r c G1 Hr1 Hc1 Hrc Hlen2 Hempty2)
    as (s3 & own3 & l3 & E3 & [C1 C2 C3 C4 C5 C6]).
  rewrite user_page_end in C5, C6.
  assert (Hex2 : extends s own s2 own1) by (eapply extends_trans; eauto).
  exists s3, own3, l3. split; [|split; [done|]].
  2: split; [|split; [exact (extends_trans _ _ _ _ _ _ Hex2 C3)|rewrite <- Hmap2; exact C2]].
  - unfold memory_space_clone. rewrite Hroot. mstep (memory_alloc_page_eq s Hfn).
    rewrite (proj2 (Z.eqb_neq _ _) Hfn), Hfl. unfold bind at 1, modify. rewrite <- Es1.
    mstep E2. mstep E3. done.
  - clear Hmap2 Hlen2. constructor.
    + by apply (ex_own _ _ _ _ C3).
    + intros v e Hv He. destruct (C5 v e) as (e' & L & Hfl' & O & B);
        [by apply user_upper|done|by rewrite Hold by (done || by apply user_upper)|].
      exists e'. split; [done|]. split; [done|]. split; [done|]. rewrite B.
      assert (Hu : 3 <= VPN2 v) by (by apply user_upper).
      exact (ex_bytes _ _ _ _ Hex2 _ _ _ _ _ (lookup_pte_owned _ _ _ _ _ _ _ HI Hr Hu He)).
    + intros v Hv Hn. apply C6; [done|]. intros Hr'. rewrite Hold by (done || apply Hv). by apply Hn.
    + intros r' v Hr' Hv. rewrite C4; [by apply Hold|by apply (ex_own _ _ _ _ Hex1)| |done].
      intros ->. rewrite Hf in Hr'. discriminate.
    + intros q r' i2 i1 i0 Hq. split.
      * apply (ex_own _ _ _ _ C3); [|done]. by apply (ex_own _ _ _ _ Hex1).
      * rewrite <- (ex_bytes _ _ _ _ Hex2 _ _ _ _ _ Hq). apply (ex_bytes _ _ _ _ C3 q r' i2 i1 i0).
        by apply (ex_own _ _ _ _ Hex1).
    + intros i Hi HG HV. assert (Eg : load_pte (ms_mem s2) (slot c i) = load_pte (ms_mem s) (slot main i)).
      { rewrite G4 by done. replace (i <? 512) with true by lia. unfold global_entry.
        by rewrite Hmain, HG by done. }
      rewrite <- Eg. apply (ex_entry _ _ _ _ C3 c _ _ Hc1); [done|done|]. by rewrite Eg.
Qed.
