(* ===== verification/VmProps.v ===== *)
(** * Properties of the virtual memory manager

    The theorems about the operations of memory.c on address spaces, stated
    with the ownership invariant [minv], the mapping [lookup_pte] and the
    hardware translation [sv39_translate]. *)

From stdpp Require Import base gmap list strings numbers.
From Stdlib Require Import Lia ZArith.
From S2P Require Import Prelude CMem PageAlloc PageTable PageInv VmSpace UserRange Heap MemInit Clone.
Local Open Scope Z_scope.
Local Open Scope kern_scope.

(** ** A concrete state for the witnesses

    A root table and a chain of free pages in an otherwise zero memory. *)

Fixpoint chain (m : mem) (l : list Z) (last : Z) : mem :=
  match l with
  | [] => m
  | p :: l' => store64 (chain m l' last) p (hd last l')
  end.

Lemma chain_other l last a :
  Forall (fun p => a + 8 <= p \/ p + 8 <= a) l -> load64 (chain ∅ l last) a = 0.
Proof.
  induction l as [|p l IH]; intros H; [apply load64_empty|].
  inversion_clear H. cbn [chain]. rewrite load64_store64_other by lia. auto.
Qed.

Lemma chain_seg l last :
  NoDup l -> Forall page l -> 0 <= last < 18446744073709551616 ->
  free_seg (chain ∅ l last) (hd last l) l last.
Proof.
  induction l as [|p l IH]; intros Hnd Hpg Hl; [done|].
  inversion_clear Hnd as [|? ? Hn Hnd']. inversion_clear Hpg as [|? ? Hp Hpg'].
  assert (Hh : 0 <= hd last l < 18446744073709551616).
  { destruct l as [|q l]; [done|]. inversion_clear Hpg' as [|? ? (_ & ? & ?) _]. simpl. lia. }
  split; [done|]. cbn [chain]. rewrite load64_store64_same, w64_small by done.
  eapply free_seg_ext; [by apply IH|]. intros q Hq. apply load64_store64_other.
  assert (Hpq : page q) by (by eapply Forall_forall in Hpg'; [|apply list_elem_of_In]).
  assert (p <> q) by (by intros ->). unfold page, PAGE_SIZE in *. zdiv.
Qed.

Definition demo_root : Z := 0x80100000.
Definition demo_pages : list Z :=
  [0x80200000; 0x80201000; 0x80202000; 0x80203000; 0x80204000; 0x80205000; 0x80206000; 0x80207000].
Definition demo_own : gmap Z role := boot_own demo_root demo_pages.
Definition demo_state : mstate :=
  MkM (chain ∅ demo_pages 0) 0x80200000 (sv39_mtag 0 demo_root) (sv39_mtag 0 demo_root) true true.

Lemma demo_page_pages : Forall page demo_pages /\ page demo_root.
Proof.
  split; [repeat apply Forall_cons_2; try apply Forall_nil_2|];
    (split; [reflexivity|unfold demo_root; lia]).
Qed.

Lemma demo_minv : minv demo_state demo_own demo_pages 0.
Proof.
  destruct demo_page_pages as [Hp Hr].
  assert (Hnd : NoDup demo_pages).
  { repeat constructor; rewrite ?not_elem_of_cons; repeat split; try lia; apply not_elem_of_nil. }
  apply minv_boot.
  - split; [|split; [done|split; [done|simpl; lia]]]. by apply (chain_seg demo_pages 0).
  - done.
  - unfold demo_root, demo_pages. rewrite !not_elem_of_cons.
    repeat split; try lia. apply not_elem_of_nil.
  - intros i Hi. apply chain_other. unfold slot, demo_root.
    repeat apply Forall_cons_2; try apply Forall_nil_2; lia.
Qed.

Lemma demo_root_role : demo_own !! demo_root = Some (Root demo_root).
Proof. apply lookup_insert_eq. Qed.

Lemma demo_satp : mtag_to_root (satp demo_state) = demo_root.
Proof. apply sv39_mtag_root; [apply demo_page_pages|lia]. Qed.

(** ** Page allocator *)

(** [memory_alloc_page] and [memory_free_page] implement a stack of pages.
    Allocation removes the top page and returns it zeroed; freeing an aligned
    page that is not on the list pushes it; both leave every byte outside of
    that page unchanged.  Freeing then allocating gives the same page back. *)
Theorem page_allocator_stack s l last :
  free_ok s l last ->
  (forall p l', l = p :: l' ->
     exists s', memory_alloc_page s = Done p s' /\ free_ok s' l' last /\
       bytes (ms_mem s') p (Z.to_nat PAGE_SIZE) = replicate (Z.to_nat PAGE_SIZE) 0 /\
       same_outside p (ms_mem s) (ms_mem s')) /\
  (forall p, page p -> p ∉ l ->
     exists s', memory_free_page p s = Done tt s' /\ free_ok s' (p :: l) last /\
       same_outside p (ms_mem s) (ms_mem s') /\
       exists s'', memory_alloc_page s' = Done p s'' /\ free_ok s'' l last).
Proof.
  intros Hf. split.
  - intros p l' ->. pose proof (free_ok_head_nonnull _ _ _ _ Hf) as Hn.
    assert (Hh : free_list s = p) by apply Hf.
    exists (alloc_state s). rewrite (memory_alloc_page_eq s Hn). simpl. rewrite Hh.
    split; [done|]. split; [by eapply free_ok_alloc|].
    split; [apply zero_page_bytes|apply same_outside_zero].
  - intros p Hp Hn. pose proof (free_ok_free s p l last Hf Hp Hn) as Hf'.
    exists (free_state p s). split; [by apply memory_free_page_eq|]. split; [done|].
    split; [apply free_state_same_outside|].
    exists (alloc_state (free_state p s)).
    rewrite memory_alloc_page_eq by (by eapply free_ok_head_nonnull).
    split; [done|]. by eapply free_ok_alloc.
Qed.

Lemma page_allocator_stack_witness :
  exists s', memory_alloc_page demo_state = Done 0x80200000 s' /\ free_ok s' (tl demo_pages) 0.
Proof.
  destruct (page_allocator_stack demo_state demo_pages 0 (mi_free _ _ _ _ demo_minv)) as [H _].
  destruct (H 0x80200000 (tl demo_pages) eq_refl) as (s' & E & F & _).
  exists s'. split; [exact E|exact F].
Defined.

(** the allocator's error paths: allocating from an empty list and freeing
    NULL or an address inside a page halt the machine with the panic message,
    before any byte of memory or the list head is changed. *)
Theorem page_allocator_panics s :
  (free_list s = NULL ->
     memory_alloc_page s = Panic "no free pages in free_list: memory_alloc_page" s) /\
  (forall p, p = NULL \/ p mod PAGE_SIZE <> 0 ->
     memory_free_page p s = Panic "Invalid page address provided in memory_free_page" s).
Proof.
  split.
  - intros H. unfold memory_alloc_page, bind, gets. by rewrite H.
  - intros p Hp. unfold memory_free_page.
    destruct (Z.eqb_spec (p mod PAGE_SIZE) 0); [|done].
    destruct Hp as [->|]; done.
Qed.

Lemma page_allocator_panics_witness :
  memory_free_page 0x80200008 demo_state =
  Panic "Invalid page address provided in memory_free_page" demo_state.
Proof. apply (page_allocator_panics demo_state). right. vm_compute. discriminate. Defined.

(** ** Mapping pages *)

(** A valid leaf entry found by the walk is what the processor translates with. *)
Lemma lookup_translate m r v e :
  lookup_pte m r v = Some e -> has e PTE_RWX = true ->
  sv39_translate m r v = Some (ppage e + v mod PAGE_SIZE, pte_flags e).
Proof.
  unfold lookup_pte. rewrite !lookup_from_S. cbv zeta. cbn [vpn]. unfold sv39_translate.
  destruct (negb (r =? NULL)); [|done]. cbn [andb].
  destruct (has (load_pte m (slot r (VPN2 v))) PTE_V); [|done].
  destruct (has (load_pte m (slot r (VPN2 v))) PTE_RWX); [done|]. cbn [negb].
  set (p1 := ppage _). rewrite lookup_from_S. cbv zeta. cbn [vpn].
  destruct (negb (p1 =? NULL)); [|done]. cbn [andb].
  destruct (has (load_pte m (slot p1 (VPN1 v))) PTE_V); [|done].
  destruct (has (load_pte m (slot p1 (VPN1 v))) PTE_RWX); [done|]. cbn [negb].
  set (p0 := ppage _). unfold lookup_from. cbn [find_slot vpn].
  destruct (slot p0 (VPN0 v) =? NULL); [done|].
  destruct (has (load_pte m (slot p0 (VPN0 v))) PTE_V); [|done]. intros [= <-] ->. cbn [negb].
  set (e0 := load_pte m (slot p0 (VPN0 v))). unfold ppage. by rewrite Z.mod_mul.
Qed.

(** C12: [memory_alloc_and_map_page] on a page-aligned user address, with three
    free pages left, returns the address; afterwards the processor translates
    the whole page to a frame that was free, which is filled with zeros, with
    the requested permissions; every other page of every address space is
    translated as before, the bytes of every user page in use are unchanged,
    and the ownership invariant still holds. *)
Theorem memory_alloc_and_map_page_correct s own pp l last r vma flags :
  minv s own (pp :: l) last -> (2 <= length l)%nat ->
  mtag_to_root (satp s) = r -> own !! r = Some (Root r) ->
  user_vma vma -> vma mod PAGE_SIZE = 0 -> has (leaf_pte pp flags) PTE_RWX = true ->
  exists s' own' l',
    memory_alloc_and_map_page vma flags s = Done vma s' /\
    minv s' own' l' last /\ own' !! pp = Some (page_role r vma) /\
    (forall v, vma <= v < vma + PAGE_SIZE ->
       sv39_translate (ms_mem s') r v = Some (pp + (v - vma), leaf_flags flags)) /\
    bytes (ms_mem s') pp (Z.to_nat PAGE_SIZE) = replicate (Z.to_nat PAGE_SIZE) 0 /\
    (forall r' v, own !! r' = Some (Root r') -> upper v ->
       r' <> r \/ ~ (vma <= v < vma + PAGE_SIZE) ->
       lookup_pte (ms_mem s') r' v = lookup_pte (ms_mem s) r' v) /\
    (forall q r' i2 i1 i0, own !! q = Some (Data r' i2 i1 i0) ->
       own' !! q = Some (Data r' i2 i1 i0) /\
       bytes (ms_mem s') q (Z.to_nat PAGE_SIZE) = bytes (ms_mem s) q (Z.to_nat PAGE_SIZE)).
Proof.
  intros HI Hlen Hroot Hr Hu Hal Hrwx.
  destruct (map_page_run s own pp l last r vma flags HI Hlen Hroot Hr Hu Hal)
    as (s' & own' & l' & E & HI' & _ & [M1 M2 M3 M4 M5 M6]).
  assert (Hpg : page pp) by exact (mi_page _ _ _ _ HI' _ _ M2).
  destruct (user_page_of vma Hu Hal) as (k & Hk & ->).
  exists s', own', l'. split; [done|]. split; [done|]. split; [done|]. split; [|split; [done|split]].
  - intros v Hv. assert (Huv : upper v) by (by apply user_upper, (user_page_range k)).
    erewrite lookup_translate; [| |exact Hrwx].
    + rewrite ppage_leaf by done. repeat f_equal. unfold user_page, USER_START_VMA, PAGE_SIZE in *. zdiv.
    + rewrite M1 by (done || apply Huv). rewrite decide_True; [done|]. by apply page_role_eq.
  - intros r' v Hr' Hv Hd. rewrite M1 by (done || apply Hv). rewrite decide_False; [done|].
    intros Heq. assert (r' = r) as -> by (by injection Heq).
    apply page_role_eq in Heq; [|done|done]. destruct Hd; [done|lia].
  - intros q r' i2 i1 i0 Hq. split; [by apply M3|by eapply M5].
Qed.

Lemma memory_alloc_and_map_page_correct_witness :
  exists s', memory_alloc_and_map_page 0xC0000000 (Z.lor (Z.lor PTE_R PTE_W) PTE_U) demo_state =
      Done 0xC0000000 s' /\
    sv39_translate (ms_mem s') demo_root 0xC0000123 =
      Some (0x80200123, leaf_flags (Z.lor (Z.lor PTE_R PTE_W) PTE_U)).
Proof.
  destruct (memory_alloc_and_map_page_correct demo_state demo_own 0x80200000 (tl demo_pages) 0
    demo_root 0xC0000000 (Z.lor (Z.lor PTE_R PTE_W) PTE_U)) as (s' & own' & l' & E & _ & _ & T & _).
  - exact demo_minv.
  - simpl. lia.
  - exact demo_satp.
  - exact demo_root_role.
  - unfold user_vma, USER_START_VMA, USER_END_VMA. lia.
  - reflexivity.
  - reflexivity.
  - exists s'. split; [exact E|]. apply (T 0xC0000123). unfold PAGE_SIZE. lia.
Defined.

(** A state with one user page mapped, at the start of the user range. *)
Definition demo_vma : Z := 0xC0000000.

Lemma demo_user : user_vma demo_vma.
Proof. unfold user_vma, demo_vma, USER_START_VMA, USER_END_VMA. lia. Qed.

Lemma demo_mapped flags :
  exists s own l, memory_alloc_and_map_page demo_vma flags demo_state = Done demo_vma s /\
    minv s own l 0 /\ (5 <= length l)%nat /\ mtag_to_root (satp s) = demo_root /\
    own !! demo_root = Some (Root demo_root) /\
    lookup_pte (ms_mem s) demo_root demo_vma = Some (leaf_pte 0x80200000 flags).
Proof.
  destruct (map_page_run demo_state demo_own 0x80200000 (tl demo_pages) 0 demo_root demo_vma flags)
    as (s & own & l & E & HI & Hlen & [M1 M2 M3 M4 M5 M6]);
    [exact demo_minv|simpl; lia|exact demo_satp|exact demo_root_role|exact demo_user|done|].
  exists s, own, l. split; [done|]. split; [done|]. simpl in Hlen. split; [lia|].
  split; [rewrite M6; exact demo_satp|]. split; [apply M3; [exact demo_root_role|done]|].
  rewrite M1; [by rewrite decide_True|exact demo_root_role|].
  rewrite user_vpn2 by exact demo_user. lia.
Qed.

(** ** Page faults *)

Definition RWU : Z := Z.lor (Z.lor PTE_R PTE_W) PTE_U.

(** The handler's effect for any user address, mapped or not. *)
Lemma page_fault_run s own l last r vptr :
  minv s own l last -> (5 <= length l)%nat ->
  mtag_to_root (satp s) = r -> own !! r = Some (Root r) -> user_vma vptr ->
  exists pp s1 own1 l1 s' own' l',
    memory_handle_page_fault vptr s = Done tt s' /\
    extends s own s1 own1 /\ same_map own (ms_mem s) (ms_mem s1) /\
    minv s1 own1 (pp :: l1) last /\ minv s' own' l' last /\
    maps_page s1 own1 r (round_down_addr vptr PAGE_SIZE) pp (leaf_pte pp RWU)
      (replicate (Z.to_nat PAGE_SIZE) 0) s' own'.
Proof.
  intros HI Hlen Hroot Hr Hu. set (va := round_down_addr vptr PAGE_SIZE).
  assert (Hva : user_vma va /\ va mod PAGE_SIZE = 0).
  { unfold va, round_down_addr, user_vma, USER_START_VMA, USER_END_VMA, PAGE_SIZE in *.
    split; [zdiv|]. apply Z.mod_mul. lia. }
  destruct Hva as [Huv Hal].
  assert (Hvpn : 3 <= VPN2 va) by (rewrite user_vpn2 by done; lia).
  destruct (walk_from_create 2 s own l last r va r HI) as (p0 & s1 & own1 & l1 & Hw & [W1 W2 W3 W4 W5 W6]);
    [done|done|done|lia|].
  destruct l1 as [|pp l1]; [simpl in W5; lia|].
  assert (Hr1 : own1 !! r = Some (Root r)) by (by apply (ex_own _ _ _ _ W2)).
  assert (Hroot1 : mtag_to_root (satp s1) = r) by (by rewrite (ex_satp _ _ _ _ W2)).
  destruct (map_page_run s1 own1 pp l1 last r va RWU W1 ltac:(simpl in W5; lia) Hroot1 Hr1 Huv Hal)
    as (s' & own' & l' & E & HI' & _ & Hm).
  exists pp, s1, own1, l1, s', own', l'. split; [|auto].
  unfold memory_handle_page_fault. unfold user_vma in Hu.
  destruct (Z.ltb_spec vptr USER_START_VMA); [lia|].
  destruct (Z.leb_spec USER_END_VMA vptr); [lia|]. cbn [orb]. cbv zeta. fold va.
  unfold aligned_addr. rewrite Hal. cbn [Z.eqb negb].
  mstep (root_active s). rewrite Hroot. unfold walk_pt. mstep Hw.
  assert (Hg0 : page p0) by exact (mi_page _ _ _ _ W1 _ _ W3).
  rewrite (proj2 (Z.eqb_neq _ _) (slot_nonnull p0 _ Hg0 (proj1 (VPN0_range va)))).
  mstep E. destruct (Z.eqb_spec va NULL); [|done].
  unfold user_vma, USER_START_VMA, NULL in *. lia.
Qed.

(** a page fault at a user address that is not mapped is repaired: the
    handler returns with the page of the address backed by a zeroed frame,
    readable and writable in user mode, every other page of every space
    translated as before, and the invariant intact.  A fault outside of the
    user range halts the machine. *)
Theorem memory_handle_page_fault_correct s own l last r vptr :
  minv s own l last -> (5 <= length l)%nat ->
  mtag_to_root (satp s) = r -> own !! r = Some (Root r) ->
  (user_vma vptr ->
     exists pp s' own' l', memory_handle_page_fault vptr s = Done tt s' /\ minv s' own' l' last /\
       sv39_translate (ms_mem s') r vptr = Some (pp + vptr mod PAGE_SIZE, leaf_flags RWU) /\
       bytes (ms_mem s') pp (Z.to_nat PAGE_SIZE) = replicate (Z.to_nat PAGE_SIZE) 0 /\
       (forall r' v, own !! r' = Some (Root r') -> upper v ->
          r' <> r \/ v / PAGE_SIZE <> vptr / PAGE_SIZE ->
          lookup_pte (ms_mem s') r' v = lookup_pte (ms_mem s) r' v)) /\
  (~ user_vma vptr ->
     memory_handle_page_fault vptr s = Panic "page fault in invalid address space" s).
Proof.
  intros HI Hlen Hroot Hr. split.
  - intros Hu. destruct (page_fault_run s own l last r vptr HI Hlen Hroot Hr Hu)
      as (pp & s1 & own1 & l1 & s' & own' & l' & E & Hex & Hmap & HI1 & HI' & [M1 M2 M3 M4 M5 M6]).
    assert (Hpg : page pp) by exact (mi_page _ _ _ _ HI' _ _ M2).
    assert (Hroots : forall r', own !! r' = Some (Root r') -> own1 !! r' = Some (Root r'))
      by (intros; by apply (ex_own _ _ _ _ Hex)).
    destruct (round_down_user_page vptr Hu) as (k & Hk & Ek). rewrite Ek in *.
    exists pp, s', own', l'. split; [done|]. split; [done|]. split; [|split; [done|]].
    + erewrite lookup_translate; [by rewrite ppage_leaf| |done].
      rewrite M1 by (auto; by apply user_upper). rewrite decide_True; [done|].
      apply page_role_eq; [by apply user_upper|done|].
      unfold round_down_addr, PAGE_SIZE in *. zdiv.
    + intros r' v Hr' Hv Hd. rewrite M1 by (auto; apply Hv). rewrite decide_False.
      * apply Hmap; [done|apply Hv].
      * intros Heq. assert (r' = r) as -> by (by injection Heq).
        apply page_role_eq in Heq; [|done|done]. destruct Hd as [?|Hd]; [done|]. apply Hd.
        unfold round_down_addr, user_page, PAGE_SIZE in *. zdiv.
  - intros Hn. unfold memory_handle_page_fault. unfold user_vma in Hn.
    destruct (Z.ltb_spec vptr USER_START_VMA); [done|].
    destruct (Z.leb_spec USER_END_VMA vptr); [done|]. lia.
Qed.

Lemma memory_handle_page_fault_correct_witness :
  exists s', memory_handle_page_fault 0xC0000123 demo_state = Done tt s'.
Proof.
  destruct (memory_handle_page_fault_correct demo_state demo_own demo_pages 0 demo_root 0xC0000123
    demo_minv ltac:(simpl; lia) demo_satp demo_root_role) as [H _].
  destruct H as (pp & s' & _ & _ & E & _).
  - unfold user_vma, USER_START_VMA, USER_END_VMA. lia.
  - exists s'. exact E.
Defined.

(** the handler does not check whether the page is already mapped.  A fault
    on a mapped page (a store to a read-only page, say) replaces the page by a
    zeroed writable one; the old frame is neither returned to the free list nor
    reachable from the entry of the address any more. *)
Theorem page_fault_replaces_mapped_page s own l last r vptr e :
  minv s own l last -> (5 <= length l)%nat ->
  mtag_to_root (satp s) = r -> own !! r = Some (Root r) -> user_vma vptr ->
  lookup_pte (ms_mem s) r vptr = Some e ->
  exists pp s' own' l', memory_handle_page_fault vptr s = Done tt s' /\ minv s' own' l' last /\
    lookup_pte (ms_mem s') r vptr = Some (leaf_pte pp RWU) /\ pp <> ppage e /\
    bytes (ms_mem s') pp (Z.to_nat PAGE_SIZE) = replicate (Z.to_nat PAGE_SIZE) 0 /\
    own' !! ppage e = Some (page_role r vptr) /\ ppage e ∉ l'.
Proof.
  intros HI Hlen Hroot Hr Hu He.
  destruct (page_fault_run s own l last r vptr HI Hlen Hroot Hr Hu)
    as (pp & s1 & own1 & l1 & s' & own' & l' & E & Hex & Hmap & HI1 & HI' & [M1 M2 M3 M4 M5 M6]).
  assert (Hv : upper vptr) by (by apply user_upper).
  assert (Hr1 : own1 !! r = Some (Root r)) by (by apply (ex_own _ _ _ _ Hex)).
  assert (Ho : own !! ppage e = Some (page_role r vptr))
    by (eapply lookup_pte_owned; eauto; apply Hv).
  assert (Ho1 : own1 !! ppage e = Some (page_role r vptr)) by (by apply (ex_own _ _ _ _ Hex)).
  assert (Ho' : own' !! ppage e = Some (page_role r vptr)) by (by apply M3).
  destruct (round_down_user_page vptr Hu) as (k & Hk & Ek). rewrite Ek in *.
  exists pp, s', own', l'. split; [done|]. split; [done|]. split; [|split; [|split; [done|split; [done|]]]].
  - rewrite M1 by (done || apply Hv). rewrite decide_True; [done|]. apply page_role_eq; [done|done|].
    unfold round_down_addr, PAGE_SIZE in *. zdiv.
  - intros ->. assert (own1 !! ppage e = Some Free) as Hf by (apply (mi_list _ _ _ _ HI1); by left).
    rewrite Ho1 in Hf. discriminate.
  - intros Hin. apply (mi_list _ _ _ _ HI') in Hin. rewrite Ho' in Hin. discriminate.
Qed.

Lemma page_fault_replaces_mapped_page_witness :
  exists s pp s', lookup_pte (ms_mem s) demo_root demo_vma = Some (leaf_pte 0x80200000 (Z.lor PTE_R PTE_U)) /\
    memory_handle_page_fault demo_vma s = Done tt s' /\
    lookup_pte (ms_mem s') demo_root demo_vma = Some (leaf_pte pp RWU) /\ pp <> 0x80200000.
Proof.
  destruct (demo_mapped (Z.lor PTE_R PTE_U)) as (s & own & l & _ & HI & Hl & Hs & Hr & Hk).
  destruct (page_fault_replaces_mapped_page s own l 0 demo_root demo_vma _ HI Hl Hs Hr demo_user Hk)
    as (pp & s' & _ & _ & E & _ & L & N & _).
  exists s, pp, s'. split; [exact Hk|]. split; [exact E|]. split; [exact L|exact N].
Defined.

(** ** Flags of a mapped page *)

Definition flags_set (e : pte) (flags : Z) : pte :=
  set_flags (Z.lor (Z.land (pte_flags e) (Z.lnot PTE_FLAGS_MASK)) flags) e.

Lemma has_V_bit e : has e PTE_V = Z.testbit (pte_flags e) 0.
Proof.
  unfold has, PTE_V. rewrite land_1_mod2, <- Z.bit0_mod.
  by destruct (Z.testbit (pte_flags e) 0).
Qed.

Lemma set_flags_testbit f e i :
  0 <= i < 8 -> Z.testbit (pte_flags (set_flags f e)) i = Z.testbit f i.
Proof. intros Hi. cbn [set_flags pte_flags]. by rewrite Z.mod_pow2_bits_low by lia. Qed.

Lemma clear_flags_valid e : has e PTE_V = true ->
  has (set_flags (Z.land (pte_flags e) (Z.lnot PTE_FLAGS_MASK)) e) PTE_V = true.
Proof.
  rewrite !has_V_bit. intros H. rewrite set_flags_testbit, Z.land_spec, H by lia. done.
Qed.

Lemma lor_flags_valid e f : has e PTE_V = true ->
  has (set_flags (Z.lor (pte_flags e) f) e) PTE_V = true.
Proof.
  rewrite !has_V_bit. intros H. rewrite set_flags_testbit, Z.lor_spec, H by lia. done.
Qed.

(** The code clears the permission bits and ors the new ones into the 8-bit
    field in two steps; together they are one assignment. *)
Lemma set_flags_compose e flags :
  pte_wf e -> 0 <= flags < 2^8 ->
  set_flags (Z.lor (pte_flags (set_flags (Z.land (pte_flags e) (Z.lnot PTE_FLAGS_MASK)) e)) flags)
    (set_flags (Z.land (pte_flags e) (Z.lnot PTE_FLAGS_MASK)) e) = flags_set e flags.
Proof.
  intros (Hf & _) Hfl. unfold flags_set, set_flags. cbn [pte_flags pte_rsw pte_ppn pte_reserved pte_pbmt pte_n].
  f_equal. rewrite (Z.mod_small (Z.land _ _)); [done|]. split.
  - apply Z.land_nonneg. lia.
  - assert (H := Z.land_ones (Z.land (pte_flags e) (Z.lnot PTE_FLAGS_MASK)) 8 ltac:(lia)).
    assert (Z.land (Z.land (pte_flags e) (Z.lnot PTE_FLAGS_MASK)) (Z.ones 8) =
            Z.land (pte_flags e) (Z.lnot PTE_FLAGS_MASK)) as Hid.
    { rewrite <- Z.land_assoc, (Z.land_comm (Z.lnot _)), Z.land_assoc. f_equal.
      rewrite Z.land_ones by lia. by apply Z.mod_small. }
    rewrite Hid in H. pose proof (Z.mod_pos_bound (Z.land (pte_flags e) (Z.lnot PTE_FLAGS_MASK)) (2^8)).
    lia.
Qed.

(** Replacing the valid leaf entry of [vma] by one for the same frame. *)
Lemma minv_replace_leaf s own l last r vma p0 e e' :
  minv s own l last -> own !! r = Some (Root r) -> 3 <= VPN2 vma ->
  own !! p0 = Some (path_role r vma 0) ->
  find_slot (ms_mem s) 2 r vma = slot p0 (VPN0 vma) ->
  load_pte (ms_mem s) (slot p0 (VPN0 vma)) = e -> has e PTE_V = true ->
  pte_wf e' -> has e' PTE_V = true -> ppage e' = ppage e ->
  let s' := set_mem (store_pte (ms_mem s) (slot p0 (VPN0 vma)) e') s in
  minv s' own l last /\
  find_slot (ms_mem s') 2 r vma = slot p0 (VPN0 vma) /\
  same_outside p0 (ms_mem s) (ms_mem s') /\
  (forall r' v, own !! r' = Some (Root r') -> 3 <= VPN2 v ->
     lookup_pte (ms_mem s') r' v =
     if decide (page_role r' v = page_role r vma) then Some e' else lookup_pte (ms_mem s) r' v).
Proof.
  intros HI Hr Hu Hp0 Hfs He Hv Hwf Hv' Hpp s'. split; [|split; [|split]].
  - eapply minv_store_entry; eauto using VPN0_range; [|done|congruence].
    intros y [= <-] _. split; [done|]. rewrite Hpp, <- He. by eapply ppage_page; rewrite ?He.
  - unfold s'. cbn [ms_mem set_mem]. rewrite <- Hfs at 2.
    by apply (find_slot_store_leaf s own l last p0 r vma e' r vma 2 r).
  - destruct (slot_in_page p0 _ (VPN0_range vma)). by apply same_outside_store64.
  - intros r' v Hr' Hv2. unfold s'. cbn [ms_mem set_mem].
    rewrite (lookup_pte_store_leaf s own l last p0 r vma); auto. by rewrite Hv'.
Qed.

(** [memory_set_page_flags] on a mapped user page replaces the R, W, X, U
    and G bits of its entry by the given flags and keeps V, A, D and the frame;
    every other page of every space keeps its entry, and no data page changes.  On an unaligned or
    unmapped address it does nothing. *)
Theorem memory_set_page_flags_correct s own l last r vp flags :
  minv s own l last -> mtag_to_root (satp s) = r -> own !! r = Some (Root r) ->
  user_vma vp -> 0 <= flags < 2^8 ->
  (forall e, vp mod PAGE_SIZE = 0 -> lookup_pte (ms_mem s) r vp = Some e ->
     exists s', memory_set_page_flags vp flags s = Done tt s' /\ minv s' own l last /\
       (forall r' v, own !! r' = Some (Root r') -> upper v ->
          lookup_pte (ms_mem s') r' v =
          if decide (r' = r /\ vp <= v < vp + PAGE_SIZE) then Some (flags_set e flags)
          else lookup_pte (ms_mem s) r' v) /\
       (forall q r' i2 i1 i0, own !! q = Some (Data r' i2 i1 i0) ->
          bytes (ms_mem s') q (Z.to_nat PAGE_SIZE) = bytes (ms_mem s) q (Z.to_nat PAGE_SIZE))) /\
  (vp mod PAGE_SIZE <> 0 \/ lookup_pte (ms_mem s) r vp = None ->
     memory_set_page_flags vp flags s = Done tt s).
Proof.
  intros HI Hroot Hr Hu Hfl. split.
  - intros e Hal He. assert (Hup : upper vp) by (by apply user_upper).
    destruct (lookup_pte_slot s own l last r vp e HI Hr (proj2 Hup) He) as (p0 & Hp0 & Hfs & Hn & Hl & Hv).
    assert (Hwf : pte_wf e) by (rewrite <- Hl; auto with kern).
    set (e1 := set_flags (Z.land (pte_flags e) (Z.lnot PTE_FLAGS_MASK)) e).
    assert (Hv1 : has e1 PTE_V = true) by (by apply clear_flags_valid).
    assert (Hwf1 : pte_wf e1) by (unfold e1; auto with kern).
    destruct (minv_replace_leaf s own l last r vp p0 e e1 HI Hr (proj2 Hup) Hp0 Hfs Hl Hv Hwf1 Hv1 eq_refl)
      as (HI1 & Hfs1 & Hso1 & Hlk1).
    remember (set_mem (store_pte (ms_mem s) (slot p0 (VPN0 vp)) e1) s) as s1 eqn:Es1.
    assert (Hl1 : load_pte (ms_mem s1) (slot p0 (VPN0 vp)) = e1)
      by (rewrite Es1; by apply load_store_pte_same).
    set (e2 := set_flags (Z.lor (pte_flags e1) flags) e1).
    assert (Hv2 : has e2 PTE_V = true) by (by apply lor_flags_valid).
    assert (Hwf2 : pte_wf e2) by (unfold e2; auto with kern).
    destruct (minv_replace_leaf s1 own l last r vp p0 e1 e2 HI1 Hr (proj2 Hup) Hp0 Hfs1 Hl1 Hv1 Hwf2 Hv2 eq_refl)
      as (HI2 & Hfs2 & Hso2 & Hlk2).
    exists (set_mem (store_pte (ms_mem s1) (slot p0 (VPN0 vp)) e2) s1). split; [|split; [done|split]].
    + unfold memory_set_page_flags. rewrite Hal. cbn [Z.eqb negb].
      mstep (root_active s). rewrite Hroot. mstep (walk_pt_read r vp s). rewrite Hfs.
      unfold bind at 1, gets. rewrite Hl, Hv, (proj2 (Z.eqb_neq _ _) Hn). cbn [orb negb].
      unfold bind, modify. rewrite Hl. fold e1. rewrite <- Es1, Hl1. done.
    + intros r' v Hr' Hv'. rewrite Hlk2, Hlk1 by (done || apply Hv').
      destruct (user_page_of vp Hu Hal) as (k & Hk & ->).
      replace e2 with (flags_set e flags) by (symmetry; by apply set_flags_compose).
      destruct (decide (r' = r)) as [->|Hne].
      * pose proof (page_role_eq r v k Hv' Hk) as Heq.
        repeat case_decide; try done; tauto.
      * by rewrite !decide_False by (tauto || by intros [= E _ _ _]).
    + intros q r' i2 i1 i0 Hq. assert (Hne : q <> p0) by (intros ->; rewrite Hp0 in Hq; discriminate).
      rewrite (same_outside_bytes p0 q (ms_mem s1)), (same_outside_bytes p0 q (ms_mem s));
        eauto using mi_page.
  - intros Hn. unfold memory_set_page_flags.
    destruct (Z.eqb_spec (vp mod PAGE_SIZE) 0) as [|]; [|done]. cbn [negb].
    destruct Hn as [?|Hn]; [done|].
    mstep (root_active s). rewrite Hroot. mstep (walk_pt_read r vp s). unfold bind at 1, gets.
    unfold lookup_pte, lookup_from in Hn. cbv zeta in Hn.
    destruct (_ =? NULL); [done|]. destruct (has _ PTE_V); [discriminate|done].
Qed.

Lemma memory_set_page_flags_correct_witness :
  exists s s', memory_set_page_flags demo_vma PTE_R s = Done tt s' /\
    lookup_pte (ms_mem s') demo_root demo_vma = Some (flags_set (leaf_pte 0x80200000 RWU) PTE_R).
Proof.
  destruct (demo_mapped RWU) as (s & own & l & _ & HI & Hl & Hs & Hr & Hk).
  destruct (memory_set_page_flags_correct s own l 0 demo_root demo_vma PTE_R HI Hs Hr demo_user
    ltac:(unfold PTE_R; lia)) as [H _].
  destruct (H _ eq_refl Hk) as (s' & E & _ & L & _). exists s, s'. split; [exact E|].
  rewrite (L demo_root demo_vma Hr (user_upper _ demo_user)). rewrite decide_True; [reflexivity|].
  split; [reflexivity|]. unfold PAGE_SIZE. lia.
Defined.

(** ** Giving back the user range *)

(** What an unmapping pass over the user range of [r] does, for the entries
    that [sel] selects. *)
Record range_freed (sel : pte -> bool) (s : mstate) (own : gmap Z role) (l : list Z) (last r : Z)
    (s' : mstate) : Prop := {
  rf_inv : exists own', minv s' own' (reverse (freed sel (ms_mem s) r USER_PAGES) ++ l) last;
  rf_freed : forall v e, user_vma v -> lookup_pte (ms_mem s) r v = Some e -> sel e = true ->
    lookup_pte (ms_mem s') r v = None /\ ppage e ∈ freed sel (ms_mem s) r USER_PAGES;
  rf_only : forall q, q ∈ freed sel (ms_mem s) r USER_PAGES ->
    exists v e, user_vma v /\ lookup_pte (ms_mem s) r v = Some e /\ sel e = true /\ q = ppage e;
  rf_kept : forall v e, upper v -> lookup_pte (ms_mem s) r v = Some e ->
    ~ user_vma v \/ sel e = false -> lookup_pte (ms_mem s') r v = Some e;
  rf_other : forall r' v, own !! r' = Some (Root r') -> r' <> r -> upper v ->
    lookup_pte (ms_mem s') r' v = lookup_pte (ms_mem s) r' v;
  rf_bytes : forall q r' i2 i1 i0, own !! q = Some (Data r' i2 i1 i0) ->
    q ∉ freed sel (ms_mem s) r USER_PAGES ->
    bytes (ms_mem s') q (Z.to_nat PAGE_SIZE) = bytes (ms_mem s) q (Z.to_nat PAGE_SIZE)
}.

Lemma user_vma_page v :
  user_vma v -> exists k, 0 <= k < 65536 /\ user_page k <= v < user_page k + PAGE_SIZE.
Proof.
  unfold user_vma, user_page, USER_START_VMA, USER_END_VMA, PAGE_SIZE. intros H.
  exists ((v - 0xC0000000) / 4096). zdiv.
Qed.

Lemma unmapped_range_freed sel s own l last r s' own' :
  own !! r = Some (Root r) -> unmapped sel s own l last r USER_PAGES s' own' ->
  range_freed sel s own l last r s'.
Proof.
  intros Hr [U1 U2 U3 U4 U5]. rewrite user_page_end in U3.
  assert (Hin : forall q, q ∈ freed sel (ms_mem s) r USER_PAGES <->
    exists k, 0 <= k < 65536 /\ selected sel (ms_mem s) r k = Some q).
  { intros q. unfold freed. rewrite list_elem_of_omap. setoid_rewrite elem_of_seqZ.
    rewrite USER_PAGES_eq. split; intros (k & Hk & E); exists k; split; auto; lia. }
  constructor.
  - by exists own'.
  - intros v e Hv He Hs. split.
    + rewrite U3, He by (done || by apply user_upper). rewrite bool_decide_eq_true_2 by done.
      by rewrite Hs.
    + rewrite Hin. destruct (user_vma_page v Hv) as (k & Hk & Hkv). exists k. split; [done|].
      unfold selected. rewrite <- (lookup_pte_role (ms_mem s) r v).
      * by rewrite He, Hs.
      * apply page_role_eq; [by apply user_upper|done|done].
  - intros q (k & Hk & Hs)%Hin. unfold selected in Hs.
    destruct (lookup_pte (ms_mem s) r (user_page k)) as [e|] eqn:He; [|done].
    destruct (sel e) eqn:Hse; [|done]. injection Hs as <-. exists (user_page k), e.
    split; [by apply user_page_vma|done].
  - intros v e Hv He Hd. rewrite U3, He by done. destruct Hd as [Hd| ->].
    + rewrite bool_decide_eq_false_2; [done|]. intros [_ ?]. done.
    + by rewrite andb_false_r.
  - intros r' v Hr' Hne Hv. rewrite U3 by done. rewrite bool_decide_eq_false_2 by tauto.
    by destruct (lookup_pte _ _ _).
  - exact U4.
Qed.

(** [memory_unmap_and_free_user] visits the whole user range of the active
    space and gives back exactly the frames of the valid user leaf entries,
    whose addresses are unmapped afterwards; entries without the U flag, other
    address spaces, and the bytes of every page that is kept are unchanged. *)
Theorem memory_unmap_and_free_user_correct s own l last r :
  minv s own l last -> mtag_to_root (satp s) = r -> own !! r = Some (Root r) ->
  exists s', memory_unmap_and_free_user s = Done tt s' /\ satp s' = satp s /\
    range_freed user_leaf s own l last r s'.
Proof.
  intros HI Hroot Hr.
  destruct (unmap_loop user_leaf unmap_user_page unmap_user_page_keeps unmap_user_page_frees
    s own l last r HI Hr) as (s' & own' & E & U).
  exists s'. split; [|split; [exact (um_satp _ _ _ _ _ _ _ _ _ U)|by eapply unmapped_range_freed]].
  unfold memory_unmap_and_free_user, active_space_mtag. unfold bind at 1, gets.
  rewrite Hroot. exact E.
Qed.

Lemma memory_unmap_and_free_user_correct_witness :
  exists s s', lookup_pte (ms_mem s) demo_root demo_vma = Some (leaf_pte 0x80200000 RWU) /\
    memory_unmap_and_free_user s = Done tt s' /\
    lookup_pte (ms_mem s') demo_root demo_vma = None.
Proof.
  destruct (demo_mapped RWU) as (s & own & l & _ & HI & Hl & Hs & Hr & Hk).
  destruct (memory_unmap_and_free_user_correct s own l 0 demo_root HI Hs Hr) as (s' & E & _ & F).
  exists s, s'. split; [exact Hk|]. split; [exact E|].
  exact (proj1 (rf_freed _ _ _ _ _ _ _ F demo_vma _ demo_user Hk eq_refl)).
Defined.

Lemma minv_set_satp s own l last v : minv s own l last -> minv (set_satp v s) own l last.
Proof. intros [H1 H2 H3 H4 H5 H6 H7]. constructor; done. Qed.

(** [memory_space_reclaim] switches to the main memory space and gives
    back exactly the frames of the non-global leaf entries of the user range of
    the space that was active; other spaces and kept pages are unchanged. *)
Theorem memory_space_reclaim_correct s own l last r :
  minv s own l last -> mtag_to_root (satp s) = r -> own !! r = Some (Root r) ->
  exists s', memory_space_reclaim s = Done tt s' /\ satp s' = main_mtag s /\
    range_freed nonglobal_leaf s own l last r s'.
Proof.
  intros HI Hroot Hr.
  destruct (unmap_loop nonglobal_leaf reclaim_page reclaim_page_keeps reclaim_page_frees
    (set_satp (main_mtag s) s) own l last r (minv_set_satp _ _ _ _ _ HI) Hr) as (s' & own' & E & U).
  exists s'. split; [|split; [exact (um_satp _ _ _ _ _ _ _ _ _ U)|]].
  - unfold memory_space_reclaim, active_space_mtag. unfold bind at 1, gets at 1.
    unfold bind at 1, gets. unfold bind at 1, modify. rewrite Hroot. exact E.
  - destruct (unmapped_range_freed _ _ _ _ _ _ _ _ Hr U) as [F1 F2 F3 F4 F5 F6].
    constructor; [exact F1|exact F2|exact F3|exact F4|exact F5|exact F6].
Qed.

Lemma memory_space_reclaim_correct_witness :
  exists s s', lookup_pte (ms_mem s) demo_root demo_vma = Some (leaf_pte 0x80200000 RWU) /\
    memory_space_reclaim s = Done tt s' /\
    lookup_pte (ms_mem s') demo_root demo_vma = None.
Proof.
  destruct (demo_mapped RWU) as (s & own & l & _ & HI & Hl & Hs & Hr & Hk).
  destruct (memory_space_reclaim_correct s own l 0 demo_root HI Hs Hr) as (s' & E & _ & F).
  exists s, s'. split; [exact Hk|]. split; [exact E|].
  exact (proj1 (rf_freed _ _ _ _ _ _ _ F demo_vma _ demo_user Hk eq_refl)).
Defined.

(** ** Cloning *)

(** C3: [memory_space_clone] makes an independent copy of the parent's space.
    It returns the tag of a fresh root table; every page the parent maps in the
    user range is mapped in the child with the same flags to a frame of its own
    with the same 4096 bytes, nothing else of the upper half is mapped, the
    kernel's global entries are those of the main space, and the mappings of
    all existing spaces and the bytes of all their pages are unchanged. *)
Theorem memory_space_clone_correct s own c l last main r parent_mtag asid :
  minv s own (c :: l) last -> mtag_to_root parent_mtag = r ->
  own !! r = Some (Root r) -> own !! main = Some (Root main) ->
  (forall i, 3 <= i < 512 -> has (load_pte (ms_mem s) (slot main i)) PTE_G = false) ->
  (3 * length (mapped (ms_mem s) r USER_PAGES) <= length l)%nat -> 0 <= asid < 2^16 ->
  exists mtag s' own' l', memory_space_clone main parent_mtag asid s = Done mtag s' /\
    mtag_to_root mtag = c /\ minv s' own' l' last /\ clone_spec s own main r c s' own'.
Proof.
  intros HI Hroot Hr Hm Huser Hlen Has.
  destruct (clone_run s own c l last main r parent_mtag asid HI Hroot Hr Hm Huser Hlen)
    as (s' & own' & l' & E & HI' & Hspec & _).
  exists (sv39_mtag asid c), s', own', l'. split; [done|]. split; [|done].
  apply sv39_mtag_root; [|done].
  exact (mi_page _ _ _ _ HI' _ _ (cs_root _ _ _ _ _ _ _ Hspec)).
Qed.

Lemma demo_root_zero i : 0 <= i < 512 -> load_pte (ms_mem demo_state) (slot demo_root i) = null_pte.
Proof.
  intros Hi. unfold load_pte. change (ms_mem demo_state) with (chain ∅ demo_pages 0).
  rewrite (chain_other demo_pages); [done|].
  unfold slot, demo_root. repeat apply Forall_cons_2; try apply Forall_nil_2; lia.
Qed.

Lemma mapped_none m r n :
  (forall v, lookup_pte m r v = None) -> length (mapped m r n) = 0%nat.
Proof. intros H. induction n as [|n IH]; [done|]. by rewrite mapped_S, IH, H. Qed.

Lemma demo_empty v : lookup_pte (ms_mem demo_state) demo_root v = None.
Proof. apply lookup_from_empty. intros i Hi. by rewrite demo_root_zero. Qed.

Lemma memory_space_clone_correct_witness :
  exists mtag s', memory_space_clone demo_root (satp demo_state) 7 demo_state = Done mtag s' /\
    mtag_to_root mtag = 0x80200000.
Proof.
  destruct (memory_space_clone_correct demo_state demo_own 0x80200000 (tl demo_pages) 0
    demo_root demo_root (satp demo_state) 7) as (mtag & s' & _ & _ & E & R & _).
  - exact demo_minv.
  - exact demo_satp.
  - exact demo_root_role.
  - exact demo_root_role.
  - intros i Hi. rewrite demo_root_zero by lia. reflexivity.
  - rewrite mapped_none by exact demo_empty. simpl. lia.
  - lia.
  - exists mtag, s'. split; [exact E|exact R].
Defined.

(** ** Validation of user pointers *)

Lemma validate_step fuel cur end_vma flags s :
  cur < end_vma ->
  validate_loop (S fuel) cur end_vma flags s =
  if page_allows (ms_mem s) (mtag_to_root (satp s)) cur flags
  then validate_loop fuel (w64 (cur + PAGE_SIZE)) end_vma flags s
  else Done (-1) s.
Proof.
  intros Hlt. cbn [validate_loop]. destruct (Z.ltb_spec cur end_vma); [|lia].
  mstep (root_active s). mstep (walk_pt_read (mtag_to_root (satp s)) cur s).
  unfold bind at 1, gets, page_allows. cbv zeta.
  destruct (_ =? NULL); [done|]. destruct (has _ PTE_V); [|done].
  by destruct (_ =? flags).
Qed.

(** The addresses the loop probes: [cur, cur + 4096, ...] below [end_vma]. *)
Definition probes (cur end_vma : Z) : list Z :=
  (fun k => cur + k * PAGE_SIZE) <$> seqZ 0 (pages_between cur end_vma).

Lemma probes_cons cur end_vma :
  cur < end_vma -> probes cur end_vma = cur :: probes (cur + PAGE_SIZE) end_vma.
Proof.
  intros H. unfold probes.
  assert (Hn : pages_between cur end_vma = 1 + pages_between (cur + PAGE_SIZE) end_vma).
  { unfold pages_between, PAGE_SIZE. zdiv. }
  assert (0 <= pages_between (cur + PAGE_SIZE) end_vma) by (unfold pages_between, PAGE_SIZE in *; zdiv).
  rewrite seqZ_cons by lia. rewrite fmap_cons. f_equal; [lia|].
  rewrite Hn. replace (Z.pred (1 + _)) with (pages_between (cur + PAGE_SIZE) end_vma) by lia.
  rewrite <- (fmap_add_seqZ 1 0), <- list_fmap_compose.
  apply list_fmap_ext. intros i k _. unfold compose. lia.
Qed.

Lemma probes_nil cur end_vma : end_vma <= cur -> probes cur end_vma = [].
Proof.
  intros H. unfold probes. rewrite seqZ_nil; [done|]. unfold pages_between, PAGE_SIZE. zdiv.
Qed.

Lemma validate_loop_run fuel cur end_vma flags s :
  0 <= cur -> end_vma + PAGE_SIZE <= 18446744073709551616 ->
  (length (probes cur end_vma) <= fuel)%nat ->
  validate_loop fuel cur end_vma flags s =
  Done (if forallb (fun v => page_allows (ms_mem s) (mtag_to_root (satp s)) v flags) (probes cur end_vma)
        then 0 else -1) s.
Proof.
  revert cur. induction fuel as [|fuel IH]; intros cur H0 Hend Hlen;
    destruct (Z.lt_ge_cases cur end_vma) as [Hlt|Hge].
  - rewrite probes_cons in Hlen by done. simpl in Hlen. lia.
  - rewrite probes_nil by done. cbn [validate_loop]. by destruct (Z.ltb_spec cur end_vma); [lia|].
  - rewrite validate_step by done. rewrite probes_cons in * by done. cbn [forallb].
    destruct (page_allows _ _ cur flags); [|done]. unfold PAGE_SIZE in *.
    rewrite w64_small by lia. apply IH; [lia|lia|]. simpl in Hlen. lia.
  - rewrite probes_nil by done. cbn [validate_loop]. by destruct (Z.ltb_spec cur end_vma); [lia|].
Qed.

Lemma page_allows_lookup m r v flags :
  page_allows m r v flags =
  match lookup_pte m r v with Some e => Z.land (pte_flags e) flags =? flags | None => false end.
Proof.
  unfold page_allows, lookup_pte, lookup_from. cbv zeta.
  destruct (_ =? NULL); [done|]. by destruct (has _ PTE_V).
Qed.

Lemma page_allows_page m r v v' flags :
  v / PAGE_SIZE = v' / PAGE_SIZE -> page_allows m r v flags = page_allows m r v' flags.
Proof.
  intros E. assert (VPN2 v = VPN2 v' /\ VPN1 v = VPN1 v' /\ VPN0 v = VPN0 v') as (E2 & E1 & E0).
  { rewrite !VPN2_div, !VPN1_div, !VPN0_div. unfold PAGE_SIZE in E. change 4096 with (2^12) in E.
    change (2^30) with (2^12 * 2^18). change (2^21) with (2^12 * 2^9).
    rewrite <- !Z.div_div by lia. by rewrite E. }
  unfold page_allows. cbn [find_slot vpn]. by rewrite E2, E1, E0.
Qed.

Lemma probes_cover vp len (P : Z -> bool) :
  vp mod PAGE_SIZE = 0 -> 0 < len ->
  (forall v v', v / PAGE_SIZE = v' / PAGE_SIZE -> P v = P v') ->
  forallb P (probes vp (vp + len)) = true <-> (forall v, vp <= v < vp + len -> P v = true).
Proof.
  intros Hal Hlen HP. rewrite forallb_forall. unfold probes. split.
  - intros H v Hv. rewrite (HP v (vp + (v - vp) / PAGE_SIZE * PAGE_SIZE)).
    + apply H, list_elem_of_In, list_elem_of_fmap. exists ((v - vp) / PAGE_SIZE). split; [done|].
      apply elem_of_seqZ. unfold pages_between, PAGE_SIZE in *. clear HP. zdiv.
    + unfold PAGE_SIZE in *. clear HP H. zdiv.
  - intros H v Hv. apply list_elem_of_In, list_elem_of_fmap in Hv as (k & -> & Hk%elem_of_seqZ).
    apply H. unfold pages_between, PAGE_SIZE in *. clear HP H. zdiv.
Qed.

Lemma probes_length vp len : 0 < len -> Z.of_nat (length (probes vp (vp + len))) <= len / PAGE_SIZE + 1.
Proof.
  intros H. unfold probes. rewrite length_fmap, length_seqZ.
  unfold pages_between, PAGE_SIZE. zdiv.
Qed.

(** for a page-aligned pointer and a length that does not wrap around the
    address space, [memory_validate_vptr_len] terminates and accepts (returns
    0) exactly when every byte of the range lies in a valid page that has all
    the requested flags; otherwise it returns -1. *)
Theorem memory_validate_vptr_len_correct fuel vp len flags s :
  vp mod PAGE_SIZE = 0 -> 0 <= vp -> wellformed_vma vp = true -> 0 < len ->
  vp + len + PAGE_SIZE <= 18446744073709551616 -> len / PAGE_SIZE + 1 <= Z.of_nat fuel ->
  exists res, memory_validate_vptr_len fuel vp len flags s = Done res s /\ (res = 0 \/ res = -1) /\
    (res = 0 <-> forall v, vp <= v < vp + len ->
       page_allows (ms_mem s) (mtag_to_root (satp s)) v flags = true).
Proof.
  intros Hal H0 Hwf Hlen Hend Hfuel. unfold memory_validate_vptr_len.
  rewrite Hwf. destruct (Z.eqb_spec len 0); [lia|]. cbn [negb orb].
  rewrite w64_small by (unfold PAGE_SIZE in *; lia).
  rewrite validate_loop_run by (try done; pose proof (probes_length vp len Hlen); lia).
  set (P := fun v => page_allows (ms_mem s) (mtag_to_root (satp s)) v flags).
  pose proof (probes_cover vp len P Hal Hlen (fun v v' => page_allows_page _ _ v v' _)) as HP.
  eexists. split; [reflexivity|]. destruct (forallb P (probes vp (vp + len))).
  - split; [by left|]. split; [intros _; by apply HP|done].
  - split; [by right|]. split; [done|]. intros H. by apply HP in H.
Qed.

Lemma memory_validate_vptr_len_correct_witness :
  exists s res, memory_validate_vptr_len 2 demo_vma 100 PTE_U s = Done res s /\ res = -1.
Proof.
  destruct (memory_validate_vptr_len_correct 2 demo_vma 100 PTE_U demo_state) as (res & E & H01 & Hiff).
  - reflexivity.
  - unfold demo_vma. lia.
  - reflexivity.
  - lia.
  - unfold demo_vma, PAGE_SIZE. lia.
  - vm_compute. discriminate.
  - exists demo_state, res. split; [exact E|]. destruct H01 as [H0|H1]; [exfalso|exact H1].
    assert (Ha := proj1 Hiff H0 demo_vma ltac:(lia)). rewrite demo_satp in Ha.
    rewrite page_allows_lookup, demo_empty in Ha. discriminate Ha.
Defined.

(** two ways past the validation.  When the end of the range wraps around
    to an address not above its start, no page is looked at and the range is
    accepted; and a range of at most a page is accepted as soon as the page of
    its first byte allows it, even when it extends into the next page. *)
Theorem memory_validate_vptr_len_gaps fuel vp len flags s :
  wellformed_vma vp = true -> len <> 0 ->
  (w64 (vp + len) <= vp -> memory_validate_vptr_len fuel vp len flags s = Done 0 s) /\
  (0 <= vp -> 0 < len <= PAGE_SIZE -> vp + len + PAGE_SIZE <= 18446744073709551616 -> (1 <= fuel)%nat ->
   page_allows (ms_mem s) (mtag_to_root (satp s)) vp flags = true ->
   memory_validate_vptr_len fuel vp len flags s = Done 0 s).
Proof.
  intros Hwf Hlen. unfold memory_validate_vptr_len. rewrite Hwf.
  destruct (Z.eqb_spec len 0); [done|]. cbn [negb orb]. split.
  - intros Hw. destruct fuel; cbn [validate_loop]; destruct (Z.ltb_spec vp (w64 (vp + len))); lia || done.
  - intros H0 Hl Hend Hf Hok. rewrite w64_small by (unfold PAGE_SIZE in *; lia).
    assert (Hp : probes vp (vp + len) = [vp]).
    { rewrite probes_cons, probes_nil by lia. done. }
    rewrite validate_loop_run; [|done|done|rewrite Hp; simpl; lia].
    rewrite Hp. cbn [forallb]. by rewrite Hok.
Qed.

(** A two-byte range of which only the first byte is in a mapped page. *)
Lemma memory_validate_vptr_len_gaps_witness :
  exists s, memory_validate_vptr_len 1 (demo_vma + 4095) 2 PTE_U s = Done 0 s /\
    memory_validate_vptr_len 0 demo_vma (2^64 - demo_vma) PTE_U s = Done 0 s.
Proof.
  destruct (demo_mapped RWU) as (s & own & l & _ & HI & Hl & Hs & Hr & Hk).
  exists s. split.
  - apply (proj2 (memory_validate_vptr_len_gaps 1 (demo_vma + 4095) 2 PTE_U s eq_refl ltac:(lia)));
      [unfold demo_vma; lia|unfold PAGE_SIZE; lia|unfold demo_vma, PAGE_SIZE; lia|lia|].
    rewrite (page_allows_page _ _ _ demo_vma) by reflexivity. rewrite Hs.
    rewrite page_allows_lookup, Hk. reflexivity.
  - apply (proj1 (memory_validate_vptr_len_gaps 0 demo_vma (2^64 - demo_vma) PTE_U s eq_refl
      ltac:(unfold demo_vma; lia))). vm_compute. discriminate.
Defined.

(** ** The heap *)

(** a request of 1 to 4096 bytes succeeds (a page is left in the pool): the
    block is 16-byte aligned, large enough, disjoint from the remaining free
    region and from every block handed out before, and outside of every frame
    that is free or part of an address space; at most one page is taken. *)
Theorem kmalloc_correct h own p l last blocks size :
  heap_inv h own (p :: l) last blocks -> 0 < size <= PAGE_SIZE ->
  exists q h' own' l',
    kmalloc size h = Done q h' /\ q mod 16 = 0 /\ size <= round16 size /\
    heap_inv h' own' l' last ((q, round16 size) :: blocks) /\
    (own' = own /\ l' = p :: l \/ own' = <[p := Held]> own /\ l' = l).
Proof.
  intros HI Hs. destruct (round16_small size) as (_ & Hn & _); [lia|].
  destruct (Z.le_gt_cases (round16 size) (heap_end h - heap_start h)) as [Hf|Hf].
  - destruct (kmalloc_fits h own (p :: l) last blocks size HI Hs Hf) as (E & Ha & HI').
    eexists _, _, _, _. split; [exact E|]. split; [done|]. split; [lia|]. split; [exact HI'|]. auto.
  - destruct (kmalloc_fresh h own (p :: l) last blocks size HI Hs p l eq_refl) as (q & h' & E & Ha & HI' & _);
      [lia|].
    exists q, h', (<[p := Held]> own), l. split; [done|]. split; [done|]. split; [lia|]. auto.
Qed.

Lemma kmalloc_correct_witness :
  exists h q h', kmalloc 100 h = Done q h' /\ q mod 16 = 0.
Proof.
  destruct (memory_init_run boot_layout boot_state boot_layout_ok boot_bss) as (h & _ & B).
  pose proof (booted_heap_inv boot_layout h boot_layout_ok B) as HI.
  remember (pool_pages boot_layout) as l eqn:El.
  destruct l as [|p l]; [exfalso; vm_compute in El; discriminate El|].
  destruct (kmalloc_correct h _ p l _ [] 100 HI ltac:(unfold PAGE_SIZE; lia))
    as (q & h' & _ & _ & E & A & _).
  exists h, q, h'. split; [exact E|exact A].
Defined.
