(* ===== verification/UserMem.v ===== *)
(** * User memory as the kernel accesses it

    The kernel reads and writes the memory of the running process at its virtual
    addresses: system calls copy buffers and strings, the loader of executables
    fills segments.  Such an access goes through the processor's translation with
    the supervisor's rights; one it does not allow is a page fault in supervisor
    mode, which panics.

    [uview] is what an address space shows of itself: for every address the byte
    and the flags of its page.  The lemmas give the effect of mapping, storing and
    changing flags on views, so that operations compose without page tables. *)

From stdpp Require Import base gmap list strings numbers.
From Stdlib Require Import Lia ZArith.
From S2P Require Import Prelude CMem PageAlloc PageTable PageInv VmSpace UserRange MemInit Clone VmProps.
Local Open Scope Z_scope.
Local Open Scope kern_scope.

(** ** Accesses *)

Definition page_fault : string := "page fault in supervisor mode".

Definition load_virt8 (va : Z) : M mstate Z := fun s =>
  match sv39_translate (ms_mem s) (mtag_to_root (satp s)) va with
  | Some (pa, fl) =>
      if (Z.land fl PTE_R =? 0) || (negb (Z.land fl PTE_U =? 0) && negb (sstatus_sum s)) then Panic page_fault s
      else Done (load8 (ms_mem s) pa) s
  | None => Panic page_fault s
  end.
Definition store_virt8 (va v : Z) : M mstate unit := fun s =>
  match sv39_translate (ms_mem s) (mtag_to_root (satp s)) va with
  | Some (pa, fl) =>
      if (Z.land fl PTE_W =? 0) || (negb (Z.land fl PTE_U =? 0) && negb (sstatus_sum s)) then Panic page_fault s
      else Done tt (set_mem (store8 (ms_mem s) pa v) s)
  | None => Panic page_fault s
  end.

Fixpoint load_virt (va : Z) (n : nat) : M mstate (list Z) :=
  match n with
  | O => ret []
  | S n' => c <- load_virt8 va ;; l <- load_virt (w64 (va + 1)) n' ;; ret (c :: l)
  end.
Fixpoint store_virt (va : Z) (l : list Z) : M mstate unit :=
  match l with
  | [] => ret tt
  | c :: l' => store_virt8 va c ;; store_virt (w64 (va + 1)) l'
  end.

(** The characters before the NUL of the string at [va]. *)
Fixpoint load_string (fuel : nat) (va : Z) : M mstate (list Z) :=
  match fuel with
  | O => fun _ => NoFuel
  | S fuel' => c <- load_virt8 va ;; if c =? 0 then ret [] else l <- load_string fuel' (w64 (va + 1)) ;; ret (c :: l)
  end.

Definition le_bytes (n : nat) (v : Z) : list Z := (fun k => w8 (v / 2 ^ (8 * Z.of_nat k))) <$> seq 0 n.
Definition le_value (l : list Z) : Z := foldr (fun c v => c + 256 * v) 0 l.

(** ** What mapping leaves alone *)

Lemma map_page_keeps_sum vma flags : keeps sstatus_sum (memory_alloc_and_map_page vma flags).
Proof.
  unfold memory_alloc_and_map_page, memory_alloc_page, memory_free_page, active_space_root, active_space_mtag, walk_pt.
  keep; done.
Qed.

Lemma set_page_flags_keeps {X} (f : mstate -> X) vp flags :
  (forall m s, f (set_mem m s) = f s) -> keeps f (memory_set_page_flags vp flags).
Proof.
  intros Hf. unfold memory_set_page_flags, active_space_root, active_space_mtag. keep.
  by rewrite !Hf.
Qed.

(** ** Views *)

(** The byte at [v] of the space [r] and the flags of its page. *)
Definition uview (s : mstate) (r v : Z) : option (Z * Z) :=
  match lookup_pte (ms_mem s) r v with
  | Some e => Some (load8 (ms_mem s) (ppage e + v mod PAGE_SIZE), pte_flags e)
  | None => None
  end.

(** The space [r] is active, and the kernel may access user pages. *)
Record active (s : mstate) (own : gmap Z role) (l : list Z) (last r : Z) : Prop := {
  ac_inv : minv s own l last;
  ac_root : mtag_to_root (satp s) = r;
  ac_own : own !! r = Some (Root r);
  ac_sum : sstatus_sum s = true
}.

(** The space [r] shows [g] afterwards, other spaces what they showed. *)
Record shows (s : mstate) (own : gmap Z role) (r : Z) (s' : mstate) (own' : gmap Z role)
    (g : Z -> option (Z * Z)) : Prop := {
  sh_view : forall v, upper v -> uview s' r v = g v;
  sh_other : forall r' v, own !! r' = Some (Root r') -> r' <> r -> upper v -> uview s' r' v = uview s r' v;
  sh_roots : forall r', own !! r' = Some (Root r') -> own' !! r' = Some (Root r')
}.

Lemma shows_refl s own r : shows s own r s own (uview s r).
Proof. by constructor. Qed.

Lemma shows_ext s own r s' own' g g' :
  shows s own r s' own' g -> (forall v, upper v -> g v = g' v) -> shows s own r s' own' g'.
Proof. intros [A1 A2 A3] H. constructor; auto. intros v Hv. rewrite A1; auto. Qed.

Lemma shows_trans s1 o1 s2 o2 s3 o3 r g g' :
  shows s1 o1 r s2 o2 g -> shows s2 o2 r s3 o3 g' -> shows s1 o1 r s3 o3 g'.
Proof.
  intros [A1 A2 A3] [B1 B2 B3]. constructor; auto.
  intros r' v Hr Hne Hv. rewrite B2, A2; auto.
Qed.

(** The byte of a data page, from the bytes of its frame. *)
Lemma load8_page m m' q q' v :
  bytes m' q' (Z.to_nat PAGE_SIZE) = bytes m q (Z.to_nat PAGE_SIZE) ->
  load8 m' (q' + v mod PAGE_SIZE) = load8 m (q + v mod PAGE_SIZE).
Proof.
  intros H. apply (f_equal (lookup (Z.to_nat (v mod PAGE_SIZE)))) in H.
  assert (0 <= v mod PAGE_SIZE < PAGE_SIZE) by (apply Z.mod_pos_bound; done).
  rewrite !bytes_lookup in H by (unfold PAGE_SIZE in *; lia). rewrite !Z2Nat.id in H by lia. by injection H.
Qed.

Lemma uview_none s r v : uview s r v = None <-> lookup_pte (ms_mem s) r v = None.
Proof. unfold uview. by destruct (lookup_pte _ _ _). Qed.

(** Same entry and same frame content: same view. *)
Lemma uview_same s own l last s' r v :
  minv s own l last -> own !! r = Some (Root r) -> upper v ->
  lookup_pte (ms_mem s') r v = lookup_pte (ms_mem s) r v ->
  (forall q r' i2 i1 i0, own !! q = Some (Data r' i2 i1 i0) ->
     bytes (ms_mem s') q (Z.to_nat PAGE_SIZE) = bytes (ms_mem s) q (Z.to_nat PAGE_SIZE)) ->
  uview s' r v = uview s r v.
Proof.
  intros HI Hr Hv Hl Hb. unfold uview. rewrite Hl.
  destruct (lookup_pte (ms_mem s) r v) as [e|] eqn:E; [|done]. do 2 f_equal.
  apply load8_page. eapply Hb. by eapply lookup_pte_owned; eauto; apply Hv.
Qed.

Lemma same_page_role r r' v k :
  upper v -> 0 <= k < 65536 -> page_role r' v = page_role r (user_page k) ->
  r' = r /\ user_page k <= v < user_page k + PAGE_SIZE.
Proof. intros Hv Hk H. assert (r' = r) as -> by (by injection H). split; [done|]. by eapply page_role_eq. Qed.

(** ** Mapping *)

(** The view of a space in which a zeroed frame was mapped. *)
Lemma shows_maps_page s own l last s' own' l' last' r vma pp flags :
  minv s own l last -> minv s' own' l' last' -> own !! r = Some (Root r) -> user_vma vma -> vma mod PAGE_SIZE = 0 ->
  maps_page s own r vma pp (leaf_pte pp flags) (replicate (Z.to_nat PAGE_SIZE) 0) s' own' ->
  shows s own r s' own'
    (fun v => if decide (vma <= v < vma + PAGE_SIZE) then Some (0, leaf_flags flags) else uview s r v).
Proof.
  intros HI HI' Hr Hu Ha [M1 M2 M3 M4 M5 M6]. destruct (user_page_of vma Hu Ha) as (k & Hk & ->). constructor.
  - intros v Hv. case_decide as Hd.
    + unfold uview. rewrite M1 by (done || apply Hv). rewrite decide_True by (by apply page_role_eq).
      rewrite ppage_leaf by (eapply mi_page; [exact HI'|exact M2]). do 2 f_equal.
      apply (f_equal (lookup (Z.to_nat (v mod PAGE_SIZE)))) in M4.
      assert (0 <= v mod PAGE_SIZE < PAGE_SIZE) by (apply Z.mod_pos_bound; done).
      rewrite bytes_lookup, lookup_replicate_2 in M4 by (unfold PAGE_SIZE in *; lia).
      rewrite Z2Nat.id in M4 by lia. by injection M4.
    + eapply uview_same; eauto. rewrite M1 by (done || apply Hv). rewrite decide_False; [done|].
      intros Heq. by apply same_page_role in Heq as [_ ?].
  - intros r' v Hr' Hne Hv. eapply uview_same; eauto. rewrite M1 by (done || apply Hv).
    rewrite decide_False; [done|]. by intros [= ? _ _ _].
  - intros r' Hr'. by apply M3.
Qed.

Lemma view_map_page s own pp l last r vma flags :
  active s own (pp :: l) last r -> (2 <= length l)%nat -> user_vma vma -> vma mod PAGE_SIZE = 0 ->
  exists s' own' l',
    memory_alloc_and_map_page vma flags s = Done vma s' /\
    active s' own' l' last r /\ (length l <= length l' + 2)%nat /\
    shows s own r s' own'
      (fun v => if decide (vma <= v < vma + PAGE_SIZE) then Some (0, leaf_flags flags) else uview s r v).
Proof.
  intros [HI Hs Hr Hm] Hl Hu Ha.
  destruct (map_page_run s own pp l last r vma flags HI Hl Hs Hr Hu Ha) as (s' & own' & l' & E & HI' & Hl' & MP).
  exists s', own', l'. split; [done|]. split; [constructor; auto|split; [done|by eapply shows_maps_page]].
  - by rewrite (mp_satp _ _ _ _ _ _ _ _ _ MP).
  - by apply (mp_keep _ _ _ _ _ _ _ _ _ MP).
  - by rewrite (map_page_keeps_sum _ _ _ _ _ E).
Qed.

Lemma page_fault_keeps_sum v : keeps sstatus_sum (memory_handle_page_fault v).
Proof.
  unfold memory_handle_page_fault, memory_alloc_and_map_page, memory_alloc_page, memory_free_page,
    active_space_root, active_space_mtag, walk_pt. cbv zeta. keep; done.
Qed.

(** The handler of page faults, mapped or not before. *)
Lemma view_page_fault s own l last r vptr :
  active s own l last r -> (5 <= length l)%nat -> user_vma vptr ->
  exists s' own' l', memory_handle_page_fault vptr s = Done tt s' /\ active s' own' l' last r /\ satp s' = satp s /\
    shows s own r s' own'
      (fun v => if decide (v / PAGE_SIZE = vptr / PAGE_SIZE) then Some (0, leaf_flags RWU) else uview s r v).
Proof.
  intros [HI Hs Hr Hm] Hl Hu.
  destruct (page_fault_run s own l last r vptr HI Hl Hs Hr Hu)
    as (pp & s1 & own1 & l1 & s' & own' & l' & E & Hex & Hmap & HI1 & HI' & MP).
  assert (Hroots : forall r', own !! r' = Some (Root r') -> own1 !! r' = Some (Root r'))
    by (intros; by apply (ex_own _ _ _ _ Hex)).
  assert (Hsatp : satp s' = satp s) by (rewrite (mp_satp _ _ _ _ _ _ _ _ _ MP); apply (ex_satp _ _ _ _ Hex)).
  assert (S1 : shows s own r s1 own1 (uview s r)).
  { constructor; [intros v Hv|intros r' v Hr' _ Hv|done];
      (eapply uview_same; eauto; [by apply Hmap; [|apply Hv]|by apply (ex_bytes _ _ _ _ Hex)]). }
  exists s', own', l'. split; [done|]. split; [constructor; auto; [by rewrite Hsatp| |]|split; [done|]].
  - by apply (mp_keep _ _ _ _ _ _ _ _ _ MP); [apply Hroots|].
  - by rewrite (page_fault_keeps_sum _ _ _ _ E).
  - assert (Hva : user_vma (round_down_addr vptr PAGE_SIZE)).
    { destruct (round_down_user_page vptr Hu) as (k & Hk & ->). by apply user_page_vma. }
    assert (Hal : round_down_addr vptr PAGE_SIZE mod PAGE_SIZE = 0) by (by apply Z.mod_mul).
    pose proof (shows_maps_page s1 own1 _ _ s' own' _ _ r _ pp RWU HI1 HI' (Hroots r Hr) Hva Hal MP) as S2.
    eapply shows_ext; [exact (shows_trans _ _ _ _ _ _ _ _ _ S1 S2)|].
    intros v Hv. cbn beta. rewrite (sh_view _ _ _ _ _ _ S1 v Hv). unfold round_down_addr, PAGE_SIZE.
    repeat case_decide; try done; zdiv.
Qed.

Lemma view_map_loop n : forall j s own l last r start flags,
  active s own l last r -> (3 * n <= length l)%nat -> start mod PAGE_SIZE = 0 -> USER_START_VMA <= start ->
  0 <= j -> start + (j + Z.of_nat n) * PAGE_SIZE <= USER_END_VMA ->
  exists s' own' l',
    map_range_loop n j start flags s = Done start s' /\
    active s' own' l' last r /\ (length l <= length l' + 3 * n)%nat /\
    shows s own r s' own'
      (fun v => if decide (start + j * PAGE_SIZE <= v < start + (j + Z.of_nat n) * PAGE_SIZE)
                then Some (0, leaf_flags flags) else uview s r v).
Proof.
  induction n as [|n IH]; intros j s own l last r start flags HA Hl Ha Hs Hj He.
  - exists s, own, l. split; [done|]. split; [done|]. split; [lia|].
    eapply shows_ext; [apply shows_refl|]. intros v _. simpl. rewrite decide_False; [done|lia].
  - destruct l as [|pp l]; [simpl in Hl; lia|].
    assert (Hu : user_vma (start + j * PAGE_SIZE)) by (unfold user_vma, PAGE_SIZE in *; lia).
    assert (Hw : w64 (start + j * PAGE_SIZE) = start + j * PAGE_SIZE).
    { apply w64_small. unfold user_vma, USER_START_VMA, USER_END_VMA in *. lia. }
    destruct (view_map_page s own pp l last r (start + j * PAGE_SIZE) flags HA)
      as (s1 & own1 & l1 & E1 & HA1 & Hl1 & S1); [simpl in Hl; lia|done|rewrite Z.mod_add; done|].
    simpl in Hl. destruct (IH (j + 1) s1 own1 l1 last r start flags HA1) as (s2 & own2 & l2 & E2 & HA2 & Hl2 & S2); [lia..|].
    exists s2, own2, l2. split; [|split; [done|split; [simpl; lia|]]].
    + cbn [map_range_loop]. rewrite Hw. mstep E1.
      destruct (Z.eqb_spec (start + j * PAGE_SIZE) NULL) as [E|_]; [|done].
      unfold user_vma, USER_START_VMA, NULL in *. lia.
    + eapply shows_ext; [exact (shows_trans _ _ _ _ _ _ _ _ _ S1 S2)|]. intros v Hv. simpl.
      rewrite (sh_view _ _ _ _ _ _ S1 v Hv). unfold PAGE_SIZE in *. repeat case_decide; done || lia.
Qed.

(** [memory_alloc_and_map_range] on whole pages of the user range, with three free
    frames for each page, maps exactly these, filled with zeros. *)
Lemma view_map_range s own l last r vma size flags :
  active s own l last r -> vma mod PAGE_SIZE = 0 -> size mod PAGE_SIZE = 0 ->
  USER_START_VMA <= vma -> 0 <= size -> vma + size <= USER_END_VMA ->
  3 * (size / PAGE_SIZE) <= Z.of_nat (length l) ->
  exists s' own' l',
    memory_alloc_and_map_range vma size flags s = Done vma s' /\
    active s' own' l' last r /\
    Z.of_nat (length l) <= Z.of_nat (length l') + 3 * (size / PAGE_SIZE) /\
    shows s own r s' own'
      (fun v => if decide (vma <= v < vma + size) then Some (0, leaf_flags flags) else uview s r v).
Proof.
  intros HA Ha Hz Hs H0 He Hl. set (n := Z.to_nat (size / PAGE_SIZE)).
  assert (Hn : Z.of_nat n = size / PAGE_SIZE) by (unfold n; rewrite Z2Nat.id; [done|apply Z.div_pos; done]).
  assert (Hsz : Z.of_nat n * PAGE_SIZE = size) by (rewrite Hn; unfold PAGE_SIZE in *; zdiv).
  destruct (view_map_loop n 0 s own l last r vma flags HA) as (s' & own' & l' & E & HA' & Hl' & S'); [lia..|].
  exists s', own', l'. split; [|split; [done|split; [lia|]]].
  - unfold memory_alloc_and_map_range. cbv zeta. unfold USER_START_VMA, USER_END_VMA in *.
    rewrite (w64_small (vma + size)) by lia. replace (vma + size - vma) with size by lia.
    rewrite (w64_small size) by lia. exact E.
  - eapply shows_ext; [exact S'|]. intros v _. simpl. repeat case_decide; done || lia.
Qed.

(** ** Stores *)

Lemma has_lookup_RWX fl : Z.land fl PTE_W <> 0 -> Z.land fl PTE_RWX <> 0.
Proof.
  intros H E. apply H. unfold PTE_W. replace 4 with (Z.land PTE_RWX 4) by reflexivity.
  rewrite Z.land_assoc, E. apply Z.land_0_l.
Qed.

Lemma view_store8 s own l last r va c b fl :
  active s own l last r -> upper va -> uview s r va = Some (b, fl) -> Z.land fl PTE_W <> 0 ->
  exists s', store_virt8 va c s = Done tt s' /\ active s' own l last r /\
    shows s own r s' own (fun v => if decide (v = va) then Some (w8 c, fl) else uview s r v).
Proof.
  intros [HI Hs Hr Hm] Hu Hv Hw. unfold uview in Hv.
  destruct (lookup_pte (ms_mem s) r va) as [e|] eqn:E; [|done]. injection Hv as <- <-.
  assert (Hrole := lookup_pte_owned s own l last r va e HI Hr (proj2 Hu) E).
  assert (Hpg : page (ppage e)) by (eapply mi_page; eauto).
  assert (HR : has e PTE_RWX = true).
  { unfold has. by rewrite (proj2 (Z.eqb_neq _ _) (has_lookup_RWX _ Hw)). }
  assert (0 <= va mod PAGE_SIZE < PAGE_SIZE) by (apply Z.mod_pos_bound; done).
  set (m' := store8 (ms_mem s) (ppage e + va mod PAGE_SIZE) c).
  assert (Hso : same_outside (ppage e) (ms_mem s) m').
  { intros a Ha. unfold m'. rewrite load8_store8, decide_False; [done|]. unfold in_page in Ha. lia. }
  assert (Hmap : same_map own (ms_mem s) m') by (eapply same_map_write_data; eauto).
  exists (set_mem m' s). split; [|split; [constructor; auto; by eapply minv_write_data|constructor; [| |done]]].
  - unfold store_virt8. rewrite Hs, (lookup_translate _ _ _ _ E HR), Hm, (proj2 (Z.eqb_neq _ _) Hw).
    cbn [orb negb]. by rewrite andb_false_r.
  - intros v Hv. unfold uview. cbn [ms_mem set_mem]. rewrite Hmap by (done || apply Hv). case_decide as Hd.
    + subst v. rewrite E. unfold m'. by rewrite load8_store8, decide_True.
    + destruct (lookup_pte (ms_mem s) r v) as [e'|] eqn:E'; [|done]. do 2 f_equal. unfold m'.
      rewrite load8_store8, decide_False; [done|]. intros Heq.
      assert (Hrole' := lookup_pte_owned s own l last r v e' HI Hr (proj2 Hv) E').
      assert (Hpg' : page (ppage e')) by (eapply mi_page; eauto).
      assert (0 <= v mod PAGE_SIZE < PAGE_SIZE) by (apply Z.mod_pos_bound; done).
      assert (ppage e = ppage e') as Epp by (unfold page, PAGE_SIZE in *; zdiv).
      rewrite Epp, Hrole' in Hrole. injection Hrole as E2 E1 E0.
      assert (va / PAGE_SIZE = v / PAGE_SIZE) by (apply vpn_inj; auto; (apply Hu || apply Hv)).
      unfold PAGE_SIZE in *. zdiv.
  - intros r' v Hr' Hne Hv. unfold uview. cbn [ms_mem set_mem]. rewrite Hmap by (done || apply Hv).
    destruct (lookup_pte (ms_mem s) r' v) as [e'|] eqn:E'; [|done]. do 2 f_equal.
    apply load8_page. assert (Hrole' := lookup_pte_owned s own l last r' v e' HI Hr' (proj2 Hv) E').
    apply (same_outside_bytes (ppage e)); auto; [eapply mi_page; eauto|].
    intros Epp. unfold page_role in *. rewrite Epp in *. congruence.
Qed.

(** [g] with the bytes of [l] from [va] on, the flags kept. *)
Definition view_write (g : Z -> option (Z * Z)) (va : Z) (l : list Z) (v : Z) : option (Z * Z) :=
  if decide (va <= v < va + Z.of_nat (length l))
  then (fun x => (w8 (default 0 (l !! Z.to_nat (v - va))), snd x)) <$> g v else g v.

Definition writable (g : Z -> option (Z * Z)) (va n : Z) : Prop :=
  forall v, va <= v < va + n -> exists b fl, g v = Some (b, fl) /\ Z.land fl PTE_W <> 0.

Lemma view_store data : forall s own l last r va,
  active s own l last r -> USER_START_VMA <= va -> va + Z.of_nat (length data) <= USER_END_VMA ->
  writable (uview s r) va (Z.of_nat (length data)) ->
  exists s', store_virt va data s = Done tt s' /\ active s' own l last r /\
    shows s own r s' own (view_write (uview s r) va data).
Proof.
  induction data as [|c data IH]; intros s own l last r va HA Hs He Hw.
  - exists s. split; [done|]. split; [done|]. eapply shows_ext; [apply shows_refl|].
    intros v _. unfold view_write. simpl. rewrite decide_False; [done|lia].
  - simpl length in *. assert (Hu : user_vma va) by (unfold user_vma; lia).
    destruct (Hw va) as (b & fl & Hb & Hfl); [lia|].
    destruct (view_store8 s own l last r va c b fl HA (user_upper _ Hu) Hb Hfl) as (s1 & E1 & HA1 & S1).
    destruct (IH s1 own l last r (va + 1) HA1) as (s2 & E2 & HA2 & S2); [lia|lia| |].
    { intros v Hv. rewrite (sh_view _ _ _ _ _ _ S1 v) by (apply user_upper; unfold user_vma in *; lia).
      rewrite decide_False by lia. apply Hw. lia. }
    exists s2. split; [|split; [done|]].
    + cbn [store_virt]. mstep E1. rewrite w64_small; [exact E2|].
      unfold user_vma, USER_START_VMA, USER_END_VMA in *. lia.
    + eapply shows_ext; [exact (shows_trans _ _ _ _ _ _ _ _ _ S1 S2)|]. intros v Hv. unfold view_write.
      rewrite (sh_view _ _ _ _ _ _ S1 v Hv). simpl length. repeat case_decide; try lia; try done.
      * replace (Z.to_nat (v - va)) with (S (Z.to_nat (v - (va + 1)))) by lia. done.
      * subst v. rewrite Hb, Z.sub_diag. done.
Qed.

(** ** Flags *)

(** The flags of a page after [memory_set_page_flags]. *)
Definition reflag (flags fl : Z) : Z := Z.lor (Z.land fl (Z.lnot PTE_FLAGS_MASK)) flags mod 2^8.

Lemma view_flags_page s own l last r vp flags :
  active s own l last r -> user_vma vp -> vp mod PAGE_SIZE = 0 -> 0 <= flags < 2^8 ->
  uview s r vp <> None ->
  exists s', memory_set_page_flags vp flags s = Done tt s' /\ active s' own l last r /\
    shows s own r s' own
      (fun v => if decide (vp <= v < vp + PAGE_SIZE)
                then (fun x => (fst x, reflag flags (snd x))) <$> uview s r v else uview s r v).
Proof.
  intros [HI Hs Hr Hm] Hu Ha Hf Hv.
  destruct (lookup_pte (ms_mem s) r vp) as [e|] eqn:E; [|by rewrite uview_none in Hv].
  destruct (memory_set_page_flags_correct s own l last r vp flags HI Hs Hr Hu Hf) as [H _].
  destruct (H e Ha E) as (s' & E' & HI' & L & By). exists s'. split; [done|].
  destruct (user_page_of vp Hu Ha) as (k & Hk & ->).
  split; [constructor; auto|constructor; [| |done]].
  - by rewrite (set_page_flags_keeps satp _ _ (fun _ _ => eq_refl) _ _ _ E').
  - by rewrite (set_page_flags_keeps sstatus_sum _ _ (fun _ _ => eq_refl) _ _ _ E').
  - intros v Hv'. case_decide as Hd; [|by eapply uview_same; eauto; rewrite L, decide_False by tauto].
    unfold uview. rewrite L, decide_True by done.
    assert (lookup_pte (ms_mem s) r v = Some e) as ->.
    { rewrite <- E. apply lookup_pte_role. by apply page_role_eq. }
    cbn [fmap option_fmap option_map fst snd]. f_equal. f_equal.
    apply load8_page. apply (By _ r (VPN2 v) (VPN1 v) (VPN0 v)).
    assert (page_role r v = page_role r (user_page k)) as Er by (by apply page_role_eq).
    change (own !! ppage e = Some (page_role r v)). rewrite Er.
    apply (lookup_pte_owned s own l last r (user_page k) e HI Hr); [by apply user_page_vpn2|done].
  - intros r' v Hr' Hne Hv'. eapply uview_same; eauto. rewrite L by done. by rewrite decide_False by tauto.
Qed.

(** [memory_set_range_flags] on whole mapped pages changes the flags of exactly
    these. *)
Lemma view_flags_range s own l last r vp size flags :
  active s own l last r -> vp mod PAGE_SIZE = 0 -> size mod PAGE_SIZE = 0 ->
  USER_START_VMA <= vp -> 0 <= size -> vp + size <= USER_END_VMA -> 0 <= flags < 2^8 ->
  (forall v, vp <= v < vp + size -> uview s r v <> None) ->
  exists s', memory_set_range_flags vp size flags s = Done tt s' /\ active s' own l last r /\
    shows s own r s' own
      (fun v => if decide (vp <= v < vp + size)
                then (fun x => (fst x, reflag flags (snd x))) <$> uview s r v else uview s r v).
Proof.
  intros HA Ha Hz Hs H0 He Hf Hv. set (n := Z.to_nat (size / PAGE_SIZE)).
  assert (Hn : Z.of_nat n = size / PAGE_SIZE) by (unfold n; rewrite Z2Nat.id; [done|apply Z.div_pos; done]).
  assert (Hsz : Z.of_nat n * PAGE_SIZE = size) by (rewrite Hn; unfold PAGE_SIZE in *; zdiv).
  unfold memory_set_range_flags. cbv zeta. unfold USER_START_VMA, USER_END_VMA in *.
  rewrite (w64_small (vp + size)) by lia. replace (vp + size - vp) with size by lia.
  rewrite (w64_small size) by lia. fold n.
  destruct (for_upto_inv (fun j s1 => active s1 own l last r /\ shows s own r s1 own
      (fun v => if decide (vp <= v < vp + j * PAGE_SIZE)
                then (fun x => (fst x, reflag flags (snd x))) <$> uview s r v else uview s r v))
    (fun k => memory_set_page_flags (w64 (vp + k * PAGE_SIZE)) flags) n 0 s) as (s' & E & HA' & S').
  - split; [done|]. eapply shows_ext; [apply shows_refl|]. intros v _. rewrite decide_False; [done|lia].
  - intros j s1 Hj [HA1 S1].
    assert (Hu : user_vma (vp + j * PAGE_SIZE)) by (unfold user_vma, USER_START_VMA, USER_END_VMA, PAGE_SIZE in *; lia).
    rewrite w64_small by (unfold user_vma, USER_START_VMA, USER_END_VMA in *; lia).
    destruct (view_flags_page s1 own l last r (vp + j * PAGE_SIZE) flags HA1 Hu) as (s2 & E2 & HA2 & S2);
      [by rewrite Z.mod_add|done| |].
    { rewrite (sh_view _ _ _ _ _ _ S1) by (by apply user_upper). rewrite decide_False by lia.
      apply Hv. unfold PAGE_SIZE in *. lia. }
    exists s2. split; [done|]. split; [done|]. eapply shows_ext; [exact (shows_trans _ _ _ _ _ _ _ _ _ S1 S2)|].
    intros v Hup. cbn beta. rewrite (sh_view _ _ _ _ _ _ S1 v Hup). unfold PAGE_SIZE in *.
    repeat case_decide; done || lia.
  - exists s'. split; [done|]. split; [done|]. eapply shows_ext; [exact S'|]. intros v _. cbn beta.
    repeat case_decide; done || lia.
Qed.

(** ** Wiping the user range *)

(** [g] without the user leaf pages of the user range. *)
Definition wipe (g : Z -> option (Z * Z)) (v : Z) : option (Z * Z) :=
  match g v with
  | Some (b, fl) =>
      if bool_decide (user_vma v) && negb (Z.land fl PTE_U =? 0) && negb (Z.land fl PTE_RWX =? 0)
      then None else Some (b, fl)
  | None => None
  end.

Lemma unmap_user_keeps_sum : keeps sstatus_sum memory_unmap_and_free_user.
Proof.
  unfold memory_unmap_and_free_user, active_space_mtag. apply keeps_bind; [apply keeps_gets|intros old].
  apply keeps_for_upto. intros k. unfold unmap_user_page.
  apply keeps_bind; [intros s a s' H; rewrite walk_pt_read in H; by injection H as _ <-|intros p].
  apply keeps_bind; [apply keeps_gets|intros m]. cbv zeta. unfold memory_free_page. keep; done.
Qed.

(** A page the pass does not free keeps its content. *)
Lemma kept_not_freed s own l last r r' v e :
  minv s own l last -> own !! r = Some (Root r) -> own !! r' = Some (Root r') -> upper v ->
  lookup_pte (ms_mem s) r' v = Some e -> ~ (r' = r /\ user_vma v /\ user_leaf e = true) ->
  ppage e ∉ freed user_leaf (ms_mem s) r USER_PAGES.
Proof.
  intros HI Hr Hr' Hv He Hn Hin. unfold freed in Hin. rewrite list_elem_of_omap in Hin.
  destruct Hin as (k & Hk & Hs). rewrite elem_of_seqZ, USER_PAGES_eq in Hk. unfold selected in Hs.
  destruct (lookup_pte (ms_mem s) r (user_page k)) as [e'|] eqn:E'; [|done].
  destruct (user_leaf e') eqn:Hl; [|done]. injection Hs as Hpp.
  pose proof (lookup_pte_owned s own l last r (user_page k) e' HI Hr (user_page_vpn2 k ltac:(lia)) E') as Hrole.
  rewrite Hpp, (lookup_pte_owned s own l last r' v e HI Hr' (proj2 Hv) He) in Hrole. injection Hrole as Er E2 E1 E0.
  assert (Hpr : page_role r' v = page_role r (user_page k)) by (unfold page_role; congruence).
  destruct (same_page_role r r' v k Hv ltac:(lia) Hpr) as [-> Hrange]. apply Hn. split; [done|].
  split; [by apply (user_page_range k); [lia|]|]. rewrite (lookup_pte_role (ms_mem s) r _ _ Hpr) in He. congruence.
Qed.

Lemma view_unmap_user s own l last r :
  active s own l last r ->
  exists s' own' l', memory_unmap_and_free_user s = Done tt s' /\ active s' own' l' last r /\
    (length l <= length l')%nat /\ shows s own r s' own' (wipe (uview s r)).
Proof.
  intros [HI Hroot Hr Hsum].
  destruct (unmap_loop user_leaf unmap_user_page unmap_user_page_keeps unmap_user_page_frees
    s own l last r HI Hr) as (s' & own' & E & U).
  assert (E' : memory_unmap_and_free_user s = Done tt s').
  { unfold memory_unmap_and_free_user, active_space_mtag. unfold bind at 1, gets. by rewrite Hroot. }
  pose proof (unmapped_root user_leaf s own l last r HI Hr USER_PAGES s' own') as Hroots.
  rewrite USER_PAGES_eq in Hroots. exists s', own', (reverse (freed user_leaf (ms_mem s) r USER_PAGES) ++ l).
  specialize (fun r' => Hroots r' (Z.le_refl _) U). destruct U as [U1 U2 U3 U4 U5 U6]. rewrite user_page_end in U3.
  assert (Hkept : forall r' v, own !! r' = Some (Root r') -> upper v ->
    (forall e, lookup_pte (ms_mem s) r' v = Some e -> ~ (r' = r /\ user_vma v /\ user_leaf e = true)) ->
    uview s' r' v = uview s r' v).
  { intros r' v Hr' Hv Hn. unfold uview. rewrite U3 by done.
    destruct (lookup_pte (ms_mem s) r' v) as [e|] eqn:He; [|done]. specialize (Hn e eq_refl).
    replace (bool_decide (r' = r ∧ USER_START_VMA <= v < USER_END_VMA) && user_leaf e) with false.
    2:{ destruct (user_leaf e) eqn:Hl; [|by rewrite andb_false_r]. rewrite andb_true_r. symmetry.
        apply bool_decide_eq_false_2. intros [H1 H2]. by apply Hn. }
    do 2 f_equal. apply load8_page. eapply U4; [by eapply lookup_pte_owned; eauto; apply Hv|].
    by eapply kept_not_freed. }
  split; [done|]. split; [constructor; auto|split; [rewrite length_app; lia|constructor; auto]].
  - by rewrite U5.
  - by rewrite (unmap_user_keeps_sum _ _ _ E').
  - intros v Hv. unfold wipe. destruct (uview s r v) as [[b fl]|] eqn:Eu.
    + destruct (_ && _) eqn:Eb; [|rewrite Hkept, Eu; auto].
      * apply uview_none. rewrite U3 by done. unfold uview in Eu.
        destruct (lookup_pte (ms_mem s) r v) as [e|]; [|done]. injection Eu as _ <-.
        rewrite !andb_true_iff, bool_decide_eq_true in Eb. destruct Eb as [[Eb1 Eb2] Eb3].
        rewrite bool_decide_eq_true_2 by done. unfold user_leaf, has. by rewrite Eb2, Eb3.
      * intros e He (_ & Hu & Hl). unfold uview in Eu. rewrite He in Eu. injection Eu as _ <-.
        rewrite (bool_decide_eq_true_2 _ Hu) in Eb. unfold user_leaf, has in Hl. cbn [andb] in Eb. congruence.
    + apply uview_none. rewrite U3 by done. apply uview_none in Eu. by rewrite Eu.
  - intros r' v Hr' Hne Hv. apply Hkept; auto. intros e _ (? & _). done.
Qed.
