(* ===== verification/Grow.v ===== *)
(** * Memory operations that only add (memory.c, ezheap.c)

    What the allocations a fork makes have in common: the address spaces there are
    keep their mappings and their bytes, and the blocks of the heap stay apart
    from everything else.  The lemmas give this for [kmalloc], for a kernel stack
    and for [memory_space_clone]. *)

From stdpp Require Import base gmap list strings numbers.
From Stdlib Require Import Lia ZArith.
From S2P Require Import Prelude CMem PageAlloc PageTable PageInv VmSpace UserRange Heap MemInit Clone VmProps UserMem.
Local Open Scope Z_scope.
Local Open Scope kern_scope.

(** Existing spaces show what they showed. *)
Record grows (s : mstate) (own : gmap Z role) (s' : mstate) (own' : gmap Z role) : Prop := {
  gr_ext : extends s own s' own';
  gr_map : same_map own (ms_mem s) (ms_mem s');
  gr_sum : sstatus_sum s' = sstatus_sum s
}.

Lemma grows_refl s own : grows s own s own.
Proof. constructor; [apply extends_refl|by intros r v|done]. Qed.

Lemma grows_trans s1 o1 s2 o2 s3 o3 : grows s1 o1 s2 o2 -> grows s2 o2 s3 o3 -> grows s1 o1 s3 o3.
Proof.
  intros [A1 A2 A3] [B1 B2 B3]. constructor; [by eapply extends_trans| |congruence].
  intros r v Hr Hv. rewrite (B2 r v); [by apply A2| |done]. by apply (ex_own _ _ _ _ A1).
Qed.

Lemma grows_root s own s' own' r : grows s own s' own' -> own !! r = Some (Root r) -> own' !! r = Some (Root r).
Proof. intros [A _ _] Hr. by apply (ex_own _ _ _ _ A). Qed.

Lemma grows_view s own l last s' own' r v :
  minv s own l last -> grows s own s' own' -> own !! r = Some (Root r) -> upper v -> uview s' r v = uview s r v.
Proof.
  intros HI [A1 A2 _] Hr Hv. eapply uview_same; eauto; [by apply A2, Hv|]. apply (ex_bytes _ _ _ _ A1).
Qed.

Lemma grows_mapped s own s' own' r :
  grows s own s' own' -> own !! r = Some (Root r) ->
  length (mapped (ms_mem s') r USER_PAGES) = length (mapped (ms_mem s) r USER_PAGES).
Proof.
  intros [_ A2 _] Hr. apply mapped_ext; [|by rewrite USER_PAGES_eq]. intros k Hk. apply A2; [done|]. by apply user_page_vpn2.
Qed.

(** ** One page, and the bytes in it *)

Lemma grows_alloc s own p l last x :
  minv s own (p :: l) last -> x <> Free -> is_tab x = false -> (forall r, x = Root r -> r = p) ->
  minv (alloc_state s) (<[p := x]> own) l last /\ grows s own (alloc_state s) (<[p := x]> own).
Proof.
  intros HI Hx Ht Hr. destruct (minv_alloc s own p l last x HI Hx Ht Hr) as [HI' HE]. split; [done|].
  constructor; [done|by eapply same_map_alloc|done].
Qed.

(** Bytes of the kernel's own objects may be written. *)
Lemma not_heap_byte s own l last p x a :
  minv s own l last -> own !! p = Some x -> x <> Held -> in_page p a -> ~ heap_byte own a.
Proof.
  intros HI Hp Hx Ha [H|H]; rewrite (page_of_inside p) in H; try done; try (apply (mi_page _ _ _ _ HI _ _ Hp)); congruence.
Qed.

Lemma grows_write s own l last m' :
  minv s own l last -> (forall a, ~ heap_byte own a -> load8 m' a = load8 (ms_mem s) a) ->
  minv (set_mem m' s) own l last /\ grows s own (set_mem m' s) own.
Proof.
  intros HI Hm.
  assert (Hb : forall p x a, own !! p = Some x -> x <> Held -> in_page p a -> load8 m' a = load8 (ms_mem s) a).
  { intros p x a Hp Hx Ha. apply Hm. by eapply not_heap_byte. }
  assert (He : forall p x i, own !! p = Some x -> x <> Held -> 0 <= i < 512 ->
    load_pte m' (slot p i) = load_pte (ms_mem s) (slot p i)).
  { intros p x i Hp Hx Hi. apply load_pte_ext. intros b Hb'. apply (Hb p x); auto. destruct (slot_in_page p i Hi). unfold in_page. lia. }
  assert (Ht : forall p x i, own !! p = Some x -> tabular x = true -> 0 <= i < 512 ->
    load_pte m' (slot p i) = load_pte (ms_mem s) (slot p i)) by (intros p x i Hp Hx; apply (He p x); [done|by intros ->]).
  split; [|constructor; [constructor| |done]].
  - destruct HI as [Hf Hpg Hl Hr Hen Hk Hcl]. constructor; try done.
    + destruct Hf as (F1 & F2 & F3 & F4). split; [|done]. eapply free_seg_ext; [exact F1|]. intros q Hq. apply load64_ext.
      intros b Hb'. apply (Hb q Free); [by apply Hl|done|unfold in_page, PAGE_SIZE; lia].
    + intros q x i Hq Hi y Hc. cbn [ms_mem set_mem]. rewrite (Ht q x i); auto; [by apply Hen|]. by eapply child_tabular.
    + intros q y Hq Hy. destruct (Hk q y Hq Hy) as (a & z & j & Ha & Hj & Hc & Hv & Hpp).
      exists a, z, j. cbn [ms_mem set_mem]. rewrite (Ht a z j); eauto using child_tabular.
    + intros q r' j2 j1 Hq i Hi. cbn [ms_mem set_mem]. rewrite (Ht q _ i Hq) by done. exact (Hcl q r' j2 j1 Hq i Hi).
  - done.
  - intros q x i Hq Hx Hi _. apply (He q x); auto. by intros ->.
  - intros q r i2 i1 i0 Hq. apply bytes_ext. intros b Hb'. apply (Hb q _ _ Hq); [done|]. unfold in_page, PAGE_SIZE in *. lia.
  - done.
  - intros q r i Hq Hi Hg. cbn [ms_mem set_mem]. rewrite (He q _ i Hq); [done|done|lia].
  - done.
  - intros r v Hr Hv. eapply lookup_from_ext; eauto.
Qed.

(** ** The heap *)

Lemma heap_inv_vm h own l last blocks m' own' l' :
  heap_inv h own l last blocks -> minv m' own' l' last -> (forall a, heap_byte own a -> heap_byte own' a) ->
  heap_inv (set_vm m' h) own' l' last blocks.
Proof.
  intros [H1 H2 H3 H4 H5] HI Hb. constructor; [done..| |done]. cbn [heap_start heap_end set_vm].
  eapply Forall_impl; [|exact H4]. intros b Hin a Ha. apply Hb. by apply Hin.
Qed.

Lemma heap_byte_alloc own p a x : own !! p = Some Free -> heap_byte own a -> heap_byte (<[p := x]> own) a.
Proof.
  intros Hp Ha. unfold heap_byte in *. rewrite lookup_insert_ne; [done|]. intros ->. rewrite Hp in Ha. naive_solver.
Qed.

Lemma kmalloc_grows h own p l last blocks size :
  heap_inv h own (p :: l) last blocks -> 0 < size <= PAGE_SIZE ->
  exists q h' own' l', kmalloc size h = Done q h' /\
    heap_inv h' own' l' last ((q, round16 size) :: blocks) /\ grows (h_vm h) own (h_vm h') own' /\
    (length l <= length l')%nat.
Proof.
  intros HI Hs. pose proof (hi_vm _ _ _ _ _ HI) as HM.
  destruct (Z.le_gt_cases (round16 size) (heap_end h - heap_start h)) as [Hf|Hf].
  - destruct (kmalloc_fits h own (p :: l) last blocks size HI Hs Hf) as (E & _ & HI').
    eexists _, _, own, (p :: l). split; [exact E|]. split; [exact HI'|]. split; [apply grows_refl|cbn; lia].
  - destruct (kmalloc_fresh h own (p :: l) last blocks size HI Hs p l eq_refl) as (q & h' & E & _ & HI' & Ev); [lia|].
    exists q, h', (<[p := Held]> own), l. split; [done|]. split; [done|]. rewrite Ev. split; [|lia].
    by apply (grows_alloc (h_vm h) own p l last Held HM).
Qed.

(** Writing inside a block. *)
Lemma heap_write h own l last q n blocks m' :
  heap_inv h own l last ((q, n) :: blocks) -> (forall a, ~ inside (q, n) a -> load8 m' a = load8 (ms_mem (h_vm h)) a) ->
  heap_inv (set_vm (set_mem m' (h_vm h)) h) own l last ((q, n) :: blocks) /\ grows (h_vm h) own (set_mem m' (h_vm h)) own.
Proof.
  intros HI Hm. pose proof (hi_bytes _ _ _ _ _ HI) as HB. apply Forall_cons_1 in HB as [_ HB]. apply Forall_cons_1 in HB as [HB _].
  destruct (grows_write _ _ _ _ m' (hi_vm _ _ _ _ _ HI)) as [HM G].
  { intros a Ha. apply Hm. intros Hin. by apply Ha, HB. }
  split; [|done]. by eapply heap_inv_vm.
Qed.

(** A new block is apart from those there were. *)
Lemma new_block_fresh h own l last q n blocks a :
  heap_inv h own l last ((q, n) :: blocks) -> (exists b, b ∈ blocks /\ inside b a) -> ~ inside (q, n) a.
Proof.
  intros [_ _ _ _ H5] (b & Hb & Ha) Hin. destruct H5 as (_ & H & _). rewrite list.Forall_forall in H.
  by apply (H b Hb a).
Qed.

Lemma inside_start q n : 0 < n -> inside (q, n) q.
Proof. unfold inside. cbn. lia. Qed.

(** [a] belongs to one of the blocks. *)
Definition used (blocks : list span) (a : Z) : Prop := exists b, b ∈ blocks /\ inside b a.

Lemma used_cons b blocks a : used blocks a -> used (b :: blocks) a.
Proof. intros (b' & Hb & Ha). exists b'. split; [by right|done]. Qed.

Lemma used_head q n blocks : 0 < n -> used ((q, n) :: blocks) q.
Proof. intros Hn. exists (q, n). split; [by left|]. unfold inside. cbn. lia. Qed.

(** A block for an object of the kernel. *)
Lemma kmalloc_block h own l last blocks size :
  heap_inv h own l last blocks -> 0 < size <= PAGE_SIZE -> (1 <= length l)%nat ->
  exists q h' own' l', kmalloc size h = Done q h' /\ heap_inv h' own' l' last ((q, round16 size) :: blocks) /\
    grows (h_vm h) own (h_vm h') own' /\ (length l <= length l' + 1)%nat /\
    used ((q, round16 size) :: blocks) q /\ (forall a, used blocks a -> used ((q, round16 size) :: blocks) a /\ a <> q) /\
    (forall a, used blocks a -> ~ inside (q, round16 size) a).
Proof.
  intros HI Hs Hl. destruct l as [|p l]; [cbn in Hl; lia|].
  destruct (kmalloc_grows h own p l last blocks size HI Hs) as (q & h' & own' & l' & E & HI' & G & Hl').
  destruct (round16_small size) as (_ & Hr & _); [lia|].
  assert (Hf : forall a, used blocks a -> ~ inside (q, round16 size) a) by (intros a Ha; by eapply (new_block_fresh h')).
  exists q, h', own', l'. split_and!; [done..|cbn; lia|apply used_head; lia| |done].
  intros a Ha. split; [by apply used_cons|]. intros ->. apply (Hf q Ha), inside_start. lia.
Qed.

(** A page taken for a kernel stack becomes a block; the words at its top are
    written. *)
Lemma stack_page_grows h own p l last blocks m' :
  heap_inv h own (p :: l) last blocks -> same_outside p (ms_mem (alloc_state (h_vm h))) m' ->
  let vm' := set_mem m' (alloc_state (h_vm h)) in
  heap_inv (set_vm vm' h) (<[p := Held]> own) l last ((p, PAGE_SIZE) :: blocks) /\
  grows (h_vm h) own vm' (<[p := Held]> own).
Proof.
  intros HI Hso vm'. pose proof (hi_vm _ _ _ _ _ HI) as HM.
  assert (Hp : own !! p = Some Free) by (apply (mi_list _ _ _ _ HM); by left).
  assert (Hpg : page p) by exact (mi_page _ _ _ _ HM _ _ Hp).
  destruct (grows_alloc (h_vm h) own p l last Held HM) as [HM1 G1]; [done..|].
  destruct (grows_write _ _ _ _ m' HM1) as [HM2 G2].
  { intros a Ha. apply Hso. intros Hin. apply Ha. right. rewrite (page_of_inside p) by (done || apply Hpg). apply lookup_insert_eq. }
  split; [|by eapply grows_trans].
  pose proof (heap_inv_vm _ _ _ _ _ _ _ _ HI HM2 (fun a => heap_byte_alloc own p a Held Hp)) as [K1 K2 K3 K4 K5].
  apply Forall_cons_1 in K4 as [K4 K4'].
  pose proof (hi_bytes _ _ _ _ _ HI) as HB. apply Forall_cons_1 in HB as [HB1 HB2].
  constructor; [done..| |].
  - constructor; [done|]. constructor; [|done]. intros a Ha. right.
    rewrite (page_of_inside p); [apply lookup_insert_eq|apply Hpg|exact Ha].
  - destruct K5 as [K5 K6]. cbn [all_apart]. split; [constructor; [|done]|split; [|done]].
    + intros a Ha1 Ha2. eapply (fresh_apart own p 0 _ Hp Hpg ltac:(lia) HB1 p PAGE_SIZE); [lia|lia|exact Ha2|exact Ha1].
    + eapply Forall_impl; [|exact HB2]. intros b Hb. eapply (fresh_apart own p 0 b Hp Hpg); [lia|exact Hb|lia|lia].
Qed.

(** ** Cloning *)

(** The frames that are not in the hands of the heap. *)
Definition unheld (own : gmap Z role) : gmap Z role := filter (fun kv => kv.2 <> Held) own.

Lemma unheld_Some own q x : unheld own !! q = Some x <-> own !! q = Some x /\ x <> Held.
Proof. unfold unheld. by rewrite map_lookup_filter_Some. Qed.

Lemma unheld_none own a : heap_byte own a -> unheld own !! page_of a = None.
Proof.
  intros Ha. destruct (unheld own !! page_of a) as [x|] eqn:E; [|done]. apply unheld_Some in E as [E Hx].
  destruct Ha as [H|H]; rewrite E in H; by simplify_eq.
Qed.

Lemma child_not_held x i y : child x i = Some y -> x <> Held /\ y <> Held.
Proof. intros H. destruct (child_live _ _ _ H) as [H1 H2]. split; intros ->; done. Qed.

Lemma minv_unheld s own l last : minv s own l last -> minv s (unheld own) l last.
Proof.
  intros [H1 H2 H3 H4 H5 H6 H7]. constructor; [done| | | | | |].
  - intros p x [H _]%unheld_Some. eauto.
  - intros p. rewrite H3, unheld_Some. naive_solver.
  - intros p r [H _]%unheld_Some. eauto.
  - intros q x i [H _]%unheld_Some Hi y Hy Hv. destruct (H5 q x i H Hi y Hy Hv) as [A1 A2]. split; [done|].
    apply unheld_Some. split; [done|]. by apply (child_not_held _ _ _ Hy).
  - intros p y [H _]%unheld_Some Ht. destruct (H6 p y H Ht) as (q & x & i & Hq & Hi & Hc & Hr).
    exists q, x, i. split; [|done]. apply unheld_Some. split; [done|]. by apply (child_not_held _ _ _ Hc).
  - intros q r i2 i1 [H _]%unheld_Some. eauto.
Qed.

Lemma extends_unheld s own s' own' : extends s (unheld own) s' own' -> extends s own s' own'.
Proof.
  assert (Hl : forall q x, own !! q = Some x -> live x = true -> unheld own !! q = Some x).
  { intros q x Hq Hx. apply unheld_Some. split; [done|]. by intros ->. }
  intros [A1 A2 A3 A4 A6 A5]. constructor; eauto.
  intros q Hq. apply A4. destruct (unheld own !! q) eqn:E; [|done]. apply unheld_Some in E as [E _]. congruence.
Qed.

Lemma walk_keeps_sum r v create : keeps sstatus_sum (walk_pt r v create).
Proof. unfold walk_pt, memory_alloc_page. keep; done. Qed.

Lemma alloc_keeps_sum : keeps sstatus_sum memory_alloc_page.
Proof. unfold memory_alloc_page. keep; done. Qed.

Lemma clone_keeps_sum main mtag asid : keeps sstatus_sum (memory_space_clone main mtag asid).
Proof.
  unfold memory_space_clone. cbv zeta. apply keeps_bind; [apply alloc_keeps_sum|intros c]. apply keeps_if; [apply keeps_ret|].
  apply keeps_bind; [by apply keeps_modify|intros _].
  apply keeps_bind; [apply keeps_for_upto; intros i; unfold copy_global_entry; keep; done|intros _].
  apply keeps_bind; [|intros _; apply keeps_ret]. apply keeps_for_upto. intros k. unfold clone_page.
  apply keeps_bind; [apply walk_keeps_sum|intros e]. apply keeps_bind; [apply keeps_gets|intros m].
  apply keeps_if; [apply keeps_ret|]. cbv zeta. apply keeps_bind; [apply walk_keeps_sum|intros e'].
  apply keeps_bind; [apply alloc_keeps_sum|intros p]. keep; done.
Qed.

(** The clone of [r] beside a heap: a space [c] of its own that shows the user
    bytes of [r]. *)
Lemma clone_grows h own c l last blocks main r parent_mtag :
  heap_inv h own (c :: l) last blocks -> mtag_to_root parent_mtag = r ->
  own !! r = Some (Root r) -> own !! main = Some (Root main) ->
  (forall i, 3 <= i < 512 -> has (load_pte (ms_mem (h_vm h)) (slot main i)) PTE_G = false) ->
  (3 * length (mapped (ms_mem (h_vm h)) r USER_PAGES) <= length l)%nat ->
  exists m' own' l', memory_space_clone main parent_mtag 0 (h_vm h) = Done (sv39_mtag 0 c) m' /\
    heap_inv (set_vm m' h) own' l' last blocks /\ grows (h_vm h) own m' own' /\
    (length l <= length l' + 3 * length (mapped (ms_mem (h_vm h)) r USER_PAGES))%nat /\
    mtag_to_root (sv39_mtag 0 c) = c /\ own' !! c = Some (Root c) /\ own !! c = Some Free /\
    (forall v, user_vma v -> uview m' c v = uview (h_vm h) r v).
Proof.
  intros HI Hroot Hr Hm Huser Hlen. pose proof (hi_vm _ _ _ _ _ HI) as HM.
  assert (Hf : own !! c = Some Free) by (apply (mi_list _ _ _ _ HM); by left).
  destruct (clone_run (h_vm h) (unheld own) c l last main r parent_mtag 0) as (m' & own' & l' & E & HM' & HC & HE & Hl');
    [by apply minv_unheld|done|by apply unheld_Some|by apply unheld_Some|done|done|].
  exists m', own', l'. split; [done|]. split; [|split; [|split; [done|split; [|split; [|split; [done|]]]]]].
  - eapply heap_inv_vm; [exact HI|done|]. intros a Ha. left. by apply (ex_none _ _ _ _ HE), unheld_none.
  - constructor; [by apply extends_unheld| |exact (clone_keeps_sum _ _ _ _ _ _ E)].
    intros r' v Hr' Hv. apply (cs_other _ _ _ _ _ _ _ HC); [|done]. by apply unheld_Some.
  - apply sv39_mtag_root; [exact (mi_page _ _ _ _ HM _ _ Hf)|lia].
  - apply (cs_root _ _ _ _ _ _ _ HC).
  - intros v Hv. unfold uview. destruct (lookup_pte (ms_mem (h_vm h)) r v) as [e|] eqn:El.
    + destruct (cs_mapped _ _ _ _ _ _ _ HC v e Hv El) as (e' & -> & Hfl & _ & Hb). rewrite Hfl. f_equal. f_equal.
      by apply load8_page.
    + rewrite (cs_unmapped _ _ _ _ _ _ _ HC v); [done|by apply user_upper|done].
Qed.
