(* ===== verification/Uart.v ===== *)
(** * The serial port driver (uart.c)

    The ring buffers between the interrupt handler and the threads, the device
    operations, and the interleaving of one reader and one writer with the
    interrupt handler.  The threads run with interrupts enabled while they move
    bytes, so the handler can run between the two memory accesses of
    [rbuf_get] and [rbuf_put]; the step relation [ustep] has those points as
    states of their own.  The theorems show that both directions are lossless
    first-in first-out channels and that no wake-up is lost. *)

From stdpp Require Import base gmap list strings numbers.
From Stdlib Require Import Lia ZArith.
From S2P Require Import Prelude.
Local Open Scope Z_scope.

(** ** Ring buffers *)

Definition SERIAL_RBUFSZ : Z := 64.

Record ringbuf := MkRing {
  hpos : Z;            (* uint16_t: head, where elements are removed *)
  tpos : Z;            (* uint16_t: tail, where elements are inserted *)
  rdata : list Z       (* char data[SERIAL_RBUFSZ] *)
}.

Definition rbuf_init (rb : ringbuf) : ringbuf := MkRing 0 0 (rdata rb).
Definition rbuf_empty (rb : ringbuf) : bool := hpos rb =? tpos rb.
Definition rbuf_full (rb : ringbuf) : bool := w16 (tpos rb - hpos rb) =? SERIAL_RBUFSZ.

(** [data[pos % SERIAL_RBUFSZ]] *)
Definition cell (pos : Z) : nat := Z.to_nat (pos mod SERIAL_RBUFSZ).

(** The two halves of [rbuf_put] and [rbuf_get], on either side of the compiler
    barrier. *)
Definition put_data (c : Z) (rb : ringbuf) : ringbuf :=
  MkRing (hpos rb) (tpos rb) (<[cell (tpos rb) := w8 c]> (rdata rb)).
Definition put_commit (rb : ringbuf) : ringbuf :=
  MkRing (hpos rb) (w16 (tpos rb + 1)) (rdata rb).
Definition rbuf_put (c : Z) (rb : ringbuf) : ringbuf := put_commit (put_data c rb).

Definition get_data (rb : ringbuf) : Z := default 0 (rdata rb !! cell (hpos rb)).
Definition get_commit (rb : ringbuf) : ringbuf :=
  MkRing (w16 (hpos rb + 1)) (tpos rb) (rdata rb).
Definition rbuf_get (rb : ringbuf) : Z * ringbuf := (get_data rb, get_commit rb).

(** *** Abstraction to a queue *)

Definition rbuf_len (rb : ringbuf) : Z := w16 (tpos rb - hpos rb).

Definition rbuf_ok (rb : ringbuf) : Prop :=
  0 <= hpos rb < 65536 /\ 0 <= tpos rb < 65536 /\ rbuf_len rb <= SERIAL_RBUFSZ /\
  length (rdata rb) = Z.to_nat SERIAL_RBUFSZ.

Definition contents (rb : ringbuf) : list Z :=
  (fun i => default 0 (rdata rb !! cell (hpos rb + i))) <$> seqZ 0 (rbuf_len rb).

Lemma contents_length rb : Z.of_nat (length (contents rb)) = rbuf_len rb.
Proof.
  unfold contents. rewrite length_fmap, length_seqZ. unfold rbuf_len.
  pose proof (w16_range (tpos rb - hpos rb)). lia.
Qed.

Lemma rbuf_empty_spec rb : rbuf_ok rb -> rbuf_empty rb = true <-> contents rb = [].
Proof.
  intros (Hh & Ht & Hl & _). unfold rbuf_empty. rewrite Z.eqb_eq.
  rewrite <- length_zero_iff_nil. pose proof (contents_length rb) as HL.
  unfold rbuf_len, w16 in *. split; intros; zdiv.
Qed.

Lemma rbuf_full_spec rb : rbuf_full rb = true <-> Z.of_nat (length (contents rb)) = SERIAL_RBUFSZ.
Proof. rewrite contents_length. unfold rbuf_full, rbuf_len. by rewrite Z.eqb_eq. Qed.

Lemma contents_full_length rb : rbuf_ok rb -> (length (contents rb) <= 64)%nat.
Proof. intros (_ & _ & Hl & _). pose proof (contents_length rb). unfold SERIAL_RBUFSZ in Hl. lia. Qed.

Lemma rbuf_init_ok rb :
  length (rdata rb) = Z.to_nat SERIAL_RBUFSZ -> rbuf_ok (rbuf_init rb) /\ contents (rbuf_init rb) = [].
Proof. intros H. split; [|done]. repeat split; simpl; try done; unfold SERIAL_RBUFSZ, rbuf_len, w16; simpl; lia. Qed.

(** Positions that differ by less than the buffer size have different cells,
    also across the wrap-around of the 16-bit counters. *)
Lemma cell_w16 x : cell (w16 x) = cell x.
Proof. unfold cell, w16, SERIAL_RBUFSZ. f_equal. zdiv. Qed.

Lemma cell_shift h t i :
  0 <= i < w16 (t - h) -> w16 (t - h) < SERIAL_RBUFSZ -> cell (h + i) <> cell t.
Proof. unfold cell, w16, SERIAL_RBUFSZ. intros. zdiv. Qed.

Lemma cell_bound x : (cell x < 64)%nat.
Proof. unfold cell, SERIAL_RBUFSZ. zdiv. Qed.

Lemma contents_put_data c rb :
  rbuf_ok rb -> rbuf_full rb = false -> contents (put_data c rb) = contents rb.
Proof.
  intros (Hh & Ht & Hl & Hd) Hf. unfold rbuf_full in Hf. apply Z.eqb_neq in Hf.
  unfold contents, rbuf_len in *. simpl. apply list_fmap_ext. intros k i Hi.
  apply lookup_seqZ in Hi as [-> Hi]. rewrite list_lookup_insert_ne; [done|].
  intros E. symmetry in E. revert E. apply cell_shift; lia.
Qed.

Lemma put_data_ok c rb : rbuf_ok rb -> rbuf_ok (put_data c rb).
Proof.
  intros (Hh & Ht & Hl & Hd). split; [done|]. split; [done|]. split; [done|].
  cbn [put_data rdata]. by rewrite length_insert.
Qed.

(** Committing after the data is written appends the byte. *)
Lemma contents_put_commit c rb :
  rbuf_ok rb -> rbuf_full rb = false -> rdata rb !! cell (tpos rb) = Some c ->
  rbuf_ok (put_commit rb) /\ contents (put_commit rb) = contents rb ++ [c].
Proof.
  intros (Hh & Ht & Hl & Hd) Hf Hc. unfold rbuf_full in Hf. apply Z.eqb_neq in Hf.
  assert (Hlen : w16 (w16 (tpos rb + 1) - hpos rb) = w16 (tpos rb - hpos rb) + 1).
  { unfold rbuf_len, w16, SERIAL_RBUFSZ in *. zdiv. }
  split.
  - repeat split; simpl; try done; try apply w16_range; unfold rbuf_len in *; simpl; lia.
  - unfold contents, rbuf_len in *. simpl. rewrite Hlen.
    pose proof (w16_range (tpos rb - hpos rb)).
    rewrite seqZ_app by lia. rewrite fmap_app. f_equal.
    rewrite (seqZ_cons _ 1), seqZ_nil by lia. cbn [fmap list_fmap].
    assert (cell (hpos rb + (0 + w16 (tpos rb - hpos rb))) = cell (tpos rb)) as ->.
    + unfold cell, w16, SERIAL_RBUFSZ. f_equal. zdiv.
    + by rewrite Hc.
Qed.

Lemma put_data_cell c rb :
  rbuf_ok rb -> rdata (put_data c rb) !! cell (tpos (put_data c rb)) = Some (w8 c).
Proof.
  intros (_ & _ & _ & Hd). simpl. apply list_lookup_insert_eq.
  rewrite Hd. apply cell_bound.
Qed.

Lemma contents_get rb :
  rbuf_ok rb -> rbuf_empty rb = false ->
  contents rb = get_data rb :: contents (get_commit rb) /\ rbuf_ok (get_commit rb).
Proof.
  intros (Hh & Ht & Hl & Hd) He. unfold rbuf_empty in He. apply Z.eqb_neq in He.
  assert (Hlen : w16 (tpos rb - w16 (hpos rb + 1)) = w16 (tpos rb - hpos rb) - 1).
  { unfold w16. zdiv. }
  assert (Hpos : 0 < w16 (tpos rb - hpos rb)) by (unfold w16; zdiv).
  split.
  - unfold contents, rbuf_len in *. simpl. rewrite Hlen, seqZ_cons by done. rewrite fmap_cons. f_equal.
    + unfold get_data. by rewrite Z.add_0_r.
    + rewrite <- (fmap_add_seqZ 1 0), <- list_fmap_compose.
      apply list_fmap_ext. intros i k _. unfold compose.
      replace (cell (w16 (hpos rb + 1) + k)) with (cell (hpos rb + (1 + k))); [done|].
      unfold cell, w16, SERIAL_RBUFSZ. f_equal. zdiv.
  - repeat split; simpl; try done; try apply w16_range; unfold rbuf_len in *; simpl; lia.
Qed.

(** the ring buffer implements a bounded first-in first-out queue of 64
    bytes, for all values of its 16-bit positions, wrap-around included:
    [rbuf_empty] and [rbuf_full] test for 0 and 64 elements, [rbuf_put] on a
    buffer that is not full appends, [rbuf_get] on a buffer that is not empty
    removes the first element, and both keep the representation valid. *)
Theorem ringbuf_queue rb c :
  rbuf_ok rb ->
  (rbuf_empty rb = true <-> contents rb = []) /\
  (rbuf_full rb = true <-> length (contents rb) = 64%nat) /\
  (rbuf_full rb = false -> rbuf_ok (rbuf_put c rb) /\ contents (rbuf_put c rb) = contents rb ++ [w8 c]) /\
  (rbuf_empty rb = false -> rbuf_ok (snd (rbuf_get rb)) /\
     contents rb = fst (rbuf_get rb) :: contents (snd (rbuf_get rb))).
Proof.
  intros Hok. split; [by apply rbuf_empty_spec|]. split.
  { rewrite rbuf_full_spec. unfold SERIAL_RBUFSZ. lia. }
  split.
  - intros Hf. destruct (contents_put_commit (w8 c) (put_data c rb)) as [H1 H2];
      [by apply put_data_ok|done|by apply put_data_cell|].
    split; [done|]. unfold rbuf_put. by rewrite H2, contents_put_data.
  - intros He. by destruct (contents_get rb Hok He).
Qed.

(** The tail has wrapped around, the head has not. *)
Definition wrapped_ring : ringbuf := MkRing 65535 1 (replicate 64 7).

Lemma ringbuf_queue_witness :
  contents (rbuf_put 9 wrapped_ring) = [7; 7; 9] /\ rbuf_ok (rbuf_put 9 wrapped_ring).
Proof.
  destruct (ringbuf_queue wrapped_ring 9) as (_ & _ & H & _).
  - repeat split; vm_compute; discriminate || reflexivity.
  - destruct (H eq_refl) as [H1 H2]. split; [rewrite H2; reflexivity|exact H1].
Defined.

(** ** The device *)

Definition UART0_IOBASE : Z := 0x10000000.
Definition LCR_DLAB : Z := Z.shiftl 1 7.
Definition LSR_OE : Z := Z.shiftl 1 1.
Definition LSR_DR : Z := Z.shiftl 1 0.
Definition LSR_THRE : Z := Z.shiftl 1 5.
Definition IER_DREIE : Z := Z.shiftl 1 0.
Definition IER_THREIE : Z := Z.shiftl 1 1.
Definition LONG_MAX : Z := 9223372036854775807.

Definition bit_set (x mask : Z) : bool := negb (Z.land x mask =? 0).

(** [struct uart_device] and the registers the driver programs; conditions are
    part of the system state below. *)
Record uart_device := MkUart {
  irqno : Z;
  reg_ier : Z;
  reg_lcr : Z;
  divisor : Z;            (* dll and dlm *)
  irq_enabled : bool;     (* intr_enable_irq / intr_disable_irq *)
  rxovrcnt : Z;           (* uint32_t *)
  uart_refcnt : Z;
  rxbuf : ringbuf;
  txbuf : ringbuf
}.

Definition set_ier (v : Z) (d : uart_device) : uart_device :=
  MkUart (irqno d) (w8 v) (reg_lcr d) (divisor d) (irq_enabled d) (rxovrcnt d) (uart_refcnt d) (rxbuf d) (txbuf d).
Definition set_rxbuf (rb : ringbuf) (d : uart_device) : uart_device :=
  MkUart (irqno d) (reg_ier d) (reg_lcr d) (divisor d) (irq_enabled d) (rxovrcnt d) (uart_refcnt d) rb (txbuf d).
Definition set_txbuf (rb : ringbuf) (d : uart_device) : uart_device :=
  MkUart (irqno d) (reg_ier d) (reg_lcr d) (divisor d) (irq_enabled d) (rxovrcnt d) (uart_refcnt d) (rxbuf d) rb.

(** The device state [uart_attach] registers ([kcalloc] gives zeroed memory);
    UART0 belongs to the console and only gets an entry that is always busy. *)
Definition uart_attach (mmio_base irq : Z) : option uart_device :=
  if mmio_base =? UART0_IOBASE then None
  else
    let ring := rbuf_init (MkRing 0 0 (replicate (Z.to_nat SERIAL_RBUFSZ) 0)) in
    Some (MkUart irq 0 0 1 false 0 0 ring ring).

Definition uart_open_ebusy : Z := - EBUSY.

Definition uart_open (d : uart_device) : Z * uart_device :=
  if negb (uart_refcnt d =? 0) then (- EBUSY, d)
  else (0, MkUart (irqno d) IER_DREIE (reg_lcr d) (divisor d) true (rxovrcnt d) 1
             (rbuf_init (rxbuf d)) (rbuf_init (txbuf d))).

Definition uart_close (d : uart_device) : uart_device :=
  MkUart (irqno d) 0 (reg_lcr d) (divisor d) false (rxovrcnt d) (uart_refcnt d) (rxbuf d) (txbuf d).

(** The receive and transmit halves of [uart_isr].  [rbr] is what a read of
    the receive register returns; the results are the device, what was written
    to the transmit register, and whether the condition was broadcast. *)
Definition isr_receive (line_status rbr : Z) (d : uart_device) : uart_device * bool :=
  if bit_set line_status LSR_DR then
    if negb (rbuf_full (rxbuf d))
    then (set_rxbuf (rbuf_put rbr (rxbuf d)) d, rbuf_empty (rxbuf d))
    else (set_ier (Z.land (reg_ier d) (Z.lnot IER_DREIE)) d, false)
  else (d, false).

Definition isr_transmit (line_status : Z) (d : uart_device) : uart_device * option Z * bool :=
  if bit_set line_status LSR_THRE then
    if negb (rbuf_empty (txbuf d))
    then let '(c, rb) := rbuf_get (txbuf d) in (set_txbuf rb d, Some c, rbuf_full (txbuf d))
    else (set_ier (Z.land (reg_ier d) (Z.lnot IER_THREIE)) d, None, false)
  else (d, None, false).

Definition uart_isr (line_status rbr : Z) (d : uart_device)
    : uart_device * option Z * bool * bool :=
  let d0 := if bit_set line_status LSR_OE
            then MkUart (irqno d) (reg_ier d) (reg_lcr d) (divisor d) (irq_enabled d)
                   (w32 (rxovrcnt d + 1)) (uart_refcnt d) (rxbuf d) (txbuf d)
            else d in
  let '(d1, wake_rx) := isr_receive line_status rbr d0 in
  let '(d2, thr, wake_tx) := isr_transmit line_status d1 in
  (d2, thr, wake_rx, wake_tx).

(** ** Threads *)

(** Where a thread is in [uart_read]: before the call; in the loop that waits
    with interrupts disabled; asleep in [condition_wait]; in the copy loop with
    the bytes copied so far; between the two halves of [rbuf_get]. *)
Inductive rstate :=
| RIdle
| RCheck (bufsz : Z)
| RSleep (bufsz : Z)
| RMove (buf : list Z) (bufsz : Z)
| RTook (c : Z) (buf : list Z) (bufsz : Z).

(** The same for [uart_write], with the bytes not yet put into the buffer. *)
Inductive wstate :=
| WIdle
| WCheck (rest : list Z)
| WSleep (rest : list Z)
| WMove (rest : list Z)
| WStored (c : Z) (rest : list Z).

(** The call: [bufsz] is cut to [LONG_MAX] and an empty read returns at once. *)
Definition uart_read_call (bufsz : Z) : rstate :=
  let n := if LONG_MAX <? bufsz then LONG_MAX else bufsz in
  if n =? 0 then RIdle else RCheck n.

(** One step of the reader: its new state, the device, and the bytes a return
    from [uart_read] delivers. *)
Definition uart_read (r : rstate) (d : uart_device) : rstate * uart_device * list Z :=
  match r with
  | RIdle | RSleep _ => (r, d, [])
  | RCheck n => if rbuf_empty (rxbuf d) then (RSleep n, d, []) else (RMove [] n, d, [])
  | RMove buf n =>
      if negb (rbuf_empty (rxbuf d)) && (Z.of_nat (length buf) <? n)
      then (RTook (get_data (rxbuf d)) buf n, d, [])
      else (RIdle, set_ier (Z.lor (reg_ier d) IER_DREIE) d, buf)
  | RTook c buf n => (RMove (buf ++ [c]) n, set_rxbuf (get_commit (rxbuf d)) d, [])
  end.

Definition uart_write_call (buf : list Z) : wstate :=
  match buf with [] => WIdle | _ => WCheck (w8 <$> buf) end.

(** One step of the writer: its new state, the device, and the byte whose
    insertion this step completes. *)
Definition uart_write (w : wstate) (d : uart_device) : wstate * uart_device * list Z :=
  match w with
  | WIdle | WSleep _ => (w, d, [])
  | WCheck rest => if rbuf_full (txbuf d) then (WSleep rest, d, []) else (WMove rest, d, [])
  | WMove (c :: rest) =>
      if negb (rbuf_full (txbuf d))
      then (WStored c rest, set_txbuf (put_data c (txbuf d)) d, [])
      else (WCheck (c :: rest), set_ier (Z.lor (reg_ier d) IER_THREIE) d, [])
  | WMove [] => (WIdle, set_ier (Z.lor (reg_ier d) IER_THREIE) d, [])
  | WStored c rest => (WMove rest, set_txbuf (put_commit (txbuf d)) d, [c])
  end.

Definition wake_reader (b : bool) (r : rstate) : rstate :=
  match r with RSleep n => if b then RCheck n else r | _ => r end.
Definition wake_writer (b : bool) (w : wstate) : wstate :=
  match w with WSleep rest => if b then WCheck rest else w | _ => w end.

(** ** The system *)

Record usys := MkSys {
  u_dev : uart_device;
  u_reader : rstate;
  u_writer : wstate;
  rx_taken : list Z;      (* bytes the handler took from the receive register *)
  rx_delivered : list Z;  (* bytes returned by completed reads *)
  tx_requested : list Z;  (* bytes passed to uart_write *)
  tx_wire : list Z        (* bytes written to the transmit register *)
}.

Inductive ustep : usys -> usys -> Prop :=
| US_isr lsr rbr st d' thr wr wt :
    uart_isr lsr rbr (u_dev st) = (d', thr, wr, wt) ->
    ustep st (MkSys d' (wake_reader wr (u_reader st)) (wake_writer wt (u_writer st))
      (rx_taken st ++ if bit_set lsr LSR_DR && negb (rbuf_full (rxbuf (u_dev st))) then [w8 rbr] else [])
      (rx_delivered st) (tx_requested st) (tx_wire st ++ option_list thr))
| US_read_call bufsz st :
    0 <= bufsz -> u_reader st = RIdle ->
    ustep st (MkSys (u_dev st) (uart_read_call bufsz) (u_writer st)
      (rx_taken st) (rx_delivered st) (tx_requested st) (tx_wire st))
| US_read st r' d' out :
    uart_read (u_reader st) (u_dev st) = (r', d', out) ->
    ustep st (MkSys d' r' (u_writer st)
      (rx_taken st) (rx_delivered st ++ out) (tx_requested st) (tx_wire st))
| US_write_call buf st :
    u_writer st = WIdle ->
    ustep st (MkSys (u_dev st) (u_reader st) (uart_write_call buf)
      (rx_taken st) (rx_delivered st) (tx_requested st ++ (w8 <$> buf)) (tx_wire st))
| US_write st w' d' out :
    uart_write (u_writer st) (u_dev st) = (w', d', out) ->
    ustep st (MkSys d' (u_reader st) w'
      (rx_taken st) (rx_delivered st) (tx_requested st) (tx_wire st)).

(** The steps as functions, to run the system. *)
Definition do_isr (lsr rbr : Z) (st : usys) : usys :=
  let '(d', thr, wr, wt) := uart_isr lsr rbr (u_dev st) in
  MkSys d' (wake_reader wr (u_reader st)) (wake_writer wt (u_writer st))
    (rx_taken st ++ if bit_set lsr LSR_DR && negb (rbuf_full (rxbuf (u_dev st))) then [w8 rbr] else [])
    (rx_delivered st) (tx_requested st) (tx_wire st ++ option_list thr).
Definition do_read (st : usys) : usys :=
  let '(r', d', out) := uart_read (u_reader st) (u_dev st) in
  MkSys d' r' (u_writer st) (rx_taken st) (rx_delivered st ++ out) (tx_requested st) (tx_wire st).
Definition do_read_call (bufsz : Z) (st : usys) : usys :=
  MkSys (u_dev st) (uart_read_call bufsz) (u_writer st)
    (rx_taken st) (rx_delivered st) (tx_requested st) (tx_wire st).

Lemma do_isr_step lsr rbr st : ustep st (do_isr lsr rbr st).
Proof. unfold do_isr. destruct (uart_isr lsr rbr (u_dev st)) as [[[d' thr] wr] wt] eqn:E. by apply US_isr. Qed.
Lemma do_read_step st : ustep st (do_read st).
Proof. unfold do_read. destruct (uart_read (u_reader st) (u_dev st)) as [[r' d'] out] eqn:E. by apply US_read. Qed.
Lemma do_read_call_step n st : 0 <= n -> u_reader st = RIdle -> ustep st (do_read_call n st).
Proof. intros. by apply US_read_call. Qed.

(** Right after [uart_open]. *)
Definition opened (d : uart_device) : usys := MkSys (snd (uart_open d)) RIdle WIdle [] [] [] [].

Inductive reachable (d : uart_device) : usys -> Prop :=
| R_open : reachable d (opened d)
| R_step st st' : reachable d st -> ustep st st' -> reachable d st'.

(** *** Invariant *)

Definition in_hand (r : rstate) : list Z :=
  match r with RMove buf _ | RTook _ buf _ => buf | _ => [] end.

Definition unsent (w : wstate) : list Z :=
  match w with
  | WIdle => []
  | WCheck rest | WSleep rest | WMove rest => rest
  | WStored c rest => c :: rest
  end.

Definition reader_ok (r : rstate) (rb : ringbuf) : Prop :=
  match r with
  | RIdle => True
  | RCheck n => 0 < n
  | RSleep n => 0 < n /\ contents rb = []
  | RMove buf n => 0 < n /\ Z.of_nat (length buf) <= n /\ (buf = [] -> contents rb <> [])
  | RTook c buf n => 0 < n /\ Z.of_nat (length buf) < n /\ exists l, contents rb = c :: l
  end.

Definition writer_ok (w : wstate) (rb : ringbuf) : Prop :=
  match w with
  | WIdle | WMove _ => True
  | WCheck rest => rest <> []
  | WSleep rest => rest <> [] /\ rbuf_full rb = true
  | WStored c rest => rbuf_full rb = false /\ rdata rb !! cell (tpos rb) = Some c
  end.

Record uinv (st : usys) : Prop := {
  ui_rx : rbuf_ok (rxbuf (u_dev st));
  ui_tx : rbuf_ok (txbuf (u_dev st));
  ui_rx_flow : rx_taken st = rx_delivered st ++ in_hand (u_reader st) ++ contents (rxbuf (u_dev st));
  ui_tx_flow : tx_requested st = tx_wire st ++ contents (txbuf (u_dev st)) ++ unsent (u_writer st);
  ui_reader : reader_ok (u_reader st) (rxbuf (u_dev st));
  ui_writer : writer_ok (u_writer st) (txbuf (u_dev st));
  ui_bytes : Forall (fun c => w8 c = c) (unsent (u_writer st))
}.

(** Projections of explicit records. *)
Ltac uproj :=
  cbn [u_dev u_reader u_writer rx_taken rx_delivered tx_requested tx_wire
       set_ier set_rxbuf set_txbuf rxbuf txbuf] in *.

Lemma in_hand_wake b r : in_hand (wake_reader b r) = in_hand r.
Proof. destruct r, b; done. Qed.
Lemma unsent_wake b w : unsent (wake_writer b w) = unsent w.
Proof. destruct w, b; done. Qed.

(** Reader states survive an insertion, a sleeping reader is woken by it. *)
Lemma reader_ok_append r rb rb' c :
  rbuf_ok rb -> reader_ok r rb -> contents rb' = contents rb ++ [c] ->
  reader_ok (wake_reader (rbuf_empty rb) r) rb'.
Proof.
  intros Hok Hr Hc. destruct r as [|n|n|buf n|c0 buf n]; cbn [wake_reader reader_ok] in *; try done.
  - destruct Hr as [Hn He]. apply rbuf_empty_spec in He; [|done]. by rewrite He.
  - destruct Hr as (Hn & Hl & _). rewrite Hc. split; [done|]. split; [done|].
    intros _ E. by destruct (contents rb).
  - destruct Hr as (Hn & Hl & l & E). rewrite Hc, E. eauto.
Qed.

Lemma isr_receive_inv lsr rbr d r d1 wake :
  rbuf_ok (rxbuf d) -> reader_ok r (rxbuf d) -> isr_receive lsr rbr d = (d1, wake) ->
  txbuf d1 = txbuf d /\ rbuf_ok (rxbuf d1) /\ reader_ok (wake_reader wake r) (rxbuf d1) /\
  contents (rxbuf d1) = contents (rxbuf d) ++
    if bit_set lsr LSR_DR && negb (rbuf_full (rxbuf d)) then [w8 rbr] else [].
Proof.
  intros Hok Hr. unfold isr_receive. destruct (bit_set lsr LSR_DR); cbn [andb].
  - destruct (rbuf_full (rxbuf d)) eqn:Hf; cbn [negb]; intros [= <- <-].
    + rewrite app_nil_r. split; [done|]. split; [done|]. split; [by destruct r|done].
    + destruct (contents_put_commit (w8 rbr) (put_data rbr (rxbuf d))) as [H1 H2];
        [by apply put_data_ok|done|by apply put_data_cell|].
      rewrite contents_put_data in H2 by done.
      split; [done|]. split; [done|]. split; [by eapply reader_ok_append|done].
  - intros [= <- <-]. rewrite app_nil_r. split; [done|]. split; [done|]. split; [by destruct r|done].
Qed.

Lemma writer_ok_remove w rb :
  rbuf_ok rb -> rbuf_empty rb = false -> writer_ok w rb ->
  writer_ok (wake_writer (rbuf_full rb) w) (get_commit rb).
Proof.
  intros Hok He Hw. destruct w as [|rest|rest|rest|c rest]; cbn [wake_writer writer_ok] in *; try done.
  - destruct Hw as [Hr ->]. done.
  - destruct Hw as [Hf Hc]. split; [|done]. destruct (rbuf_full (get_commit rb)) eqn:E; [|done].
    apply rbuf_full_spec in E. destruct (contents_get rb Hok He) as [Hc' _].
    pose proof (contents_full_length rb Hok) as Hl. rewrite Hc' in Hl. simpl in Hl.
    unfold SERIAL_RBUFSZ in E. lia.
Qed.

Lemma isr_transmit_inv lsr d w d1 thr wake :
  rbuf_ok (txbuf d) -> writer_ok w (txbuf d) -> isr_transmit lsr d = (d1, thr, wake) ->
  rxbuf d1 = rxbuf d /\ rbuf_ok (txbuf d1) /\ writer_ok (wake_writer wake w) (txbuf d1) /\
  contents (txbuf d) = option_list thr ++ contents (txbuf d1).
Proof.
  intros Hok Hw. unfold isr_transmit. destruct (bit_set lsr LSR_THRE).
  - destruct (rbuf_empty (txbuf d)) eqn:He; cbn [negb rbuf_get]; intros [= <- <- <-].
    + split; [done|]. split; [done|]. split; [by destruct w|done].
    + destruct (contents_get (txbuf d) Hok He) as [Hc Hok'].
      split; [done|]. split; [done|]. split; [by apply writer_ok_remove|done].
  - intros [= <- <- <-]. split; [done|]. split; [done|]. split; [by destruct w|done].
Qed.

Lemma uinv_isr lsr rbr st d' thr wr wt :
  uinv st -> uart_isr lsr rbr (u_dev st) = (d', thr, wr, wt) ->
  uinv (MkSys d' (wake_reader wr (u_reader st)) (wake_writer wt (u_writer st))
    (rx_taken st ++ if bit_set lsr LSR_DR && negb (rbuf_full (rxbuf (u_dev st))) then [w8 rbr] else [])
    (rx_delivered st) (tx_requested st) (tx_wire st ++ option_list thr)).
Proof.
  intros [U1 U2 U3 U4 U5 U6 U7]. unfold uart_isr.
  set (d0 := if bit_set lsr LSR_OE then _ else u_dev st).
  assert (Hrx : rxbuf d0 = rxbuf (u_dev st)) by (unfold d0; by destruct (bit_set lsr LSR_OE)).
  assert (Htx : txbuf d0 = txbuf (u_dev st)) by (unfold d0; by destruct (bit_set lsr LSR_OE)).
  clearbody d0. rewrite <- Hrx, <- Htx in *.
  destruct (isr_receive lsr rbr d0) as [d1 w1] eqn:E1.
  destruct (isr_transmit lsr d1) as [[d2 t2] w2] eqn:E2. intros [= <- <- <- <-].
  destruct (isr_receive_inv lsr rbr d0 (u_reader st) d1 w1 U1 U5 E1) as (A1 & A2 & A3 & A4).
  rewrite <- A1 in U2, U6.
  destruct (isr_transmit_inv lsr d1 (u_writer st) d2 t2 w2 U2 U6 E2) as (B1 & B2 & B3 & B4).
  constructor; uproj;
    rewrite ?B1, ?in_hand_wake, ?unsent_wake; auto.
  - rewrite A4, U3. by rewrite <- !app_assoc.
  - rewrite U4, <- A1, B4. by rewrite <- !app_assoc.
Qed.

Lemma uinv_read st r' d' out :
  uinv st -> uart_read (u_reader st) (u_dev st) = (r', d', out) ->
  uinv (MkSys d' r' (u_writer st) (rx_taken st) (rx_delivered st ++ out) (tx_requested st) (tx_wire st)).
Proof.
  intros [U1 U2 U3 U4 U5 U6 U7] E. destruct st as [d r w t1 t2 t3 t4].
  uproj.
  destruct r as [|n|n|buf n|c buf n]; cbn [uart_read] in E.
  - injection E as <- <- <-. rewrite app_nil_r. by constructor.
  - destruct (rbuf_empty (rxbuf d)) eqn:He; injection E as <- <- <-; rewrite app_nil_r.
    + constructor; auto. split; [done|]. by apply rbuf_empty_spec.
    + constructor; uproj; auto. split; [done|]. cbn [length]. split; [simpl in U5; lia|].
      intros _ Hn. cbn [u_dev] in Hn. apply rbuf_empty_spec in Hn; [|done]. congruence.
  - injection E as <- <- <-. rewrite app_nil_r. by constructor.
  - destruct (rbuf_empty (rxbuf d)) eqn:He; cbn [negb andb] in E;
      [|destruct (Z.ltb_spec (Z.of_nat (length buf)) n)]; injection E as <- <- <-.
    + constructor; uproj; auto; [|exact I]. cbn [in_hand] in *. by rewrite U3, <- app_assoc.
    + rewrite app_nil_r. constructor; uproj; auto. cbn [reader_ok].
      destruct (contents_get (rxbuf d) U1 He) as [Hc _]. destruct U5 as (Hn & _). eauto.
    + constructor; uproj; auto; [|exact I]. cbn [in_hand] in *. by rewrite U3, <- app_assoc.
  - injection E as <- <- <-. rewrite app_nil_r. destruct U5 as (Hn & Hl & l & Hc).
    assert (He : rbuf_empty (rxbuf d) = false).
    { destruct (rbuf_empty (rxbuf d)) eqn:He; [|done]. apply rbuf_empty_spec in He; [|done]. congruence. }
    destruct (contents_get (rxbuf d) U1 He) as [Hg Hok]. rewrite Hc in Hg. injection Hg as Hg1 Hg2.
    constructor; uproj; auto.
    + rewrite U3, Hc, Hg2. cbn [in_hand]. by rewrite <- !app_assoc.
    + cbn [reader_ok]. rewrite length_app. cbn [length]. split; [done|]. split; [lia|].
      intros Hnil. by destruct buf.
Qed.

Lemma uinv_write st w' d' out :
  uinv st -> uart_write (u_writer st) (u_dev st) = (w', d', out) ->
  uinv (MkSys d' (u_reader st) w' (rx_taken st) (rx_delivered st) (tx_requested st) (tx_wire st)).
Proof.
  intros [U1 U2 U3 U4 U5 U6 U7] E. destruct st as [d r w t1 t2 t3 t4].
  uproj.
  destruct w as [|rest|rest|[|c rest]|c rest]; cbn [uart_write] in E.
  - injection E as <- <- <-. by constructor.
  - destruct (rbuf_full (txbuf d)) eqn:Hf; injection E as <- <- <-; by constructor.
  - injection E as <- <- <-. by constructor.
  - injection E as <- <- <-. by constructor.
  - destruct (rbuf_full (txbuf d)) eqn:Hf; cbn [negb] in E; injection E as <- <- <-; [by constructor|].
    constructor; uproj; auto.
    + by apply put_data_ok.
    + by rewrite contents_put_data.
    + cbn [writer_ok]. split; [done|]. rewrite put_data_cell by done.
      cbn [unsent] in U7. inversion_clear U7 as [|? ? Hw _]. by rewrite Hw.
  - injection E as <- <- <-. destruct U6 as [Hf Hc].
    destruct (contents_put_commit c (txbuf d) U2 Hf Hc) as [H1 H2].
    constructor; uproj; auto; try exact I.
    + rewrite U4, H2. cbn [unsent]. by rewrite <- !app_assoc.
    + cbn [unsent] in U7. by inversion_clear U7.
Qed.

Lemma w8_idem x : w8 (w8 x) = w8 x.
Proof. apply w8_small, w8_range. Qed.

Lemma uinv_step st st' : uinv st -> ustep st st' -> uinv st'.
Proof.
  intros HI Hs. destruct Hs as [lsr rbr st d' thr wr wt E|n st Hn Hr|st r' d' out E|buf st Hw|st w' d' out E].
  - by apply uinv_isr.
  - destruct HI as [U1 U2 U3 U4 U5 U6 U7]. rewrite Hr in U3. unfold uart_read_call.
    destruct (Z.ltb_spec LONG_MAX n).
    + constructor; auto. done.
    + destruct (Z.eqb_spec n 0); constructor; auto; simpl; lia || done.
  - by apply uinv_read with (out := out).
  - destruct HI as [U1 U2 U3 U4 U5 U6 U7]. rewrite Hw in U4. cbn [unsent] in U4. rewrite app_nil_r in U4.
    assert (Hun : unsent (uart_write_call buf) = w8 <$> buf) by (by destruct buf).
    constructor; uproj; auto.
    + by rewrite U4, Hun, <- !app_assoc.
    + by destruct buf.
    + rewrite Hun. apply Forall_fmap, Forall_true. intros x. apply w8_idem.
  - by apply uinv_write with (out := out).
Qed.

(** A device as [uart_attach] creates it, or one that was closed before. *)
Definition attached (d : uart_device) : Prop :=
  length (rdata (rxbuf d)) = Z.to_nat SERIAL_RBUFSZ /\
  length (rdata (txbuf d)) = Z.to_nat SERIAL_RBUFSZ /\ uart_refcnt d = 0.

Lemma uinv_reachable d st : attached d -> reachable d st -> uinv st.
Proof.
  intros (H1 & H2 & H3). induction 1 as [|st st' _ IH Hs]; [|by eapply uinv_step].
  unfold opened, uart_open. rewrite H3. cbn [Z.eqb negb snd].
  destruct (rbuf_init_ok (rxbuf d) H1) as [A1 A2]. destruct (rbuf_init_ok (txbuf d) H2) as [B1 B2].
  constructor; uproj; auto; try exact I.
Qed.

(** C17: in every interleaving of the interrupt handler with a reader and a
    writer, with interrupts arriving between any two memory accesses of the
    threads, no byte is lost, duplicated or reordered: the bytes the handler
    took from the receive register are the bytes delivered by reads so far, then
    the bytes of the read in progress, then the buffer; and the bytes given to
    [uart_write] are those sent, then the buffer, then those still to be put. *)
Theorem uart_lossless d st :
  attached d -> reachable d st ->
  rx_taken st = rx_delivered st ++ in_hand (u_reader st) ++ contents (rxbuf (u_dev st)) /\
  tx_requested st = tx_wire st ++ contents (txbuf (u_dev st)) ++ unsent (u_writer st) /\
  (length (contents (rxbuf (u_dev st))) <= 64)%nat /\ (length (contents (txbuf (u_dev st))) <= 64)%nat.
Proof.
  intros Hd Hr. destruct (uinv_reachable d st Hd Hr) as [U1 U2 U3 U4 _ _ _].
  split; [done|]. split; [done|]. split; by apply contents_full_length.
Qed.

Definition demo_uart : uart_device :=
  MkUart 11 0 0 1 false 0 0 (MkRing 0 0 (replicate 64 0)) (MkRing 0 0 (replicate 64 0)).

Lemma demo_uart_attached : uart_attach 0x10000100 11 = Some demo_uart /\ attached demo_uart.
Proof. split; [reflexivity|]. repeat split. Qed.

(** A byte arrives, a read starts, takes it from the buffer, and another byte
    arrives before the head position is advanced. *)
Definition demo_moving : usys :=
  do_read (do_read_call 8 (do_isr LSR_DR 65 (opened demo_uart))).
Definition demo_took : usys := do_isr LSR_DR 66 (do_read demo_moving).

Lemma demo_moving_reachable : reachable demo_uart demo_moving.
Proof.
  eapply R_step; [|apply do_read_step]. eapply R_step; [|apply do_read_call_step; [lia|reflexivity]].
  eapply R_step; [|apply do_isr_step]. apply R_open.
Qed.

Lemma demo_took_reachable : reachable demo_uart demo_took.
Proof.
  eapply R_step; [|apply do_isr_step]. eapply R_step; [|apply do_read_step].
  apply demo_moving_reachable.
Qed.

Lemma uart_lossless_witness :
  u_reader demo_took = RTook 65 [] 8 /\ rx_taken demo_took = [65; 66] /\
  rx_taken demo_took =
    rx_delivered demo_took ++ in_hand (u_reader demo_took) ++ contents (rxbuf (u_dev demo_took)).
Proof.
  split; [reflexivity|]. split; [reflexivity|].
  exact (proj1 (uart_lossless demo_uart _ (proj2 demo_uart_attached) demo_took_reachable)).
Defined.

(** *** Interrupt enables *)

(** The port raises its interrupt line on received data or an empty transmitter,
    each when enabled in [ier]; the controller passes it on when the line is
    enabled there. *)
Definition raises (lsr : Z) (d : uart_device) : bool :=
  irq_enabled d &&
  (bit_set lsr LSR_DR && bit_set (reg_ier d) IER_DREIE || bit_set lsr LSR_THRE && bit_set (reg_ier d) IER_THREIE).

Lemma bit_set_testbit x k : 0 <= k -> bit_set x (Z.shiftl 1 k) = Z.testbit x k.
Proof. intros Hk. unfold bit_set. rewrite land_bit by done. apply negb_involutive. Qed.

Lemma ier_or x j k : 0 <= j < 8 -> 0 <= k < 8 ->
  bit_set (w8 (Z.lor x (Z.shiftl 1 j))) (Z.shiftl 1 k) = bit_set x (Z.shiftl 1 k) || (k =? j).
Proof.
  intros Hj Hk. rewrite !bit_set_testbit by lia. unfold w8. change 256 with (2 ^ 8).
  rewrite Z.mod_pow2_bits_low, Z.lor_spec, Z.shiftl_1_l, Z.pow2_bits_eqb by lia. by rewrite Z.eqb_sym.
Qed.

Lemma ier_clear x j k : 0 <= j < 8 -> 0 <= k < 8 -> k <> j ->
  bit_set (w8 (Z.land x (Z.lnot (Z.shiftl 1 j)))) (Z.shiftl 1 k) = bit_set x (Z.shiftl 1 k).
Proof.
  intros Hj Hk Hne. rewrite !bit_set_testbit by lia. unfold w8. change 256 with (2 ^ 8).
  rewrite Z.mod_pow2_bits_low, Z.land_spec, Z.lnot_spec, Z.shiftl_1_l, Z.pow2_bits_eqb by lia.
  rewrite (proj2 (Z.eqb_neq j k)) by lia. apply andb_true_r.
Qed.

(** A reader outside its copy loop has receive interrupts enabled unless the
    buffer is full; a writer outside its loop has transmit interrupts enabled
    unless the buffer is empty. *)
Definition rx_armed (r : rstate) (d : uart_device) : Prop :=
  match r with
  | RMove _ _ | RTook _ _ _ => True
  | _ => rbuf_full (rxbuf d) = true \/ bit_set (reg_ier d) IER_DREIE = true
  end.
Definition tx_armed (w : wstate) (d : uart_device) : Prop :=
  match w with
  | WMove _ | WStored _ _ => True
  | _ => rbuf_empty (txbuf d) = true \/ bit_set (reg_ier d) IER_THREIE = true
  end.

Record armed (st : usys) : Prop := {
  ar_irq : irq_enabled (u_dev st) = true;
  ar_rx : rx_armed (u_reader st) (u_dev st);
  ar_tx : tx_armed (u_writer st) (u_dev st)
}.

Lemma rx_armed_wake b r d : rx_armed r d -> rx_armed (wake_reader b r) d.
Proof. by destruct r, b. Qed.
Lemma tx_armed_wake b w d : tx_armed w d -> tx_armed (wake_writer b w) d.
Proof. by destruct w, b. Qed.

(** Both depend on one buffer and one bit. *)
Lemma rx_armed_same r d d' :
  rxbuf d' = rxbuf d -> bit_set (reg_ier d') IER_DREIE = bit_set (reg_ier d) IER_DREIE -> rx_armed r d -> rx_armed r d'.
Proof. intros E1 E2. unfold rx_armed. by rewrite E1, E2. Qed.
Lemma tx_armed_same w d d' :
  txbuf d' = txbuf d -> bit_set (reg_ier d') IER_THREIE = bit_set (reg_ier d) IER_THREIE -> tx_armed w d -> tx_armed w d'.
Proof. intros E1 E2. unfold tx_armed. by rewrite E1, E2. Qed.

Lemma isr_receive_armed lsr rbr d r w d1 wake :
  isr_receive lsr rbr d = (d1, wake) -> rx_armed r d -> tx_armed w d ->
  irq_enabled d1 = irq_enabled d /\ rx_armed r d1 /\ tx_armed w d1.
Proof.
  unfold isr_receive. destruct (bit_set lsr LSR_DR).
  - destruct (rbuf_full (rxbuf d)) eqn:Hf; cbn [negb]; intros [= <- <-] Hr Hw; (split; [done|]); split.
    + destruct r; cbn [rx_armed] in *; try done; by left.
    + revert Hw. apply tx_armed_same; [done|]. by apply (ier_clear _ 0 1).
    + destruct r; cbn [rx_armed] in *; try done; (destruct Hr as [Hr|Hr]; [congruence|by right]).
    + revert Hw. by apply tx_armed_same.
  - by intros [= <- <-].
Qed.

Lemma isr_transmit_armed lsr d r w d1 thr wake :
  isr_transmit lsr d = (d1, thr, wake) -> rx_armed r d -> tx_armed w d ->
  irq_enabled d1 = irq_enabled d /\ rx_armed r d1 /\ tx_armed w d1.
Proof.
  unfold isr_transmit. destruct (bit_set lsr LSR_THRE).
  - destruct (rbuf_empty (txbuf d)) eqn:He; cbn [negb rbuf_get]; intros [= <- <- <-] Hr Hw; (split; [done|]); split.
    + revert Hr. apply rx_armed_same; [done|]. by apply (ier_clear _ 1 0).
    + destruct w; cbn [tx_armed] in *; try done; by left.
    + revert Hr. by apply rx_armed_same.
    + destruct w; cbn [tx_armed] in *; try done; (destruct Hw as [Hw|Hw]; [congruence|by right]).
  - by intros [= <- <- <-].
Qed.

Lemma armed_isr lsr rbr d d' thr wr wt r w :
  uart_isr lsr rbr d = (d', thr, wr, wt) -> rx_armed r d -> tx_armed w d ->
  irq_enabled d' = irq_enabled d /\ rx_armed r d' /\ tx_armed w d'.
Proof.
  unfold uart_isr. set (d0 := if bit_set lsr LSR_OE then _ else d). intros E Hr Hw.
  assert (H0 : irq_enabled d0 = irq_enabled d /\ rx_armed r d0 /\ tx_armed w d0) by (unfold d0; by destruct (bit_set lsr LSR_OE)).
  destruct H0 as (H1 & H2 & H3). clearbody d0.
  destruct (isr_receive lsr rbr d0) as [d1 w1] eqn:E1. destruct (isr_transmit lsr d1) as [[d2 t2] w2] eqn:E2.
  injection E as <- <- <- <-.
  destruct (isr_receive_armed _ _ _ r w _ _ E1 H2 H3) as (A1 & A2 & A3).
  destruct (isr_transmit_armed _ _ r w _ _ _ E2 A2 A3) as (B1 & B2 & B3). split; [congruence|done].
Qed.

Lemma armed_read r d r' d' out w :
  uart_read r d = (r', d', out) -> rx_armed r d -> tx_armed w d ->
  irq_enabled d' = irq_enabled d /\ rx_armed r' d' /\ tx_armed w d'.
Proof.
  intros E Hr Hw. destruct r as [|n|n|buf n|c buf n]; cbn [uart_read] in E.
  - by injection E as <- <- <-.
  - destruct (rbuf_empty (rxbuf d)); by injection E as <- <- <-.
  - by injection E as <- <- <-.
  - destruct (_ && _); injection E as <- <- <-; [done|]. split; [done|]. split.
    + right. cbn. by rewrite (ier_or _ 0 0), orb_true_r.
    + revert Hw. apply tx_armed_same; [done|]. cbn. by rewrite (ier_or _ 0 1), orb_false_r.
  - injection E as <- <- <-. split; [done|]. split; [done|]. revert Hw. by apply tx_armed_same.
Qed.

Lemma armed_write r d w w' d' out :
  uart_write w d = (w', d', out) -> rx_armed r d -> tx_armed w d ->
  irq_enabled d' = irq_enabled d /\ rx_armed r d' /\ tx_armed w' d'.
Proof.
  intros E Hr Hw.
  assert (Hset : forall w', rx_armed r (set_ier (Z.lor (reg_ier d) IER_THREIE) d) /\
                            tx_armed w' (set_ier (Z.lor (reg_ier d) IER_THREIE) d)).
  { intros w0. split.
    - revert Hr. apply rx_armed_same; [done|]. cbn. by rewrite (ier_or _ 1 0), orb_false_r.
    - destruct w0; cbn [tx_armed]; try done; right; cbn; by rewrite (ier_or _ 1 1), orb_true_r. }
  destruct w as [|rest|rest|[|c rest]|c rest]; cbn [uart_write] in E.
  - by injection E as <- <- <-.
  - destruct (rbuf_full (txbuf d)); by injection E as <- <- <-.
  - by injection E as <- <- <-.
  - injection E as <- <- <-. split; [done|apply Hset].
  - destruct (rbuf_full (txbuf d)); cbn [negb] in E; injection E as <- <- <-; (split; [done|]); [apply Hset|].
    split; [|done]. revert Hr. by apply rx_armed_same.
  - injection E as <- <- <-. split; [done|]. split; [|done]. revert Hr. by apply rx_armed_same.
Qed.

Lemma armed_step st st' : armed st -> ustep st st' -> armed st'.
Proof.
  intros [A1 A2 A3] Hs. destruct Hs as [lsr rbr st d' thr wr wt E|n st Hn Hr|st r' d' out E|buf st Hw|st w' d' out E].
  - destruct (armed_isr _ _ _ _ _ _ _ _ _ E A2 A3) as (B1 & B2 & B3).
    constructor; uproj; [congruence|by apply rx_armed_wake|by apply tx_armed_wake].
  - constructor; uproj; [done| |done]. rewrite Hr in A2. unfold uart_read_call. by destruct (_ =? _).
  - destruct (armed_read _ _ _ _ _ _ E A2 A3) as (B1 & B2 & B3). constructor; uproj; congruence || done.
  - constructor; uproj; [done|done|]. rewrite Hw in A3. by destruct buf.
  - destruct (armed_write _ _ _ _ _ _ E A2 A3) as (B1 & B2 & B3). constructor; uproj; congruence || done.
Qed.

Lemma armed_reachable d st : attached d -> reachable d st -> armed st.
Proof.
  intros (H1 & H2 & H3). induction 1 as [|st st' _ IH Hs]; [|by eapply armed_step].
  unfold opened, uart_open. rewrite H3. cbn [Z.eqb negb snd]. constructor; uproj; [done|by right|by left].
Qed.

(** C34: no wake-up is lost, and the interrupt that wakes is enabled.  A reader
    asleep in [condition_wait] means that the receive buffer is empty, a sleeping
    writer that the transmit buffer is full.  The interrupt of the event each
    waits for, a received byte or an empty transmitter, is then enabled in the
    port and in the interrupt controller, so the event raises it ([raises]); and
    the handler, when it sees the event, makes the sleeper runnable.  Bytes left
    in the transmit buffer by a finished write keep the interrupt that sends them
    enabled. *)
Theorem uart_no_lost_wakeup d st lsr rbr d' thr wr wt :
  attached d -> reachable d st -> uart_isr lsr rbr (u_dev st) = (d', thr, wr, wt) ->
  (forall n, u_reader st = RSleep n ->
     contents (rxbuf (u_dev st)) = [] /\ (bit_set lsr LSR_DR = true -> raises lsr (u_dev st) = true /\ wr = true)) /\
  (forall rest, u_writer st = WSleep rest ->
     length (contents (txbuf (u_dev st))) = 64%nat /\
     (bit_set lsr LSR_THRE = true -> raises lsr (u_dev st) = true /\ wt = true)) /\
  (u_writer st = WIdle -> contents (txbuf (u_dev st)) <> [] -> bit_set lsr LSR_THRE = true ->
     raises lsr (u_dev st) = true /\ thr = head (contents (txbuf (u_dev st)))).
Proof.
  intros Hd Hr. destruct (uinv_reachable d st Hd Hr) as [U1 U2 _ _ U5 U6 _].
  destruct (armed_reachable d st Hd Hr) as [A1 A2 A3].
  unfold uart_isr. set (d0 := if bit_set lsr LSR_OE then _ else u_dev st).
  assert (Hrx : rxbuf d0 = rxbuf (u_dev st)) by (unfold d0; by destruct (bit_set lsr LSR_OE)).
  assert (Htx : txbuf d0 = txbuf (u_dev st)) by (unfold d0; by destruct (bit_set lsr LSR_OE)).
  clearbody d0. destruct (isr_receive lsr rbr d0) as [d1 w1] eqn:E1.
  destruct (isr_transmit lsr d1) as [[d2 t2] w2] eqn:E2. intros [= <- <- <- <-].
  assert (Ht1 : txbuf d1 = txbuf d0).
  { unfold isr_receive in E1. destruct (bit_set lsr LSR_DR); [destruct (rbuf_full _)|];
      by injection E1 as <- <-. }
  unfold raises. rewrite A1. split; [|split].
  - intros n En. rewrite En in U5, A2. destruct U5 as [_ Hc]. split; [done|]. intros Hdr.
    assert (He : rbuf_empty (rxbuf (u_dev st)) = true) by (by apply rbuf_empty_spec).
    assert (Hf : rbuf_full (rxbuf (u_dev st)) = false).
    { destruct (rbuf_full _) eqn:E; [|done]. apply rbuf_full_spec in E. by rewrite Hc in E. }
    destruct A2 as [A2|A2]; [congruence|]. rewrite Hdr, A2. split; [done|].
    unfold isr_receive in E1. rewrite Hdr, Hrx, Hf, He in E1. by injection E1 as <- <-.
  - intros rest En. rewrite En in U6, A3. destruct U6 as [_ Hf]. split.
    { apply rbuf_full_spec in Hf. unfold SERIAL_RBUFSZ in Hf. lia. }
    intros Hth. assert (He : rbuf_empty (txbuf (u_dev st)) = false).
    { destruct (rbuf_empty _) eqn:E; [|done]. apply rbuf_empty_spec in E; [|done].
      apply rbuf_full_spec in Hf. by rewrite E in Hf. }
    destruct A3 as [A3|A3]; [congruence|]. rewrite Hth, A3. split; [apply orb_true_r|].
    unfold isr_transmit in E2. rewrite Hth, Ht1, Htx, He in E2. cbn [negb rbuf_get] in E2.
    rewrite Hf in E2. by injection E2 as <- <- <-.
  - intros En Hc Hth. rewrite En in A3.
    assert (He : rbuf_empty (txbuf (u_dev st)) = false).
    { destruct (rbuf_empty _) eqn:E; [|done]. by apply rbuf_empty_spec in E. }
    destruct A3 as [A3|A3]; [congruence|]. rewrite Hth, A3. split; [apply orb_true_r|].
    unfold isr_transmit in E2. rewrite Hth, Ht1, Htx, He in E2. cbn [negb rbuf_get] in E2. injection E2 as <- <- <-.
    by destruct (contents_get (txbuf (u_dev st)) U2 He) as [-> _].
Qed.

Definition demo_asleep : usys := do_read (do_read_call 8 (opened demo_uart)).

Lemma demo_asleep_reachable : reachable demo_uart demo_asleep.
Proof.
  eapply R_step; [|apply do_read_step]. eapply R_step; [|apply do_read_call_step; [lia|reflexivity]].
  apply R_open.
Qed.

Lemma uart_no_lost_wakeup_witness :
  exists d' thr wr wt, uart_isr LSR_DR 65 (u_dev demo_asleep) = (d', thr, wr, wt) /\
    raises LSR_DR (u_dev demo_asleep) = true /\ wr = true.
Proof.
  destruct (uart_isr LSR_DR 65 (u_dev demo_asleep)) as [[[d' thr] wr] wt] eqn:E.
  exists d', thr, wr, wt. split; [reflexivity|].
  destruct (uart_no_lost_wakeup demo_uart demo_asleep LSR_DR 65 d' thr wr wt
    (proj2 demo_uart_attached) demo_asleep_reachable E) as [H _].
  exact (proj2 (H 8 eq_refl) eq_refl).
Defined.

(** [uart_read] with a non-zero size returns between one and [bufsz] bytes,
    never zero: the return step of a read delivers the bytes it collected. *)
Theorem uart_read_returns d st buf n d' out :
  attached d -> reachable d st -> u_reader st = RMove buf n ->
  uart_read (u_reader st) (u_dev st) = (RIdle, d', out) ->
  out = buf /\ 1 <= Z.of_nat (length out) <= n.
Proof.
  intros Hd Hr Er. destruct (uinv_reachable d st Hd Hr) as [U1 _ _ _ U5 _ _].
  rewrite Er in *. destruct U5 as (Hn & Hl & Hne). cbn [uart_read].
  destruct (rbuf_empty (rxbuf (u_dev st))) eqn:He; cbn [negb andb].
  - intros [= _ <-]. split; [done|]. destruct buf as [|b buf]; [|simpl in *; lia].
    exfalso. apply Hne; [done|]. by apply rbuf_empty_spec.
  - destruct (Z.ltb_spec (Z.of_nat (length buf)) n); intros [= _ <-].
    split; [done|]. destruct buf; [simpl in *; lia|simpl in *; lia].
Qed.

Definition demo_last : usys := do_read (do_read demo_moving).

Lemma uart_read_returns_witness :
  exists d' out, uart_read (u_reader demo_last) (u_dev demo_last) = (RIdle, d', out) /\
    out = [65] /\ 1 <= Z.of_nat (length out) <= 8.
Proof.
  destruct (uart_read (u_reader demo_last) (u_dev demo_last)) as [[r' d'] out] eqn:E.
  assert (Hr : reachable demo_uart demo_last).
  { eapply R_step; [|apply do_read_step]. eapply R_step; [|apply do_read_step].
    apply demo_moving_reachable. }
  assert (r' = RIdle) as -> by (vm_compute in E; congruence).
  destruct (uart_read_returns demo_uart demo_last [65] 8 d' out (proj2 demo_uart_attached) Hr eq_refl E)
    as [H1 H2].
  exists d', out. split; [reflexivity|]. split; [exact H1|exact H2].
Defined.
