(* ===== verification/ThreadList.v ===== *)
(** * Threads and thread lists (thread.c)

    [struct thread] and the singly linked lists of threads, threaded through
    [list_next], that serve as ready list and as wait lists of conditions.
    Thread pointers are addresses; NULL is 0.  [tl_rep] relates a list to the
    sequence of threads on it; the lemmas show that the operations are those of
    a queue and that they change no field but [list_next]. *)

From stdpp Require Import base gmap list strings numbers.
From Stdlib Require Import Lia ZArith.
From S2P Require Import Prelude.
Local Open Scope Z_scope.
Local Open Scope kern_scope.

Inductive thread_state :=
| THREAD_UNINITIALIZED
| THREAD_STOPPED
| THREAD_WAITING
| THREAD_RUNNING
| THREAD_READY
| THREAD_EXITED.

#[export] Instance thread_state_eq_dec : EqDecision thread_state.
Proof. solve_decision. Defined.

Record thread := MkThread {
  t_name : string;
  t_state : thread_state;
  t_id : Z;
  t_proc : Z;
  t_parent : Z;
  t_next : Z;      (* list_next *)
  t_wait : Z       (* wait_cond *)
}.

Definition set_next (n : Z) (t : thread) : thread :=
  MkThread (t_name t) (t_state t) (t_id t) (t_proc t) (t_parent t) n (t_wait t).
Definition set_state (s : thread_state) (t : thread) : thread :=
  MkThread (t_name t) s (t_id t) (t_proc t) (t_parent t) (t_next t) (t_wait t).
Definition set_wait (c : Z) (t : thread) : thread :=
  MkThread (t_name t) (t_state t) (t_id t) (t_proc t) (t_parent t) (t_next t) c.
Definition set_parent (p : Z) (t : thread) : thread :=
  MkThread (t_name t) (t_state t) (t_id t) (t_proc t) p (t_next t) (t_wait t).
Definition set_proc (p : Z) (t : thread) : thread :=
  MkThread (t_name t) (t_state t) (t_id t) p (t_parent t) (t_next t) (t_wait t).

(** The threads in memory. *)
Abbreviation tmap := (gmap Z thread).

(** Access through a thread pointer; NULL and stale pointers are undefined. *)
Definition deref (p : Z) : M tmap thread := fun m =>
  match m !! p with Some t => Done t m | None => Undef "thread pointer" m end.
Definition update (p : Z) (f : thread -> thread) : M tmap unit := fun m =>
  match m !! p with Some t => Done tt (<[p := f t]> m) | None => Undef "thread pointer" m end.

Record thread_list := MkList { l_head : Z; l_tail : Z }.

(** ** Operations *)

Definition tlclear : thread_list := MkList NULL NULL.
Definition tlempty (l : thread_list) : bool := l_head l =? NULL.

(** [list_next] of the argument is cleared before the NULL test, as in the
    code. *)
Definition tlinsert (l : thread_list) (thr : Z) : M tmap thread_list :=
  update thr (set_next NULL) ;;
  if thr =? NULL then ret l else
  if negb (l_tail l =? NULL) then
    assert (negb (l_head l =? NULL)) "list->head != NULL" ;;
    update (l_tail l) (set_next thr) ;;
    ret (MkList (l_head l) thr)
  else
    assert (l_head l =? NULL) "list->head == NULL" ;;
    ret (MkList thr thr).

Definition tlremove (l : thread_list) : M tmap (Z * thread_list) :=
  let thr := l_head l in
  if thr =? NULL then ret (NULL, l) else
  t <- deref thr ;;
  let head := t_next t in
  let tail := if head =? NULL then NULL else l_tail l in
  update thr (set_next NULL) ;;
  ret (thr, MkList head tail).

Definition tlappend (l0 l1 : thread_list) : M tmap (thread_list * thread_list) :=
  if negb (l_head l0 =? NULL) then
    assert (negb (l_tail l0 =? NULL)) "l0->tail != NULL" ;;
    if negb (l_head l1 =? NULL) then
      assert (negb (l_tail l1 =? NULL)) "l1->tail != NULL" ;;
      update (l_tail l0) (set_next (l_head l1)) ;;
      ret (MkList (l_head l0) (l_tail l1), tlclear)
    else ret (l0, tlclear)
  else
    assert (l_tail l0 =? NULL) "l0->tail == NULL" ;;
    ret (l1, tlclear).

(** ** Representation *)

Fixpoint tseg (m : tmap) (h : Z) (l : list Z) : Prop :=
  match l with
  | [] => h = NULL
  | p :: l' => h = p /\ p <> NULL /\ exists t, m !! p = Some t /\ tseg m (t_next t) l'
  end.

Definition tl_rep (m : tmap) (tl : thread_list) (l : list Z) : Prop :=
  tseg m (l_head tl) l /\ l_tail tl = List.last l NULL.

(** [m'] differs from [m] at most in the [list_next] fields of [S]. *)
Definition next_only (S : list Z) (m m' : tmap) : Prop :=
  forall p, m' !! p = m !! p \/ (p ∈ S /\ exists t n, m !! p = Some t /\ m' !! p = Some (set_next n t)).

Lemma tseg_frame m m' h l :
  tseg m h l -> (forall p, p ∈ l -> m' !! p = m !! p) -> tseg m' h l.
Proof.
  revert h. induction l as [|p l IH]; intros h Hs Heq; [done|].
  destruct Hs as (-> & Hp & t & Ht & Hs). split; [done|]. split; [done|].
  exists t. rewrite Heq by set_solver. split; [done|]. apply IH; [done|]. set_solver.
Qed.

Lemma tl_rep_frame m m' tl l :
  tl_rep m tl l -> (forall p, p ∈ l -> m' !! p = m !! p) -> tl_rep m' tl l.
Proof. intros [H1 H2] H. split; [by eapply tseg_frame|done]. Qed.

Lemma next_only_frame S m m' p : next_only S m m' -> p ∉ S -> m' !! p = m !! p.
Proof. intros H Hp. destruct (H p) as [?|[? _]]; done. Qed.

Lemma tl_rep_next_only S m m' tl l :
  tl_rep m tl l -> next_only S m m' -> (forall p, p ∈ l -> p ∉ S) -> tl_rep m' tl l.
Proof. intros H Hn Hd. eapply tl_rep_frame; [exact H|]. intros p Hp. eapply next_only_frame; eauto. Qed.

Lemma next_only_trans S m1 m2 m3 : next_only S m1 m2 -> next_only S m2 m3 -> next_only S m1 m3.
Proof.
  intros H1 H2 p. destruct (H2 p) as [E|(Hp & t & n & E & E')].
  - rewrite E. apply H1.
  - right. split; [done|]. destruct (H1 p) as [E1|(_ & t1 & n1 & E1 & E1')].
    + rewrite E1 in E. eauto.
    + rewrite E1' in E. injection E as <-. exists t1, n. split; [done|]. by rewrite E'.
Qed.

Lemma next_only_mono S T m m' : (forall p, p ∈ S -> p ∈ T) -> next_only S m m' -> next_only T m m'.
Proof. intros HST H p. destruct (H p) as [?|[? ?]]; [by left|right; auto]. Qed.

Lemma next_only_update p t n m : m !! p = Some t -> next_only [p] m (<[p := set_next n t]> m).
Proof.
  intros Ht q. rewrite lookup_insert. case_decide as E; [|by left]. subst q.
  right. split; [set_solver|]. eauto.
Qed.

Lemma next_only_lookup S m m' p t : next_only S m m' -> m !! p = Some t ->
  exists n, m' !! p = Some (set_next n t).
Proof.
  intros H Ht. destruct (H p) as [E|(_ & t0 & n & E & E')].
  - exists (t_next t). rewrite E, Ht. by destruct t.
  - exists n. congruence.
Qed.

Lemma next_only_lookup_rev S m m' p t' : next_only S m m' -> m' !! p = Some t' ->
  exists t n, m !! p = Some t /\ t' = set_next n t.
Proof.
  intros H Ht. destruct (H p) as [E|(_ & t0 & n & E & E')].
  - rewrite E in Ht. exists t', (t_next t'). split; [done|by destruct t'].
  - exists t0, n. split; [done|congruence].
Qed.

(** Appending one more element at the end of a segment. *)
Lemma tseg_snoc m h l x p t tp :
  tseg m h (l ++ [x]) -> NoDup (l ++ [x]) -> m !! x = Some t -> p <> NULL -> p ∉ l ++ [x] ->
  m !! p = Some tp -> t_next tp = NULL ->
  tseg (<[x := set_next p t]> m) h (l ++ [x] ++ [p]).
Proof.
  revert h. induction l as [|y l IH]; intros h Hs Hnd Ht Hp Hin Htp Hn.
  - destruct Hs as (-> & Hx & t' & Ht' & Hnil). assert (t' = t) as -> by congruence.
    split; [done|]. split; [done|]. exists (set_next p t).
    rewrite lookup_insert_eq. split; [done|]. split; [done|]. split; [done|].
    exists tp. rewrite lookup_insert_ne by set_solver. split; [done|]. done.
  - destruct Hs as (-> & Hy & t' & Ht' & Hs). inversion_clear Hnd as [|? ? Hyn Hnd'].
    split; [done|]. split; [done|]. exists t'.
    rewrite lookup_insert_ne by set_solver. split; [done|]. apply IH; auto. set_solver.
Qed.

Lemma tseg_in m h l p : tseg m h l -> p ∈ l -> p <> NULL /\ exists t, m !! p = Some t.
Proof.
  revert h. induction l as [|q l IH]; intros h Hs Hp; [by apply not_elem_of_nil in Hp|].
  destruct Hs as (_ & Hq & t & Ht & Hs). apply elem_of_cons in Hp as [->|Hp]; eauto.
Qed.

Lemma tseg_null m h l : tseg m h l -> h = NULL <-> l = [].
Proof.
  destruct l as [|p l]; [done|]. intros (-> & Hp & _). done.
Qed.

(** ** The operations on sequences *)

Lemma tl_rep_nil m tl : tl_rep m tl [] <-> tl = tlclear.
Proof.
  unfold tl_rep, tlclear. destruct tl as [h t]. simpl. split; [by intros [-> ->]|by intros [= -> ->]].
Qed.

Lemma tlempty_spec m tl l : tl_rep m tl l -> tlempty tl = true <-> l = [].
Proof. intros [Hs _]. unfold tlempty. rewrite Z.eqb_eq. by eapply tseg_null. Qed.

Lemma last_snoc {A} (l : list A) x d : List.last (l ++ [x]) d = x.
Proof. apply List.last_last. Qed.

Lemma snoc_cases {A} (l : list A) : l = [] \/ exists l' x, l = l' ++ [x].
Proof. destruct l using rev_ind; eauto. Qed.

Lemma NoDup_concat {A} (l1 l2 : list A) :
  NoDup l1 -> NoDup l2 -> (forall p, p ∈ l1 -> p ∉ l2) -> NoDup (l1 ++ l2).
Proof.
  intros H1 H2. induction H1 as [|q l Hq _ IH]; intros Hd; [done|]. simpl. constructor.
  - rewrite elem_of_app. intros [?|?]; [done|]. apply (Hd q); set_solver.
  - apply IH. intros p Hp. apply Hd. set_solver.
Qed.

Lemma NoDup_snoc {A} (l : list A) p : NoDup l -> p ∉ l -> NoDup (l ++ [p]).
Proof.
  intros H Hp. apply NoDup_concat; [done|repeat constructor; apply not_elem_of_nil|].
  intros q Hq Hin. assert (q = p) as -> by set_solver. done.
Qed.

Lemma update_eq p f t m : m !! p = Some t -> update p f m = Done tt (<[p := f t]> m).
Proof. unfold update. by intros ->. Qed.

Lemma tlinsert_ok m tl l p t :
  tl_rep m tl l -> NoDup l -> p ∉ l -> p <> NULL -> m !! p = Some t ->
  exists tl' m', tlinsert tl p m = Done tl' m' /\ tl_rep m' tl' (l ++ [p]) /\ next_only (p :: l) m m'.
Proof.
  intros Hrep Hnd Hin Hp Ht. unfold tlinsert. mstep (update_eq p (set_next NULL) t m Ht).
  rewrite (proj2 (Z.eqb_neq _ _) Hp). set (m1 := <[p := set_next NULL t]> m).
  assert (Hn1 : next_only [p] m m1) by (by apply next_only_update).
  assert (Hp1 : m1 !! p = Some (set_next NULL t)) by apply lookup_insert_eq.
  assert (Hrep1 : tl_rep m1 tl l).
  { eapply tl_rep_next_only; eauto. intros q Hq. set_solver. }
  destruct (snoc_cases l) as [->|(l' & x & ->)].
  - apply tl_rep_nil in Hrep1 as ->. exists (MkList p p), m1. split; [done|]. split; [|done].
    split; [|done]. split; [done|]. split; [done|]. by exists (set_next NULL t).
  - destruct Hrep1 as [Hs Htl]. rewrite last_snoc in Htl.
    destruct (tseg_in _ _ _ x Hs) as [Hx [tx Htx]]; [set_solver|].
    assert (Hh : l_head tl <> NULL).
    { intros E. apply (tseg_null _ _ _ Hs) in E. by destruct l'. }
    rewrite Htl, (proj2 (Z.eqb_neq _ _) Hx), (proj2 (Z.eqb_neq _ _) Hh). cbn [negb].
    unfold bind at 1, assert, ret. mstep (update_eq x (set_next p) tx m1 Htx).
    exists (MkList (l_head tl) p), (<[x := set_next p tx]> m1). split; [done|]. split.
    + split; [|by rewrite last_snoc]. rewrite <- app_assoc. cbn [l_head].
      by apply (tseg_snoc m1 (l_head tl) l' x p tx (set_next NULL t)).
    + eapply next_only_trans.
      * eapply next_only_mono; [|exact Hn1]. set_solver.
      * eapply next_only_mono; [|by apply next_only_update]. set_solver.
Qed.

Lemma tlremove_ok m tl p l :
  tl_rep m tl (p :: l) -> NoDup (p :: l) ->
  exists tl' m', tlremove tl m = Done (p, tl') m' /\ tl_rep m' tl' l /\ next_only [p] m m'.
Proof.
  intros [(Hh & Hp & t & Ht & Hs) Htl] Hnd. inversion_clear Hnd as [|? ? Hin Hnd'].
  unfold tlremove. rewrite Hh, (proj2 (Z.eqb_neq _ _) Hp).
  unfold bind at 1, deref. rewrite Ht. cbv zeta.
  mstep (update_eq p (set_next NULL) t m Ht).
  eexists _, _. split; [reflexivity|].
  assert (Hn : next_only [p] m (<[p := set_next NULL t]> m)) by (by apply next_only_update).
  split; [|done]. split; cbn [l_head l_tail].
  - eapply tseg_frame; [exact Hs|]. intros q Hq. eapply next_only_frame; [exact Hn|]. set_solver.
  - destruct l as [|q l].
    + simpl in Hs. by rewrite Hs.
    + destruct Hs as (Hq & Hq0 & _). rewrite Hq, (proj2 (Z.eqb_neq _ _) Hq0). done.
Qed.

Lemma tlremove_empty m tl : tl_rep m tl [] -> tlremove tl m = Done (NULL, tl) m.
Proof. by intros ->%tl_rep_nil. Qed.

(** Joining two segments. *)
Lemma tseg_join m h l x l1 h1 t :
  tseg m h (l ++ [x]) -> tseg m h1 l1 -> NoDup (l ++ [x]) -> (forall p, p ∈ l1 -> p <> x) ->
  m !! x = Some t -> tseg (<[x := set_next h1 t]> m) h ((l ++ [x]) ++ l1).
Proof.
  intros Hs Hs1 Hnd Hd Ht. revert h Hs Hnd. induction l as [|y l IH]; intros h Hs Hnd.
  - destruct Hs as (-> & Hx & t' & Ht' & _). split; [done|]. split; [done|].
    exists (set_next h1 t). rewrite lookup_insert_eq. split; [done|].
    eapply tseg_frame; [exact Hs1|]. intros p Hp. by rewrite lookup_insert_ne by (intros ->; by eapply Hd).
  - destruct Hs as (-> & Hy & t' & Ht' & Hs). inversion_clear Hnd as [|? ? Hyn Hnd'].
    split; [done|]. split; [done|]. exists t'.
    rewrite lookup_insert_ne by set_solver. split; [done|]. by apply IH.
Qed.

Lemma last_app {A} (l0 l1 : list A) d : l1 <> [] -> List.last (l0 ++ l1) d = List.last l1 d.
Proof.
  intros H. destruct (snoc_cases l1) as [->|(l & x & ->)]; [done|].
  by rewrite app_assoc, !last_snoc.
Qed.

Lemma tlappend_ok m t0 l0 t1 l1 :
  tl_rep m t0 l0 -> tl_rep m t1 l1 -> NoDup l0 -> (forall p, p ∈ l1 -> p ∉ l0) ->
  exists tl m', tlappend t0 t1 m = Done (tl, tlclear) m' /\ tl_rep m' tl (l0 ++ l1) /\ next_only l0 m m'.
Proof.
  intros Hr0 Hr1 Hnd Hd. unfold tlappend. destruct Hr0 as [Hs0 Ht0].
  destruct (snoc_cases l0) as [->|(l & x & ->)].
  - simpl in Hs0, Ht0. rewrite Hs0, Ht0. exists t1, m. split; [done|]. split; [done|]. by left.
  - rewrite last_snoc in Ht0. destruct (tseg_in _ _ _ x Hs0) as [Hx [tx Htx]]; [set_solver|].
    assert (Hh : l_head t0 <> NULL).
    { intros E. apply (tseg_null _ _ _ Hs0) in E. by destruct l. }
    rewrite Ht0, (proj2 (Z.eqb_neq _ _) Hx), (proj2 (Z.eqb_neq _ _) Hh). cbn [negb].
    unfold bind at 1, assert at 1, ret at 1. destruct Hr1 as [Hs1 Ht1].
    destruct (Z.eqb_spec (l_head t1) NULL) as [E|E].
    + apply (tseg_null _ _ _ Hs1) in E. subst l1. exists t0, m. split; [done|].
      rewrite app_nil_r. split; [|by left]. split; [done|]. by rewrite last_snoc.
    + assert (Hne : l1 <> []) by (intros E'; apply E; by apply (tseg_null _ _ _ Hs1)).
      destruct (snoc_cases l1) as [->|(l1' & y & ->)]; [done|].
      destruct (tseg_in _ _ _ y Hs1) as [Hy _]; [set_solver|].
      rewrite last_snoc in Ht1. rewrite Ht1, (proj2 (Z.eqb_neq _ _) Hy). cbn [negb].
      unfold bind at 1, assert, ret at 1. mstep (update_eq x (set_next (l_head t1)) tx m Htx).
      eexists _, _. split; [reflexivity|]. split; [split|].
      * cbn [l_head]. apply tseg_join; auto. intros p Hp ->. apply (Hd x Hp). set_solver.
      * cbn [l_tail]. rewrite last_app by done. by rewrite last_snoc.
      * eapply next_only_mono; [|by apply next_only_update]. set_solver.
Qed.

(** a [thread_list] with [tlinsert], [tlremove], [tlempty] and [tlappend]
    is a first-in first-out queue of threads: the operations succeed (no
    assertion fails, no stale pointer is followed) and act on the represented
    sequence as append, removal of the first element, emptiness test and
    concatenation; only [list_next] fields of threads on the lists involved
    change. *)
Theorem thread_list_queue m tl l :
  tl_rep m tl l -> NoDup l ->
  (tlempty tl = true <-> l = []) /\
  (forall p t, p ∉ l -> p <> NULL -> m !! p = Some t ->
     exists tl' m', tlinsert tl p m = Done tl' m' /\ tl_rep m' tl' (l ++ [p]) /\ next_only (p :: l) m m') /\
  (forall p l', l = p :: l' ->
     exists tl' m', tlremove tl m = Done (p, tl') m' /\ tl_rep m' tl' l' /\ next_only [p] m m') /\
  (forall tl1 l1, tl_rep m tl1 l1 -> (forall p, p ∈ l1 -> p ∉ l) ->
     exists tl' m', tlappend tl tl1 m = Done (tl', tlclear) m' /\ tl_rep m' tl' (l ++ l1) /\
       next_only l m m').
Proof.
  intros Hrep Hnd. split; [by eapply tlempty_spec|]. split; [|split].
  - intros p t Hin Hp Ht. by eapply tlinsert_ok.
  - intros p l' ->. by apply tlremove_ok.
  - intros tl1 l1 Hrep1 Hd. by apply tlappend_ok.
Qed.

Definition demo_thread (next : Z) : thread := MkThread "demo" THREAD_READY 1 0 0 next 0.

Lemma thread_list_queue_witness :
  exists tl' m', tlinsert (MkList 100 200) 300
    (<[100 := demo_thread 200]> (<[200 := demo_thread 0]> (<[300 := demo_thread 7]> ∅))) = Done tl' m' /\
    tl_rep m' tl' [100; 200; 300].
Proof.
  destruct (thread_list_queue
    (<[100 := demo_thread 200]> (<[200 := demo_thread 0]> (<[300 := demo_thread 7]> ∅)))
    (MkList 100 200) [100; 200]) as (_ & H & _).
  - split; [|reflexivity]. split; [reflexivity|]. split; [done|]. exists (demo_thread 200).
    split; [reflexivity|]. split; [reflexivity|]. split; [done|]. exists (demo_thread 0).
    split; reflexivity.
  - repeat constructor; set_solver.
  - destruct (H 300 (demo_thread 7)) as (tl' & m' & E & R & _); [set_solver|done|reflexivity|].
    exists tl', m'. split; [exact E|exact R].
Defined.
