(* ===== verification/Thread.v ===== *)
(** * The thread manager (thread.c, thrasm.s)

    Threads, conditions and the context switch.  The code runs as the thread in
    the [tp] register ([curthr]); [_thread_swtch] changes that register, so the
    operation that calls it ends in the thread it switches to.  What a
    suspended thread keeps on its stack of interest here is the interrupt state
    [suspend_self] saved ([saved_sie]).  Memory for a new thread comes from
    [kmalloc] and [memory_alloc_page]; its address is an argument.  The code does
    not initialise [child_exit] of a new thread, so what the memory held there
    ([stale]) is an argument as well. *)

From stdpp Require Import base gmap list strings numbers.
From Stdlib Require Import Lia ZArith.
From S2P Require Import Prelude ThreadList.
Local Open Scope Z_scope.
Local Open Scope kern_scope.

(** ** State *)

Definition NTHR : Z := 16.
Definition MAIN_TID : Z := 0.
Definition IDLE_TID : Z := NTHR - 1.

Record tstate := MkT {
  thr : tmap;                 (* thread structures by address *)
  thrtab : list Z;            (* struct thread * thrtab[NTHR] *)
  ready : thread_list;        (* ready_list *)
  conds : gmap Z thread_list; (* wait lists of conditions, by address *)
  curthr : Z;                 (* tp *)
  sie : bool;                 (* sstatus.SIE *)
  saved_sie : gmap Z bool;    (* saved_intr_state on the stack of a suspended thread *)
  cur_mtag : Z;               (* active memory space *)
  proc_mtag : gmap Z Z;       (* mtag of each process *)
  main_thr : Z;               (* &main_thread *)
  idle_thr : Z;               (* &idle_thread *)
  freed_stacks : list Z       (* stack pages passed to memory_free_page *)
}.

Definition set_thr (m : tmap) (s : tstate) : tstate :=
  MkT m (thrtab s) (ready s) (conds s) (curthr s) (sie s) (saved_sie s) (cur_mtag s) (proc_mtag s) (main_thr s) (idle_thr s) (freed_stacks s).
Definition set_thrtab (v : list Z) (s : tstate) : tstate :=
  MkT (thr s) v (ready s) (conds s) (curthr s) (sie s) (saved_sie s) (cur_mtag s) (proc_mtag s) (main_thr s) (idle_thr s) (freed_stacks s).
Definition set_ready (v : thread_list) (s : tstate) : tstate :=
  MkT (thr s) (thrtab s) v (conds s) (curthr s) (sie s) (saved_sie s) (cur_mtag s) (proc_mtag s) (main_thr s) (idle_thr s) (freed_stacks s).
Definition set_cond (c : Z) (v : thread_list) (s : tstate) : tstate :=
  MkT (thr s) (thrtab s) (ready s) (<[c := v]> (conds s)) (curthr s) (sie s) (saved_sie s) (cur_mtag s) (proc_mtag s) (main_thr s) (idle_thr s) (freed_stacks s).
Definition set_cur (v : Z) (s : tstate) : tstate :=
  MkT (thr s) (thrtab s) (ready s) (conds s) v (sie s) (saved_sie s) (cur_mtag s) (proc_mtag s) (main_thr s) (idle_thr s) (freed_stacks s).
Definition set_sie (v : bool) (s : tstate) : tstate :=
  MkT (thr s) (thrtab s) (ready s) (conds s) (curthr s) v (saved_sie s) (cur_mtag s) (proc_mtag s) (main_thr s) (idle_thr s) (freed_stacks s).
Definition set_saved (p : Z) (v : bool) (s : tstate) : tstate :=
  MkT (thr s) (thrtab s) (ready s) (conds s) (curthr s) (sie s) (<[p := v]> (saved_sie s)) (cur_mtag s) (proc_mtag s) (main_thr s) (idle_thr s) (freed_stacks s).
Definition set_mtag (v : Z) (s : tstate) : tstate :=
  MkT (thr s) (thrtab s) (ready s) (conds s) (curthr s) (sie s) (saved_sie s) v (proc_mtag s) (main_thr s) (idle_thr s) (freed_stacks s).
Definition set_procs (v : gmap Z Z) (s : tstate) : tstate :=
  MkT (thr s) (thrtab s) (ready s) (conds s) (curthr s) (sie s) (saved_sie s) (cur_mtag s) v (main_thr s) (idle_thr s) (freed_stacks s).
Definition add_freed (p : Z) (s : tstate) : tstate :=
  MkT (thr s) (thrtab s) (ready s) (conds s) (curthr s) (sie s) (saved_sie s) (cur_mtag s) (proc_mtag s) (main_thr s) (idle_thr s) (p :: freed_stacks s).

Definition on_thr {A} (c : M tmap A) : M tstate A := lift thr set_thr c.

(** [&thr->child_exit]: the condition is at offset 176 of [struct thread]. *)
Definition child_exit (p : Z) : Z := p + 176.

(** The wait list of a condition; one that was never used is empty. *)
Definition cond_list (s : tstate) (c : Z) : thread_list := default tlclear (conds s !! c).

(** ** Interrupt state (intr.h) *)

Definition intr_disable : M tstate bool := old <- gets sie ;; modify (set_sie false) ;; ret old.
Definition intr_enable : M tstate bool := old <- gets sie ;; modify (set_sie true) ;; ret old.
Definition intr_restore (saved : bool) : M tstate unit := modify (set_sie saved).

(** ** Lists of the state *)

Definition ready_insert (p : Z) : M tstate unit :=
  l <- gets ready ;; l' <- on_thr (tlinsert l p) ;; modify (set_ready l').
Definition cond_insert (c p : Z) : M tstate unit :=
  l <- gets (fun s => cond_list s c) ;; l' <- on_thr (tlinsert l p) ;; modify (set_cond c l').

Definition state_is (s : thread_state) (t : thread) : bool := bool_decide (t_state t = s).

(** ** The context switch *)

(** [_thread_swtch] (thrasm.s) saves the callee-saved registers in the current
    thread, loads [tp] and the registers from its argument and returns.  It does
    not touch [a0], so its result is its argument. *)
Definition thread_swtch (resuming_thread : Z) : M tstate Z :=
  modify (set_cur resuming_thread) ;; ret resuming_thread.

Definition suspend_self : M tstate unit :=
  l <- gets ready ;;
  assert (negb (tlempty l)) "!tlempty(&ready_list)" ;;
  susp_thread <- gets curthr ;;
  saved_intr_state <- intr_disable ;;
  modify (set_saved susp_thread saved_intr_state) ;;
  r <- on_thr (tlremove l) ;;
  let '(next_thread, l') := r in
  modify (set_ready l') ;;
  nt <- on_thr (deref next_thread) ;;
  assert (state_is THREAD_READY nt) "next_thread->state == THREAD_READY" ;;
  on_thr (update next_thread (set_state THREAD_RUNNING)) ;;
  st <- on_thr (deref susp_thread) ;;
  (if state_is THREAD_RUNNING st then
     on_thr (update susp_thread (set_state THREAD_READY)) ;; ready_insert susp_thread
   else ret tt) ;;
  intr_enable ;;
  nt' <- on_thr (deref next_thread) ;;
  (if negb (t_proc nt' =? NULL)
   then modify (fun s => set_mtag (default 0 (proc_mtag s !! t_proc nt')) s)
   else ret tt) ;;
  (* the rest runs in the resumed thread *)
  prev_thread <- thread_swtch next_thread ;;
  pt <- on_thr (deref prev_thread) ;;
  (if state_is THREAD_EXITED pt then modify (add_freed prev_thread) else ret tt) ;;
  saved <- gets (fun s => default true (saved_sie s !! curthr s)) ;;
  intr_restore saved.

(** ** Conditions *)

Definition condition_init (c : Z) : M tstate unit := modify (set_cond c tlclear).

Definition condition_wait (c : Z) : M tstate unit :=
  cur <- gets curthr ;;
  t <- on_thr (deref cur) ;;
  assert (state_is THREAD_RUNNING t) "CURTHR->state == THREAD_RUNNING" ;;
  on_thr (update cur (set_state THREAD_WAITING)) ;;
  on_thr (update cur (set_wait c)) ;;
  on_thr (update cur (set_next NULL)) ;;
  saved_intr_state <- intr_disable ;;
  cond_insert c cur ;;
  intr_restore saved_intr_state ;;
  suspend_self.

(** The loop over the wait list; [fuel] bounds the length of the list. *)
Fixpoint wake_loop (fuel : nat) (c p : Z) : M tmap unit :=
  if p =? NULL then ret tt else
  match fuel with
  | O => fun _ => NoFuel
  | S fuel' =>
      t <- deref p ;;
      assert (state_is THREAD_WAITING t) "thr->state == THREAD_WAITING" ;;
      assert (t_wait t =? c) "thr->wait_cond == cond" ;;
      update p (set_state THREAD_READY) ;;
      update p (set_wait NULL) ;;
      t' <- deref p ;;
      wake_loop fuel' c (t_next t')
  end.

Definition condition_broadcast (c : Z) : M tstate unit :=
  l <- gets (fun s => cond_list s c) ;;
  if tlempty l then ret tt else
  saved_intr_state <- intr_disable ;;
  n <- gets (fun s => size (thr s)) ;;
  on_thr (wake_loop n c (l_head l)) ;;
  r <- gets ready ;;
  a <- on_thr (tlappend r l) ;;
  modify (set_ready (fst a)) ;;
  modify (set_cond c tlclear) ;;
  intr_restore saved_intr_state.

(** ** Threads *)

Definition running_thread : M tstate Z :=
  cur <- gets curthr ;; t <- on_thr (deref cur) ;; ret (t_id t).

Definition thread_yield : M tstate unit :=
  cur <- gets curthr ;;
  t <- on_thr (deref cur) ;;
  assert (state_is THREAD_RUNNING t) "CURTHR->state == THREAD_RUNNING" ;;
  suspend_self.

(** [tid = 0; while (++tid < NTHR) if (thrtab[tid] == NULL) break;] *)
Fixpoint free_slot (n : nat) (tid : Z) (tab : list Z) : Z :=
  match n with
  | O => tid
  | S n' =>
      if tid <? NTHR then
        if default 0 (tab !! Z.to_nat tid) =? NULL then tid else free_slot n' (tid + 1) tab
      else tid
  end.

Definition find_slot (tab : list Z) : Z := free_slot (Z.to_nat NTHR) 1 tab.

(** [child] is the address [kmalloc] returned for the new structure, [stale] the
    content of its [child_exit] wait list, which is not initialised. *)
Definition thread_spawn (child : Z) (name : string) (stale : thread_list) : M tstate Z :=
  tab <- gets thrtab ;;
  let tid := find_slot tab in
  if tid =? NTHR then panic "Too many threads" else
  cur <- gets curthr ;;
  t <- on_thr (deref cur) ;;
  modify (set_thrtab (<[Z.to_nat tid := child]> tab)) ;;
  on_thr (modify (fun m => <[child := MkThread name THREAD_READY tid (t_proc t) cur NULL NULL]> m)) ;;
  modify (set_cond (child_exit child) stale) ;;
  saved_intr_state <- intr_disable ;;
  ready_insert child ;;
  intr_restore saved_intr_state ;;
  ret tid.

(** The thread part of [thread_fork_to_user]: the parent goes to the back of the
    ready list and the child runs, in the space [child_mtag] of process
    [child_proc]. *)
Definition thread_fork_to_user (child child_proc child_mtag : Z) (stale : thread_list) : M tstate Z :=
  tab <- gets thrtab ;;
  let tid := find_slot tab in
  if tid =? NTHR then panic "Too many threads" else
  cur <- gets curthr ;;
  modify (set_thrtab (<[Z.to_nat tid := child]> tab)) ;;
  on_thr (modify (fun m =>
    <[child := MkThread "forked_process" THREAD_UNINITIALIZED tid NULL cur NULL NULL]> m)) ;;
  modify (set_cond (child_exit child) stale) ;;
  on_thr (update cur (set_state THREAD_READY)) ;;
  saved_intr_state <- intr_disable ;;
  ready_insert cur ;;
  intr_restore saved_intr_state ;;
  on_thr (update child (set_state THREAD_RUNNING)) ;;
  on_thr (update child (set_proc child_proc)) ;;
  modify (set_mtag child_mtag) ;;
  modify (set_saved cur true) ;;
  modify (set_cur child) ;;
  ret tid.

Definition thread_exit : M tstate unit :=
  cur <- gets curthr ;;
  main <- gets main_thr ;;
  if cur =? main then (fun s => Halt s) else
  on_thr (update cur (set_state THREAD_EXITED)) ;;
  t <- on_thr (deref cur) ;;
  assert (negb (t_parent t =? NULL)) "CURTHR->parent != NULL" ;;
  condition_broadcast (child_exit (t_parent t)) ;;
  suspend_self.

(** Entry [tid] of [thrtab]. *)
Definition tab_entry (tid : Z) : M tstate Z := fun s =>
  if (0 <=? tid) && (tid <? NTHR)
  then Done (default 0 (thrtab s !! Z.to_nat tid)) s
  else Undef "thrtab index out of range" s.

Definition reparent (old new : Z) (tab : list Z) (m : tmap) : tmap :=
  foldr (fun p m =>
    match m !! p with
    | Some t => if t_parent t =? old then <[p := set_parent new t]> m else m
    | None => m
    end) m tab.

Definition recycle_thread (tid : Z) : M tstate unit :=
  p <- tab_entry tid ;;
  assert ((0 <? tid) && (tid <? NTHR) && negb (p =? NULL)) "0 < tid && tid < NTHR && thr != NULL" ;;
  t <- on_thr (deref p) ;;
  assert (state_is THREAD_EXITED t) "thr->state == THREAD_EXITED" ;;
  tab <- gets thrtab ;;
  on_thr (modify (reparent p (t_parent t) (tail tab))) ;;
  modify (set_thrtab (<[Z.to_nat tid := NULL]> tab)).

(** [thread_join] up to its first suspension: [Some r] when it returns [r],
    [None] when it waits (and starts over at the loop test once resumed). *)
Definition thread_join (tid : Z) : M tstate (option Z) :=
  child <- tab_entry tid ;;
  if (tid <=? 0) || (NTHR <=? tid) then ret (Some (-1)) else
  cur <- gets curthr ;;
  if child =? NULL then ret (Some (-1)) else
  t <- on_thr (deref child) ;;
  if negb (t_parent t =? cur) then ret (Some (-1)) else
  if state_is THREAD_EXITED t
  then recycle_thread tid ;; ret (Some tid)
  else condition_wait (child_exit cur) ;; ret None.

(** The first child of [cur] in the table for which [f] holds. *)
Fixpoint find_child (f : thread -> bool) (m : tmap) (cur tid : Z) (tab : list Z) : option Z :=
  match tab with
  | [] => None
  | p :: tab' =>
      match m !! p with
      | Some t => if (t_parent t =? cur) && f t then Some tid
                  else find_child f m cur (tid + 1) tab'
      | None => find_child f m cur (tid + 1) tab'
      end
  end.

Definition thread_join_any : M tstate (option Z) :=
  cur <- gets curthr ;;
  tab <- gets thrtab ;;
  m <- gets thr ;;
  match find_child (state_is THREAD_EXITED) m cur 1 (tail tab) with
  | Some tid => thread_join tid
  | None =>
      match find_child (fun _ => true) m cur 1 (tail tab) with
      | None => panic "thread_wait called by childless thread"
      | Some _ => condition_wait (child_exit cur) ;; ret None
      end
  end.

(** The part of [thread_join_any] after [condition_wait]. *)
Definition thread_join_any_resume : M tstate Z :=
  cur <- gets curthr ;;
  tab <- gets thrtab ;;
  m <- gets thr ;;
  match find_child (state_is THREAD_EXITED) m cur 1 (tail tab) with
  | Some tid => recycle_thread tid ;; ret tid
  | None => panic "spurious child_exit signal"
  end.

Definition thread_process (tid : Z) : M tstate Z :=
  p <- tab_entry tid ;;
  assert (negb (p =? NULL)) "thrtab[tid] != NULL" ;;
  t <- on_thr (deref p) ;; ret (t_proc t).

Definition thread_set_process (tid proc : Z) : M tstate unit :=
  p <- tab_entry tid ;;
  assert (negb (p =? NULL)) "thrtab[tid] != NULL" ;;
  on_thr (update p (set_proc proc)).

Definition thread_name (tid : Z) : M tstate string :=
  p <- tab_entry tid ;;
  assert (negb (p =? NULL)) "thrtab[tid] != NULL" ;;
  t <- on_thr (deref p) ;; ret (t_name t).

(** [thrtab[tid]->name], without the check of [thread_name]. *)
Definition get_thread_name (tid : Z) : M tstate string :=
  p <- tab_entry tid ;;
  t <- on_thr (deref p) ;; ret (t_name t).

Definition thread_init (main idle : Z) : tstate :=
  let main_t := MkThread "main" THREAD_RUNNING MAIN_TID 0 0 0 0 in
  let idle_t := MkThread "idle" THREAD_READY IDLE_TID 0 main 0 0 in
  MkT (<[main := main_t]> (<[idle := idle_t]> ∅))
      (main :: replicate 14 0 ++ [idle]) (MkList idle idle) ∅ main false ∅ 0 ∅ main idle [].
