(* ===== verification/Sched.v ===== *)
(** * The scheduler invariant (thread.c)

    [sched] relates the state of the thread manager to its abstract content: the
    ready queue, a wait queue per condition, and the running thread.  A thread is
    on the ready queue exactly when it is READY, on the queue of condition [c]
    exactly when it is WAITING for [c], and at most the current thread is
    RUNNING.  Each operation is shown to succeed, without a failed assertion or
    a stale pointer, and to act on the queues as its specification says. *)

From stdpp Require Import base gmap list strings numbers.
From Stdlib Require Import Lia ZArith.
From S2P Require Import Prelude ThreadList Thread.
Local Open Scope Z_scope.
Local Open Scope kern_scope.

(** ** Status of threads *)

Definition status (m : tmap) (p : Z) : option (thread_state * Z) :=
  (fun t => (t_state t, t_wait t)) <$> m !! p.

Lemma status_next_only S m m' p : next_only S m m' -> status m' p = status m p.
Proof.
  intros H. unfold status. destruct (H p) as [->|(_ & t & n & -> & ->)]; done.
Qed.

Lemma status_insert m p t q :
  status (<[p := t]> m) q = if decide (p = q) then Some (t_state t, t_wait t) else status m q.
Proof. unfold status. rewrite lookup_insert. by case_decide. Qed.

(** What never changes while a thread is scheduled. *)
Definition ident (m : tmap) (p : Z) : option (string * Z * Z * Z) :=
  (fun t => (t_name t, t_id t, t_proc t, t_parent t)) <$> m !! p.

Lemma ident_next_only S m m' p : next_only S m m' -> ident m' p = ident m p.
Proof.
  intros H. unfold ident. destruct (H p) as [->|(_ & t & n & -> & ->)]; done.
Qed.

Lemma ident_insert m p t t' q :
  m !! p = Some t -> t_name t' = t_name t -> t_id t' = t_id t -> t_proc t' = t_proc t ->
  t_parent t' = t_parent t -> ident (<[p := t']> m) q = ident m q.
Proof.
  intros Hp E1 E2 E3 E4. unfold ident. rewrite lookup_insert. case_decide as E; [|done].
  subst q. rewrite Hp. simpl. by rewrite E1, E2, E3, E4.
Qed.

Lemma status_lookup m p x : status m p = Some x -> exists t, m !! p = Some t /\ x = (t_state t, t_wait t).
Proof. unfold status. destruct (m !! p) as [t|]; [|done]. intros [= <-]. eauto. Qed.

(** Updates that keep [list_next] keep every list. *)
Lemma tseg_ext m m' h l :
  tseg m h l -> (forall p t, p ∈ l -> m !! p = Some t -> exists t', m' !! p = Some t' /\ t_next t' = t_next t) ->
  tseg m' h l.
Proof.
  revert h. induction l as [|p l IH]; intros h Hs Hx; [done|].
  destruct Hs as (-> & Hp & t & Ht & Hs).
  destruct (Hx p t) as (t' & Ht' & Hn); [set_solver|done|].
  split; [done|]. split; [done|]. exists t'. split; [done|]. rewrite Hn.
  apply IH; [done|]. intros q u Hq. apply Hx. set_solver.
Qed.

Lemma tl_rep_insert m tl l p t t' :
  tl_rep m tl l -> m !! p = Some t -> t_next t' = t_next t -> tl_rep (<[p := t']> m) tl l.
Proof.
  intros [Hs Ht] Hp Hn. split; [|done]. eapply tseg_ext; [exact Hs|].
  intros q u Hq Hu. destruct (decide (p = q)) as [->|Hne].
  - exists t'. rewrite lookup_insert_eq. split; [done|congruence].
  - exists u. by rewrite lookup_insert_ne.
Qed.

(** ** The invariant *)

(** [R] holds of the threads that may be RUNNING: of the current thread only,
    between operations. *)
Record sched (s : tstate) (R : Z -> Prop) (rl : list Z) (wl : Z -> list Z) : Prop := {
  sc_ready : tl_rep (thr s) (ready s) rl;
  sc_cond : forall c, tl_rep (thr s) (cond_list s c) (wl c);
  sc_nodup : NoDup rl;
  sc_nodup_w : forall c, NoDup (wl c);
  sc_rl : forall p, p ∈ rl <-> exists w, status (thr s) p = Some (THREAD_READY, w);
  sc_wl : forall c p, p ∈ wl c <-> status (thr s) p = Some (THREAD_WAITING, c);
  sc_run : forall p w, status (thr s) p = Some (THREAD_RUNNING, w) -> R p;
  sc_null : status (thr s) NULL = None
}.

(** The state of the current thread. *)
Definition cur_state (s : tstate) (st : thread_state) : Prop :=
  exists w, status (thr s) (curthr s) = Some (st, w).

(** Everything an operation on threads leaves alone. *)
Record same_env (s s' : tstate) : Prop := {
  se_main : main_thr s' = main_thr s;
  se_idle : idle_thr s' = idle_thr s;
  se_procs : proc_mtag s' = proc_mtag s;
  se_freed : freed_stacks s' = freed_stacks s
}.

Lemma tl_rep_in m tl l p : tl_rep m tl l -> p ∈ l -> p <> NULL /\ exists t, m !! p = Some t.
Proof. intros [H _]. by eapply tseg_in. Qed.

Lemma on_thr_Done {A} (c : M tmap A) s a m : c (thr s) = Done a m -> on_thr c s = Done a (set_thr m s).
Proof. unfold on_thr, lift. by intros ->. Qed.

Lemma deref_eq p t m : m !! p = Some t -> deref p m = Done t m.
Proof. unfold deref. by intros ->. Qed.

(** *** Moving a thread between queues *)

(** A thread that is on no queue. *)
Definition off_queue (st : thread_state) : Prop := st <> THREAD_READY /\ st <> THREAD_WAITING.

Lemma off_queue_not_in s R rl wl p t :
  sched s R rl wl -> thr s !! p = Some t -> off_queue (t_state t) ->
  p <> NULL /\ p ∉ rl /\ forall c, p ∉ wl c.
Proof.
  intros [H1 H2 H3 H4 H5 H6 H7 H8] Ht [N1 N2].
  assert (Hst : status (thr s) p = Some (t_state t, t_wait t)) by (unfold status; by rewrite Ht).
  split; [intros ->; rewrite H8 in Hst; discriminate|].
  split; [rewrite H5, Hst; intros [w [= E _]]; done|].
  intros c. rewrite H6, Hst. intros [= E _]. done.
Qed.

(** It stays on no queue. *)
Lemma sched_off s R rl wl p t t' :
  sched s R rl wl -> thr s !! p = Some t -> t_next t' = t_next t ->
  off_queue (t_state t) -> off_queue (t_state t') ->
  sched (set_thr (<[p := t']> (thr s)) s)
    (fun q => if decide (q = p) then t_state t' = THREAD_RUNNING else R q) rl wl.
Proof.
  intros HS Ht Hn Hoff [N3 N4].
  destruct (off_queue_not_in _ _ _ _ _ _ HS Ht Hoff) as (Hnull & Hnr & Hnw).
  destruct HS as [H1 H2 H3 H4 H5 H6 H7 H8].
  constructor; cbn [thr set_thr ready curthr]; auto.
  - by eapply tl_rep_insert.
  - intros c. eapply tl_rep_insert; [apply H2|done|done].
  - intros q. rewrite status_insert. case_decide as E; [|apply H5]. subst q.
    split; [done|]. intros [w [= E1 E2]]. done.
  - intros c q. rewrite status_insert. case_decide as E; [|apply H6]. subst q.
    split; [by intros ?%Hnw|]. intros [= E1 E2]. done.
  - intros q w. rewrite status_insert. case_decide as E.
    + intros [= E1 E2]. by rewrite decide_True.
    + rewrite decide_False by done. apply H7.
  - rewrite status_insert. by case_decide.
Qed.

(** The head of the ready queue is removed and made RUNNING. *)
Lemma sched_take s R n rl wl :
  sched s R (n :: rl) wl ->
  exists tl' m' t, tlremove (ready s) (thr s) = Done (n, tl') m' /\ m' !! n = Some t /\
    t_state t = THREAD_READY /\
    sched (set_thr (<[n := set_state THREAD_RUNNING t]> m') (set_ready tl' s))
      (fun q => R q \/ q = n) rl wl /\
    next_only [n] (thr s) m'.
Proof.
  intros [H1 H2 H3 H4 H5 H6 H7 H8].
  destruct (tlremove_ok _ _ _ _ H1 H3) as (tl' & m' & E & Hrep & Hno).
  destruct (proj1 (H5 n)) as [w Hw]; [set_solver|].
  destruct (status_lookup _ _ _ Hw) as (t0 & Ht0 & [= E1 E2]).
  destruct (next_only_lookup _ _ _ n t0 Hno Ht0) as [k Hk].
  inversion_clear H3 as [|? ? Hnin Hnd].
  set (t := set_next k t0). set (m2 := <[n := set_state THREAD_RUNNING t]> m').
  assert (Hst : forall q, status m2 q =
    if decide (n = q) then Some (THREAD_RUNNING, t_wait t0) else status (thr s) q).
  { intros q. unfold m2. rewrite status_insert. case_decide; [done|]. by eapply status_next_only. }
  exists tl', m', t. split; [done|]. split; [done|]. split; [done|]. split; [|done].
  constructor; cbn [thr set_thr set_ready ready]; auto.
  - eapply tl_rep_insert; [exact Hrep|exact Hk|done].
  - intros c. eapply tl_rep_insert; [|exact Hk|done].
    eapply tl_rep_next_only; [apply H2|exact Hno|]. intros p Hp Hpn.
    assert (p = n) as -> by set_solver. apply H6 in Hp. congruence.
  - intros p. fold m2. rewrite Hst. case_decide as Ep.
    + subst p. split; [done|]. intros [w' [= ?]].
    + rewrite <- (H5 p), elem_of_cons. naive_solver.
  - intros c p. fold m2. rewrite Hst. case_decide as Ep; [|apply H6]. subst p.
    rewrite H6, Hw. split; done.
  - intros p w'. fold m2. rewrite Hst. case_decide as Ep; [by right|]. left. by eapply H7.
  - fold m2. rewrite Hst. case_decide as Ep; [|done]. rewrite Ep, H8 in Hw. discriminate.
Qed.

(** A thread that is on no queue is made READY and put on the ready queue. *)
Lemma sched_make_ready s R rl wl p t t' :
  sched s R rl wl -> thr s !! p = Some t -> off_queue (t_state t) -> t_next t' = t_next t ->
  t_state t' = THREAD_READY ->
  exists s', ready_insert p (set_thr (<[p := t']> (thr s)) s) = Done tt s' /\
    sched s' (fun q => R q /\ q <> p) (rl ++ [p]) wl /\
    s' = set_ready (ready s') (set_thr (thr s') s) /\
    (forall q, q <> p -> status (thr s') q = status (thr s) q) /\
    (forall q u, thr s !! q = Some u -> q <> p -> exists k, thr s' !! q = Some (set_next k u)) /\
    (exists k, thr s' !! p = Some (set_next k t')) /\
    (forall q, ident (thr s') q = ident (<[p := t']> (thr s)) q).
Proof.
  intros HS Ht Hoff Hn Hready.
  destruct (off_queue_not_in _ _ _ _ _ _ HS Ht Hoff) as (Hnull & Hnr & Hnw).
  destruct HS as [H1 H2 H3 H4 H5 H6 H7 H8]. set (m1 := <[p := t']> (thr s)).
  assert (Hp1 : m1 !! p = Some t') by apply lookup_insert_eq.
  assert (Hr1 : tl_rep m1 (ready s) rl) by (by eapply tl_rep_insert).
  destruct (tlinsert_ok m1 (ready s) rl p t' Hr1 H3 Hnr Hnull Hp1) as (tl' & m2 & E & Hrep & Hno).
  assert (Hst : forall q, status m2 q =
    if decide (p = q) then Some (THREAD_READY, t_wait t') else status (thr s) q).
  { intros q. rewrite (status_next_only _ _ _ q Hno). unfold m1. rewrite status_insert.
    case_decide; [by rewrite Hready|done]. }
  exists (set_ready tl' (set_thr m2 s)). split.
  { unfold ready_insert. unfold bind at 1, gets. mstep (on_thr_Done (tlinsert (ready s) p) (set_thr m1 s) tl' m2 E).
    reflexivity. }
  split; [|split; [done|split; [intros q Hq; cbn; rewrite Hst; by rewrite decide_False|split]]].
  - constructor; cbn [thr set_thr set_ready ready]; auto.
    + intros c. eapply tl_rep_next_only; [|exact Hno|].
      * unfold cond_list. by eapply tl_rep_insert; [apply H2|..].
      * intros q Hq Hin. apply elem_of_cons in Hin as [->|Hin]; [by apply (Hnw c)|].
        apply H6 in Hq. apply H5 in Hin as [w Hw]. congruence.
    + by apply NoDup_snoc.
    + intros q. rewrite Hst, elem_of_app, H5. case_decide as Ep.
      * subst q. split; [eauto|]. intros _. right. set_solver.
      * split; [|eauto]. intros [?|Hin]; [done|]. set_solver.
    + intros c q. rewrite Hst. case_decide as Ep; [|apply H6]. subst q.
      split; [by intros ?%Hnw|done].
    + intros q w. rewrite Hst. case_decide as Ep; [done|]. intros Hq. split; [by eapply H7|done].
    + rewrite Hst. case_decide; [done|]. apply H8.
  - intros q u Hu Hq. cbn. eapply next_only_lookup; [exact Hno|]. unfold m1. by rewrite lookup_insert_ne.
  - split; [cbn; by eapply next_only_lookup|]. intros q. cbn. by eapply ident_next_only.
Qed.

Lemma tl_rep_insert_off m tl l p t' : tl_rep m tl l -> p ∉ l -> tl_rep (<[p := t']> m) tl l.
Proof.
  intros H Hp. eapply tl_rep_frame; [exact H|]. intros q Hq. rewrite lookup_insert_ne; [done|by intros ->].
Qed.

Definition wl_append (wl : Z -> list Z) (c p : Z) : Z -> list Z :=
  fun d => if decide (d = c) then wl c ++ [p] else wl d.
Definition wl_clear (wl : Z -> list Z) (c : Z) : Z -> list Z :=
  fun d => if decide (d = c) then [] else wl d.

Lemma cond_list_set s c v d :
  cond_list (set_cond c v s) d = if decide (d = c) then v else cond_list s d.
Proof.
  unfold cond_list, set_cond. cbn [conds]. rewrite lookup_insert.
  repeat case_decide; congruence || done.
Qed.

(** A thread that is on no queue is made WAITING and put on a wait queue. *)
Lemma sched_make_waiting s R rl wl c p t t' :
  sched s R rl wl -> thr s !! p = Some t -> off_queue (t_state t) ->
  t_state t' = THREAD_WAITING -> t_wait t' = c ->
  exists s', cond_insert c p (set_thr (<[p := t']> (thr s)) s) = Done tt s' /\
    sched s' (fun q => R q /\ q <> p) rl (wl_append wl c p) /\
    s' = set_cond c (cond_list s' c) (set_thr (thr s') s) /\
    (forall q, q <> p -> status (thr s') q = status (thr s) q) /\
    (exists k, thr s' !! p = Some (set_next k t')) /\
    (forall q, ident (thr s') q = ident (<[p := t']> (thr s)) q).
Proof.
  intros HS Ht Hoff Hstate Hw.
  destruct (off_queue_not_in _ _ _ _ _ _ HS Ht Hoff) as (Hnull & Hnr & Hnw).
  destruct HS as [H1 H2 H3 H4 H5 H6 H7 H8]. set (m1 := <[p := t']> (thr s)).
  assert (Hp1 : m1 !! p = Some t') by apply lookup_insert_eq.
  assert (Hc1 : forall d, tl_rep m1 (cond_list s d) (wl d)) by (intros d; by apply tl_rep_insert_off).
  destruct (tlinsert_ok m1 (cond_list s c) (wl c) p t' (Hc1 c) (H4 c) (Hnw c) Hnull Hp1)
    as (tl' & m2 & E & Hrep & Hno).
  assert (Hst : forall q, status m2 q =
    if decide (p = q) then Some (THREAD_WAITING, c) else status (thr s) q).
  { intros q. rewrite (status_next_only _ _ _ q Hno). unfold m1. rewrite status_insert.
    case_decide; [by rewrite Hstate, Hw|done]. }
  exists (set_cond c tl' (set_thr m2 s)). split.
  { unfold cond_insert. unfold bind at 1, gets.
    mstep (on_thr_Done (tlinsert (cond_list s c) p) (set_thr m1 s) tl' m2 E). reflexivity. }
  split; [|split; [|split; [intros q Hq; cbn; rewrite Hst; by rewrite decide_False|]]].
  - constructor; cbn [thr set_thr set_cond ready]; auto.
    + eapply tl_rep_next_only; [by apply tl_rep_insert_off|exact Hno|].
      intros q Hq Hin. apply elem_of_cons in Hin as [->|Hin]; [done|].
      apply H6 in Hin. apply H5 in Hq as [w Hwq]. congruence.
    + intros d. rewrite cond_list_set. unfold wl_append. case_decide as Ed; [done|].
      change (cond_list (set_thr m2 s) d) with (cond_list s d).
      eapply tl_rep_next_only; [apply Hc1|exact Hno|].
      intros q Hq Hin. apply elem_of_cons in Hin as [->|Hin]; [by apply (Hnw d)|].
      apply H6 in Hq. apply H6 in Hin. congruence.
    + intros d. unfold wl_append. case_decide; [by apply NoDup_snoc|done].
    + intros q. rewrite Hst, H5. case_decide as Ep; [|done]. subst q.
      split; [by intros ?%H5|by intros [w [= ?]]].
    + intros d q. rewrite Hst. unfold wl_append. destruct (decide (d = c)) as [->|Hd].
      * rewrite elem_of_app, H6. case_decide as Ep; [subst q|].
        { split; [done|]. intros _. right. set_solver. }
        split; [|eauto]. intros [?|Hin]; [done|]. set_solver.
      * case_decide as Ep; [|apply H6]. subst q. split; [by intros ?%Hnw|]. intros [= ->]. done.
    + intros q w. rewrite Hst. case_decide as Ep; [done|]. intros Hq. split; [by eapply H7|done].
    + rewrite Hst. case_decide; [done|]. apply H8.
  - unfold cond_list at 1. cbn. by rewrite lookup_insert_eq.
  - split; [cbn; by eapply next_only_lookup|]. intros q. cbn. by eapply ident_next_only.
Qed.

(** ** [suspend_self] *)

Lemma sched_sub s (R R' : Z -> Prop) rl wl :
  sched s R rl wl -> (forall p w, status (thr s) p = Some (THREAD_RUNNING, w) -> R p -> R' p) ->
  sched s R' rl wl.
Proof. intros [H1 H2 H3 H4 H5 H6 H7 H8] H. constructor; eauto. Qed.

(** States with the same threads, lists and conditions. *)
Lemma sched_same s s' R rl wl :
  sched s R rl wl -> thr s' = thr s -> ready s' = ready s -> conds s' = conds s -> sched s' R rl wl.
Proof.
  intros [H1 H2 H3 H4 H5 H6 H7 H8] E1 E2 E3.
  constructor; unfold cond_list; rewrite ?E1, ?E2, ?E3; auto.
Qed.

(** The interrupt state the resumed thread continues with. *)
Definition resumed_sie (s : tstate) (n : Z) : bool :=
  default true (<[curthr s := sie s]> (saved_sie s) !! n).

(** The memory space active afterwards. *)
Definition space_of (s : tstate) (n : Z) : Z :=
  match thr s !! n with
  | Some t => if t_proc t =? NULL then cur_mtag s else default 0 (proc_mtag s !! t_proc t)
  | None => cur_mtag s
  end.

Record switched (s : tstate) (n : Z) (s' : tstate) : Prop := {
  sw_cur : curthr s' = n;
  sw_sie : sie s' = resumed_sie s n;
  sw_space : cur_mtag s' = space_of s n;
  sw_tab : thrtab s' = thrtab s;
  sw_env : same_env s s';
  sw_run : exists w, status (thr s') n = Some (THREAD_RUNNING, w);
  sw_status : forall q, q <> n -> q <> curthr s -> status (thr s') q = status (thr s) q;
  sw_ident : forall q, ident (thr s') q = ident (thr s) q;
  sw_saved : saved_sie s' = <[curthr s := sie s]> (saved_sie s)
}.

Lemma state_is_true st t : t_state t = st -> state_is st t = true.
Proof. intros H. unfold state_is. by apply bool_decide_eq_true_2. Qed.
Lemma state_is_false st t : t_state t <> st -> state_is st t = false.
Proof. intros H. unfold state_is. by apply bool_decide_eq_false_2. Qed.

Lemma ready_nonempty s R n rl wl : sched s R (n :: rl) wl -> tlempty (ready s) = false.
Proof.
  intros HS. destruct (tlempty (ready s)) eqn:E; [|done].
  by apply (tlempty_spec _ _ _ (sc_ready _ _ _ _ HS)) in E.
Qed.

(** The part of [suspend_self] after the queues are updated, as one step. *)
Definition switch_to (n proc : Z) (s : tstate) : tstate :=
  let s1 := set_sie true s in
  let s2 := if negb (proc =? NULL) then set_mtag (default 0 (proc_mtag s1 !! proc)) s1 else s1 in
  let s3 := set_cur n s2 in
  set_sie (default true (saved_sie s3 !! n)) s3.

Lemma intr_enable_eq s : intr_enable s = Done (sie s) (set_sie true s).
Proof. done. Qed.
Lemma intr_disable_eq s : intr_disable s = Done (sie s) (set_sie false s).
Proof. done. Qed.
Lemma thread_swtch_eq n s : thread_swtch n s = Done n (set_cur n s).
Proof. done. Qed.
Lemma modify_eq {St} (f : St -> St) s : modify f s = Done tt (f s).
Proof. done. Qed.
Lemma gets_eq {St A} (f : St -> A) s : gets f s = Done (f s) s.
Proof. done. Qed.

(** The end of [suspend_self], from [intr_enable()] on. *)
Definition suspend_rest (n : Z) : M tstate unit :=
  intr_enable ;;
  nt' <- on_thr (deref n) ;;
  (if negb (t_proc nt' =? NULL)
   then modify (fun s => set_mtag (default 0 (proc_mtag s !! t_proc nt')) s)
   else ret tt) ;;
  prev_thread <- thread_swtch n ;;
  pt <- on_thr (deref prev_thread) ;;
  (if state_is THREAD_EXITED pt then modify (add_freed prev_thread) else ret tt) ;;
  saved <- gets (fun s => default true (saved_sie s !! curthr s)) ;;
  intr_restore saved.

Lemma suspend_tail s n t :
  thr s !! n = Some t -> t_state t <> THREAD_EXITED ->
  suspend_rest n s = Done tt (switch_to n (t_proc t) s).
Proof.
  intros Ht Hne. unfold suspend_rest. mstep (intr_enable_eq s).
  mstep (on_thr_Done (deref n) (set_sie true s) t (thr s) (deref_eq n t _ Ht)).
  assert (Hst := state_is_false THREAD_EXITED t Hne). unfold switch_to.
  assert (Htail : forall s2, thr s2 = thr s ->
    (prev_thread <- thread_swtch n ;;
     pt <- on_thr (deref prev_thread) ;;
     (if state_is THREAD_EXITED pt then modify (add_freed prev_thread) else ret tt) ;;
     saved <- gets (fun s => default true (saved_sie s !! curthr s)) ;;
     intr_restore saved) s2 =
    Done tt (set_sie (default true (saved_sie s2 !! n)) (set_cur n s2))).
  { intros s2 E. mstep (thread_swtch_eq n s2).
    assert (Hd : deref n (thr (set_cur n s2)) = Done t (thr s2)) by (apply deref_eq; cbn; by rewrite E).
    mstep (on_thr_Done (deref n) (set_cur n s2) t (thr s2) Hd). rewrite Hst.
    unfold bind, ret, gets, intr_restore, modify. by destruct s2. }
  destruct (negb (t_proc t =? NULL)).
  - mstep (modify_eq (fun s => set_mtag (default 0 (proc_mtag s !! t_proc t)) s)
             (set_thr (thr s) (set_sie true s))).
    rewrite Htail by done. by destruct s.
  - unfold bind at 1, ret at 1. rewrite Htail by done. by destruct s.
Qed.

Lemma status_cur_lookup s st :
  cur_state s st -> exists t, thr s !! curthr s = Some t /\ t_state t = st.
Proof. intros [w Hw]. destruct (status_lookup _ _ _ Hw) as (t & Ht & [= -> _]). eauto. Qed.

Lemma switch_to_env s0 s n proc : same_env s0 s -> same_env s0 (switch_to n proc s).
Proof.
  intros [A B C D]. unfold switch_to. destruct (negb (proc =? NULL)); constructor; cbn; auto.
Qed.

(** The beginning of [suspend_self], up to the test of the suspended thread. *)
Lemma suspend_front s n tl' m' tn t :
  tlempty (ready s) = false -> tlremove (ready s) (thr s) = Done (n, tl') m' ->
  m' !! n = Some tn -> t_state tn = THREAD_READY ->
  let s2 := set_thr (<[n := set_state THREAD_RUNNING tn]> m')
              (set_ready tl' (set_saved (curthr s) (sie s) (set_sie false s))) in
  thr s2 !! curthr s = Some t ->
  suspend_self s =
  ((if state_is THREAD_RUNNING t
    then on_thr (update (curthr s) (set_state THREAD_READY)) ;; ready_insert (curthr s)
    else ret tt) ;; suspend_rest n) s2.
Proof.
  intros Hne Erm Hn Hsn s2 Hc2. set (s1 := set_saved (curthr s) (sie s) (set_sie false s)).
  set (m2 := <[n := set_state THREAD_RUNNING tn]> m').
  unfold suspend_self. unfold bind at 1, gets at 1. unfold assert at 1. rewrite Hne. cbn [negb].
  unfold bind at 1, ret at 1. unfold bind at 1, gets at 1.
  mstep (intr_disable_eq s). unfold bind at 1, modify at 1. fold s1.
  mstep (on_thr_Done (tlremove (ready s)) s1 (n, tl') m' Erm).
  unfold bind at 1, modify at 1.
  mstep (on_thr_Done (deref n) (set_ready tl' (set_thr m' s1)) tn m' (deref_eq n tn m' Hn)).
  unfold assert at 1. rewrite (state_is_true _ _ Hsn). unfold bind at 1, ret at 1.
  mstep (on_thr_Done (update n (set_state THREAD_RUNNING)) (set_thr m' (set_ready tl' (set_thr m' s1))) tt m2
    (update_eq n _ tn m' Hn)).
  mstep (on_thr_Done (deref (curthr s)) s2 t (thr s2) (deref_eq _ t (thr s2) Hc2)). reflexivity.
Qed.

(** A running thread yields: it goes to the back of the ready queue and the
    first thread of the queue runs. *)
Lemma suspend_running s n rl wl :
  sched s (fun p => p = curthr s) (n :: rl) wl -> cur_state s THREAD_RUNNING ->
  exists s', suspend_self s = Done tt s' /\
    sched s' (fun p => p = n) (rl ++ [curthr s]) wl /\ switched s n s' /\
    exists w, status (thr s') (curthr s) = Some (THREAD_READY, w).
Proof.
  intros HS Hcur. pose proof (ready_nonempty _ _ _ _ _ HS) as Hne.
  destruct (status_cur_lookup _ _ Hcur) as (t & Ht & Hst).
  set (s1 := set_saved (curthr s) (sie s) (set_sie false s)).
  assert (HS1 : sched s1 (fun p => p = curthr s) (n :: rl) wl) by (by eapply sched_same).
  destruct (sched_take s1 _ n rl wl HS1) as (tl' & m' & tn & Erm & Hn & Hsn & HS2 & Hno).
  cbn [s1 set_saved set_sie thr ready] in Erm, Hno.
  assert (Hkeep : forall q, q <> n -> m' !! q = thr s !! q).
  { intros q Hq. eapply next_only_frame; [exact Hno|]. set_solver. }
  set (m2 := <[n := set_state THREAD_RUNNING tn]> m').
  set (s2 := set_thr m2 (set_ready tl' s1)).
  assert (Hnc : n <> curthr s).
  { intros E. rewrite E in Hn. pose proof (sc_rl _ _ _ _ HS n) as [Hr _].
    destruct Hr as [w Hw]; [set_solver|]. unfold status in Hw. rewrite E, Ht in Hw. simpl in Hw. congruence. }
  assert (Hc2 : thr s2 !! curthr s = Some t).
  { cbn. unfold m2. rewrite lookup_insert_ne by done. by rewrite Hkeep by done. }
  destruct (sched_make_ready s2 _ rl wl (curthr s) t (set_state THREAD_READY t) HS2 Hc2)
    as (s3 & E3 & HS3 & Es3 & Hst3 & Hlk3 & (k3 & Hk3) & Hid3); [by rewrite Hst|done|done|].
  destruct (Hlk3 n (set_state THREAD_RUNNING tn)) as [k Hk]; [apply lookup_insert_eq|done|].
  exists (switch_to n (t_proc tn) s3). split; [|split; [|split]].
  - rewrite (suspend_front s n tl' m' tn t Hne Erm Hn Hsn Hc2).
    rewrite (state_is_true _ _ Hst). rewrite bind_assoc.
    mstep (on_thr_Done (update (curthr s) (set_state THREAD_READY)) s2 tt
      (<[curthr s := set_state THREAD_READY t]> (thr s2)) (update_eq _ _ t (thr s2) Hc2)).
    mstep E3. by erewrite suspend_tail by done.
  - assert (HS4 : sched s3 (fun p => p = n) (rl ++ [curthr s]) wl).
    { eapply sched_sub; [exact HS3|]. intros p w _ [[-> | ->] ?]; done. }
    eapply sched_same; [exact HS4|..]; unfold switch_to; destruct (negb _); done.
  - assert (Henv : same_env s s3) by (rewrite Es3; constructor; done).
    constructor.
    + unfold switch_to. by destruct (negb _).
    + unfold switch_to, resumed_sie. destruct (negb _); cbn; rewrite Es3; done.
    + unfold space_of. destruct (next_only_lookup_rev _ _ _ n tn Hno Hn) as (u & k' & -> & ->).
      unfold switch_to. cbn [set_next t_proc]. destruct (t_proc u =? NULL); cbn; rewrite Es3; done.
    + unfold switch_to. destruct (negb _); cbn; rewrite Es3; done.
    + by apply switch_to_env.
    + exists (t_wait tn). unfold switch_to, status.
      destruct (negb _); cbn; rewrite Hk; done.
    + intros q Hq Hqc. unfold switch_to.
      assert (status (thr s3) q = status (thr s) q) as <-; [|by destruct (negb _)].
      rewrite Hst3 by done. cbn. unfold m2. rewrite status_insert, decide_False by done.
      unfold status. by rewrite Hkeep.
    + intros q. transitivity (ident (thr s3) q); [unfold switch_to; by destruct (negb _)|].
      rewrite Hid3. rewrite (ident_insert _ _ t) by done. cbn. unfold m2.
      rewrite (ident_insert _ _ tn) by done. by eapply ident_next_only.
    + unfold switch_to. destruct (negb _); cbn; rewrite Es3; done.
  - exists (t_wait t). unfold switch_to, status. destruct (negb _); cbn; rewrite Hk3; done.
Qed.

(** A thread that stopped running (it waits or has exited) gives up the
    processor: the first thread of the ready queue runs. *)
Lemma suspend_stopped s R n rl wl st :
  sched s R (n :: rl) wl -> cur_state s st -> st <> THREAD_RUNNING -> st <> THREAD_READY ->
  (forall p w, status (thr s) p = Some (THREAD_RUNNING, w) -> R p -> False) ->
  exists s', suspend_self s = Done tt s' /\ sched s' (fun p => p = n) rl wl /\ switched s n s' /\
    status (thr s') (curthr s) = status (thr s) (curthr s) /\ curthr s <> n.
Proof.
  intros HS Hcur Hnr Hnrd Hnone. pose proof (ready_nonempty _ _ _ _ _ HS) as Hne.
  destruct (status_cur_lookup _ _ Hcur) as (t & Ht & Hst).
  set (s1 := set_saved (curthr s) (sie s) (set_sie false s)).
  assert (HS1 : sched s1 R (n :: rl) wl) by (by eapply sched_same).
  destruct (sched_take s1 _ n rl wl HS1) as (tl' & m' & tn & Erm & Hn & Hsn & HS2 & Hno).
  cbn [s1 set_saved set_sie thr ready] in Erm, Hno.
  assert (Hkeep : forall q, q <> n -> m' !! q = thr s !! q).
  { intros q Hq. eapply next_only_frame; [exact Hno|]. set_solver. }
  set (m2 := <[n := set_state THREAD_RUNNING tn]> m').
  set (s2 := set_thr m2 (set_ready tl' s1)).
  assert (Hnc : n <> curthr s).
  { intros E. destruct (proj1 (sc_rl _ _ _ _ HS n)) as [w Hw]; [set_solver|].
    unfold status in Hw. rewrite E, Ht in Hw. simpl in Hw. congruence. }
  assert (Hc2 : thr s2 !! curthr s = Some t).
  { cbn. unfold m2. rewrite lookup_insert_ne by done. by rewrite Hkeep by done. }
  assert (Hst2 : forall q, q <> n -> status (thr s2) q = status (thr s) q).
  { intros q Hq. cbn. unfold m2. rewrite status_insert, decide_False by done.
    unfold status. by rewrite Hkeep. }
  exists (switch_to n (t_proc tn) s2). split; [|split; [|split; [|split]]].
  - rewrite (suspend_front s n tl' m' tn t Hne Erm Hn Hsn Hc2).
    rewrite state_is_false by congruence. unfold bind at 1, ret at 1. cbv beta iota.
    fold m2 s1 s2. rewrite (suspend_tail s2 n (set_state THREAD_RUNNING tn)); [done| |done].
    apply lookup_insert_eq.
  - assert (HS4 : sched s2 (fun p => p = n) rl wl).
    { eapply sched_sub; [exact HS2|]. intros p w Hp [HR | ->]; [|done].
      destruct (decide (p = n)) as [->|Hpn]; [done|]. rewrite Hst2 in Hp by done.
      exfalso. by eapply Hnone. }
    eapply sched_same; [exact HS4|..]; unfold switch_to; destruct (negb _); done.
  - constructor.
    + unfold switch_to. by destruct (negb _).
    + unfold switch_to, resumed_sie. by destruct (negb _).
    + unfold space_of. destruct (next_only_lookup_rev _ _ _ n tn Hno Hn) as (u & k' & -> & ->).
      unfold switch_to. cbn [set_next t_proc]. by destruct (t_proc u =? NULL).
    + unfold switch_to. by destruct (negb _).
    + apply switch_to_env. by constructor.
    + exists (t_wait tn). unfold switch_to, status.
      assert (Hl : thr s2 !! n = Some (set_state THREAD_RUNNING tn)) by apply lookup_insert_eq.
      destruct (negb _); cbn [thr set_sie set_cur set_mtag]; rewrite Hl; done.
    + intros q Hq Hqc. rewrite <- (Hst2 q Hq). unfold switch_to. by destruct (negb _).
    + intros q. transitivity (ident (thr s2) q); [unfold switch_to; by destruct (negb _)|].
      cbn. unfold m2. rewrite (ident_insert _ _ tn) by done. by eapply ident_next_only.
    + unfold switch_to. by destruct (negb _).
  - rewrite <- (Hst2 (curthr s)) by done. unfold switch_to. by destruct (negb _).
  - done.
Qed.
