(* ===== verification/SchedOps.v ===== *)
(** * Operations of the thread manager preserve the scheduler invariant (thread.c)

    [condition_wait], [condition_broadcast], [thread_spawn], [thread_exit],
    [thread_join] and [recycle_thread] on the abstract queues of [Sched]. *)

From stdpp Require Import base gmap list strings numbers fin_sets.
From Stdlib Require Import Lia ZArith.
From S2P Require Import Prelude ThreadList Thread Sched.
Local Open Scope Z_scope.
Local Open Scope kern_scope.

(** Between operations exactly the current thread runs. *)
Definition running (s : tstate) (rl : list Z) (wl : Z -> list Z) : Prop :=
  sched s (fun p => p = curthr s) rl wl /\ cur_state s THREAD_RUNNING.

Lemma running_lookup s rl wl :
  running s rl wl -> exists t, thr s !! curthr s = Some t /\ t_state t = THREAD_RUNNING.
Proof. intros [_ H]. by apply status_cur_lookup. Qed.

Lemma switched_running s n s' rl wl :
  switched s n s' -> sched s' (fun p => p = n) rl wl -> running s' rl wl.
Proof.
  intros Hsw HS. unfold running, cur_state. rewrite (sw_cur _ _ _ Hsw).
  split; [done|apply (sw_run _ _ _ Hsw)].
Qed.

(** ** [thread_yield] *)

Lemma thread_yield_step s n rl wl :
  running s (n :: rl) wl ->
  exists s', thread_yield s = Done tt s' /\ running s' (rl ++ [curthr s]) wl /\ switched s n s' /\
    exists w, status (thr s') (curthr s) = Some (THREAD_READY, w).
Proof.
  intros [HS Hcur]. destruct (status_cur_lookup _ _ Hcur) as (t & Ht & Hst).
  destruct (suspend_running s n rl wl HS Hcur) as (s' & E & HS' & Hsw & Hst').
  exists s'. split; [|split; [by eapply switched_running|done]].
  unfold thread_yield. mstep (gets_eq curthr s).
  mstep (on_thr_Done (deref (curthr s)) s t (thr s) (deref_eq _ t _ Ht)).
  unfold assert. rewrite (state_is_true _ _ Hst). unfold bind at 1, ret at 1.
  rewrite <- E. by destruct s.
Qed.

(** ** [condition_wait] *)

Lemma set_thr_twice m m' s : set_thr m (set_thr m' s) = set_thr m s.
Proof. done. Qed.
Lemma set_thr_self s : set_thr (thr s) s = s.
Proof. by destruct s. Qed.

Lemma sched_set_sie b s R rl wl : sched s R rl wl -> sched (set_sie b s) R rl wl.
Proof. intros H. by eapply sched_same. Qed.

Definition waiting_thread (c : Z) (t : thread) : thread :=
  set_next NULL (set_wait c (set_state THREAD_WAITING t)).

Lemma condition_wait_step s n rl wl c :
  running s (n :: rl) wl ->
  exists s', condition_wait c s = Done tt s' /\ running s' rl (wl_append wl c (curthr s)) /\
    switched s n s' /\ status (thr s') (curthr s) = Some (THREAD_WAITING, c).
Proof.
  intros [HS Hcur]. destruct (status_cur_lookup _ _ Hcur) as (t & Ht & Hst).
  assert (HS0 := sched_set_sie false _ _ _ _ HS).
  set (p := curthr s) in *. set (t' := waiting_thread c t).
  destruct (sched_make_waiting (set_sie false s) _ (n :: rl) wl c p t t' HS0 Ht)
    as (s1 & E1 & HS1 & Es1 & Hst1 & (k & Hk) & Hid); [by rewrite Hst|done|done|].
  set (s2 := set_sie (sie s) s1).
  assert (Hc2 : curthr s2 = p) by (unfold s2; rewrite Es1; done).
  assert (Hstp : status (thr s2) p = Some (THREAD_WAITING, c)) by (unfold status; cbn; by rewrite Hk).
  destruct (suspend_stopped s2 (fun q => q = p /\ q <> p) n rl (wl_append wl c p) THREAD_WAITING)
    as (s' & E & HS' & Hsw & Hst' & Hne).
  { by apply sched_set_sie. }
  { exists c. by rewrite Hc2. }
  { done. } { done. } { intros q w _ [? ?]; done. }
  rewrite Hc2 in Hst', Hne.
  assert (Hid2 : forall q, ident (thr s1) q = ident (thr s) q).
  { intros q. rewrite Hid. by apply (ident_insert _ _ t). }
  exists s'. split; [|split; [by eapply switched_running|split]].
  - unfold condition_wait. mstep (gets_eq curthr s). fold p.
    mstep (on_thr_Done (deref p) s t (thr s) (deref_eq _ t _ Ht)). rewrite set_thr_self.
    unfold assert. rewrite (state_is_true _ _ Hst). unfold bind at 1, ret at 1.
    mstep (on_thr_Done _ s _ _ (update_eq p (set_state THREAD_WAITING) t (thr s) Ht)).
    mstep (on_thr_Done _ (set_thr (<[p := set_state THREAD_WAITING t]> (thr s)) s) _ _
      (update_eq p (set_wait c) _ _ (lookup_insert_eq (thr s) p (set_state THREAD_WAITING t)))).
    rewrite set_thr_twice. cbn [thr set_thr]. rewrite insert_insert_eq.
    mstep (on_thr_Done _ (set_thr (<[p := set_wait c (set_state THREAD_WAITING t)]> (thr s)) s) _ _
      (update_eq p (set_next NULL) _ _ (lookup_insert_eq (thr s) p (set_wait c (set_state THREAD_WAITING t))))).
    rewrite set_thr_twice. cbn [thr set_thr]. rewrite insert_insert_eq.
    mstep (intr_disable_eq (set_thr (<[p := t']> (thr s)) s)).
    change (set_sie false (set_thr (<[p := t']> (thr s)) s))
      with (set_thr (<[p := t']> (thr (set_sie false s))) (set_sie false s)).
    mstep E1. exact E.
  - destruct Hsw as [A1 A2 A3 A4 [B1 B2 B3 B4] A6 A7 A8 A9]. constructor.
    + done.
    + rewrite A2. unfold resumed_sie. rewrite Hc2. unfold s2. rewrite Es1. done.
    + rewrite A3. unfold space_of.
      assert (Hi := Hid2 n). unfold ident in Hi. cbn [s2 set_sie thr].
      destruct (thr s1 !! n) as [u|], (thr s !! n) as [v|]; try discriminate Hi;
        [injection Hi as _ _ -> _|]; unfold s2; rewrite Es1; done.
    + rewrite A4. unfold s2. by rewrite Es1.
    + constructor; rewrite ?B1, ?B2, ?B3, ?B4; unfold s2; by rewrite Es1.
    + done.
    + intros q Hq Hqp. rewrite A7 by (rewrite ?Hc2; done). cbn. by apply Hst1.
    + intros q. rewrite A8. apply Hid2.
    + rewrite A9. unfold s2. rewrite Es1. done.
  - by rewrite Hst'.
Qed.

(** ** [condition_broadcast] *)

Definition woken (t : thread) : thread := set_wait NULL (set_state THREAD_READY t).

(** The threads of [l] are woken, the others unchanged. *)
Definition wakes (l : list Z) (m m' : tmap) : Prop :=
  forall q, m' !! q = if decide (q ∈ l) then woken <$> m !! q else m !! q.

Lemma update_twice p f g t m :
  m !! p = Some t -> (update p f ;; update p g) m = Done tt (<[p := g (f t)]> m).
Proof.
  intros H. mstep (update_eq p f t m H).
  rewrite (update_eq p g (f t)) by apply lookup_insert_eq. by rewrite insert_insert_eq.
Qed.

Lemma wake_loop_ok c : forall n l p m,
  tseg m p l -> NoDup l -> (length l <= n)%nat ->
  (forall q, q ∈ l -> status m q = Some (THREAD_WAITING, c)) ->
  exists m', wake_loop n c p m = Done tt m' /\ wakes l m m'.
Proof.
  induction n as [|n IH]; intros l p m Hs Hnd Hlen Hw.
  - destruct l; [|simpl in Hlen; lia]. simpl in Hs. subst p. exists m. split; [done|].
    intros q. case_decide; set_solver.
  - destruct l as [|q l].
    { simpl in Hs. subst p. exists m. split; [done|]. intros q. case_decide; set_solver. }
    destruct Hs as (-> & Hq & t & Ht & Hs). inversion_clear Hnd as [|? ? Hnin Hnd'].
    assert (Hst := Hw q ltac:(set_solver)). unfold status in Hst. rewrite Ht in Hst. injection Hst as E1 E2.
    destruct (IH l (t_next t) (<[q := woken t]> m)) as (m' & E & Hm').
    + eapply tseg_frame; [exact Hs|]. intros r Hr. rewrite lookup_insert_ne; [done|by intros ->].
    + done.
    + simpl in Hlen. lia.
    + intros r Hr. rewrite status_insert, decide_False by (by intros ->). apply Hw. set_solver.
    + exists m'. split.
      * simpl. rewrite (proj2 (Z.eqb_neq _ _) Hq). mstep (deref_eq q t m Ht).
        unfold assert. rewrite (state_is_true _ _ E1). unfold bind at 1, ret at 1.
        rewrite (proj2 (Z.eqb_eq _ _) E2). unfold bind at 1, ret at 1.
        rewrite <- bind_assoc. mstep (update_twice q (set_state THREAD_READY) (set_wait NULL) t m Ht).
        mstep (deref_eq q (woken t) (<[q := woken t]> m) (lookup_insert_eq _ _ _)). exact E.
      * intros r. rewrite Hm', lookup_insert. case_decide as Er.
        { rewrite (decide_True (P := r ∈ q :: l)) by set_solver.
          case_decide as Eq; [by subst r|done]. }
        destruct (decide (q = r)) as [->|Hqr].
        { by rewrite Ht, decide_True by set_solver. }
        by rewrite decide_False by set_solver.
Qed.

Lemma tseg_size m h l : tseg m h l -> NoDup l -> (length l <= size m)%nat.
Proof.
  intros Hs Hnd. rewrite <- (size_list_to_set (C := gset Z) l) by done.
  rewrite <- size_dom. apply subseteq_size. intros p Hp.
  apply elem_of_list_to_set in Hp. destruct (tseg_in _ _ _ _ Hs Hp) as (_ & t & Ht).
  by apply elem_of_dom_2 in Ht.
Qed.

Lemma wakes_rep l m m' tl l' : wakes l m m' -> tl_rep m tl l' -> tl_rep m' tl l'.
Proof.
  intros Hw [Hs Ht]. split; [|done]. eapply tseg_ext; [exact Hs|].
  intros p t Hp Hpt. rewrite Hw, Hpt. case_decide; eauto.
Qed.

Lemma wakes_status l m m' p :
  wakes l m m' -> (forall q, q ∈ l -> exists t, m !! q = Some t) ->
  status m' p = if decide (p ∈ l) then Some (THREAD_READY, NULL) else status m p.
Proof.
  intros Hw Hl. unfold status. rewrite Hw. case_decide as E; [|done].
  destruct (Hl p E) as [t ->]. done.
Qed.

Lemma wakes_ident l m m' p : wakes l m m' -> ident m' p = ident m p.
Proof. intros Hw. unfold ident. rewrite Hw. case_decide; [|done]. by destruct (m !! p). Qed.

(** The whole wait queue moves to the back of the ready queue, in order. *)
Lemma condition_broadcast_step s R rl wl c :
  sched s R rl wl ->
  exists s', condition_broadcast c s = Done tt s' /\
    sched s' R (rl ++ wl c) (wl_clear wl c) /\
    curthr s' = curthr s /\ sie s' = sie s /\ saved_sie s' = saved_sie s /\ cur_mtag s' = cur_mtag s /\
    thrtab s' = thrtab s /\ same_env s s' /\
    (forall q, ident (thr s') q = ident (thr s) q) /\
    (forall q, status (thr s') q =
       if decide (q ∈ wl c) then Some (THREAD_READY, NULL) else status (thr s) q).
Proof.
  intros HS. destruct HS as [H1 H2 H3 H4 H5 H6 H7 H8].
  unfold condition_broadcast. mstep (gets_eq (fun s => cond_list s c) s).
  destruct (tlempty (cond_list s c)) eqn:Em.
  { apply (tlempty_spec _ _ _ (H2 c)) in Em. exists s. split; [done|].
    rewrite Em, app_nil_r. split; [|repeat split; intros q; by rewrite decide_False by set_solver].
    constructor; auto; unfold wl_clear; intros d; case_decide as Ed; auto; subst d.
    - rewrite <- Em. apply H2.
    - constructor.
    - rewrite <- Em. apply H6. }
  mstep (intr_disable_eq s). mstep (gets_eq (fun s => size (thr s)) (set_sie false s)).
  destruct (H2 c) as [Hseg Htl].
  destruct (wake_loop_ok c (size (thr s)) (wl c) (l_head (cond_list s c)) (thr s) Hseg (H4 c))
    as (m1 & E1 & Hw1); [by eapply tseg_size|intros q Hq; by apply H6|].
  mstep (on_thr_Done (wake_loop (size (thr s)) c (l_head (cond_list s c))) (set_sie false s) tt m1 E1).
  mstep (gets_eq ready (set_thr m1 (set_sie false s))).
  cbn [ready set_thr set_sie].
  assert (Hdis : forall p, p ∈ wl c -> p ∉ rl).
  { intros p Hp Hr. apply H6 in Hp. apply H5 in Hr as [w Hr]. congruence. }
  destruct (tlappend_ok m1 (ready s) rl (cond_list s c) (wl c)) as (tl & m2 & E2 & Hrep & Hno).
  { by eapply wakes_rep. } { eapply wakes_rep; [done|apply H2]. } { done. } { done. }
  mstep (on_thr_Done (tlappend (ready s) (cond_list s c)) (set_thr m1 (set_sie false s)) _ m2 E2).
  exists (set_cond c tlclear (set_ready tl (set_thr m2 s))). split; [by destruct s|].
  assert (Hin : forall q, q ∈ wl c -> exists t, thr s !! q = Some t).
  { intros q Hq. by destruct (tseg_in _ _ _ _ Hseg Hq). }
  assert (Hst : forall q, status m2 q =
    if decide (q ∈ wl c) then Some (THREAD_READY, NULL) else status (thr s) q).
  { intros q. rewrite (status_next_only _ _ _ _ Hno). by apply wakes_status. }
  split; [|cbn; repeat (split; [done|]); split; [|exact Hst]].
  2:{ intros q. rewrite (ident_next_only _ _ _ _ Hno). by eapply wakes_ident. }
  constructor; cbn [thr set_thr set_ready set_cond ready]; auto.
  - intros d. rewrite cond_list_set. unfold wl_clear. case_decide as Ed; [by apply tl_rep_nil|].
    eapply tl_rep_next_only; [eapply wakes_rep; [exact Hw1|apply (H2 d)]|exact Hno|].
    intros p Hp Hr. apply H6 in Hp. apply H5 in Hr as [w Hr]. congruence.
  - apply NoDup_concat; [done|apply H4|]. intros p Hp Hc. by apply (Hdis p Hc).
  - intros d. unfold wl_clear. case_decide; [constructor|done].
  - intros q. rewrite Hst, elem_of_app, H5. case_decide as Eq; [|naive_solver].
    split; [eauto|by right].
  - intros d q. rewrite Hst. unfold wl_clear. case_decide as Ed.
    + subst d. case_decide as Eq; [set_solver|]. rewrite <- H6. set_solver.
    + rewrite H6. case_decide as Eq; [|done]. apply H6 in Eq. rewrite Eq. split; [intros [= ?]|]; done.
  - intros q w. rewrite Hst. case_decide; [done|]. apply H7.
  - rewrite Hst. case_decide as Eq; [|done]. apply H6 in Eq. congruence.
Qed.

(** ** [thread_spawn] *)

(** The slot search finds the lowest free slot from 1 on. *)
Lemma free_slot_spec tab : forall n tid,
  0 <= tid -> tid + Z.of_nat n = NTHR ->
  let r := free_slot n tid tab in
  tid <= r <= NTHR /\ (r < NTHR -> default 0 (tab !! Z.to_nat r) = NULL) /\
  (forall i, tid <= i < r -> default 0 (tab !! Z.to_nat i) <> NULL).
Proof.
  induction n as [|n IH]; intros tid H0 Hn; cbn [free_slot]; cbv zeta.
  - split; [lia|]. split; [lia|]. intros i. lia.
  - rewrite (proj2 (Z.ltb_lt tid NTHR)) by lia.
    destruct (default 0 (tab !! Z.to_nat tid) =? NULL) eqn:E.
    + apply Z.eqb_eq in E. split; [lia|]. split; [done|]. intros i. lia.
    + apply Z.eqb_neq in E. destruct (IH (tid + 1)) as (B1 & B2 & B3); [lia|lia|].
      split; [lia|]. split; [done|]. intros i Hi.
      destruct (decide (i = tid)) as [->|]; [done|]. apply B3. lia.
Qed.

Lemma find_slot_spec tab :
  1 <= find_slot tab <= NTHR /\
  (find_slot tab < NTHR -> default 0 (tab !! Z.to_nat (find_slot tab)) = NULL) /\
  (forall i, 1 <= i < find_slot tab -> default 0 (tab !! Z.to_nat i) <> NULL).
Proof.
  unfold find_slot. assert (E : free_slot (Z.to_nat NTHR) 1 tab = free_slot 15 1 tab).
  { unfold NTHR. change (Z.to_nat 16) with 16%nat. cbn [free_slot].
    repeat match goal with |- context[if ?b then _ else _] => destruct b; [try done|try done] end. }
  rewrite E. apply free_slot_spec; [lia|done].
Qed.

Lemma fresh_not_in s R rl wl p :
  sched s R rl wl -> thr s !! p = None -> p ∉ rl /\ forall c, p ∉ wl c.
Proof.
  intros HS Hp. assert (Hst : status (thr s) p = None) by (unfold status; by rewrite Hp).
  split.
  - rewrite (sc_rl _ _ _ _ HS), Hst. by intros [w ?].
  - intros c. by rewrite (sc_wl _ _ _ _ HS), Hst.
Qed.

(** A new thread structure that is on no queue. *)
Lemma sched_new s R rl wl p t :
  sched s R rl wl -> thr s !! p = None -> p <> NULL -> off_queue (t_state t) ->
  sched (set_thr (<[p := t]> (thr s)) s)
    (fun q => if decide (q = p) then t_state t = THREAD_RUNNING else R q) rl wl.
Proof.
  intros HS Hp Hnull [N1 N2]. destruct (fresh_not_in _ _ _ _ _ HS Hp) as [Hr Hw].
  destruct HS as [H1 H2 H3 H4 H5 H6 H7 H8].
  constructor; cbn [thr set_thr ready]; auto.
  - by apply tl_rep_insert_off.
  - intros c. apply tl_rep_insert_off; [apply H2|apply Hw].
  - intros q. rewrite status_insert. case_decide as E; [|apply H5]. subst q.
    split; [done|]. intros [w [= ? ?]]. done.
  - intros c q. rewrite status_insert. case_decide as E; [|apply H6]. subst q.
    split; [by intros ?%Hw|]. intros [= ? ?]. done.
  - intros q w. rewrite status_insert. case_decide as E.
    + intros [= ? ?]. by rewrite decide_True.
    + rewrite decide_False by done. apply H7.
  - rewrite status_insert. by case_decide.
Qed.

(** An empty wait list is written where nobody waits. *)
Lemma sched_clear_cond s R rl wl c : sched s R rl wl -> wl c = [] -> sched (set_cond c tlclear s) R rl wl.
Proof.
  intros [H1 H2 H3 H4 H5 H6 H7 H8] Hc. constructor; auto. intros d. rewrite cond_list_set. case_decide as E; [|apply H2].
  subst d. rewrite Hc. by apply tl_rep_nil.
Qed.

Definition spawned (s : tstate) (child : Z) (name : string) (parent : thread) : thread :=
  MkThread name THREAD_READY (find_slot (thrtab s)) (t_proc parent) (curthr s) NULL NULL.

Lemma thread_spawn_step s R rl wl child name t :
  sched s R rl wl -> thr s !! curthr s = Some t -> thr s !! child = None -> child <> NULL ->
  find_slot (thrtab s) <> NTHR -> wl (child_exit child) = [] ->
  exists s', thread_spawn child name tlclear s = Done (find_slot (thrtab s)) s' /\
    sched s' R (rl ++ [child]) wl /\ curthr s' = curthr s /\ sie s' = sie s /\
    saved_sie s' = saved_sie s /\ cur_mtag s' = cur_mtag s /\
    thrtab s' = <[Z.to_nat (find_slot (thrtab s)) := child]> (thrtab s) /\ same_env s s' /\
    (forall q, q <> child -> status (thr s') q = status (thr s) q) /\
    (forall q, q <> child -> ident (thr s') q = ident (thr s) q) /\
    ident (thr s') child = Some (name, find_slot (thrtab s), t_proc t, curthr s).
Proof.
  intros HS Ht Hc Hnull Hslot Hw. set (tid := find_slot (thrtab s)) in *.
  set (nt := spawned s child name t).
  set (s0 := set_cond (child_exit child) tlclear (set_sie false (set_thrtab (<[Z.to_nat tid := child]> (thrtab s)) s))).
  assert (HS0 : sched s0 R rl wl) by (apply sched_clear_cond; [by eapply sched_same|done]).
  assert (HN := sched_new s0 R rl wl child (set_state THREAD_STOPPED nt) HS0 Hc Hnull ltac:(done)).
  destruct (sched_make_ready _ _ rl wl child _ nt HN (lookup_insert_eq _ _ _))
    as (s1 & E1 & HS1 & Es1 & Hst1 & Hlk & (k & Hk) & Hid); [done|done|done|].
  cbn [thr set_thr] in E1, Hid, Hst1. rewrite insert_insert_eq in E1.
  assert (Hid1 : forall q, ident (thr s1) q = ident (<[child := nt]> (thr s)) q).
  { intros q. rewrite Hid. by rewrite insert_insert_eq. }
  exists (set_sie (sie s) s1). split; [|split].
  - unfold thread_spawn. mstep (gets_eq thrtab s). fold tid.
    rewrite (proj2 (Z.eqb_neq _ _) Hslot). mstep (gets_eq curthr s).
    mstep (on_thr_Done (deref (curthr s)) s t (thr s) (deref_eq _ t _ Ht)). rewrite set_thr_self.
    mstep (modify_eq (set_thrtab (<[Z.to_nat tid := child]> (thrtab s))) s).
    mstep (on_thr_Done (modify (fun m => <[child := nt]> m))
       (set_thrtab (<[Z.to_nat tid := child]> (thrtab s)) s) tt _ eq_refl).
    set (sn := set_thr (<[child := nt]> (thr s)) (set_thrtab (<[Z.to_nat tid := child]> (thrtab s)) s)).
    mstep (modify_eq (set_cond (child_exit child) tlclear) sn).
    mstep (intr_disable_eq (set_cond (child_exit child) tlclear sn)).
    mstep E1. done.
  - apply sched_set_sie. eapply sched_sub; [exact HS1|].
    intros q w _ [HR Hq]. by rewrite decide_False in HR.
  - rewrite Es1. cbn [curthr sie saved_sie cur_mtag thrtab thr set_sie set_ready set_thr s0 set_thrtab set_cond].
    repeat (split; [done|]). split; [|split].
    + intros q Hq. rewrite Hst1 by done. by rewrite status_insert, decide_False by done.
    + intros q Hq. rewrite Hid1. unfold ident. by rewrite lookup_insert_ne.
    + rewrite Hid1. unfold ident. by rewrite lookup_insert_eq.
Qed.

(** ** [thread_fork_to_user] *)

Definition forked (s : tstate) (proc : Z) : thread :=
  MkThread "forked_process" THREAD_RUNNING (find_slot (thrtab s)) proc (curthr s) NULL NULL.

(** The parent goes to the back of the ready list and the child runs. *)
Lemma thread_fork_step s rl wl child proc mtag :
  running s rl wl -> thr s !! child = None -> child <> NULL -> find_slot (thrtab s) <> NTHR ->
  wl (child_exit child) = [] ->
  exists s', thread_fork_to_user child proc mtag tlclear s = Done (find_slot (thrtab s)) s' /\
    running s' (rl ++ [curthr s]) wl /\ curthr s' = child /\ cur_mtag s' = mtag /\ sie s' = sie s /\
    thrtab s' = <[Z.to_nat (find_slot (thrtab s)) := child]> (thrtab s) /\ same_env s s' /\
    (forall q, q <> child -> q <> curthr s -> status (thr s') q = status (thr s) q) /\
    (forall q, q <> child -> ident (thr s') q = ident (thr s) q) /\
    ident (thr s') child = Some ("forked_process"%string, find_slot (thrtab s), proc, curthr s).
Proof.
  intros [HS Hcur] Hc Hnull Hslot Hw. destruct (status_cur_lookup _ _ Hcur) as (t & Ht & Hst).
  set (tid := find_slot (thrtab s)) in *. set (cur := curthr s) in *.
  assert (Hne : cur <> child) by congruence.
  set (u := MkThread "forked_process" THREAD_UNINITIALIZED tid NULL cur NULL NULL).
  set (s0 := set_cond (child_exit child) tlclear (set_sie false (set_thrtab (<[Z.to_nat tid := child]> (thrtab s)) s))).
  assert (HS0 : sched s0 (fun p => p = cur) rl wl) by (apply sched_clear_cond; [by eapply sched_same|done]).
  assert (HN := sched_new s0 _ rl wl child u HS0 Hc Hnull ltac:(done)).
  set (sN := set_thr (<[child := u]> (thr s0)) s0) in *.
  assert (HtN : thr sN !! cur = Some t) by (cbn; by rewrite lookup_insert_ne).
  destruct (sched_make_ready sN _ rl wl cur t (set_state THREAD_READY t) HN HtN) as
    (s1 & E1 & HS1 & Es1 & Hst1 & Hlk & (k & Hk) & Hid); [by rewrite Hst|done|done|].
  assert (Hu : exists k, thr s1 !! child = Some (set_next k u)).
  { apply (Hlk child u); [|done]. cbn. apply lookup_insert_eq. }
  destruct Hu as [ku Hu].
  assert (HR := sched_off s1 _ _ _ child _ (set_proc proc (set_state THREAD_RUNNING (set_next ku u))) HS1 Hu eq_refl
    ltac:(done) ltac:(done)).
  set (m3 := <[child := set_proc proc (set_state THREAD_RUNNING (set_next ku u))]> (thr s1)) in *.
  set (s' := set_cur child (set_saved cur true (set_mtag mtag (set_sie (sie s) (set_thr m3 s1))))).
  assert (Hs' : status (thr s') child = Some (THREAD_RUNNING, NULL)) by (cbn; unfold m3; by rewrite status_insert, decide_True).
  exists s'. split; [|split; [split|]].
  - unfold thread_fork_to_user. mstep (gets_eq thrtab s). fold tid.
    rewrite (proj2 (Z.eqb_neq _ _) Hslot). mstep (gets_eq curthr s). fold cur.
    mstep (modify_eq (set_thrtab (<[Z.to_nat tid := child]> (thrtab s))) s).
    mstep (on_thr_Done (modify (fun m => <[child := u]> m)) (set_thrtab (<[Z.to_nat tid := child]> (thrtab s)) s) tt _ eq_refl).
    set (sn := set_thr (<[child := u]> (thr s)) (set_thrtab (<[Z.to_nat tid := child]> (thrtab s)) s)).
    mstep (modify_eq (set_cond (child_exit child) tlclear) sn).
    mstep (on_thr_Done (update cur (set_state THREAD_READY)) (set_cond (child_exit child) tlclear sn) tt _ (update_eq _ _ _ _ HtN)).
    mstep (intr_disable_eq (set_thr (<[cur := set_state THREAD_READY t]> (thr sN)) (set_cond (child_exit child) tlclear sn))).
    mstep E1. mstep (modify_eq (set_sie (sie s)) s1).
    mstep (on_thr_Done (update child (set_state THREAD_RUNNING)) (set_sie (sie s) s1) tt _ (update_eq _ _ _ _ Hu)).
    mstep (on_thr_Done (update child (set_proc proc))
      (set_thr (<[child := set_state THREAD_RUNNING (set_next ku u)]> (thr s1)) (set_sie (sie s) s1)) tt _
      (update_eq _ _ _ _ (lookup_insert_eq _ _ _))).
    cbn [thr set_thr set_sie]. rewrite insert_insert_eq. done.
  - apply (sched_same (set_thr m3 s1)); [|done..]. eapply sched_sub; [exact HR|]. intros q w _ Hq.
    cbn beta in Hq. change (q = child). case_decide; [done|]. by destruct Hq.
  - by exists NULL.
  - cbn [curthr cur_mtag sie thrtab s' set_cur set_saved set_mtag set_sie set_thr]. rewrite Es1.
    cbn [thrtab set_ready set_thr sN s0 set_thrtab set_sie set_cond]. repeat (split; [done|]). split; [|split; [|split]].
    + constructor; cbn; by rewrite Es1.
    + intros q Hq1 Hq2. cbn. unfold m3. rewrite status_insert, decide_False, Hst1 by done.
      cbn. by rewrite status_insert, decide_False by done.
    + intros q Hq. cbn. unfold m3, ident. rewrite lookup_insert_ne by done. change (ident (thr s1) q = ident (thr s) q).
      rewrite Hid. unfold ident. cbn. rewrite lookup_insert. case_decide as Eq.
      * subst q. by rewrite Ht.
      * by rewrite lookup_insert_ne.
    + cbn. unfold m3, ident. by rewrite lookup_insert_eq.
Qed.

(** ** [thread_exit] *)

Lemma sched_exit_state s rl wl t :
  running s rl wl -> thr s !! curthr s = Some t ->
  sched (set_thr (<[curthr s := set_state THREAD_EXITED t]> (thr s)) s) (fun _ => False) rl wl.
Proof.
  intros [HS Hcur] Ht. destruct (status_cur_lookup _ _ Hcur) as (t0 & Ht0 & Hst).
  assert (t0 = t) as -> by congruence.
  eapply sched_sub.
  - apply (sched_off s _ rl wl (curthr s) t (set_state THREAD_EXITED t) HS Ht); [done|by rewrite Hst|done].
  - intros p w Hp HR. cbn beta in HR. case_decide as E; [done|]. by apply E.
Qed.

Lemma thread_exit_step s rl wl t n rest :
  running s rl wl -> thr s !! curthr s = Some t -> curthr s <> main_thr s -> t_parent t <> NULL ->
  rl ++ wl (child_exit (t_parent t)) = n :: rest ->
  exists s', thread_exit s = Done tt s' /\
    running s' rest (wl_clear wl (child_exit (t_parent t))) /\ curthr s' = n /\
    thrtab s' = thrtab s /\ same_env s s' /\
    status (thr s') (curthr s) = Some (THREAD_EXITED, t_wait t) /\
    (forall q, ident (thr s') q = ident (thr s) q) /\
    (forall q, q <> n -> q <> curthr s -> status (thr s') q =
       if decide (q ∈ wl (child_exit (t_parent t))) then Some (THREAD_READY, NULL) else status (thr s) q).
Proof.
  intros HR Ht Hmain Hpar Hq. set (c := child_exit (t_parent t)) in *.
  set (s0 := set_thr (<[curthr s := set_state THREAD_EXITED t]> (thr s)) s).
  assert (HS0 := sched_exit_state s rl wl t HR Ht). fold s0 in HS0.
  destruct (condition_broadcast_step s0 _ rl wl c HS0)
    as (s1 & E1 & HS1 & C1 & C2 & C3 & C4 & C5 & C6 & C7 & C8).
  rewrite Hq in HS1. cbn in C1.
  assert (Hst0 : status (thr s0) (curthr s) = Some (THREAD_EXITED, t_wait t)).
  { cbn. by rewrite status_insert, decide_True by done. }
  assert (Hst1 : status (thr s1) (curthr s) = Some (THREAD_EXITED, t_wait t)).
  { rewrite C8. rewrite decide_False; [done|]. rewrite (sc_wl _ _ _ _ HS0), Hst0. done. }
  destruct (suspend_stopped s1 _ n rest (wl_clear wl c) THREAD_EXITED HS1)
    as (s' & E & HS' & Hsw & Hst' & Hne).
  { exists (t_wait t). by rewrite C1. } { done. } { done. } { done. }
  rewrite C1 in Hst', Hne. exists s'. split; [|split; [by eapply switched_running|]].
  - unfold thread_exit. mstep (gets_eq curthr s). mstep (gets_eq main_thr s).
    rewrite (proj2 (Z.eqb_neq _ _) Hmain).
    mstep (on_thr_Done _ s _ _ (update_eq (curthr s) (set_state THREAD_EXITED) t (thr s) Ht)). fold s0.
    mstep (on_thr_Done _ s0 _ _ (deref_eq (curthr s) (set_state THREAD_EXITED t) (thr s0) (lookup_insert_eq _ _ _))).
    rewrite set_thr_self. unfold assert. cbn [set_state t_parent].
    rewrite (proj2 (Z.eqb_neq _ _) Hpar). cbn [negb]. unfold bind at 1, ret at 1.
    mstep E1. exact E.
  - destruct Hsw as [A1 A2 A3 A4 [B1 B2 B3 B4] A6 A7 A8 A9]. destruct C6 as [D1 D2 D3 D4].
    split; [done|]. split; [by rewrite A4|].
    split; [constructor; [by rewrite B1|by rewrite B2|by rewrite B3|by rewrite B4]|].
    split; [by rewrite Hst'|]. split.
    + intros q. rewrite A8, C7. cbn. by apply (ident_insert _ _ t).
    + intros q Hqn Hqc. rewrite A7 by (rewrite ?C1; done). rewrite C8. cbn.
      case_decide; [done|]. by rewrite status_insert, decide_False by done.
Qed.

(** ** [recycle_thread] and [thread_join] *)

Definition reparent1 (old new : Z) (tab : list Z) (q : Z) (t : thread) : thread :=
  if bool_decide (q ∈ tab) && (t_parent t =? old) then set_parent new t else t.

Lemma reparent_lookup old new tab m q :
  reparent old new tab m !! q = reparent1 old new tab q <$> m !! q.
Proof.
  unfold reparent1. induction tab as [|p tab IH].
  { simpl. by destruct (m !! q). }
  cbn [reparent foldr]. fold (reparent old new tab m).
  destruct (decide (p = q)) as [->|Hpq].
  - rewrite (bool_decide_eq_true_2 (q ∈ q :: tab)) by set_solver. cbn [andb].
    destruct (m !! q) as [t|] eqn:Em; rewrite IH; cbn [fmap option_fmap option_map]; [|by rewrite IH].
    destruct (bool_decide (q ∈ tab)) eqn:Eb; cbn [andb].
    + destruct (t_parent t =? old) eqn:Ep; cbn [set_parent t_parent].
      * destruct (new =? old) eqn:En; [by rewrite lookup_insert_eq|].
        rewrite IH. simpl. by rewrite Ep.
      * rewrite Ep, IH. simpl. by rewrite Ep.
    + destruct (t_parent t =? old) eqn:Ep; [by rewrite lookup_insert_eq|].
      rewrite IH. simpl. done.
  - assert (E : bool_decide (q ∈ p :: tab) = bool_decide (q ∈ tab)).
    { apply bool_decide_ext. set_solver. }
    rewrite E, <- IH. destruct (reparent old new tab m !! p) as [u|]; [|done].
    destruct (t_parent u =? old); [|done]. by rewrite lookup_insert_ne.
Qed.

Lemma reparent1_keeps old new tab q t :
  t_state (reparent1 old new tab q t) = t_state t /\ t_wait (reparent1 old new tab q t) = t_wait t /\
  t_next (reparent1 old new tab q t) = t_next t.
Proof. unfold reparent1. by destruct (_ && _). Qed.

Lemma reparent_status old new tab m q : status (reparent old new tab m) q = status m q.
Proof.
  unfold status. rewrite reparent_lookup. destruct (m !! q) as [t|]; [|done]. simpl.
  by destruct (reparent1_keeps old new tab q t) as (-> & -> & _).
Qed.

Lemma sched_reparent s R rl wl old new tab tab' :
  sched s R rl wl ->
  sched (set_thrtab tab' (set_thr (reparent old new tab (thr s)) s)) R rl wl.
Proof.
  intros [H1 H2 H3 H4 H5 H6 H7 H8].
  assert (Hrep : forall tl l, tl_rep (thr s) tl l -> tl_rep (reparent old new tab (thr s)) tl l).
  { intros tl l [Hs Ht]. split; [|done]. eapply tseg_ext; [exact Hs|]. intros p t _ Hp.
    rewrite reparent_lookup, Hp. eexists. split; [done|]. apply reparent1_keeps. }
  constructor; cbn [thr set_thr set_thrtab ready]; auto.
  - intros c. apply Hrep. apply H2.
  - intros p. rewrite reparent_status. apply H5.
  - intros c p. rewrite reparent_status. apply H6.
  - intros p w. rewrite reparent_status. apply H7.
  - by rewrite reparent_status.
Qed.

Definition recycled (s : tstate) (tid p parent : Z) : tstate :=
  set_thrtab (<[Z.to_nat tid := NULL]> (thrtab s))
    (set_thr (reparent p parent (tail (thrtab s)) (thr s)) s).

Lemma tab_entry_eq tid s :
  0 <= tid < NTHR -> tab_entry tid s = Done (default 0 (thrtab s !! Z.to_nat tid)) s.
Proof.
  intros H. unfold tab_entry. rewrite (proj2 (Z.leb_le 0 tid)) by lia.
  by rewrite (proj2 (Z.ltb_lt tid NTHR)) by lia.
Qed.

Lemma recycle_thread_eq s tid p t :
  0 < tid < NTHR -> default 0 (thrtab s !! Z.to_nat tid) = p -> p <> NULL ->
  thr s !! p = Some t -> t_state t = THREAD_EXITED ->
  recycle_thread tid s = Done tt (recycled s tid p (t_parent t)).
Proof.
  intros Hr Hp Hnull Ht Hst. unfold recycle_thread. mstep (tab_entry_eq tid s ltac:(lia)). rewrite Hp.
  unfold assert at 1. rewrite (proj2 (Z.ltb_lt 0 tid)), (proj2 (Z.ltb_lt tid NTHR)) by lia.
  rewrite (proj2 (Z.eqb_neq _ _) Hnull). cbn [andb negb]. unfold bind at 1, ret at 1.
  mstep (on_thr_Done _ s _ _ (deref_eq p t (thr s) Ht)). rewrite set_thr_self.
  unfold assert. rewrite (state_is_true _ _ Hst). by destruct s.
Qed.

(** The three outcomes of [thread_join] for a thread that may be joined. *)
Lemma thread_join_eq s tid :
  0 <= tid < NTHR ->
  thread_join tid s =
  let p := default 0 (thrtab s !! Z.to_nat tid) in
  if (tid =? 0) || (p =? NULL) then Done (Some (-1)) s else
  match thr s !! p with
  | None => Undef "thread pointer" s
  | Some t =>
      if negb (t_parent t =? curthr s) then Done (Some (-1)) s else
      if state_is THREAD_EXITED t
      then (recycle_thread tid ;; ret (Some tid)) s
      else (condition_wait (child_exit (curthr s)) ;; ret None) s
  end.
Proof.
  intros Hr. unfold thread_join. mstep (tab_entry_eq tid s Hr). cbv zeta.
  rewrite (proj2 (Z.leb_gt NTHR tid)) by lia. rewrite orb_false_r.
  destruct (tid =? 0) eqn:E0.
  { apply Z.eqb_eq in E0. subst tid. done. }
  apply Z.eqb_neq in E0. rewrite (proj2 (Z.leb_gt tid 0)) by lia. cbn [orb].
  mstep (gets_eq curthr s). destruct (_ =? NULL); [done|].
  unfold bind at 1, on_thr, lift, deref.
  destruct (thr s !! _) as [t|]; rewrite set_thr_self; [|done].
  destruct (negb _); [done|]. by destruct (state_is _ _).
Qed.
