(* ===== verification/SchedProps.v ===== *)
(** * Theorems on the thread manager (thread.c)

    The invariant of the whole thread manager, its preservation by every
    operation, and the behaviour of each operation on the ready queue and the
    wait queues. *)

From stdpp Require Import base gmap list strings numbers.
From Stdlib Require Import Lia ZArith.
From S2P Require Import Prelude ThreadList Thread Sched SchedOps.
Local Open Scope Z_scope.
Local Open Scope kern_scope.

(** ** The invariant *)

Record sinv (s : tstate) (rl : list Z) (wl : Z -> list Z) : Prop := {
  si_run : running s rl wl;
  si_idle : curthr s = idle_thr s \/ idle_thr s ∈ rl;
  si_parent : forall p a b c d, ident (thr s) p = Some (a, b, c, d) -> p <> main_thr s -> d <> NULL;
  si_tab : forall i p, thrtab s !! i = Some p -> p <> NULL -> is_Some (ident (thr s) p);
  si_freed : freed_stacks s = [];
  si_ids : forall p a b c d, ident (thr s) p = Some (a, b, c, d) -> 0 <= b;
  si_len : length (thrtab s) = Z.to_nat NTHR
}.

(** Operations a running thread performs. *)
Inductive op :=
| OYield
| OWait (c : Z)
| OBroadcast (c : Z)
| OSpawn (child : Z) (name : string) (stale : thread_list)
| OFork (child proc mtag : Z) (stale : thread_list)
| OExit
| OJoin (tid : Z)
| OJoinAny
| OJoinAnyResume.

Definition run_op (o : op) : M tstate unit :=
  match o with
  | OYield => thread_yield
  | OWait c => condition_wait c
  | OBroadcast c => condition_broadcast c
  | OSpawn child name stale => thread_spawn child name stale ;; ret tt
  | OFork child proc mtag stale => thread_fork_to_user child proc mtag stale ;; ret tt
  | OExit => thread_exit
  | OJoin tid => thread_join tid ;; ret tt
  | OJoinAny => thread_join_any ;; ret tt
  | OJoinAnyResume => thread_join_any_resume ;; ret tt
  end.

(** The caller's first child for which [f] holds. *)
Definition child_of (f : thread -> bool) (s : tstate) : option Z :=
  find_child f (thr s) (curthr s) 1 (tail (thrtab s)).

(** The idle thread only yields, and only when the ready list is not empty
    ([idle_thread_func]); the main thread halts the machine when it exits; a new
    thread structure is fresh memory in which the wait list of [child_exit] reads
    as empty, and there is a free slot for it; a thread that joins any child has
    one, and one that has exited when it is woken. *)
Definition allowed (s : tstate) (o : op) : Prop :=
  match o with
  | OYield => curthr s = idle_thr s -> tlempty (ready s) = false
  | OWait _ => curthr s <> idle_thr s
  | OBroadcast _ => True
  | OSpawn child _ stale | OFork child _ _ stale =>
      thr s !! child = None /\ child <> NULL /\ find_slot (thrtab s) <> NTHR /\
      stale = tlclear /\ cond_list s (child_exit child) = tlclear
  | OExit => curthr s <> idle_thr s /\ curthr s <> main_thr s
  | OJoin tid => curthr s <> idle_thr s /\ 0 <= tid < NTHR
  | OJoinAny => curthr s <> idle_thr s /\ child_of (fun _ => true) s <> None
  | OJoinAnyResume => child_of (state_is THREAD_EXITED) s <> None
  end.

(** Nobody waits on a condition that reads as empty. *)
Lemma empty_no_waiters s R rl wl c : sched s R rl wl -> cond_list s c = tlclear -> wl c = [].
Proof.
  intros HS E. pose proof (sc_cond _ _ _ _ HS c) as Hr. rewrite E in Hr. destruct (wl c) as [|p l]; [done|].
  destruct Hr as [(H1 & H2 & _) _]. by destruct H2.
Qed.

Lemma sinv_ready_cons s rl wl :
  sinv s rl wl -> (curthr s = idle_thr s -> tlempty (ready s) = false) -> exists n rl', rl = n :: rl'.
Proof.
  intros [[HS _] Hi _ _ _ _ _] Hy. destruct rl as [|n rl']; [|eauto]. exfalso.
  destruct Hi as [E|Hi]; [|set_solver]. specialize (Hy E).
  pose proof (proj2 (tlempty_spec _ _ _ (sc_ready _ _ _ _ HS)) eq_refl). congruence.
Qed.

(** A switch keeps the invariant when the idle thread stays runnable. *)
Lemma sinv_switched s n s' rl rl' wl wl' :
  sinv s rl wl -> switched s n s' -> running s' rl' wl' ->
  (n = idle_thr s \/ idle_thr s ∈ rl') -> sinv s' rl' wl'.
Proof.
  intros [H1 H2 H3 H4 H5 H6 H7] [A1 A2 A3 A4 [B1 B2 B3 B4] A6 A7 A8 A9] Hr Hi. constructor.
  - done.
  - by rewrite A1, B2.
  - intros p a b c d. rewrite A8, B1. apply H3.
  - intros i p. rewrite A4, A8. apply H4.
  - by rewrite B4.
  - intros p a b c d. rewrite A8. apply H6.
  - by rewrite A4.
Qed.

Lemma sinv_yield s rl wl :
  sinv s rl wl -> allowed s OYield -> exists s' rl' wl', thread_yield s = Done tt s' /\ sinv s' rl' wl'.
Proof.
  intros HI Ha. destruct (sinv_ready_cons _ _ _ HI Ha) as (n & rl' & ->).
  destruct (thread_yield_step s n rl' wl (si_run _ _ _ HI)) as (s' & E & Hr & Hsw & _).
  exists s', (rl' ++ [curthr s]), wl. split; [done|].
  eapply sinv_switched; [done..|]. destruct (si_idle _ _ _ HI); set_solver.
Qed.

Lemma sinv_wait s rl wl c :
  sinv s rl wl -> curthr s <> idle_thr s ->
  exists s' rl' wl', condition_wait c s = Done tt s' /\ sinv s' rl' wl'.
Proof.
  intros HI Ha. destruct (sinv_ready_cons _ _ _ HI) as (n & rl' & ->); [done|].
  destruct (condition_wait_step s n rl' wl c (si_run _ _ _ HI)) as (s' & E & Hr & Hsw & _).
  exists s', rl', (wl_append wl c (curthr s)). split; [done|].
  eapply sinv_switched; [done..|]. destruct (si_idle _ _ _ HI); [done|]. set_solver.
Qed.

Lemma sinv_broadcast s rl wl c :
  sinv s rl wl -> exists s', condition_broadcast c s = Done tt s' /\ sinv s' (rl ++ wl c) (wl_clear wl c).
Proof.
  intros [[HS Hc] Hi Hp Ht Hfr Hids Hlen].
  destruct (condition_broadcast_step s _ rl wl c HS) as (s' & E & HS' & C1 & C2 & C3 & C4 & C5 & C6 & C7 & C8).
  exists s'. split; [done|]. destruct C6 as [D1 D2 D3 D4]. constructor.
  - unfold running, cur_state. rewrite C1. split; [done|]. destruct Hc as [w Hw]. rewrite C8. exists w.
    rewrite decide_False; [done|]. rewrite (sc_wl _ _ _ _ HS), Hw. done.
  - rewrite C1, D2. destruct Hi; [by left|right; set_solver].
  - intros p a b e d. rewrite C7, D1. apply Hp.
  - intros i p. rewrite C5, C7. apply Ht.
  - by rewrite D4.
  - intros p a b e d. rewrite C7. apply Hids.
  - by rewrite C5.
Qed.

Lemma sinv_spawn s rl wl child name stale :
  sinv s rl wl -> allowed s (OSpawn child name stale) ->
  exists s', thread_spawn child name stale s = Done (find_slot (thrtab s)) s' /\ sinv s' (rl ++ [child]) wl.
Proof.
  intros [[HS Hc] Hi Hp Ht Hfr Hids Hlen] (Hf & Hn & Hslot & -> & Hwl).
  apply (empty_no_waiters _ _ _ _ _ HS) in Hwl.
  destruct (status_cur_lookup _ _ Hc) as (t & Hct & Hst).
  destruct (thread_spawn_step s _ rl wl child name t HS Hct Hf Hn Hslot Hwl)
    as (s' & E & HS' & C1 & C2 & C3 & C4 & C5 & [D1 D2 D3 D4] & C6 & C7 & C8).
  assert (Hcur : curthr s <> child) by congruence.
  exists s'. split; [done|]. constructor.
  - unfold running, cur_state. rewrite C1. split; [done|]. destruct Hc as [w Hw]. exists w. by rewrite C6.
  - rewrite C1, D2. destruct Hi; [by left|right; set_solver].
  - intros p a b e d. rewrite D1. destruct (decide (p = child)) as [->|Hpc].
    + rewrite C8. intros [= <- <- <- <-] _ Hz. rewrite Hz in Hct.
      pose proof (sc_null _ _ _ _ HS) as Hz'. unfold status in Hz'. by rewrite Hct in Hz'.
    + rewrite C7 by done. apply Hp.
  - intros i p. rewrite C5. destruct (decide (p = child)) as [->|Hpc]; [by rewrite C8|].
    rewrite C7 by done. intros Hl Hpn. apply list_lookup_insert_Some in Hl as [(_ & <- & _)|(_ & Hl)]; [done|].
    by eapply Ht.
  - by rewrite D4.
  - intros p a b e d. destruct (decide (p = child)) as [->|Hpc].
    + rewrite C8. intros [= <- <- <- <-]. destruct (find_slot_spec (thrtab s)). lia.
    + rewrite C7 by done. apply Hids.
  - by rewrite C5, length_insert.
Qed.

Lemma sinv_fork s rl wl child proc mtag stale :
  sinv s rl wl -> allowed s (OFork child proc mtag stale) ->
  exists s', thread_fork_to_user child proc mtag stale s = Done (find_slot (thrtab s)) s' /\ sinv s' (rl ++ [curthr s]) wl.
Proof.
  intros [Hrun Hi Hp Ht Hfr Hids Hlen] (Hf & Hn & Hslot & -> & Hwl). pose proof Hrun as [HS Hc].
  apply (empty_no_waiters _ _ _ _ _ HS) in Hwl.
  destruct (status_cur_lookup _ _ Hc) as (t & Hct & Hst).
  destruct (thread_fork_step s rl wl child proc mtag Hrun Hf Hn Hslot Hwl)
    as (s' & E & HR' & C1 & C2 & C3 & C5 & [D1 D2 D3 D4] & C6 & C7 & C8).
  exists s'. split; [done|]. constructor.
  - done.
  - rewrite C1, D2. right. destruct Hi as [<-|Hi]; set_solver.
  - intros p a b e d. rewrite D1. destruct (decide (p = child)) as [->|Hpc].
    + rewrite C8. intros [= <- <- <- <-] _ Hz. rewrite Hz in Hct.
      pose proof (sc_null _ _ _ _ HS) as Hz'. unfold status in Hz'. by rewrite Hct in Hz'.
    + rewrite C7 by done. apply Hp.
  - intros i p. rewrite C5. destruct (decide (p = child)) as [->|Hpc]; [by rewrite C8|].
    rewrite C7 by done. intros Hl Hpn. apply list_lookup_insert_Some in Hl as [(_ & <- & _)|(_ & Hl)]; [done|].
    by eapply Ht.
  - by rewrite D4.
  - intros p a b e d. destruct (decide (p = child)) as [->|Hpc].
    + rewrite C8. intros [= <- <- <- <-]. destruct (find_slot_spec (thrtab s)). lia.
    + rewrite C7 by done. apply Hids.
  - by rewrite C5, length_insert.
Qed.

Lemma sinv_exit s rl wl :
  sinv s rl wl -> allowed s OExit -> exists s' rl' wl', thread_exit s = Done tt s' /\ sinv s' rl' wl' /\
    thrtab s' = thrtab s /\ (forall q, ident (thr s') q = ident (thr s) q) /\ (forall c, wl' c = [] \/ wl' c = wl c).
Proof.
  intros HI (Hai & Ham). pose proof HI as [Hrun Hi Hp Ht Hfr Hids Hlen].
  destruct (running_lookup _ _ _ Hrun) as (t & Hct & Hst).
  assert (Hpar : t_parent t <> NULL).
  { eapply (Hp (curthr s)); [|done]. unfold ident. by rewrite Hct. }
  destruct (sinv_ready_cons _ _ _ HI) as (n & rl' & ->); [done|].
  destruct (thread_exit_step s (n :: rl') wl t n (rl' ++ wl (child_exit (t_parent t))) Hrun Hct Ham Hpar eq_refl)
    as (s' & E & Hr & C1 & C2 & [D1 D2 D3 D4] & C3 & C4 & C5).
  exists s', (rl' ++ wl (child_exit (t_parent t))), (wl_clear wl (child_exit (t_parent t))).
  split; [done|]. split; [|split; [done|split; [done|]]];
    [|intros c; unfold wl_clear; case_decide; auto]. constructor; [exact Hr|..].
  - rewrite C1, D2. destruct Hi; [done|]. set_solver.
  - intros p a b e d. rewrite C4, D1. apply Hp.
  - intros i p. rewrite C2, C4. apply Ht.
  - by rewrite D4.
  - intros p a b e d. rewrite C4. apply Hids.
  - by rewrite C2.
Qed.

Lemma ident_reparent old new tab m p :
  ident (reparent old new tab m) p =
  (fun t => (t_name t, t_id t, t_proc t, t_parent (reparent1 old new tab p t))) <$> m !! p.
Proof.
  unfold ident. rewrite reparent_lookup. destruct (m !! p) as [t|]; [|done]. simpl.
  unfold reparent1. by destruct (_ && _).
Qed.

Lemma sinv_recycled s rl wl tid p par :
  sinv s rl wl -> par <> NULL -> sinv (recycled s tid p par) rl wl.
Proof.
  intros [[HS Hc] Hi Hp Ht Hfr Hids Hlen] Hpar. constructor.
  - split; [by apply sched_reparent|]. destruct Hc as [w Hw]. exists w. cbn. by rewrite reparent_status.
  - done.
  - intros q a b e d. cbn [recycled thr set_thr set_thrtab main_thr]. rewrite ident_reparent.
    destruct (thr s !! q) as [t|] eqn:Eq; [|done]. simpl. intros [= <- <- <- <-] Hq.
    unfold reparent1. destruct (_ && _); [done|]. eapply (Hp q); [|done]. unfold ident. by rewrite Eq.
  - intros i q. cbn [recycled thr thrtab set_thr set_thrtab]. rewrite ident_reparent.
    intros [(_ & <- & _)|(_ & Hl)]%list_lookup_insert_Some Hq; [done|].
    destruct (Ht i q Hl Hq) as [x Hx]. unfold ident in Hx. destruct (thr s !! q); [by eexists|done].
  - done.
  - intros q a b e d. cbn [recycled thr set_thr set_thrtab]. rewrite ident_reparent.
    destruct (thr s !! q) as [t|] eqn:Eq; [|done]. simpl. intros [= <- <- <- <-].
    eapply (Hids q). unfold ident. by rewrite Eq.
  - cbn. by rewrite length_insert.
Qed.

Lemma sinv_join s rl wl tid :
  sinv s rl wl -> allowed s (OJoin tid) ->
  exists s' rl' wl' r, thread_join tid s = Done r s' /\ sinv s' rl' wl'.
Proof.
  intros HI (Hai & Hr). rewrite thread_join_eq by done. cbv zeta.
  set (p := default 0 (thrtab s !! Z.to_nat tid)).
  destruct (tid =? 0) eqn:E0; cbn [orb]; [eauto 6|]. apply Z.eqb_neq in E0.
  destruct (p =? NULL) eqn:Ep; [eauto 6|]. apply Z.eqb_neq in Ep.
  assert (Hl : exists i, thrtab s !! i = Some p).
  { unfold p in *. destruct (thrtab s !! Z.to_nat tid) eqn:El; [eauto|done]. }
  destruct Hl as [i Hl]. destruct (si_tab _ _ _ HI i p Hl Ep) as [x Hx]. unfold ident in Hx.
  destruct (thr s !! p) as [t|] eqn:Et; [|done].
  destruct (negb (t_parent t =? curthr s)) eqn:Epar; [eauto 6|].
  apply negb_false_iff, Z.eqb_eq in Epar.
  destruct (state_is THREAD_EXITED t) eqn:Est.
  - apply bool_decide_eq_true_1 in Est.
    mstep (recycle_thread_eq s tid p t ltac:(lia) eq_refl Ep Et Est).
    eexists _, rl, wl, _. split; [reflexivity|]. apply sinv_recycled; [done|].
    rewrite Epar. destruct (si_run _ _ _ HI) as [HS [w Hw]]. intros Hz. rewrite Hz in Hw.
    by rewrite (sc_null _ _ _ _ HS) in Hw.
  - destruct (sinv_wait s rl wl (child_exit (curthr s)) HI Hai) as (s' & rl' & wl' & E & HI').
    mstep E. eauto 6.
Qed.

(** What the search for a child finds. *)
Lemma find_child_spec f m cur tab : forall k tid, find_child f m cur k tab = Some tid ->
  exists i p t, tid = k + Z.of_nat i /\ tab !! i = Some p /\ m !! p = Some t /\ t_parent t = cur /\ f t = true.
Proof.
  induction tab as [|p tab IH]; intros k tid; cbn [find_child]; [done|].
  assert (Hrec : find_child f m cur (k + 1) tab = Some tid ->
    exists i q t, tid = k + Z.of_nat i /\ (p :: tab) !! i = Some q /\ m !! q = Some t /\ t_parent t = cur /\ f t = true).
  { intros E. destruct (IH _ _ E) as (i & q & t & -> & H). exists (S i), q, t. split; [lia|done]. }
  destruct (m !! p) as [t|] eqn:Ep; [|done]. destruct (_ && _) eqn:Eb; [|done].
  intros [= <-]. apply andb_true_iff in Eb as [E1 E2]. apply Z.eqb_eq in E1. exists 0%nat, p, t. split; [lia|done].
Qed.

Lemma child_of_spec f s rl wl tid :
  sinv s rl wl -> child_of f s = Some tid ->
  0 < tid < NTHR /\ exists p t, thrtab s !! Z.to_nat tid = Some p /\ p <> NULL /\ thr s !! p = Some t /\
    t_parent t = curthr s /\ f t = true.
Proof.
  intros HI E. destruct (find_child_spec _ _ _ _ _ _ E) as (i & p & t & -> & Hi & Hp & Hpar & Hf).
  pose proof (si_len _ _ _ HI) as Hl. destruct (thrtab s) as [|q tab] eqn:Et; [done|]. cbn [tail] in Hi.
  pose proof (lookup_lt_Some _ _ _ Hi). cbn [length] in Hl. unfold NTHR in *. split; [lia|].
  exists p, t. replace (Z.to_nat (1 + Z.of_nat i)) with (S i) by lia. split; [done|]. split; [|done].
  intros ->. destruct (si_run _ _ _ HI) as [HS _]. pose proof (sc_null _ _ _ _ HS) as Hz. unfold status in Hz. by rewrite Hp in Hz.
Qed.

Lemma child_of_none s f : child_of (fun _ => true) s = None -> child_of f s = None.
Proof.
  unfold child_of. generalize (tail (thrtab s)) as tab, 1 as k. induction tab as [|p tab IH]; intros k; cbn [find_child]; [done|].
  destruct (thr s !! p) as [t|]; [|apply IH]. rewrite andb_true_r. destruct (t_parent t =? curthr s); [done|]. apply IH.
Qed.

Lemma sinv_join_any s rl wl :
  sinv s rl wl -> allowed s OJoinAny -> exists s' rl' wl' r, thread_join_any s = Done r s' /\ sinv s' rl' wl'.
Proof.
  intros HI (Hai & Hc). unfold thread_join_any. mstep (gets_eq curthr s). mstep (gets_eq thrtab s). mstep (gets_eq thr s).
  fold (child_of (state_is THREAD_EXITED) s). fold (child_of (fun _ => true) s).
  destruct (child_of (state_is THREAD_EXITED) s) as [tid|] eqn:Ex.
  - destruct (child_of_spec _ _ _ _ _ HI Ex) as (Hr & _). apply (sinv_join s rl wl); [done|]. split; [done|lia].
  - destruct (child_of (fun _ => true) s); [|done].
    destruct (sinv_wait s rl wl (child_exit (curthr s)) HI Hai) as (s' & rl' & wl' & E & HI'). mstep E. eauto 6.
Qed.

Lemma sinv_join_any_resume s rl wl :
  sinv s rl wl -> allowed s OJoinAnyResume ->
  exists s' tid, thread_join_any_resume s = Done tid s' /\ sinv s' rl wl.
Proof.
  intros HI Hc. unfold thread_join_any_resume. mstep (gets_eq curthr s). mstep (gets_eq thrtab s). mstep (gets_eq thr s).
  fold (child_of (state_is THREAD_EXITED) s). cbn [allowed] in Hc.
  destruct (child_of (state_is THREAD_EXITED) s) as [tid|] eqn:Ex; [|done].
  destruct (child_of_spec _ _ _ _ _ HI Ex) as (Hr & p & t & Hp & Hn & Ht & Hpar & Hst). apply bool_decide_eq_true_1 in Hst.
  mstep (recycle_thread_eq s tid p t Hr ltac:(by rewrite Hp) Hn Ht Hst). eexists _, _. split; [reflexivity|].
  apply sinv_recycled; [done|]. rewrite Hpar. destruct (si_run _ _ _ HI) as [HS [w Hw]]. intros Hz. rewrite Hz in Hw.
  by rewrite (sc_null _ _ _ _ HS) in Hw.
Qed.

Lemma sinv_op s rl wl o :
  sinv s rl wl -> allowed s o -> exists s' rl' wl', run_op o s = Done tt s' /\ sinv s' rl' wl'.
Proof.
  intros HI Ha. destruct o as [|c|c|child name stale|child proc mtag stale| |tid| |]; cbn [run_op].
  - by apply (sinv_yield _ rl wl).
  - by apply (sinv_wait _ rl wl).
  - destruct (sinv_broadcast s rl wl c HI) as (s' & E & H). eauto 6.
  - destruct (sinv_spawn s rl wl child name stale HI Ha) as (s' & E & H). mstep E. eexists _, _, _. by split.
  - destruct (sinv_fork s rl wl child proc mtag stale HI Ha) as (s' & E & H). mstep E. eexists _, _, _. by split.
  - destruct (sinv_exit _ rl wl HI Ha) as (s' & rl' & wl' & E & H & _). by exists s', rl', wl'.
  - destruct (sinv_join s rl wl tid HI Ha) as (s' & rl' & wl' & r & E & H). mstep E. eexists _, _, _. by split.
  - destruct (sinv_join_any s rl wl HI Ha) as (s' & rl' & wl' & r & E & H). mstep E. eexists _, _, _. by split.
  - destruct (sinv_join_any_resume s rl wl HI Ha) as (s' & r & E & H). mstep E. eexists _, _, _. by split.
Qed.

Lemma thread_init_sinv main idle :
  main <> NULL -> idle <> NULL -> main <> idle -> sinv (thread_init main idle) [idle] (fun _ => []).
Proof.
  intros Hm Hi Hmi. assert (Hst : forall p, status (thr (thread_init main idle)) p =
    if decide (main = p) then Some (THREAD_RUNNING, 0) else
    if decide (idle = p) then Some (THREAD_READY, 0) else None).
  { intros p. cbn. rewrite !status_insert. by repeat case_decide. }
  constructor.
  - split; [constructor|].
    + split; [|done]. cbn. split; [done|]. split; [done|].
      rewrite lookup_insert_ne, lookup_insert_eq by done. by eexists.
    + intros c. by apply tl_rep_nil.
    + repeat constructor. set_solver.
    + constructor.
    + intros p. rewrite Hst. rewrite list_elem_of_singleton. repeat case_decide; subst; naive_solver.
    + intros c p. rewrite Hst. repeat case_decide; set_solver.
    + intros p w. rewrite Hst. repeat case_decide; by intros [= <-].
    + rewrite Hst. by rewrite !decide_False by done.
    + exists 0. rewrite Hst. by rewrite decide_True by done.
  - right. cbn. set_solver.
  - intros p a b c d. cbn. unfold ident. rewrite !lookup_insert.
    repeat case_decide; subst; cbn; intros [= <- <- <- <-]; done.
  - intros i p. cbn [thread_init thrtab]. intros Hl Hp. unfold ident. cbn.
    assert (p = main \/ p = idle) as [-> | ->].
    { apply list_elem_of_lookup_2 in Hl. apply elem_of_cons in Hl as [->|Hl]; [by left|].
      repeat (apply elem_of_cons in Hl as [->|Hl]; [first [done|by right]|]). set_solver. }
    + by rewrite lookup_insert_eq.
    + by rewrite lookup_insert_ne, lookup_insert_eq.
  - done.
  - intros p a b c d. cbn. unfold ident. rewrite !lookup_insert.
    repeat case_decide; cbn; intros [= <- <- <- <-]; unfold MAIN_TID, IDLE_TID, NTHR; lia.
  - done.
Qed.

(** States the thread manager reaches from [thread_init] by operations of the
    running thread. *)
Inductive reach (main idle : Z) : tstate -> Prop :=
| reach_init : main <> NULL -> idle <> NULL -> main <> idle -> reach main idle (thread_init main idle)
| reach_op s o s' : reach main idle s -> allowed s o -> run_op o s = Done tt s' -> reach main idle s'.

Lemma reach_sinv main idle s : reach main idle s -> exists rl wl, sinv s rl wl.
Proof.
  induction 1 as [H1 H2 H3|s o s' _ (rl & wl & HI) Ha E].
  - do 2 eexists. by apply thread_init_sinv.
  - destruct (sinv_op s rl wl o HI Ha) as (s2 & rl' & wl' & E2 & HI'). rewrite E in E2. injection E2 as <-. eauto.
Qed.

(** ** Theorems *)

(** C10: In every state reachable from [thread_init] by operations that meet
    [allowed], every such operation of the running thread (yield, wait, broadcast,
    spawn, fork, exit, join, join any child and its continuation) completes: no
    assertion of thread.c fails, no list is empty when a thread is taken from it, no
    NULL or stale thread pointer is followed, and the queues, the thread states and
    the thread table are consistent again afterwards.  [allowed] asks: the idle
    thread only yields, and only to a ready thread; a new thread has a free slot and
    memory of its own in which the [child_exit] wait list the code does not
    initialise reads as empty; main does not exit; a joined tid is in 0..15; a thread that
    joins any child has a child, and an exited one when it is woken.  What happens
    outside: with a full table a spawn or fork panics, main's exit halts the machine,
    a tid out of range reads outside the table, and joining any child without one
    panics. *)
Theorem scheduler_safe main idle s o :
  reach main idle s ->
  (allowed s o -> exists s' rl wl, run_op o s = Done tt s' /\ sinv s' rl wl) /\
  (find_slot (thrtab s) = NTHR ->
     (forall child name stale, run_op (OSpawn child name stale) s = Panic "Too many threads" s) /\
     (forall child proc mtag stale, run_op (OFork child proc mtag stale) s = Panic "Too many threads" s)) /\
  (curthr s = main_thr s -> run_op OExit s = Halt s) /\
  (forall tid, tid < 0 \/ NTHR <= tid -> run_op (OJoin tid) s = Undef "thrtab index out of range" s) /\
  (child_of (fun _ => true) s = None -> run_op OJoinAny s = Panic "thread_wait called by childless thread" s).
Proof.
  intros Hr. destruct (reach_sinv _ _ _ Hr) as (rl & wl & HI). split; [by apply (sinv_op s rl wl)|]. split_and!.
  - intros Hf. split; intros; cbn [run_op]; unfold thread_spawn, thread_fork_to_user, bind, gets; by rewrite Hf.
  - intros Hm. cbn [run_op]. unfold thread_exit, bind, gets. by rewrite (proj2 (Z.eqb_eq _ _) Hm).
  - intros tid Ht. cbn [run_op]. unfold thread_join, tab_entry, bind.
    replace ((0 <=? tid) && (tid <? NTHR)) with false by lia. done.
  - intros Hc. cbn [run_op]. unfold thread_join_any. unfold bind, gets.
    fold (child_of (state_is THREAD_EXITED) s). fold (child_of (fun _ => true) s). rewrite Hc.
    destruct (child_of (state_is THREAD_EXITED) s) as [tid|] eqn:Ex; [|done]. exfalso.
    by rewrite (child_of_none s _ Hc) in Ex.
Qed.

Definition demo_main : Z := 4096.
Definition demo_idle : Z := 8192.

Lemma demo_reach : reach demo_main demo_idle (thread_init demo_main demo_idle).
Proof. by constructor. Qed.

Definition state_after (o : op) (s : tstate) : tstate :=
  match run_op o s with Done _ s' => s' | _ => s end.

(** main spawns a thread at 12288 and waits for it. *)
Definition demo_spawned : tstate := state_after (OSpawn 12288 "worker" tlclear) (thread_init demo_main demo_idle).

Lemma demo_spawned_reach : reach demo_main demo_idle demo_spawned.
Proof.
  eapply (reach_op _ _ _ (OSpawn 12288 "worker" tlclear)); [apply demo_reach|by vm_compute|by vm_compute].
Qed.

Lemma scheduler_safe_witness :
  exists s' rl wl, run_op (OJoin 1) demo_spawned = Done tt s' /\ sinv s' rl wl.
Proof.
  apply (scheduler_safe demo_main demo_idle demo_spawned (OJoin 1)).
  - apply demo_spawned_reach.
  - by vm_compute.
Defined.

(** ** Round-robin scheduling *)

(** [n] consecutive yields, each by the thread that runs then. *)
Fixpoint yields (n : nat) : M tstate unit :=
  match n with O => ret tt | S n' => thread_yield ;; yields n' end.

Lemma yields_rotate : forall n s rl wl,
  running s rl wl -> (n <= length rl)%nat ->
  exists s', yields n s = Done tt s' /\
    running s' (drop n rl ++ take n (curthr s :: rl)) wl /\
    curthr s' = List.nth n (curthr s :: rl) 0 /\ freed_stacks s' = freed_stacks s.
Proof.
  induction n as [|n IH]; intros s rl wl HR Hn.
  - exists s. split; [done|]. rewrite drop_0, take_0, app_nil_r. done.
  - destruct rl as [|p rl]; [simpl in Hn; lia|]. simpl in Hn.
    destruct (thread_yield_step s p rl wl HR) as (s1 & E1 & HR1 & Hsw & _).
    destruct (IH s1 (rl ++ [curthr s]) wl HR1) as (s' & E & HR' & Hc & Hf).
    { rewrite length_app. simpl. lia. }
    exists s'. cbn [yields]. mstep E1. split; [done|].
    rewrite (sw_cur _ _ _ Hsw) in HR', Hc. split; [|split].
    + assert (EQ : drop n (rl ++ [curthr s]) ++ take n (p :: rl ++ [curthr s]) =
                   drop (S n) (p :: rl) ++ take (S n) (curthr s :: p :: rl)).
      { cbn [drop take]. rewrite drop_app_le by lia. rewrite <- app_assoc. f_equal.
        cbn [app]. f_equal. change (p :: rl ++ [curthr s]) with ((p :: rl) ++ [curthr s]).
        apply take_app_le. simpl. lia. }
      by rewrite <- EQ.
    + rewrite Hc. cbn [List.nth]. destruct n as [|n]; [done|].
      apply List.app_nth1. lia.
    + rewrite Hf. apply (se_freed _ _ (sw_env _ _ _ Hsw)).
Qed.

(** C18: Round robin.  When every running thread yields, the thread at position
    [k] of the ready queue runs after exactly [k + 1] switches, and after one
    switch more than the queue's length the first thread runs again with the
    queue restored: no ready thread starves. *)
Theorem thread_yield_fair s rl wl :
  running s rl wl ->
  (forall k p, rl !! k = Some p ->
     exists s', yields (S k) s = Done tt s' /\ curthr s' = p /\ cur_state s' THREAD_RUNNING) /\
  (rl <> [] -> exists s', yields (S (length rl)) s = Done tt s' /\ curthr s' = curthr s /\ running s' rl wl).
Proof.
  intros HR. split.
  - intros k p Hk. pose proof (lookup_lt_Some _ _ _ Hk) as Hlt.
    destruct (yields_rotate (S k) s rl wl HR) as (s' & E & HR' & Hc & _); [lia|].
    exists s'. split; [done|]. split; [|apply HR']. rewrite Hc. cbn [List.nth].
    apply List.nth_error_nth. rewrite <- Hk. clear. revert rl. induction k; intros [|x l]; simpl; auto.
  - intros Hne. destruct (yields_rotate (length rl) s rl wl HR) as (s1 & E1 & HR1 & Hc1 & _); [lia|].
    rewrite drop_ge in HR1 by lia. cbn [app] in HR1.
    destruct (snoc_cases rl) as [->|(l & x & ->)]; [done|].
    assert (Hc : curthr s1 = x).
    { rewrite Hc1, length_app. cbn [length]. rewrite Nat.add_1_r. cbn [List.nth].
      rewrite List.app_nth2 by lia. by rewrite Nat.sub_diag. }
    assert (EQ : take (length (l ++ [x])) (curthr s :: l ++ [x]) = curthr s :: l).
    { rewrite length_app. cbn [length]. rewrite Nat.add_1_r. cbn [take]. f_equal. by apply take_app_length'. }
    rewrite EQ in HR1.
    destruct (thread_yield_step s1 (curthr s) l wl HR1) as (s' & E & HR' & Hsw & _).
    exists s'. split; [|split; [apply (sw_cur _ _ _ Hsw)|by rewrite Hc in HR']].
    assert (Hadd : forall n a b, yields n a = Done tt b -> yields (S n) a = thread_yield b).
    { clear. intros n. induction n as [|n IH]; intros a b Hn.
      - cbn in Hn. injection Hn as ->. cbn [yields]. unfold bind, ret. by destruct (thread_yield b) as [[]| | | | |].
      - change (yields (S (S n)) a) with ((thread_yield ;; yields (S n)) a).
        change (yields (S n) a) with ((thread_yield ;; yields n) a) in Hn.
        unfold bind in Hn |- *. destruct (thread_yield a) as [[] a'| | | | |]; try discriminate Hn. by apply IH. }
    by rewrite (Hadd _ _ _ E1).
Qed.

Lemma demo_spawned_running : running demo_spawned [demo_idle; 12288] (fun _ => []).
Proof.
  destruct (sinv_spawn (thread_init demo_main demo_idle) [demo_idle] (fun _ => []) 12288 "worker" tlclear)
    as (s' & E & HI).
  - by apply thread_init_sinv.
  - by vm_compute.
  - assert (demo_spawned = s') as -> by (unfold demo_spawned, state_after, run_op; by mstep E).
    apply (si_run _ _ _ HI).
Qed.

Lemma thread_yield_fair_witness :
  exists s', yields 2 demo_spawned = Done tt s' /\ curthr s' = 12288 /\ cur_state s' THREAD_RUNNING.
Proof.
  destruct (thread_yield_fair demo_spawned [demo_idle; 12288] (fun _ => []) demo_spawned_running) as [H _].
  by apply (H 1%nat).
Defined.

(** ** Conditions *)

(** [condition_wait c] takes the running thread off the processor and puts it
    at the back of the wait queue of [c], WAITING for [c]; the first ready thread
    runs.  A later [condition_broadcast c], from any thread or interrupt handler,
    appends the whole wait queue to the ready queue in arrival order, makes each of
    its threads READY, empties the wait queue, and changes no other thread, the
    running thread or the interrupt state: no waiter is lost or reordered. *)
Theorem condition_wait_broadcast s n rl wl c :
  running s (n :: rl) wl ->
  (exists s1, condition_wait c s = Done tt s1 /\ curthr s1 = n /\
     running s1 rl (wl_append wl c (curthr s)) /\
     status (thr s1) (curthr s) = Some (THREAD_WAITING, c) /\
     (forall q, q <> n -> q <> curthr s -> status (thr s1) q = status (thr s) q) /\
     exists s2, condition_broadcast c s1 = Done tt s2 /\ curthr s2 = n /\ sie s2 = sie s1 /\
       running s2 (rl ++ wl c ++ [curthr s]) (wl_clear wl c) /\
       forall q, status (thr s2) q =
         if decide (q ∈ wl c ++ [curthr s]) then Some (THREAD_READY, NULL) else status (thr s1) q).
Proof.
  intros HR. destruct (condition_wait_step s n rl wl c HR) as (s1 & E1 & HR1 & Hsw & Hst).
  assert (Hc1 : curthr s1 = n) by apply (sw_cur _ _ _ Hsw).
  exists s1. split; [done|]. split; [done|]. split; [done|]. split; [done|].
  split; [apply (sw_status _ _ _ Hsw)|].
  destruct HR1 as [HS1 Hcs].
  destruct (condition_broadcast_step s1 _ _ _ c HS1) as (s2 & E2 & HS2 & C1 & C2 & C3 & C4 & C5 & C6 & C7 & C8).
  assert (Hwl : wl_append wl c (curthr s) c = wl c ++ [curthr s]).
  { unfold wl_append. by rewrite decide_True. }
  rewrite Hwl in HS2, C8. exists s2. split; [done|]. split; [congruence|]. split; [done|].
  split; [|exact C8]. split.
  - rewrite C1. destruct HS2 as [G1 G2 G3 G4 G5 G6 G7 G8]. constructor; auto.
    + intros d. specialize (G2 d). unfold wl_clear, wl_append in *. by repeat case_decide.
    + intros d. specialize (G4 d). unfold wl_clear, wl_append in *. by repeat case_decide.
    + intros d q. specialize (G6 d q). unfold wl_clear, wl_append in *. by repeat case_decide.
  - destruct Hcs as [w Hw]. exists w. rewrite C1, C8. rewrite decide_False; [done|].
    rewrite <- Hwl. rewrite (sc_wl _ _ _ _ HS1), Hw. done.
Qed.

Lemma condition_wait_broadcast_witness :
  exists s1 s2, condition_wait 64 demo_spawned = Done tt s1 /\ condition_broadcast 64 s1 = Done tt s2 /\
    running s2 [12288; demo_main] (wl_clear (fun _ => []) 64).
Proof.
  destruct (condition_wait_broadcast demo_spawned demo_idle [12288] (fun _ => []) 64 demo_spawned_running)
    as (s1 & E1 & _ & _ & _ & _ & s2 & E2 & _ & _ & H & _).
  by exists s1, s2.
Defined.

(** ** Exit and join *)

(** [thread_exit] by a thread other than main marks it EXITED, makes every
    thread waiting on its parent's [child_exit] READY and switches to the next
    ready thread; the exited thread is on no queue, so it never runs again.  Main
    exiting halts the machine. *)
Theorem thread_exit_correct s rl wl t n rest :
  running s rl wl -> thr s !! curthr s = Some t ->
  (curthr s = main_thr s -> thread_exit s = Halt s) /\
  (curthr s <> main_thr s -> t_parent t <> NULL ->
   rl ++ wl (child_exit (t_parent t)) = n :: rest ->
   exists s' w, thread_exit s = Done tt s' /\ curthr s' = n /\
     running s' rest (wl_clear wl (child_exit (t_parent t))) /\
     status (thr s') (curthr s) = Some (THREAD_EXITED, w) /\
     curthr s ∉ rest /\ (forall c, curthr s ∉ wl_clear wl (child_exit (t_parent t)) c) /\
     forall q, q <> n -> q <> curthr s -> status (thr s') q =
       if decide (q ∈ wl (child_exit (t_parent t))) then Some (THREAD_READY, NULL) else status (thr s) q).
Proof.
  intros HR Ht. split.
  - intros E. unfold thread_exit. mstep (gets_eq curthr s). mstep (gets_eq main_thr s).
    by rewrite (proj2 (Z.eqb_eq _ _) E).
  - intros Hm Hp Hq.
    destruct (thread_exit_step s rl wl t n rest HR Ht Hm Hp Hq) as (s' & E & HR' & C1 & C2 & C3 & C4 & C5 & C6).
    exists s', (t_wait t). split; [done|]. split; [done|]. split; [done|]. split; [done|].
    destruct HR' as [HS' _]. split; [|split; [|done]].
    + rewrite (sc_rl _ _ _ _ HS'), C4. by intros [w ?].
    + intros c. by rewrite (sc_wl _ _ _ _ HS'), C4.
Qed.

(** The worker runs after main waits for it and idle yields. *)
Definition demo_joining : tstate := state_after OYield (state_after (OJoin 1) demo_spawned).

Lemma demo_joining_running :
  running demo_joining [demo_idle] (wl_append (fun _ => []) (child_exit demo_main) demo_main).
Proof.
  destruct (condition_wait_step demo_spawned demo_idle [12288] (fun _ => []) (child_exit demo_main)
    demo_spawned_running) as (s1 & E1 & HR1 & Hsw1 & _).
  assert (Ej : state_after (OJoin 1) demo_spawned = s1).
  { assert (Ew : state_after (OJoin 1) demo_spawned = state_after (OWait (child_exit demo_main)) demo_spawned)
      by (vm_compute; reflexivity).
    rewrite Ew. unfold state_after, run_op. by rewrite E1. }
  destruct (thread_yield_step s1 12288 [] _ HR1) as (s2 & E2 & HR2 & _).
  rewrite (sw_cur _ _ _ Hsw1) in HR2.
  assert (demo_joining = s2) as -> by (unfold demo_joining; rewrite Ej; unfold state_after, run_op; by rewrite E2).
  done.
Qed.

Lemma thread_exit_correct_witness :
  exists s' w, thread_exit demo_joining = Done tt s' /\ curthr s' = demo_idle /\
    status (thr s') 12288 = Some (THREAD_EXITED, w) /\ running s' [demo_main]
      (wl_clear (wl_append (fun _ => []) (child_exit demo_main) demo_main) (child_exit demo_main)).
Proof.
  destruct (thr demo_joining !! curthr demo_joining) as [t|] eqn:Et; [|by vm_compute in Et].
  assert (Hpar : t_parent t = demo_main) by (vm_compute in Et; injection Et as <-; reflexivity).
  destruct (thread_exit_correct demo_joining _ _ t demo_idle [demo_main] demo_joining_running Et) as [_ H].
  rewrite Hpar in H.
  assert (Hcur : curthr demo_joining = 12288) by (vm_compute; reflexivity).
  destruct H as (s' & w & E & Hc & HR & Hst & _); [vm_compute; discriminate|discriminate|reflexivity|].
  rewrite Hcur in Hst. exists s', w. repeat (split; [assumption|]). assumption.
Defined.

(** [thread_join tid] on every branch: it returns -1 without effect for the
    main thread's slot, an empty slot or a thread that is not a child of the
    caller; for a child that has exited it returns [tid], empties the slot and
    makes the child's children children of the caller; for a child still alive it
    waits on the caller's [child_exit], the condition the child's exit
    broadcasts. *)
Theorem thread_join_correct s rl wl tid :
  sinv s rl wl -> 0 <= tid < NTHR -> curthr s <> idle_thr s ->
  let p := default 0 (thrtab s !! Z.to_nat tid) in
  (tid = 0 \/ p = NULL -> thread_join tid s = Done (Some (-1)) s) /\
  (0 < tid -> p <> NULL -> exists t, thr s !! p = Some t /\
     (t_parent t <> curthr s -> thread_join tid s = Done (Some (-1)) s) /\
     (t_parent t = curthr s -> t_state t = THREAD_EXITED ->
        exists s', thread_join tid s = Done (Some tid) s' /\
          thrtab s' = <[Z.to_nat tid := NULL]> (thrtab s) /\ running s' rl wl /\
          forall q u, q ∈ tail (thrtab s) -> thr s !! q = Some u ->
            thr s' !! q = Some (if t_parent u =? p then set_parent (curthr s) u else u)) /\
     (t_parent t = curthr s -> t_state t <> THREAD_EXITED ->
        exists s' rl', thread_join tid s = Done None s' /\
          running s' rl' (wl_append wl (child_exit (t_parent t)) (curthr s)))).
Proof.
  intros HI Hr Hai p. rewrite thread_join_eq by done. cbv zeta. fold p. split.
  { intros [-> | ->]; [done|]. rewrite orb_true_r. done. }
  intros H0 Hp. rewrite (proj2 (Z.eqb_neq tid 0)), (proj2 (Z.eqb_neq p NULL)) by (done || lia). cbn [orb].
  assert (Hl : exists i, thrtab s !! i = Some p).
  { unfold p in *. destruct (thrtab s !! Z.to_nat tid) eqn:El; [eauto|done]. }
  destruct Hl as [i Hl]. destruct (si_tab _ _ _ HI i p Hl Hp) as [x Hx]. unfold ident in Hx.
  destruct (thr s !! p) as [t|] eqn:Et; [|done]. exists t. split; [done|]. split; [|split].
  - intros Hne. by rewrite (proj2 (Z.eqb_neq _ _) Hne).
  - intros Hpar Hst. rewrite Hpar, Z.eqb_refl, (state_is_true _ _ Hst). cbn [negb].
    mstep (recycle_thread_eq s tid p t ltac:(lia) eq_refl Hp Et Hst).
    eexists. split; [reflexivity|]. split; [done|]. split.
    + destruct (si_run _ _ _ HI) as [HS Hc]. split; [by apply sched_reparent|].
      destruct Hc as [w Hw]. exists w. cbn. by rewrite reparent_status.
    + intros q u Hq Hu. cbn. rewrite reparent_lookup, Hu. cbn. unfold reparent1.
      by rewrite bool_decide_eq_true_2, Hpar by done.
  - intros Hpar Hst. rewrite Hpar, Z.eqb_refl, (state_is_false _ _ Hst). cbn [negb].
    destruct (sinv_ready_cons _ _ _ HI) as (n & rl' & ->); [done|].
    destruct (condition_wait_step s n rl' wl (child_exit (curthr s)) (si_run _ _ _ HI)) as (s' & E & HR & _).
    mstep E. exists s', rl'. by split.
Qed.

Lemma demo_spawned_sinv : sinv demo_spawned [demo_idle; 12288] (fun _ => []).
Proof.
  destruct (sinv_spawn (thread_init demo_main demo_idle) [demo_idle] (fun _ => []) 12288 "worker" tlclear)
    as (s' & E & HI).
  - by apply thread_init_sinv.
  - by vm_compute.
  - assert (demo_spawned = s') as -> by (unfold demo_spawned, state_after, run_op; by mstep E). done.
Qed.

Lemma thread_join_correct_witness :
  exists s' rl', thread_join 1 demo_spawned = Done None s' /\
    running s' rl' (wl_append (fun _ => []) (child_exit demo_main) demo_main).
Proof.
  destruct (thread_join_correct demo_spawned _ _ 1 demo_spawned_sinv) as [_ H]; [by vm_compute|by vm_compute|].
  destruct H as (t & Ht & _ & _ & H); [lia|by vm_compute|].
  vm_compute in Ht. injection Ht as <-. apply H; [by vm_compute|done].
Defined.

(** In memory whose [child_exit] part reads as empty, [thread_spawn] takes the
    lowest free slot from 1 on, fills it with the new
    thread, READY at the back of the ready queue, child of the caller and of its
    process, and returns the slot; other threads and queues are unchanged.  With no
    free slot it panics. *)
Theorem thread_spawn_correct s rl wl child name :
  running s rl wl -> thr s !! child = None -> child <> NULL -> wl (child_exit child) = [] ->
  let tid := find_slot (thrtab s) in
  (forall i, 1 <= i < tid -> default 0 (thrtab s !! Z.to_nat i) <> NULL) /\
  (tid = NTHR -> thread_spawn child name tlclear s = Panic "Too many threads" s) /\
  (tid <> NTHR -> 1 <= tid < NTHR /\ default 0 (thrtab s !! Z.to_nat tid) = NULL /\
     exists s' t, thread_spawn child name tlclear s = Done tid s' /\ thr s !! curthr s = Some t /\
       running s' (rl ++ [child]) wl /\ curthr s' = curthr s /\ sie s' = sie s /\
       thrtab s' = <[Z.to_nat tid := child]> (thrtab s) /\
       ident (thr s') child = Some (name, tid, t_proc t, curthr s) /\
       forall q, q <> child -> status (thr s') q = status (thr s) q).
Proof.
  intros [HS Hc] Hf Hn Hwl tid. destruct (find_slot_spec (thrtab s)) as (B1 & B2 & B3). fold tid in B1, B2, B3.
  split; [done|]. split.
  - intros E. unfold thread_spawn. mstep (gets_eq thrtab s). fold tid. by rewrite E.
  - intros Hslot. split; [lia|]. split; [apply B2; lia|].
    destruct (status_cur_lookup _ _ Hc) as (t & Hct & Hst).
    destruct (thread_spawn_step s _ rl wl child name t HS Hct Hf Hn Hslot Hwl)
      as (s' & E & HS' & C1 & C2 & C3 & C4 & C5 & C9 & C6 & C7 & C8).
    exists s', t. split; [done|]. split; [done|]. split; [|done].
    split; [by rewrite C1|]. destruct Hc as [w Hw]. exists w. rewrite C1, C6; [done|congruence].
Qed.

Lemma thread_spawn_correct_witness :
  exists s' t, thread_spawn 16384 "second" tlclear demo_spawned = Done 2 s' /\
    thr demo_spawned !! demo_main = Some t /\ running s' [demo_idle; 12288; 16384] (fun _ => []).
Proof.
  destruct (thread_spawn_correct demo_spawned _ _ 16384 "second" demo_spawned_running) as (_ & _ & H);
    [by vm_compute|done|done|].
  destruct H as (_ & _ & s' & t & E & Ht & HR & _); [by vm_compute|]. by exists s', t.
Defined.

(** The wait list of [child_exit] that [thread_spawn] leaves uninitialised: main
    spawns a thread in memory that was used before, the thread spawns another one,
    and when that one exits the broadcast follows the stale pointer. *)
Definition stale_spawned : tstate :=
  let s := state_after (OSpawn 12288 "worker" (MkList 0xdead 0xdead)) (thread_init demo_main demo_idle) in
  state_after OYield (state_after OYield (state_after OYield
    (state_after (OSpawn 16384 "second" tlclear) (state_after OYield (state_after OYield s))))).

Lemma stale_child_exit_fails :
  curthr stale_spawned = 16384 /\ exists s, run_op OExit stale_spawned = Undef "thread pointer" s.
Proof. split; [by vm_compute|]. eexists. by vm_compute. Qed.

(** [_thread_swtch] returns its argument and not the thread that was
    suspended, so [suspend_self] looks for an exited thread in the thread that
    resumes, which runs: no stack page is ever freed. *)
Theorem exited_stack_never_freed main idle s :
  reach main idle s -> freed_stacks s = [].
Proof. intros (rl & wl & H)%reach_sinv. apply (si_freed _ _ _ H). Qed.

(** The worker exited, main joins it: its stack is still allocated. *)
Lemma exited_stack_never_freed_witness :
  freed_stacks (state_after OYield (state_after OExit demo_joining)) = [].
Proof.
  apply (exited_stack_never_freed demo_main demo_idle).
  assert (H1 : reach demo_main demo_idle demo_joining).
  { apply (reach_op _ _ (state_after (OJoin 1) demo_spawned) OYield); [|by vm_compute|by vm_compute].
    apply (reach_op _ _ demo_spawned (OJoin 1)); [apply demo_spawned_reach|by vm_compute|by vm_compute]. }
  assert (H2 : reach demo_main demo_idle (state_after OExit demo_joining)).
  { apply (reach_op _ _ demo_joining OExit); [exact H1|by vm_compute|by vm_compute]. }
  apply (reach_op _ _ (state_after OExit demo_joining) OYield); [exact H2|by vm_compute|by vm_compute].
Defined.
