(* ===== verification/Lock.v ===== *)
(** * Sleep locks (lock.h)

    A lock is a condition and the id of the thread that holds it, or -1.
    [lock_acquire] loops around [condition_wait]; [lock_acquire_try] is one turn
    of that loop: it either takes the lock or suspends the caller, which starts
    the next turn when it runs again.  Locks are named by the address of their
    condition. *)

From stdpp Require Import base gmap list strings numbers.
From Stdlib Require Import Lia ZArith.
From S2P Require Import Prelude ThreadList Thread Sched SchedOps SchedProps.
Local Open Scope Z_scope.
Local Open Scope kern_scope.

Record lstate := MkL {
  lt : tstate;
  ltid : gmap Z Z       (* lk->tid, by the address of lk->cond *)
}.

Definition set_lt (t : tstate) (s : lstate) : lstate := MkL t (ltid s).
Definition set_tid (lk tid : Z) (s : lstate) : lstate := MkL (lt s) (<[lk := tid]> (ltid s)).
Definition on_t {A} (c : M tstate A) : M lstate A := lift lt set_lt c.
Definition read_tid (lk : Z) : M lstate Z := fun s =>
  match ltid s !! lk with Some t => Done t s | None => Undef "lock not initialised" s end.

Definition lock_init (lk : Z) : M lstate unit :=
  on_t (condition_init lk) ;; modify (set_tid lk (-1)).

(** One turn of the loop: [true] when the lock was taken. *)
Definition lock_acquire_try (lk : Z) : M lstate bool :=
  intr_state <- on_t intr_disable ;;
  tid <- read_tid lk ;;
  if tid =? -1 then
    me <- on_t running_thread ;;
    modify (set_tid lk me) ;;
    on_t (intr_restore intr_state) ;;
    ret true
  else on_t (condition_wait lk) ;; ret false.

Definition lock_release (lk : Z) : M lstate unit :=
  tid <- read_tid lk ;;
  me <- on_t running_thread ;;
  assert (tid =? me) "lk->tid == running_thread()" ;;
  modify (set_tid lk (-1)) ;;
  on_t (condition_broadcast lk).

(** ** Steps *)

Lemma on_t_Done {A} (c : M tstate A) s a t : c (lt s) = Done a t -> on_t c s = Done a (set_lt t s).
Proof. unfold on_t, lift. by intros ->. Qed.

Lemma running_thread_eq s t : thr s !! curthr s = Some t -> running_thread s = Done (t_id t) s.
Proof.
  intros H. unfold running_thread. mstep (gets_eq curthr s).
  mstep (on_thr_Done (deref (curthr s)) s t (thr s) (deref_eq _ t _ H)). by rewrite set_thr_self.
Qed.

Lemma read_tid_eq lk x s : ltid s !! lk = Some x -> read_tid lk s = Done x s.
Proof. unfold read_tid. by intros ->. Qed.

(** The id of the running thread. *)
Definition my_tid (s : lstate) : Z :=
  match thr (lt s) !! curthr (lt s) with Some t => t_id t | None => -1 end.

Lemma acquire_free s rl wl lk :
  running (lt s) rl wl -> ltid s !! lk = Some (-1) ->
  lock_acquire_try lk s = Done true (MkL (lt s) (<[lk := my_tid s]> (ltid s))).
Proof.
  intros HR Hf. destruct (running_lookup _ _ _ HR) as (t & Ht & _). unfold lock_acquire_try, my_tid. rewrite Ht.
  mstep (on_t_Done intr_disable s _ _ (intr_disable_eq (lt s))).
  mstep (read_tid_eq lk (-1) (set_lt (set_sie false (lt s)) s) Hf). cbn [Z.eqb Pos.eqb].
  mstep (on_t_Done running_thread (set_lt (set_sie false (lt s)) s) _ _
    (running_thread_eq (set_sie false (lt s)) t Ht)).
  unfold bind at 1, modify at 1. unfold on_t, lift, intr_restore, modify, bind, ret. cbn.
  destruct s as [u v]. by destruct u.
Qed.

Lemma acquire_held s n rl wl lk h :
  running (lt s) (n :: rl) wl -> ltid s !! lk = Some h -> h <> -1 ->
  exists t', lock_acquire_try lk s = Done false (MkL t' (ltid s)) /\
    running t' rl (wl_append wl lk (curthr (lt s))) /\ switched (set_sie false (lt s)) n t' /\
    status (thr t') (curthr (lt s)) = Some (THREAD_WAITING, lk).
Proof.
  intros [HS Hc] Hl Hh.
  assert (HR0 : running (set_sie false (lt s)) (n :: rl) wl) by (split; [by apply sched_set_sie|done]).
  destruct (condition_wait_step _ n rl wl lk HR0) as (t' & E & HR' & Hsw & Hst).
  exists t'. split; [|done]. unfold lock_acquire_try.
  mstep (on_t_Done intr_disable s _ _ (intr_disable_eq (lt s))).
  mstep (read_tid_eq lk h (set_lt (set_sie false (lt s)) s) Hl).
  rewrite (proj2 (Z.eqb_neq _ _) Hh).
  by mstep (on_t_Done (condition_wait lk) (set_lt (set_sie false (lt s)) s) tt t' E).
Qed.

Lemma release_held s rl wl lk :
  running (lt s) rl wl -> ltid s !! lk = Some (my_tid s) ->
  exists t', lock_release lk s = Done tt (MkL t' (<[lk := -1]> (ltid s))) /\
    condition_broadcast lk (lt s) = Done tt t' /\
    running t' (rl ++ wl lk) (wl_clear wl lk) /\ curthr t' = curthr (lt s) /\ sie t' = sie (lt s).
Proof.
  intros HR Hl. destruct (running_lookup _ _ _ HR) as (t & Ht & Hst). destruct HR as [HS Hc].
  destruct (condition_broadcast_step (lt s) _ rl wl lk HS)
    as (t' & E & HS' & C1 & C2 & C3 & C4 & C5 & C6 & C7 & C8).
  unfold my_tid in Hl. rewrite Ht in Hl.
  exists t'. split; [|split; [done|split; [|done]]].
  - unfold lock_release. mstep (read_tid_eq lk _ s Hl).
    mstep (on_t_Done running_thread s _ _ (running_thread_eq (lt s) t Ht)).
    unfold assert. rewrite Z.eqb_refl. unfold bind at 1, ret at 1. unfold bind at 1, modify.
    by rewrite (on_t_Done (condition_broadcast lk) (set_tid lk (-1) (set_lt (lt s) s)) tt t' E).
  - rewrite <- C1 in HS'. split; [done|]. destruct Hc as [w Hw]. exists w. rewrite C1, C8, decide_False; [done|].
    rewrite (sc_wl _ _ _ _ HS), Hw. done.
Qed.

(** ** Theorems *)

(** Locks on every branch.  A free lock is taken by the caller with nothing
    else changed, not even the interrupt state; a held lock is left to its holder
    and the caller waits at the back of the lock's queue; [lock_release] by the
    holder frees the lock and makes all waiters ready in arrival order; by any
    other thread it fails its assertion. *)
Theorem lock_correct s n rl wl lk h :
  running (lt s) (n :: rl) wl -> ltid s !! lk = Some h ->
  (h = -1 -> lock_acquire_try lk s = Done true (MkL (lt s) (<[lk := my_tid s]> (ltid s)))) /\
  (h <> -1 -> exists t', lock_acquire_try lk s = Done false (MkL t' (ltid s)) /\
     curthr t' = n /\ running t' rl (wl_append wl lk (curthr (lt s))) /\
     status (thr t') (curthr (lt s)) = Some (THREAD_WAITING, lk)) /\
  (h = my_tid s -> exists t', lock_release lk s = Done tt (MkL t' (<[lk := -1]> (ltid s))) /\
     running t' (n :: rl ++ wl lk) (wl_clear wl lk) /\ curthr t' = curthr (lt s)) /\
  (h <> my_tid s -> lock_release lk s = Panic "lk->tid == running_thread()" s).
Proof.
  intros HR Hl. split; [|split; [|split]].
  - intros ->. by eapply acquire_free.
  - intros Hh. destruct (acquire_held s n rl wl lk h HR Hl Hh) as (t' & E & HR' & Hsw & Hst).
    exists t'. split; [done|]. split; [apply (sw_cur _ _ _ Hsw)|done].
  - intros ->. destruct (release_held s (n :: rl) wl lk HR Hl) as (t' & E & _ & HR' & Hc & _). eauto.
  - intros Hne. destruct (running_lookup _ _ _ HR) as (t & Ht & _). unfold my_tid in Hne. rewrite Ht in Hne.
    unfold lock_release. mstep (read_tid_eq lk h s Hl).
    mstep (on_t_Done running_thread s _ _ (running_thread_eq (lt s) t Ht)).
    unfold assert. rewrite (proj2 (Z.eqb_neq _ _) Hne). by destruct s.
Qed.

Definition demo_lock : lstate := MkL demo_spawned (<[512 := -1]> ∅).

Lemma lock_correct_witness :
  lock_acquire_try 512 demo_lock = Done true (MkL demo_spawned (<[512 := my_tid demo_lock]> (ltid demo_lock))).
Proof.
  destruct (lock_correct demo_lock demo_idle [12288] (fun _ => []) 512 (-1) demo_spawned_running) as [H _];
    [by vm_compute|]. by apply H.
Defined.

(** ** All interleavings of lock operations *)

(** Steps of the running thread: it tries to take a lock, releases one it holds,
    or performs an operation on a condition that belongs to no lock. *)
Inductive lop := LAcquire (lk : Z) | LRelease (lk : Z) | LOther (o : op).

Definition run_lop (o : lop) : M lstate unit :=
  match o with
  | LAcquire lk => lock_acquire_try lk ;; ret tt
  | LRelease lk => lock_release lk
  | LOther o => on_t (run_op o)
  end.

Definition lallowed (s : lstate) (o : lop) : Prop :=
  match o with
  | LAcquire lk => is_Some (ltid s !! lk) /\ curthr (lt s) <> idle_thr (lt s)
  | LRelease lk => ltid s !! lk = Some (my_tid s)
  | LOther OYield => allowed (lt s) OYield
  | LOther (OWait c) => curthr (lt s) <> idle_thr (lt s) /\ ltid s !! c = None
  | LOther (OBroadcast c) => ltid s !! c = None
  | LOther (OSpawn child name stale) => allowed (lt s) (OSpawn child name stale)
  | LOther (OFork child proc mtag stale) => allowed (lt s) (OFork child proc mtag stale)
  | LOther _ => False
  end.

(** A free lock has no waiter. *)
Definition linv (s : lstate) : Prop :=
  exists rl wl, sinv (lt s) rl wl /\ forall lk, ltid s !! lk = Some (-1) -> wl lk = [].

Lemma my_tid_nonneg s rl wl : sinv (lt s) rl wl -> 0 <= my_tid s.
Proof.
  intros HI. destruct (running_lookup _ _ _ (si_run _ _ _ HI)) as (t & Ht & _). unfold my_tid. rewrite Ht.
  eapply (si_ids _ _ _ HI (curthr (lt s))). unfold ident. by rewrite Ht.
Qed.

Lemma linv_acquire s lk :
  linv s -> lallowed s (LAcquire lk) -> exists b s', lock_acquire_try lk s = Done b s' /\ linv s'.
Proof.
  intros (rl & wl & HI & Hw) ([h Hl] & Hi). destruct (decide (h = -1)) as [->|Hh].
  - eexists true, _. split; [by eapply acquire_free; [apply HI|]|]. exists rl, wl. split; [done|].
    intros k. cbn. rewrite lookup_insert. case_decide as E; [|apply Hw]. intros [= Em].
    pose proof (my_tid_nonneg s rl wl HI). lia.
  - destruct (sinv_ready_cons _ _ _ HI) as (n & rl' & ->); [done|].
    destruct (acquire_held s n rl' wl lk h (si_run _ _ _ HI) Hl Hh) as (t' & E & HR & Hsw & Hst).
    exists false. eexists. split; [done|]. exists rl', (wl_append wl lk (curthr (lt s))). split.
    + assert (HI0 : sinv (set_sie false (lt s)) (n :: rl') wl).
      { destruct HI as [[HS Hc] A1 A2 A3 A4 A5 A6]. constructor; auto. split; [by apply sched_set_sie|done]. }
      eapply sinv_switched; [exact HI0|exact Hsw|exact HR|].
      cbn. destruct (si_idle _ _ _ HI); [done|]. set_solver.
    + intros k. cbn. unfold wl_append. case_decide as Ek; [|apply Hw]. subst k. congruence.
Qed.

Lemma linv_release s lk :
  linv s -> lallowed s (LRelease lk) -> exists s', lock_release lk s = Done tt s' /\ linv s'.
Proof.
  intros (rl & wl & HI & Hw) Hl.
  destruct (release_held s rl wl lk (si_run _ _ _ HI) Hl) as (t' & E & Eb & _).
  destruct (sinv_broadcast (lt s) rl wl lk HI) as (t2 & E2 & HI2). rewrite E2 in Eb. injection Eb as ->.
  eexists. split; [done|]. exists (rl ++ wl lk), (wl_clear wl lk). split; [done|].
  intros k. cbn. rewrite lookup_insert. unfold wl_clear. case_decide as Ek; [subst; by rewrite decide_True|].
  rewrite decide_False by done. apply Hw.
Qed.

Lemma linv_other s o :
  linv s -> lallowed s (LOther o) -> exists s', on_t (run_op o) s = Done tt s' /\ linv s'.
Proof.
  intros (rl & wl & HI & Hw) Ha. destruct o as [|c|c|child name stale|child proc mtag stale| |tid| |]; try done; cbn [lallowed run_op] in Ha |- *.
  - destruct (sinv_ready_cons _ _ _ HI Ha) as (n & rl' & ->).
    destruct (thread_yield_step _ n rl' wl (si_run _ _ _ HI)) as (t' & E & HR & Hsw & _).
    eexists. split; [by apply on_t_Done|]. exists (rl' ++ [curthr (lt s)]), wl. split; [|done].
    eapply sinv_switched; [done..|]. destruct (si_idle _ _ _ HI); set_solver.
  - destruct Ha as [Hi Hc]. destruct (sinv_ready_cons _ _ _ HI) as (n & rl' & ->); [done|].
    destruct (condition_wait_step _ n rl' wl c (si_run _ _ _ HI)) as (t' & E & HR & Hsw & _).
    eexists. split; [by apply on_t_Done|]. exists rl', (wl_append wl c (curthr (lt s))). split.
    + eapply sinv_switched; [done..|]. destruct (si_idle _ _ _ HI); [done|]. set_solver.
    + intros lk Hlk. unfold wl_append. cbn in Hlk. case_decide; [congruence|by apply Hw].
  - destruct (sinv_broadcast _ rl wl c HI) as (t' & E & HI').
    eexists. split; [by apply on_t_Done|]. exists (rl ++ wl c), (wl_clear wl c). split; [done|].
    intros lk Hlk. unfold wl_clear. case_decide; [done|by apply Hw].
  - destruct (sinv_spawn _ rl wl child name stale HI Ha) as (t' & E & HI').
    eexists. split; [apply on_t_Done; by mstep E|]. exists (rl ++ [child]), wl. by split.
  - destruct (sinv_fork _ rl wl child proc mtag stale HI Ha) as (t' & E & HI').
    eexists. split; [apply on_t_Done; by mstep E|]. exists (rl ++ [curthr (lt s)]), wl. by split.
Qed.

Inductive lreach (s0 : lstate) : lstate -> Prop :=
| lreach_refl : lreach s0 s0
| lreach_step s o s' : lreach s0 s -> lallowed s o -> run_lop o s = Done tt s' -> lreach s0 s'.

Lemma linv_lop s o : linv s -> lallowed s o -> exists s', run_lop o s = Done tt s' /\ linv s'.
Proof.
  intros HI Ha. destruct o as [lk|lk|o]; cbn [run_lop].
  - destruct (linv_acquire s lk HI Ha) as (b & s' & E & H). exists s'. split; [|done]. by mstep E.
  - by apply linv_release.
  - by apply linv_other.
Qed.

Lemma lreach_inv s0 s : lreach s0 s -> linv s0 -> linv s.
Proof.
  induction 1 as [|s o s' _ IH Ha E]; intros H0; [done|].
  destruct (linv_lop s o (IH H0) Ha) as (s2 & E2 & HI). rewrite E in E2. by injection E2 as <-.
Qed.

(** C16: In every interleaving of acquire attempts, releases by the holder and
    other operations of the running threads (yield, waiting on and broadcasting
    conditions that belong to no lock, spawn and fork; exits and joins are not among
    them), from a state where free locks have no waiters: no operation fails, a lock that is free has no waiting thread (no
    waiter is stranded), and only the holder's release changes a held lock's
    holder (mutual exclusion). *)
Theorem lock_mutual_exclusion s0 s o :
  linv s0 -> lreach s0 s -> lallowed s o ->
  (exists rl wl, running (lt s) rl wl /\ forall lk, ltid s !! lk = Some (-1) -> wl lk = []) /\
  exists s', run_lop o s = Done tt s' /\
    forall lk h, ltid s !! lk = Some h -> h <> -1 -> ltid s' !! lk <> Some h ->
      o = LRelease lk /\ h = my_tid s /\ ltid s' !! lk = Some (-1).
Proof.
  intros H0 Hr Ha. pose proof (lreach_inv _ _ Hr H0) as HI. split.
  { destruct HI as (rl & wl & HI & Hw). exists rl, wl. split; [apply HI|done]. }
  destruct (linv_lop s o HI Ha) as (s' & E & HI'). exists s'. split; [done|]. intros lk h Hl Hh Hne.
  destruct HI as (rl & wl & HI & Hw). destruct o as [k|k|o]; cbn [run_lop] in E.
  - exfalso. destruct Ha as ([x Hx] & Hi). destruct (decide (x = -1)) as [->|Hx1].
    + rewrite (bind_Done _ _ _ _ _ (acquire_free s rl wl k (si_run _ _ _ HI) Hx)) in E. unfold ret in E. injection E as <-.
      cbn in Hne. rewrite lookup_insert_ne in Hne by congruence. done.
    + destruct (sinv_ready_cons _ _ _ HI) as (n & rl' & ->); [done|].
      destruct (acquire_held s n rl' wl k x (si_run _ _ _ HI) Hx Hx1) as (t' & E2 & _).
      rewrite (bind_Done _ _ _ _ _ E2) in E. unfold ret in E. injection E as <-. done.
  - destruct (release_held s rl wl k (si_run _ _ _ HI) Ha) as (t' & E2 & _).
    rewrite E in E2. injection E2 as ->. cbn in Hne |- *.
    destruct (decide (k = lk)) as [->|Hk]; [|by rewrite lookup_insert_ne in Hne].
    rewrite lookup_insert_eq. split; [done|]. split; [|done]. cbn in Ha. congruence.
  - exfalso. unfold on_t, lift in E. destruct (run_op o (lt s)); try discriminate E. injection E as _ <-. done.
Qed.

Definition demo_held : lstate := MkL (lt demo_lock) (<[512 := my_tid demo_lock]> (ltid demo_lock)).

Lemma lock_mutual_exclusion_witness :
  exists s', run_lop (LRelease 512) demo_held = Done tt s'.
Proof.
  destruct (lock_mutual_exclusion demo_lock demo_held (LRelease 512)) as [_ (s' & E & _)].
  - exists [demo_idle; 12288], (fun _ => []). split; [apply demo_spawned_sinv|done].
  - eapply (lreach_step _ _ (LAcquire 512)); [apply lreach_refl| |].
    + split; [by eexists|by vm_compute].
    + by vm_compute.
  - by vm_compute.
  - by exists s'.
Defined.

(** A thread that had to wait for a lock returns from [lock_acquire] with
    interrupts disabled, whatever their state was when it called: the state saved
    by the first turn is overwritten, the thread is suspended with interrupts off,
    and the turn that takes the lock restores exactly that. *)
Theorem lock_contended_leaves_interrupts_off s n rl wl lk h :
  running (lt s) (n :: rl) wl -> ltid s !! lk = Some h -> h <> -1 ->
  exists t1, lock_acquire_try lk s = Done false (MkL t1 (ltid s)) /\
    saved_sie t1 !! curthr (lt s) = Some false /\
    forall s2 rl2 wl2 t2,
      running (lt s2) (curthr (lt s) :: rl2) wl2 -> curthr (lt s2) <> curthr (lt s) ->
      saved_sie (lt s2) !! curthr (lt s) = Some false -> ltid s2 !! lk = Some (-1) ->
      thread_yield (lt s2) = Done tt t2 ->
      exists s3, lock_acquire_try lk (set_lt t2 s2) = Done true s3 /\
        curthr (lt s3) = curthr (lt s) /\ sie (lt s3) = false.
Proof.
  intros HR Hl Hh.
  destruct (acquire_held s n rl wl lk h HR Hl Hh) as (t1 & E & HR1 & Hsw & Hst).
  exists t1. split; [done|]. split.
  - rewrite (sw_saved _ _ _ Hsw). cbn. by rewrite lookup_insert_eq.
  - intros s2 rl2 wl2 t2 HR2 Hne Hsv Hfree Ey.
    destruct (thread_yield_step (lt s2) _ rl2 wl2 HR2) as (t3 & E3 & HR3 & Hsw3 & _).
    rewrite Ey in E3. injection E3 as <-. eexists. split; [by eapply acquire_free|]. cbn.
    split; [apply (sw_cur _ _ _ Hsw3)|]. rewrite (sw_sie _ _ _ Hsw3). unfold resumed_sie.
    by rewrite lookup_insert_ne, Hsv.
Qed.

Lemma lock_contended_leaves_interrupts_off_witness :
  exists t1, lock_acquire_try 512 (MkL (set_sie true demo_spawned) (<[512 := 1]> ∅)) =
      Done false (MkL t1 (<[512 := 1]> ∅)) /\ saved_sie t1 !! demo_main = Some false.
Proof.
  destruct (lock_contended_leaves_interrupts_off (MkL (set_sie true demo_spawned) (<[512 := 1]> ∅))
    demo_idle [12288] (fun _ => []) 512 1) as (t1 & E & Hs & _).
  - destruct demo_spawned_running as [HS Hc]. split; [by apply sched_set_sie|done].
  - reflexivity.
  - done.
  - exists t1. by split.
Defined.
