(* ===== verification/Timer.v ===== *)
(** * Alarms and the timer interrupt (timer.c, timer.h)

    The sleep list is a linked list of [struct alarm]s in order of wake-up time.
    The condition is the first member of an alarm, so an alarm and its condition
    have the same address.  The value [get_mtime] reads from the clock is an
    argument of the operations ([now]). *)

From stdpp Require Import base gmap list strings numbers sorting.
From Stdlib Require Import Lia ZArith.
From S2P Require Import Prelude ThreadList Thread Sched SchedOps SchedProps.
Local Open Scope Z_scope.
Local Open Scope kern_scope.

Definition TIMER_FREQ : Z := 10000000.
Definition TICK_FREQ : Z := 50.
Definition TICK_PERIOD : Z := TIMER_FREQ / TICK_FREQ.

Record alarm := MkAlarm { al_next : Z; al_twake : Z }.

Record tmstate := MkTm {
  alarms : gmap Z alarm;
  sleep_list : Z;
  next_tick : Z;
  mtcmp : Z;           (* the timer's compare register *)
  stie : bool;         (* timer interrupts enabled in sie *)
  timer_initialized : bool;
  ts : tstate
}.

Definition set_alarms (m : gmap Z alarm) (s : tmstate) : tmstate :=
  MkTm m (sleep_list s) (next_tick s) (mtcmp s) (stie s) (timer_initialized s) (ts s).
Definition set_sleep_list (p : Z) (s : tmstate) : tmstate :=
  MkTm (alarms s) p (next_tick s) (mtcmp s) (stie s) (timer_initialized s) (ts s).
Definition set_next_tick (v : Z) (s : tmstate) : tmstate :=
  MkTm (alarms s) (sleep_list s) v (mtcmp s) (stie s) (timer_initialized s) (ts s).
Definition set_mtcmp (v : Z) (s : tmstate) : tmstate :=
  MkTm (alarms s) (sleep_list s) (next_tick s) v (stie s) (timer_initialized s) (ts s).
Definition csrs_sie_stie (s : tmstate) : tmstate :=
  MkTm (alarms s) (sleep_list s) (next_tick s) (mtcmp s) true (timer_initialized s) (ts s).
Definition set_ts (t : tstate) (s : tmstate) : tmstate :=
  MkTm (alarms s) (sleep_list s) (next_tick s) (mtcmp s) (stie s) (timer_initialized s) t.

Definition on_ts {A} (c : M tstate A) : M tmstate A := lift ts set_ts c.

Definition alarm_get (p : Z) : M tmstate alarm := fun s =>
  match alarms s !! p with Some a => Done a s | None => Undef "alarm pointer" s end.
Definition alarm_set (p : Z) (f : alarm -> alarm) : M tmstate unit := fun s =>
  match alarms s !! p with
  | Some a => Done tt (set_alarms (<[p := f a]> (alarms s)) s)
  | None => Undef "alarm pointer" s
  end.
Definition with_next (n : Z) (a : alarm) : alarm := MkAlarm n (al_twake a).
Definition with_twake (t : Z) (a : alarm) : alarm := MkAlarm (al_next a) t.

(** ** Operations *)

Definition timer_init (s : tmstate) : tmstate :=
  let s1 := csrs_sie_stie (set_mtcmp TICK_PERIOD s) in
  MkTm (alarms s1) (sleep_list s1) (next_tick s1) (mtcmp s1) (stie s1) true (ts s1).

Definition alarm_init (al now : Z) : M tmstate unit :=
  on_ts (condition_init al) ;;
  modify (fun s => set_alarms (<[al := MkAlarm NULL now]> (alarms s)) s).

Definition alarm_reset (al now : Z) : M tmstate unit := alarm_set al (with_twake now).

(** The search loop for the insertion point, which inserts before [break]; the
    result is [prev]. *)
Fixpoint insert_loop (fuel : nat) (al twake prev : Z) : M tmstate Z :=
  match fuel with
  | O => fun _ => NoFuel
  | S fuel' =>
      p <- alarm_get prev ;;
      if al_next p =? NULL then ret prev else
      q <- alarm_get (al_next p) ;;
      if twake <=? al_twake q then
        alarm_set al (with_next (al_next p)) ;;
        alarm_set prev (with_next al) ;;
        ret prev
      else insert_loop fuel' al twake (al_next p)
  end.

Definition sleep_insert (al twake : Z) : M tmstate unit :=
  head <- gets sleep_list ;;
  n <- gets (fun s => size (alarms s)) ;;
  prev <- insert_loop n al twake head ;;
  p <- alarm_get prev ;;
  if al_next p =? NULL then alarm_set al (with_next NULL) ;; alarm_set prev (with_next al) else ret tt.

(** The insertion part of [alarm_sleep]. *)
Definition alarm_insert (al twake : Z) : M tmstate unit :=
  head <- gets sleep_list ;;
  at_head <- (if head =? NULL then ret true else h <- alarm_get head ;; ret (twake <=? al_twake h)) ;;
  (if at_head then
     alarm_set al (with_next head) ;;
     modify (set_sleep_list al) ;;
     nt <- gets next_tick ;;
     if twake <? nt then modify (set_mtcmp twake) ;; modify csrs_sie_stie else ret tt
   else sleep_insert al twake).

(** [alarm_sleep] until it waits: the result is [false] when it returns at once
    and [true] when the caller was suspended. *)
Definition alarm_sleep (al tcnt now : Z) : M tmstate bool :=
  a <- alarm_get al ;;
  alarm_set al (with_twake (if UINT64_MAX - al_twake a <? tcnt then UINT64_MAX else al_twake a + tcnt)) ;;
  a' <- alarm_get al ;;
  let twake := al_twake a' in
  if twake <? now then ret false else
  on_ts intr_disable ;;
  alarm_insert al twake ;;
  on_ts (condition_wait al) ;;
  ret true.

Definition alarm_sleep_sec (al sec now : Z) : M tmstate bool := alarm_sleep al (w64 (sec * TIMER_FREQ)) now.
Definition alarm_sleep_ms (al ms now : Z) : M tmstate bool :=
  alarm_sleep al (w64 (ms * (TIMER_FREQ / 1000))) now.
Definition alarm_sleep_us (al us now : Z) : M tmstate bool :=
  alarm_sleep al (w64 (us * (TIMER_FREQ / 1000 / 1000))) now.

(** The wake-up loop; the result is the first alarm that is not due. *)
Fixpoint wake_due (fuel : nat) (head now : Z) : M tmstate Z :=
  if head =? NULL then ret head else
  match fuel with
  | O => fun _ => NoFuel
  | S fuel' =>
      h <- alarm_get head ;;
      if al_twake h <=? now then
        on_ts (condition_broadcast head) ;;
        h' <- alarm_get head ;;
        alarm_set head (with_next NULL) ;;
        wake_due fuel' (al_next h') now
      else ret head
  end.

Definition timer_intr_handler (now : Z) : M tmstate unit :=
  first <- gets sleep_list ;;
  n <- gets (fun s => size (alarms s)) ;;
  head <- wake_due n first now ;;
  nt <- gets next_tick ;;
  (if nt <? now then modify (set_next_tick (w64 (nt + TICK_PERIOD))) else ret tt) ;;
  modify (set_sleep_list head) ;;
  nt' <- gets next_tick ;;
  if head =? NULL then modify (set_mtcmp nt') else
  h <- alarm_get head ;;
  if al_twake h <? nt' then modify (set_mtcmp (al_twake h)) else modify (set_mtcmp nt').

(** ** The sleep list as a sequence *)

Fixpoint aseg (m : gmap Z alarm) (h : Z) (l : list Z) : Prop :=
  match l with
  | [] => h = NULL
  | p :: l' => h = p /\ p <> NULL /\ exists a, m !! p = Some a /\ aseg m (al_next a) l'
  end.

Definition twake_of (m : gmap Z alarm) (p : Z) : Z :=
  match m !! p with Some a => al_twake a | None => 0 end.

Definition by_twake (m : gmap Z alarm) (p q : Z) : Prop := twake_of m p <= twake_of m q.

(** The sleep list is [l]: linked, without repetition, in order of wake-up. *)
Record asleep (m : gmap Z alarm) (h : Z) (l : list Z) : Prop := {
  as_seg : aseg m h l;
  as_nodup : NoDup l;
  as_sorted : StronglySorted (by_twake m) l
}.

(** Insertion before the first alarm that does not wake earlier. *)
Fixpoint ins (key : Z -> Z) (t al : Z) (l : list Z) : list Z :=
  match l with
  | [] => [al]
  | q :: l' => if t <=? key q then al :: l else q :: ins key t al l'
  end.

Lemma ins_perm key t al l : ins key t al l ≡ₚ al :: l.
Proof.
  induction l as [|q l IH]; [done|]. cbn [ins]. destruct (t <=? key q); [done|].
  rewrite IH. apply Permutation_swap.
Qed.

Lemma aseg_frame m m' h l : aseg m h l -> (forall p, p ∈ l -> m' !! p = m !! p) -> aseg m' h l.
Proof.
  revert h. induction l as [|p l IH]; intros h Hs Heq; [done|].
  destruct Hs as (-> & Hp & a & Ha & Hs). split; [done|]. split; [done|].
  exists a. rewrite Heq by set_solver. split; [done|]. apply IH; [done|]. set_solver.
Qed.

Lemma aseg_in m h l p : aseg m h l -> p ∈ l -> p <> NULL /\ exists a, m !! p = Some a.
Proof.
  revert h. induction l as [|q l IH]; intros h Hs Hp; [by apply not_elem_of_nil in Hp|].
  destruct Hs as (_ & Hq & a & Ha & Hs). apply elem_of_cons in Hp as [->|Hp]; eauto.
Qed.

Lemma aseg_fun m h l l' : aseg m h l -> aseg m h l' -> l = l'.
Proof.
  revert h l'. induction l as [|p l IH]; intros h [|q l'] H1 H2; [done|..].
  - destruct H2 as (-> & Hq & _). by simpl in H1.
  - destruct H1 as (-> & Hp & _). by simpl in H2.
  - destruct H1 as (-> & _ & b & Hb & H1), H2 as (<- & _ & b' & Hb' & H2).
    rewrite Hb in Hb'. injection Hb' as <-. f_equal. by eapply IH.
Qed.

Lemma aseg_size m h l : aseg m h l -> NoDup l -> (length l <= size m)%nat.
Proof.
  intros Hs Hnd. rewrite <- (size_list_to_set (C := gset Z) l) by done.
  rewrite <- size_dom. apply subseteq_size. intros p Hp.
  apply elem_of_list_to_set in Hp. destruct (aseg_in _ _ _ _ Hs Hp) as (_ & a & Ha).
  by apply elem_of_dom_2 in Ha.
Qed.

Lemma sorted_ext m m' l :
  StronglySorted (by_twake m) l -> (forall p, p ∈ l -> twake_of m' p = twake_of m p) ->
  StronglySorted (by_twake m') l.
Proof.
  induction 1 as [|p l Hs IH Hf]; intros Heq; constructor.
  - apply IH. set_solver.
  - rewrite Forall_forall in Hf |- *. intros q Hq. unfold by_twake.
    rewrite !Heq by set_solver. by apply Hf.
Qed.

Lemma ins_sorted m al l :
  StronglySorted (by_twake m) l -> StronglySorted (by_twake m) (ins (twake_of m) (twake_of m al) al l).
Proof.
  induction 1 as [|q l Hs IH Hf]; cbn [ins]; [repeat constructor|].
  destruct (twake_of m al <=? twake_of m q) eqn:E.
  - apply Z.leb_le in E. constructor; [by constructor|]. constructor; [done|].
    rewrite Forall_forall in Hf |- *. intros r Hr. specialize (Hf r Hr). unfold by_twake in *. lia.
  - apply Z.leb_gt in E. constructor; [done|]. rewrite ins_perm. constructor; [unfold by_twake; lia|done].
Qed.

Lemma alarm_get_eq p a s : alarms s !! p = Some a -> alarm_get p s = Done a s.
Proof. unfold alarm_get. by intros ->. Qed.
Lemma alarm_set_eq p f a s :
  alarms s !! p = Some a -> alarm_set p f s = Done tt (set_alarms (<[p := f a]> (alarms s)) s).
Proof. unfold alarm_set. by intros ->. Qed.

Lemma set_alarms_twice m m' s : set_alarms m (set_alarms m' s) = set_alarms m s.
Proof. done. Qed.
Lemma set_alarms_self s : set_alarms (alarms s) s = s.
Proof. by destruct s. Qed.

(** Linking [al] after [p]. *)
Lemma link_after m p al l a pa :
  p <> NULL -> al <> NULL -> al <> p -> al ∉ l -> p ∉ l -> m !! al = Some a -> m !! p = Some pa ->
  aseg m (al_next pa) l ->
  aseg (<[p := with_next al pa]> (<[al := with_next (al_next pa) a]> m)) p (p :: al :: l).
Proof.
  intros Hp Hal Hne Hin Hpin Ha Hpa Hs. split; [done|]. split; [done|].
  exists (with_next al pa). rewrite lookup_insert_eq. split; [done|].
  split; [done|]. split; [done|]. exists (with_next (al_next pa) a).
  rewrite lookup_insert_ne by done. rewrite lookup_insert_eq. split; [done|].
  eapply aseg_frame; [exact Hs|]. intros q Hq.
  rewrite !lookup_insert_ne; [done|by intros ->|by intros ->].
Qed.

Definition tail_check (al prev : Z) : M tmstate unit :=
  p <- alarm_get prev ;;
  if al_next p =? NULL then alarm_set al (with_next NULL) ;; alarm_set prev (with_next al) else ret tt.

Lemma set_two p al f g a pa s :
  al <> p -> alarms s !! al = Some a -> alarms s !! p = Some pa ->
  (alarm_set al f ;; alarm_set p g) s = Done tt (set_alarms (<[p := g pa]> (<[al := f a]> (alarms s))) s).
Proof.
  intros Hne Ha Hp. mstep (alarm_set_eq al f a s Ha).
  rewrite (alarm_set_eq p g pa); [done|]. cbn. by rewrite lookup_insert_ne.
Qed.

Lemma insert_loop_ok al a t : forall fuel p l s,
  al <> NULL -> alarms s !! al = Some a -> aseg (alarms s) p (p :: l) -> NoDup (p :: l) -> al ∉ p :: l ->
  (length l < fuel)%nat ->
  exists m', (prev <- insert_loop fuel al t p ;; tail_check al prev) s = Done tt (set_alarms m' s) /\
    aseg m' p (p :: ins (twake_of (alarms s)) t al l) /\
    (forall q, q ∉ al :: p :: l -> m' !! q = alarms s !! q) /\
    (forall q, al_twake <$> m' !! q = al_twake <$> alarms s !! q).
Proof.
  induction fuel as [|fuel IH]; intros p l s Hal Ha Hs Hnd Hin Hf; [lia|].
  pose proof Hs as (_ & Hp & pa & Hpa & Hl). inversion_clear Hnd as [|? ? Hpl Hnd'].
  assert (Hne : al <> p) by set_solver. assert (Hall : al ∉ l) by set_solver.
  assert (Hlink : forall l', aseg (alarms s) (al_next pa) l' -> (forall q, q ∈ l' -> q ∈ l) ->
    let m' := <[p := with_next al pa]> (<[al := with_next (al_next pa) a]> (alarms s)) in
    aseg m' p (p :: al :: l') /\ (forall q, q ∉ al :: p :: l -> m' !! q = alarms s !! q) /\
    (forall q, al_twake <$> m' !! q = al_twake <$> alarms s !! q)).
  { intros l' Hl' Hsub m'. split; [|split].
    - apply link_after; auto.
    - intros q Hq. unfold m'. rewrite !lookup_insert_ne; [done|set_solver|set_solver].
    - intros q. unfold m'. rewrite !lookup_insert.
      repeat case_decide; subst; rewrite ?Ha, ?Hpa; done. }
  cbn [insert_loop]. rewrite bind_assoc. mstep (alarm_get_eq p pa s Hpa).
  destruct l as [|q l].
  - simpl in Hl. rewrite (proj2 (Z.eqb_eq _ _) Hl). unfold bind at 1, ret at 1.
    unfold tail_check. mstep (alarm_get_eq p pa s Hpa). rewrite (proj2 (Z.eqb_eq _ _) Hl).
    eexists. rewrite (set_two p al _ _ a pa s Hne Ha Hpa). split; [reflexivity|].
    rewrite <- Hl. by apply Hlink.
  - pose proof Hl as (Eq & Hq & qa & Hqa & Hl'). rewrite Eq in *.
    rewrite (proj2 (Z.eqb_neq _ _) Hq). rewrite bind_assoc. mstep (alarm_get_eq q qa s Hqa).
    cbn [ins]. unfold twake_of at 1. rewrite Hqa. destruct (t <=? al_twake qa).
    + destruct (Hlink (q :: l)) as (H1 & H2 & H3); [exact Hl|auto|].
      eexists. split; [|split; [exact H1|split; [exact H2|exact H3]]].
      rewrite bind_assoc. mstep (alarm_set_eq al (with_next q) a s Ha).
      rewrite bind_assoc.
      mstep (alarm_set_eq p (with_next al) pa (set_alarms (<[al := with_next q a]> (alarms s)) s)
        ltac:(cbn; by rewrite lookup_insert_ne)).
      unfold bind at 1, ret at 1. unfold tail_check. rewrite set_alarms_twice. cbn [alarms set_alarms].
      mstep (alarm_get_eq p (with_next al pa) (set_alarms (<[p := with_next al pa]> (<[al := with_next q a]> (alarms s))) s)
        (lookup_insert_eq _ _ _)).
      cbn [with_next al_next]. by rewrite (proj2 (Z.eqb_neq _ _) Hal).
    + destruct (IH q l s Hal Ha) as (m' & E & Hseg & Hfr & Htw); [exact Hl|done|set_solver|simpl in Hf; lia|].
      exists m'. split; [exact E|]. split; [|split; [|done]].
      * split; [done|]. split; [done|]. exists pa. rewrite Hfr by set_solver. split; [done|]. by rewrite Eq.
      * intros r Hr. apply Hfr. set_solver.
Qed.

(** ** [alarm_sleep] *)

Lemma on_ts_Done {A} (c : M tstate A) s a t : c (ts s) = Done a t -> on_ts c s = Done a (set_ts t s).
Proof. unfold on_ts, lift. by intros ->. Qed.

Lemma twake_of_ext m m' p : al_twake <$> m' !! p = al_twake <$> m !! p -> twake_of m' p = twake_of m p.
Proof. unfold twake_of. destruct (m !! p), (m' !! p); cbn; congruence. Qed.

(** The new wake-up time. *)
Definition new_twake (a : alarm) (tcnt : Z) : Z := Z.min UINT64_MAX (al_twake a + tcnt).

(** What an insertion does to the state: only links, the head, and the compare
    register when the new alarm is the first and due before the next tick. *)
Record inserted (s s' : tmstate) (al : Z) (l l' : list Z) : Prop := {
  in_list : asleep (alarms s') (sleep_list s') l';
  in_twake : forall q, twake_of (alarms s') q = twake_of (alarms s) q;
  in_frame : forall q, q ∉ al :: l -> alarms s' !! q = alarms s !! q;
  in_tick : next_tick s' = next_tick s;
  in_ts : ts s' = ts s;
  in_cmp : mtcmp s' = if bool_decide (head l' = Some al) && (twake_of (alarms s) al <? next_tick s)
                      then twake_of (alarms s) al else mtcmp s
}.

Lemma asleep_ins m m' h l al :
  asleep m h l -> al ∉ l -> (forall q, twake_of m' q = twake_of m q) ->
  forall h', aseg m' h' (ins (twake_of m) (twake_of m al) al l) ->
  asleep m' h' (ins (twake_of m) (twake_of m al) al l).
Proof.
  intros [Hs Hnd Hso] Hin Htw h' Hs'. constructor; [done| |].
  - rewrite ins_perm. by constructor.
  - eapply sorted_ext; [by apply ins_sorted|]. auto.
Qed.

Lemma alarm_insert_ok s al a l :
  asleep (alarms s) (sleep_list s) l -> al <> NULL -> al ∉ l -> alarms s !! al = Some a ->
  exists s', alarm_insert al (al_twake a) s = Done tt s' /\
    inserted s s' al l (ins (twake_of (alarms s)) (al_twake a) al l).
Proof.
  intros HA Hal Hin Ha. assert (Et : twake_of (alarms s) al = al_twake a) by (unfold twake_of; by rewrite Ha).
  unfold alarm_insert. unfold bind at 1, gets at 1. pose proof (as_seg _ _ _ HA) as Hs.
  assert (Hhead : ins (twake_of (alarms s)) (al_twake a) al l = al :: l ->
    exists s', (alarm_set al (with_next (sleep_list s)) ;;
       modify (set_sleep_list al) ;;
       nt <- gets next_tick ;;
       if al_twake a <? nt then modify (set_mtcmp (al_twake a)) ;; modify csrs_sie_stie else ret tt) s = Done tt s' /\
     inserted s s' al l (ins (twake_of (alarms s)) (al_twake a) al l)).
  { intros Hb. rewrite Hb. mstep (alarm_set_eq al (with_next (sleep_list s)) a s Ha).
    unfold bind at 1, modify at 1. unfold bind at 1, gets at 1. cbn [next_tick set_sleep_list set_alarms].
    set (m' := <[al := with_next (sleep_list s) a]> (alarms s)).
    assert (Htw : forall q, twake_of m' q = twake_of (alarms s) q).
    { intros q. apply twake_of_ext. unfold m'. rewrite lookup_insert. case_decide; [|done]. subst q. by rewrite Ha. }
    assert (HA' : asleep m' al (al :: l)).
    { rewrite <- Hb, <- Et. eapply asleep_ins; [exact HA|done|done|].
      rewrite Et, Hb. split; [done|]. split; [done|]. eexists. split; [apply lookup_insert_eq|].
      eapply aseg_frame; [exact Hs|]. intros q Hq. unfold m'. rewrite lookup_insert_ne; [done|by intros ->]. }
    assert (Hfr : forall q, q ∉ al :: l -> m' !! q = alarms s !! q).
    { intros q Hq. unfold m'. rewrite lookup_insert_ne; [done|set_solver]. }
    destruct (al_twake a <? next_tick s) eqn:El; eexists; (split; [reflexivity|]); constructor; try done;
      rewrite Et, El, ?andb_false_r; cbn; by rewrite ?bool_decide_eq_true_2. }
  destruct l as [|h l].
  { simpl in Hs. rewrite (proj2 (Z.eqb_eq _ _) Hs). unfold bind at 1, ret at 1. by apply Hhead. }
  pose proof Hs as (Eh & Hh & ha & Hha & Hl).
  assert (Hth : twake_of (alarms s) h = al_twake ha) by (unfold twake_of; by rewrite Hha).
  rewrite Eh in *. rewrite (proj2 (Z.eqb_neq _ _) Hh). rewrite bind_assoc. mstep (alarm_get_eq h ha s Hha).
  unfold bind at 1, ret at 1. destruct (al_twake a <=? al_twake ha) eqn:El.
  { apply Hhead. cbn [ins]. by rewrite Hth, El. }
  unfold sleep_insert. unfold bind at 1, gets at 1. unfold bind at 1, gets at 1. rewrite Eh.
  pose proof (as_nodup _ _ _ HA) as Hnd.
  destruct (insert_loop_ok al a (al_twake a) (size (alarms s)) h l s Hal Ha Hs Hnd Hin) as (m' & E & Hseg & Hfr & Htw).
  { pose proof (aseg_size _ _ _ Hs Hnd) as Hsz. simpl in Hsz. lia. }
  exists (set_alarms m' s). split; [exact E|].
  assert (Hins : ins (twake_of (alarms s)) (al_twake a) al (h :: l) = h :: ins (twake_of (alarms s)) (al_twake a) al l).
  { cbn [ins]. by rewrite Hth, El. }
  assert (Htw' : forall q, twake_of m' q = twake_of (alarms s) q) by (intros q; by apply twake_of_ext).
  constructor; try done.
  - rewrite <- Et. eapply asleep_ins; [exact HA|done|done|]. rewrite Et, Hins. cbn [sleep_list set_alarms]. by rewrite Eh.
  - rewrite Hins. cbn. rewrite bool_decide_eq_false_2; [done|]. intros [= ->]. set_solver.
Qed.

(** The part of [alarm_sleep] before the insertion. *)
Lemma alarm_sleep_eq al tcnt now a s :
  alarms s !! al = Some a ->
  let tw := new_twake a tcnt in
  let s1 := set_alarms (<[al := with_twake tw a]> (alarms s)) s in
  alarm_sleep al tcnt now s =
  if tw <? now then Done false s1
  else (on_ts intr_disable ;; alarm_insert al tw ;; on_ts (condition_wait al) ;; ret true) s1.
Proof.
  intros Ha tw s1. unfold alarm_sleep. mstep (alarm_get_eq al a s Ha).
  assert (Etw : (if UINT64_MAX - al_twake a <? tcnt then UINT64_MAX else al_twake a + tcnt) = tw).
  { unfold tw, new_twake. destruct (Z.ltb_spec (UINT64_MAX - al_twake a) tcnt); lia. }
  rewrite Etw. mstep (alarm_set_eq al (with_twake tw) a s Ha). fold s1.
  mstep (alarm_get_eq al (with_twake tw a) s1 (lookup_insert_eq _ _ _)). cbv zeta. cbn [with_twake al_twake].
  by destruct (tw <? now).
Qed.

Lemma asleep_retime m h l al a t :
  asleep m h l -> al ∉ l -> m !! al = Some a -> asleep (<[al := with_twake t a]> m) h l.
Proof.
  intros [H1 H2 H3] Hin Ha. constructor; [|done|].
  - eapply aseg_frame; [exact H1|]. intros p Hp. rewrite lookup_insert_ne; [done|by intros ->].
  - eapply sorted_ext; [exact H3|]. intros p Hp. unfold twake_of. rewrite lookup_insert_ne; [done|by intros ->].
Qed.

(** [alarm_sleep] moves the alarm's wake-up time by [tcnt], saturating at
    UINT64_MAX; when that time has passed it returns at once.  Otherwise the
    alarm is inserted into the sleep list, which stays linked and sorted by
    wake-up time with every other alarm in it, and the caller is suspended on the
    alarm's condition with interrupts disabled across insertion and wait, so no
    timer interrupt falls between them. *)
Theorem alarm_sleep_correct s l al a tcnt now n rl wl :
  asleep (alarms s) (sleep_list s) l -> al <> NULL -> al ∉ l -> alarms s !! al = Some a ->
  running (ts s) (n :: rl) wl ->
  let tw := new_twake a tcnt in
  (tw < now -> exists s', alarm_sleep al tcnt now s = Done false s' /\ ts s' = ts s /\
     asleep (alarms s') (sleep_list s') l /\ alarms s' !! al = Some (with_twake tw a)) /\
  (now <= tw -> exists s' l', alarm_sleep al tcnt now s = Done true s' /\
     asleep (alarms s') (sleep_list s') l' /\ l' ≡ₚ al :: l /\
     twake_of (alarms s') al = tw /\ (forall q, q <> al -> twake_of (alarms s') q = twake_of (alarms s) q) /\
     running (ts s') rl (wl_append wl al (curthr (ts s))) /\ curthr (ts s') = n /\
     saved_sie (ts s') !! curthr (ts s) = Some false /\
     status (thr (ts s')) (curthr (ts s)) = Some (THREAD_WAITING, al)).
Proof.
  intros HA Hal Hin Ha HR tw. rewrite (alarm_sleep_eq al tcnt now a s Ha). fold tw.
  set (s1 := set_alarms (<[al := with_twake tw a]> (alarms s)) s).
  assert (HA1 := asleep_retime _ _ _ al a tw HA Hin Ha).
  split; intros Hn.
  - rewrite (proj2 (Z.ltb_lt tw now) Hn). exists s1. split; [done|]. split; [done|].
    split; [done|apply lookup_insert_eq].
  - rewrite (proj2 (Z.ltb_ge tw now) Hn).
    mstep (on_ts_Done intr_disable s1 _ _ (intr_disable_eq (ts s1))).
    set (s2 := set_ts (set_sie false (ts s1)) s1).
    destruct (alarm_insert_ok s2 al (with_twake tw a) l HA1 Hal Hin (lookup_insert_eq _ _ _)) as (s3 & E3 & HI).
    cbn [with_twake al_twake] in E3, HI. mstep E3.
    assert (HR3 : running (ts s3) (n :: rl) wl).
    { rewrite (in_ts _ _ _ _ _ HI). destruct HR as [HS Hc]. split; [by apply sched_set_sie|done]. }
    destruct (condition_wait_step (ts s3) n rl wl al HR3) as (t' & Ew & HR' & Hsw & Hst).
    assert (Hc3 : curthr (ts s3) = curthr (ts s)) by (by rewrite (in_ts _ _ _ _ _ HI)).
    rewrite Hc3 in HR', Hst.
    mstep (on_ts_Done (condition_wait al) s3 tt t' Ew). eexists _, _. split; [reflexivity|].
    assert (Htw : forall q, twake_of (alarms s3) q = twake_of (<[al := with_twake tw a]> (alarms s)) q)
      by apply (in_twake _ _ _ _ _ HI).
    split; [apply (in_list _ _ _ _ _ HI)|]. split; [apply ins_perm|].
    cbn [alarms set_ts ts]. split; [rewrite Htw; unfold twake_of; by rewrite lookup_insert_eq|].
    split; [intros q Hq; rewrite Htw; unfold twake_of; by rewrite lookup_insert_ne|].
    split; [done|]. split; [apply (sw_cur _ _ _ Hsw)|]. split; [|done].
    rewrite (sw_saved _ _ _ Hsw), Hc3, lookup_insert_eq. by rewrite (in_ts _ _ _ _ _ HI).
Qed.

(** Two alarms asleep at 100 and 300. *)
Definition demo_timer : tmstate :=
  MkTm (<[64 := MkAlarm 128 100]> (<[128 := MkAlarm NULL 300]> (<[192 := MkAlarm NULL 50]> ∅)))
    64 TICK_PERIOD 100 true true demo_spawned.

Lemma demo_sleepers : asleep (alarms demo_timer) (sleep_list demo_timer) [64; 128].
Proof.
  constructor.
  - split; [done|]. split; [done|]. eexists. split; [by vm_compute|].
    split; [done|]. split; [done|]. eexists. by split; [by vm_compute|].
  - repeat constructor; set_solver.
  - repeat constructor; by vm_compute.
Qed.

Lemma alarm_sleep_correct_witness :
  exists s' l', alarm_sleep 192 150 60 demo_timer = Done true s' /\
    asleep (alarms s') (sleep_list s') l' /\ l' ≡ₚ [192; 64; 128].
Proof.
  destruct (alarm_sleep_correct demo_timer [64; 128] 192 (MkAlarm NULL 50) 150 60 demo_idle [12288] (fun _ => [])
    demo_sleepers) as [_ H].
  - done.
  - set_solver.
  - by vm_compute.
  - apply demo_spawned_running.
  - destruct H as (s' & l' & E & HA & Hp & _); [by vm_compute|]. by exists s', l'.
Defined.

(** ** The timer interrupt *)

(** Wait queues after the conditions of [due] are broadcast in turn. *)
Definition wl_clear_all (wl : Z -> list Z) (due : list Z) : Z -> list Z :=
  fun c => if decide (c ∈ due) then [] else wl c.

Definition woken_threads (wl : Z -> list Z) (due : list Z) : list Z := concat (wl <$> due).

Lemma sched_wl_ext s R rl wl wl' : sched s R rl wl -> (forall c, wl' c = wl c) -> sched s R rl wl'.
Proof.
  intros [H1 H2 H3 H4 H5 H6 H7 H8] H. constructor; auto; intros c; rewrite H; auto.
Qed.

Lemma woken_threads_clear wl p due :
  p ∉ due -> woken_threads (wl_clear wl p) due = woken_threads wl due.
Proof.
  unfold woken_threads. induction due as [|q due IH]; intros Hp; [done|]. cbn. f_equal.
  - unfold wl_clear. rewrite decide_False; [done|set_solver].
  - apply IH. set_solver.
Qed.

Lemma wake_due_ok now : forall fuel l h s rl wl,
  asleep (alarms s) h l -> (length l <= fuel)%nat -> running (ts s) rl wl ->
  exists due rest h' s', l = due ++ rest /\ wake_due fuel h now s = Done h' s' /\
    asleep (alarms s') h' rest /\
    Forall (fun p => twake_of (alarms s) p <= now) due /\ Forall (fun p => now < twake_of (alarms s) p) rest /\
    (forall q, twake_of (alarms s') q = twake_of (alarms s) q) /\
    running (ts s') (rl ++ woken_threads wl due) (wl_clear_all wl due) /\
    curthr (ts s') = curthr (ts s) /\ sie (ts s') = sie (ts s) /\
    next_tick s' = next_tick s /\ mtcmp s' = mtcmp s.
Proof.
  induction fuel as [|fuel IH]; intros l h s rl wl [Hs Hnd Hso] Hf HR.
  1: destruct l; [|simpl in Hf; lia]. 2: destruct l as [|p l].
  1, 2: simpl in Hs; subst h; exists [], [], NULL, s; split; [done|]; split; [done|]; split; [constructor; [done|constructor|constructor]|];
    split; [constructor|]; split; [constructor|]; split; [done|]; split; [|done];
    rewrite app_nil_r; destruct HR as [HS Hc]; split; [|done];
    eapply sched_wl_ext; [exact HS|]; intros c; unfold wl_clear_all; rewrite decide_False; [done|set_solver].
  destruct Hs as (-> & Hp & a & Ha & Hs). inversion_clear Hnd as [|? ? Hin Hnd'].
  inversion_clear Hso as [|? ? Hso' Hall].
  assert (Htp : twake_of (alarms s) p = al_twake a) by (unfold twake_of; by rewrite Ha).
  cbn [wake_due]. rewrite (proj2 (Z.eqb_neq _ _) Hp). mstep (alarm_get_eq p a s Ha).
  destruct (Z.leb_spec (al_twake a) now) as [Hle|Hgt].
  - pose proof HR as [HS Hc].
    destruct (condition_broadcast_step (ts s) _ rl wl p HS) as (t' & E & HS' & C1 & C2 & C3 & C4 & C5 & C6 & C7 & C8).
    mstep (on_ts_Done (condition_broadcast p) s tt t' E).
    mstep (alarm_get_eq p a (set_ts t' s) Ha). mstep (alarm_set_eq p (with_next NULL) a (set_ts t' s) Ha).
    set (s1 := set_alarms (<[p := with_next NULL a]> (alarms s)) (set_ts t' s)).
    assert (Htw1 : forall q, twake_of (alarms s1) q = twake_of (alarms s) q).
    { intros q. apply twake_of_ext. cbn. rewrite lookup_insert. case_decide; [subst; by rewrite Ha|done]. }
    assert (HR1 : running (ts s1) (rl ++ wl p) (wl_clear wl p)).
    { unfold running, cur_state. cbn. rewrite C1. split; [done|]. destruct Hc as [w Hw]. exists w.
      rewrite C8, decide_False; [done|]. rewrite (sc_wl _ _ _ _ HS), Hw. done. }
    assert (HA1 : asleep (alarms s1) (al_next a) l).
    { constructor; [|done|].
      - eapply aseg_frame; [exact Hs|]. intros q Hq. cbn. rewrite lookup_insert_ne; [done|by intros ->].
      - eapply sorted_ext; [exact Hso'|]. auto. }
    destruct (IH l (al_next a) s1 _ _ HA1 ltac:(simpl in Hf; lia) HR1)
      as (due & rest & h' & s' & -> & E' & HA' & Hd & Hr & Htw & HR' & D1 & D2 & D3 & D4).
    exists (p :: due), rest, h', s'. split; [done|]. split; [exact E'|]. split; [done|].
    assert (Hpd : p ∉ due) by set_solver.
    split; [constructor; [lia|]; rewrite Forall_forall in Hd |- *; intros q Hq; rewrite <- Htw1; by apply Hd|].
    split; [rewrite Forall_forall in Hr |- *; intros q Hq; rewrite <- Htw1; by apply Hr|].
    split; [intros q; by rewrite Htw|]. split; [|rewrite D1, D2, D3, D4; done].
    rewrite woken_threads_clear, <- app_assoc in HR' by done.
    destruct HR' as [HS2 Hc2]. split; [|done]. eapply sched_wl_ext; [exact HS2|].
    intros c. unfold wl_clear_all, wl_clear. repeat case_decide; set_solver.
  - exists [], (p :: l), p, s. split; [done|]. split; [done|].
    split; [constructor; [split; [done|]; split; [done|]; eauto|by constructor|by constructor]|].
    split; [constructor|]. split; [constructor; [lia|]|].
    { rewrite Forall_forall in Hall |- *. intros q Hq. specialize (Hall q Hq). unfold by_twake in Hall. lia. }
    split; [done|]. split; [|done]. rewrite app_nil_r. destruct HR as [HS Hc]. split; [|done].
    eapply sched_wl_ext; [exact HS|]. intros c. unfold wl_clear_all. rewrite decide_False; [done|set_solver].
Qed.

(** The timer will interrupt no later than any sleeping alarm is due. *)
Definition deadline (s : tmstate) (l : list Z) : Prop :=
  mtcmp s <= next_tick s /\ Forall (fun p => mtcmp s <= twake_of (alarms s) p) l.

Lemma sorted_head_le m p l t :
  StronglySorted (by_twake m) (p :: l) -> t <= twake_of m p -> Forall (fun q => t <= twake_of m q) (p :: l).
Proof.
  intros Hso Ht. inversion_clear Hso as [|? ? _ Hall]. constructor; [done|].
  rewrite Forall_forall in Hall |- *. intros q Hq. specialize (Hall q Hq). unfold by_twake in Hall. lia.
Qed.

Lemma timer_intr_run s l rl wl now :
  asleep (alarms s) (sleep_list s) l -> running (ts s) rl wl ->
  exists due rest s', l = due ++ rest /\ timer_intr_handler now s = Done tt s' /\
    Forall (fun p => twake_of (alarms s) p <= now) due /\ Forall (fun p => now < twake_of (alarms s) p) rest /\
    asleep (alarms s') (sleep_list s') rest /\ deadline s' rest /\
    next_tick s' = (if next_tick s <? now then w64 (next_tick s + TICK_PERIOD) else next_tick s) /\
    mtcmp s' = match rest with [] => next_tick s' | p :: _ => Z.min (twake_of (alarms s) p) (next_tick s') end /\
    running (ts s') (rl ++ woken_threads wl due) (wl_clear_all wl due) /\
    curthr (ts s') = curthr (ts s) /\ sie (ts s') = sie (ts s).
Proof.
  intros HA HR.
  destruct (wake_due_ok now (size (alarms s)) l (sleep_list s) s rl wl HA) as
    (due & rest & h' & s1 & El & E & HA' & Hd & Hr & Htw & HR' & D1 & D2 & D3 & D4); [|done|].
  { eapply aseg_size; apply HA. }
  set (s2 := if next_tick s1 <? now then set_next_tick (w64 (next_tick s1 + TICK_PERIOD)) s1 else s1).
  assert (E2 : timer_intr_handler now s =
    (nt' <- gets next_tick ;;
     if h' =? NULL then modify (set_mtcmp nt') else
     h <- alarm_get h' ;;
     if al_twake h <? nt' then modify (set_mtcmp (al_twake h)) else modify (set_mtcmp nt')) (set_sleep_list h' s2)).
  { unfold timer_intr_handler. unfold bind at 1, gets at 1. unfold bind at 1, gets at 1. mstep E.
    unfold bind at 1, gets at 1. unfold s2. by destruct (next_tick s1 <? now). }
  assert (Hs2 : alarms s2 = alarms s1 /\ ts s2 = ts s1) by (unfold s2; by destruct (next_tick s1 <? now)).
  assert (Hnt : next_tick s2 = (if next_tick s <? now then w64 (next_tick s + TICK_PERIOD) else next_tick s))
    by (unfold s2; rewrite D3; destruct (next_tick s <? now); [done|exact D3]).
  destruct Hs2 as [Ea Et]. exists due, rest. rewrite E2. unfold bind at 1, gets.
  destruct rest as [|p rest].
  - pose proof (as_seg _ _ _ HA') as Hh. simpl in Hh. rewrite (proj2 (Z.eqb_eq _ _) Hh).
    eexists. split; [done|]. split; [reflexivity|]. split; [done|]. split; [done|].
    cbn [alarms sleep_list ts set_mtcmp set_sleep_list]. rewrite Ea, Et.
    split; [done|]. split; [split; [cbn; lia|constructor]|]. split; [exact Hnt|]. split; [done|done].
  - pose proof (as_seg _ _ _ HA') as (-> & Hp & a & Ha & _). rewrite (proj2 (Z.eqb_neq _ _) Hp).
    mstep (alarm_get_eq p a (set_sleep_list p s2) ltac:(cbn; by rewrite Ea)).
    assert (Htp : twake_of (alarms s1) p = al_twake a) by (unfold twake_of; by rewrite Ha).
    eexists. split; [done|]. cbn [next_tick set_sleep_list]. split.
    { destruct (al_twake a <? next_tick s2) eqn:Elt; unfold modify.
      - instantiate (1 := set_mtcmp (Z.min (al_twake a) (next_tick s2)) (set_sleep_list p s2)).
        apply Z.ltb_lt in Elt. by rewrite Z.min_l by lia.
      - apply Z.ltb_ge in Elt. by rewrite Z.min_r by lia. }
    split; [done|]. split; [done|]. cbn [alarms sleep_list ts set_mtcmp set_sleep_list]. rewrite Ea, Et.
    split; [done|]. split; [|split; [exact Hnt|split; [cbn; by rewrite <- Htw, Htp|done]]].
    split; cbn [mtcmp next_tick set_mtcmp set_sleep_list alarms]; [lia|].
    rewrite Ea. apply sorted_head_le; [apply (as_sorted _ _ _ HA')|lia].
Qed.

(** C37: The timer interrupt at time [now] wakes exactly the alarms that are due:
    the threads waiting on each alarm with wake-up time at most [now] become
    ready, in order of wake-up time, and every later alarm stays asleep in the sorted
    list.  The next tick moves by one period exactly when it has passed, and the
    compare register is set to the earlier of the next tick and the first remaining
    alarm, so the timer interrupts no later than any alarm is due. *)
Theorem timer_intr_correct s l rl wl now :
  asleep (alarms s) (sleep_list s) l -> running (ts s) rl wl ->
  exists due rest s', l = due ++ rest /\ timer_intr_handler now s = Done tt s' /\
    Forall (fun p => twake_of (alarms s) p <= now) due /\ Forall (fun p => now < twake_of (alarms s) p) rest /\
    asleep (alarms s') (sleep_list s') rest /\ deadline s' rest /\
    next_tick s' = (if next_tick s <? now then w64 (next_tick s + TICK_PERIOD) else next_tick s) /\
    mtcmp s' = match rest with [] => next_tick s' | p :: _ => Z.min (twake_of (alarms s) p) (next_tick s') end /\
    running (ts s') (rl ++ woken_threads wl due) (wl_clear_all wl due) /\
    curthr (ts s') = curthr (ts s) /\ sie (ts s') = sie (ts s).
Proof. apply timer_intr_run. Qed.

Lemma timer_intr_correct_witness :
  exists due rest s', [64; 128] = due ++ rest /\ timer_intr_handler 200 demo_timer = Done tt s' /\
    asleep (alarms s') (sleep_list s') rest.
Proof.
  destruct (timer_intr_correct demo_timer [64; 128] _ _ 200 demo_sleepers demo_spawned_running)
    as (due & rest & s' & El & E & _ & _ & HA & _).
  by exists due, rest, s'.
Defined.

(** Going to sleep keeps the deadlines covered. *)
Lemma sleep_deadline s l al a tcnt now n rl wl s' l' :
  asleep (alarms s) (sleep_list s) l -> al <> NULL -> al ∉ l -> alarms s !! al = Some a ->
  running (ts s) (n :: rl) wl -> deadline s l ->
  alarm_sleep al tcnt now s = Done true s' -> asleep (alarms s') (sleep_list s') l' -> deadline s' l'.
Proof.
  intros HA Hal Hin Ha HR [Hd1 Hd2]. rewrite (alarm_sleep_eq al tcnt now a s Ha). set (tw := new_twake a tcnt).
  set (s1 := set_alarms (<[al := with_twake tw a]> (alarms s)) s).
  assert (HA1 := asleep_retime _ _ _ al a tw HA Hin Ha).
  destruct (tw <? now); [done|]. mstep (on_ts_Done intr_disable s1 _ _ (intr_disable_eq (ts s1))).
  set (s2 := set_ts (set_sie false (ts s1)) s1).
  destruct (alarm_insert_ok s2 al (with_twake tw a) l HA1 Hal Hin (lookup_insert_eq _ _ _)) as (s3 & E3 & HI).
  cbn [with_twake al_twake] in E3, HI. mstep E3. unfold bind, on_ts, lift.
  destruct (condition_wait al (ts s3)) as [[] t'| | | | |]; try done. intros [= <-]. cbn [alarms sleep_list set_ts].
  intros HA3. destruct HI as [G1 G2 G3 G4 G5 G6].
  set (li := ins (twake_of (alarms s2)) tw al l) in *.
  assert (Et : twake_of (alarms s2) al = tw) by (unfold twake_of; cbn; by rewrite lookup_insert_eq).
  assert (Hl' : l' = li).
  { eapply aseg_fun; [apply (as_seg _ _ _ HA3)|apply (as_seg _ _ _ G1)]. }
  subst l'. unfold deadline. cbn [mtcmp next_tick alarms set_ts]. rewrite G4, G6, Et.
  change (next_tick s2) with (next_tick s). change (mtcmp s2) with (mtcmp s).
  assert (Hold : forall q, q ∈ l -> mtcmp s <= twake_of (alarms s3) q).
  { intros q Hq. rewrite G2. cbn. unfold twake_of. rewrite lookup_insert_ne by (by intros ->).
    rewrite Forall_forall in Hd2. by apply Hd2. }
  assert (Hal3 : twake_of (alarms s3) al = tw) by (by rewrite G2).
  destruct (bool_decide (head li = Some al)) eqn:Eh; cbn [andb].
  - apply bool_decide_eq_true_1 in Eh. destruct (tw <? next_tick s) eqn:El.
    + apply Z.ltb_lt in El. split; [lia|]. destruct li as [|x li']; [done|]. cbn in Eh. injection Eh as ->.
      apply sorted_head_le; [apply (as_sorted _ _ _ G1)|lia].
    + apply Z.ltb_ge in El. split; [done|]. unfold li. rewrite ins_perm. constructor; [lia|].
      rewrite Forall_forall. auto.
  - split; [done|]. unfold li in *. destruct l as [|q l]; [by rewrite bool_decide_eq_true_2 in Eh|].
    cbn [ins] in *. destruct (tw <=? twake_of (alarms s2) q) eqn:Eq; [by rewrite bool_decide_eq_true_2 in Eh|].
    apply sorted_head_le; [apply (as_sorted _ _ _ G1)|]. apply Hold. set_solver.
Qed.

(** *** Every run of the timer *)

(** Steps that involve the timer: its interrupt; a thread initialises, resets or
    sleeps on an alarm that is not in the sleep list; and operations of the thread
    manager in between. *)
Definition awake (s : tmstate) (al : Z) : Prop :=
  al <> NULL /\ forall l, asleep (alarms s) (sleep_list s) l -> al ∉ l.

Inductive tstep : tmstate -> tmstate -> Prop :=
| T_intr now s s' : timer_intr_handler now s = Done tt s' -> tstep s s'
| T_init al now s s' : awake s al -> cond_list (ts s) al = tlclear -> alarm_init al now s = Done tt s' -> tstep s s'
| T_reset al now s s' : awake s al -> alarm_reset al now s = Done tt s' -> tstep s s'
| T_sleep al tcnt now b s s' : awake s al -> curthr (ts s) <> idle_thr (ts s) ->
    alarm_sleep al tcnt now s = Done b s' -> tstep s s'
| T_thread o t s : allowed (ts s) o -> run_op o (ts s) = Done tt t -> tstep s (set_ts t s).

Inductive truns : tmstate -> tmstate -> Prop :=
| TR_refl s : truns s s
| TR_step s1 s2 s3 : truns s1 s2 -> tstep s2 s3 -> truns s1 s3.

(** The state of timer and threads; [covered] when the compare register is early
    enough for every sleeper. *)
Definition timer_ok (s : tmstate) : Prop :=
  exists l rl wl, asleep (alarms s) (sleep_list s) l /\ sinv (ts s) rl wl.
Definition covered (s : tmstate) : Prop :=
  exists l rl wl, asleep (alarms s) (sleep_list s) l /\ sinv (ts s) rl wl /\ deadline s l.

Lemma sinv_set_sie v t rl wl : sinv t rl wl -> sinv (set_sie v t) rl wl.
Proof. intros [[HS Hc] A1 A2 A3 A4 A5 A6]. constructor; auto. split; [by apply sched_set_sie|done]. Qed.

Lemma wake_due_sinv now fuel : forall h s h' s' rl wl,
  sinv (ts s) rl wl -> wake_due fuel h now s = Done h' s' -> exists rl' wl', sinv (ts s') rl' wl'.
Proof.
  induction fuel as [|fuel IH]; intros h s h' s' rl wl HI; cbn [wake_due]; destruct (h =? NULL); unfold ret;
    try (intros [= <- <-]; eauto); try done; try discriminate.
  unfold bind at 1. destruct (alarms s !! h) as [a|] eqn:Ea; [rewrite (alarm_get_eq _ _ _ Ea)|unfold alarm_get; by rewrite Ea].
  destruct (al_twake a <=? now); [|intros [= <- <-]; eauto].
  destruct (sinv_broadcast (ts s) rl wl h HI) as (t & E & HI'). mstep (on_ts_Done _ s _ _ E).
  mstep (alarm_get_eq h a (set_ts t s) Ea). mstep (alarm_set_eq h (with_next NULL) a (set_ts t s) Ea). eapply IH; exact HI'.
Qed.

Lemma intr_sinv now s s' rl wl :
  sinv (ts s) rl wl -> timer_intr_handler now s = Done tt s' -> exists rl' wl', sinv (ts s') rl' wl'.
Proof.
  intros HI. unfold timer_intr_handler. unfold bind at 1, gets at 1. unfold bind at 1, gets at 1.
  intros (h & s1 & E & H)%bind_inv_Done. destruct (wake_due_sinv _ _ _ _ _ _ _ _ HI E) as (rl' & wl' & HI').
  exists rl', wl'. replace (ts s') with (ts s1); [done|]. unfold bind, gets, modify, ret in H.
  destruct (next_tick s1 <? now), (h =? NULL); try (by injection H as <-); unfold alarm_get in H; cbn in H;
    destruct (alarms s1 !! h); try done; destruct (_ <? _); by injection H as <-.
Qed.

(** Each interrupt establishes the deadlines. *)
Lemma intr_covered now s s' : timer_ok s -> timer_intr_handler now s = Done tt s' -> covered s'.
Proof.
  intros (l & rl & wl & HA & HI) E. destruct (intr_sinv now s s' rl wl HI E) as (rl' & wl' & HI').
  destruct (timer_intr_run s l rl wl now HA (si_run _ _ _ HI)) as (due & rest & s2 & _ & E2 & _ & _ & HA' & Hd & _).
  rewrite E in E2. injection E2 as <-. by exists rest, rl', wl'.
Qed.

(** What an alarm outside of the list does not change. *)
Lemma deadline_same s s' l :
  deadline s l -> mtcmp s' = mtcmp s -> next_tick s' = next_tick s ->
  (forall p, p ∈ l -> alarms s' !! p = alarms s !! p) -> deadline s' l.
Proof.
  intros [H1 H2] E1 E2 E3. split; [by rewrite E1, E2|]. rewrite Forall_forall in H2 |- *. intros p Hp.
  rewrite E1. unfold twake_of. rewrite E3 by done. by apply H2.
Qed.

Lemma asleep_same m m' h l : asleep m h l -> (forall p, p ∈ l -> m' !! p = m !! p) -> asleep m' h l.
Proof.
  intros [H1 H2 H3] E. constructor; [by eapply aseg_frame|done|].
  eapply sorted_ext; [exact H3|]. intros p Hp. unfold twake_of. by rewrite E.
Qed.

Lemma sleep_covered al tcnt now b s s' :
  covered s -> awake s al -> curthr (ts s) <> idle_thr (ts s) -> alarm_sleep al tcnt now s = Done b s' -> covered s'.
Proof.
  intros (l & rl & wl & HA & HI & Hd) [Hal Hin] Hidle E. specialize (Hin l HA).
  destruct (alarms s !! al) as [a|] eqn:Ha; [|unfold alarm_sleep, bind, alarm_get in E; by rewrite Ha in E].
  destruct (sinv_ready_cons _ _ _ HI) as (n & rl' & ->); [done|].
  destruct (alarm_sleep_correct s l al a tcnt now n rl' wl HA Hal Hin Ha (si_run _ _ _ HI)) as [H1 H2].
  destruct (Z.lt_ge_cases (new_twake a tcnt) now) as [Hlt|Hge].
  - destruct (H1 Hlt) as (s2 & E2 & Ht & HA2 & _). rewrite E in E2. injection E2 as -> <-.
    exists l, (n :: rl'), wl. split; [done|]. split; [by rewrite Ht|].
    rewrite (alarm_sleep_eq al tcnt now a s Ha), (proj2 (Z.ltb_lt _ _) Hlt) in E. injection E as <-.
    eapply deadline_same; [exact Hd|done|done|]. intros p Hp. cbn. rewrite lookup_insert_ne; [done|by intros ->].
  - destruct (H2 Hge) as (s2 & l' & E2 & HA2 & _ & _ & _ & HR2 & Hc2 & _). rewrite E in E2. injection E2 as -> <-.
    exists l', rl', (wl_append wl al (curthr (ts s))). split; [done|]. split.
    + rewrite (alarm_sleep_eq al tcnt now a s Ha), (proj2 (Z.ltb_ge _ _) Hge) in E.
      set (s1 := set_alarms _ s) in E. rewrite (bind_Done _ _ _ _ _ (on_ts_Done intr_disable s1 _ _ (intr_disable_eq (ts s1)))) in E.
      destruct (alarm_insert_ok (set_ts (set_sie false (ts s1)) s1) al (with_twake (new_twake a tcnt) a) l
        (asleep_retime _ _ _ al a _ HA Hin Ha) Hal Hin (lookup_insert_eq _ _ _)) as (s3 & E3 & HI3).
      cbn [with_twake al_twake] in E3. rewrite (bind_Done _ _ _ _ _ E3) in E.
      assert (HS3 : sinv (ts s3) (n :: rl') wl) by (rewrite (in_ts _ _ _ _ _ HI3); by apply sinv_set_sie).
      destruct (condition_wait_step (ts s3) n rl' wl al (si_run _ _ _ HS3)) as (t & Ew & HR & Hsw & _).
      rewrite (bind_Done _ _ _ _ _ (on_ts_Done (condition_wait al) s3 tt t Ew)) in E. unfold ret in E. injection E as <-.
      rewrite (in_ts _ _ _ _ _ HI3) in *. eapply sinv_switched; [exact HS3|exact Hsw|exact HR|].
      destruct (si_idle _ _ _ HI); [done|]. cbn. set_solver.
    + eapply (sleep_deadline s l al a tcnt now n rl' wl); try done. apply (si_run _ _ _ HI).
Qed.

Lemma covered_step s s' : covered s -> tstep s s' -> covered s'.
Proof.
  intros HC Hs. destruct Hs as [now s s' E|al now s s' [Hal Hin] Hcl E|al now s s' [Hal Hin] E|al tcnt now b s s' Hw Hi E|o t s Ha E].
  - eapply intr_covered; [|exact E]. destruct HC as (l & rl & wl & HA & HI & _). by exists l, rl, wl.
  - destruct HC as (l & rl & wl & HA & HI & Hd). specialize (Hin l HA). injection E as <-.
    assert (Hf : forall p, p ∈ l -> <[al := MkAlarm NULL now]> (alarms s) !! p = alarms s !! p)
      by (intros p Hp; rewrite lookup_insert_ne; [done|by intros ->]).
    exists l, rl, wl. split; [by eapply asleep_same|]. split; [|by eapply deadline_same].
    destruct HI as [[HS Hc] A1 A2 A3 A4 A5 A6]. constructor; auto. split; [|done].
    apply sched_clear_cond; [done|]. by eapply empty_no_waiters.
  - destruct HC as (l & rl & wl & HA & HI & Hd). specialize (Hin l HA). unfold alarm_reset, alarm_set in E.
    destruct (alarms s !! al) as [a|]; [|done]. injection E as <-.
    assert (Hf : forall p, p ∈ l -> <[al := with_twake now a]> (alarms s) !! p = alarms s !! p)
      by (intros p Hp; rewrite lookup_insert_ne; [done|by intros ->]).
    exists l, rl, wl. split; [by eapply asleep_same|]. split; [done|by eapply deadline_same].
  - by eapply sleep_covered.
  - destruct HC as (l & rl & wl & HA & HI & Hd). destruct (sinv_op (ts s) rl wl o HI Ha) as (t2 & rl' & wl' & E2 & HI').
    rewrite E in E2. injection E2 as <-. by exists l, rl', wl'.
Qed.

(** C38: From the first timer interrupt on, in every run of timer interrupts, sleeps,
    initialisations and resets of alarms that are not asleep and operations of
    threads, the compare register is never later than the next tick or the wake-up
    time of any sleeping alarm: no alarm is missed.  The interrupt establishes this
    from any state.  Before the first interrupt it does not hold
    ([first_alarm_late]): [timer_init] sets the compare register to the first tick but
    leaves [next_tick] at 0. *)
Theorem alarm_deadlines_covered s0 s1 s now :
  timer_ok s0 -> timer_intr_handler now s0 = Done tt s1 -> truns s1 s ->
  exists l, asleep (alarms s) (sleep_list s) l /\ mtcmp s <= next_tick s /\
    forall p, p ∈ l -> mtcmp s <= twake_of (alarms s) p.
Proof.
  intros H0 E Hr. assert (HC : covered s).
  { pose proof (intr_covered now s0 s1 H0 E) as H1. clear H0 E. revert H1.
    induction Hr as [|s1 s2 s3 _ IH Hs]; intros H1; [done|]. exact (covered_step s2 s3 (IH H1) Hs). }
  destruct HC as (l & _ & _ & HA & _ & [H1 H2]). exists l. split; [done|]. split; [done|].
  rewrite Forall_forall in H2. exact H2.
Qed.

(** Before the first timer interrupt an alarm is late: after [timer_init] the compare
    register is at the first tick and [next_tick] is 0, so [alarm_sleep] does not move
    it although the alarm is due earlier. *)
Theorem first_alarm_late s al a tcnt now n rl wl :
  sleep_list s = NULL -> next_tick s = 0 -> al <> NULL -> alarms s !! al = Some a -> running (ts s) (n :: rl) wl ->
  0 <= now <= new_twake a tcnt -> new_twake a tcnt < TICK_PERIOD ->
  exists s', alarm_sleep al tcnt now (timer_init s) = Done true s' /\ asleep (alarms s') (sleep_list s') [al] /\
    mtcmp s' = TICK_PERIOD /\ twake_of (alarms s') al < mtcmp s'.
Proof.
  intros Hsl Hnt Hal Ha HR Hn Hlt. set (i := timer_init s).
  assert (HA : asleep (alarms i) (sleep_list i) []) by (constructor; [exact Hsl|constructor|constructor]).
  destruct (alarm_sleep_correct i [] al a tcnt now n rl wl HA Hal ltac:(set_solver) Ha HR) as [_ H].
  destruct H as (s' & l' & E & HA' & Hp & Htw & _); [lia|].
  apply Permutation_singleton_r in Hp as ->.
  assert (Hm : mtcmp s' = TICK_PERIOD).
  { rewrite (alarm_sleep_eq al tcnt now a i Ha), (proj2 (Z.ltb_ge _ _)) in E by lia.
    set (s1 := set_alarms _ i) in E. rewrite (bind_Done _ _ _ _ _ (on_ts_Done intr_disable s1 _ _ (intr_disable_eq (ts s1)))) in E.
    destruct (alarm_insert_ok (set_ts (set_sie false (ts s1)) s1) al (with_twake (new_twake a tcnt) a) []
      (asleep_retime _ _ _ al a _ HA ltac:(set_solver) Ha) Hal ltac:(set_solver) (lookup_insert_eq _ _ _)) as (s3 & E3 & HI3).
    cbn [with_twake al_twake] in E3. rewrite (bind_Done _ _ _ _ _ E3) in E. unfold bind, on_ts, lift in E.
    destruct (condition_wait al (ts s3)) as [[] t'| | | | |]; try done. injection E as <-. cbn [mtcmp set_ts].
    rewrite (in_cmp _ _ _ _ _ HI3). cbn [next_tick set_ts set_alarms s1]. change (next_tick i) with (next_tick s). rewrite Hnt.
    replace (twake_of _ al <? 0) with false; [by rewrite andb_false_r|]. symmetry. apply Z.ltb_ge.
    unfold twake_of. cbn. rewrite lookup_insert_eq. cbn. lia. }
  exists s'. split; [done|]. split; [done|]. split; [done|]. rewrite Hm, Htw. done.
Qed.

Definition fresh_timer : tmstate := MkTm {[ 64 := MkAlarm NULL 100 ]} NULL 0 0 false false demo_spawned.

Lemma first_alarm_late_witness :
  exists s', alarm_sleep 64 400 200 (timer_init fresh_timer) = Done true s' /\ mtcmp s' = 200000 /\
    twake_of (alarms s') 64 < mtcmp s'.
Proof.
  destruct (first_alarm_late fresh_timer 64 (MkAlarm NULL 100) 400 200 demo_idle [12288] (fun _ => []))
    as (s' & E & _ & Hm & Ht); [reflexivity|reflexivity|done|reflexivity|apply demo_spawned_running|by vm_compute|by vm_compute|].
  exists s'. split; [exact E|]. split; [exact Hm|exact Ht].
Defined.

(** An interrupt at 200 wakes the first of two sleepers, then a third alarm goes to
    sleep. *)
Lemma alarm_deadlines_covered_witness :
  exists s1 s, timer_intr_handler 200 demo_timer = Done tt s1 /\ alarm_sleep 192 400 210 s1 = Done true s /\
    exists l, asleep (alarms s) (sleep_list s) l /\ forall p, p ∈ l -> mtcmp s <= twake_of (alarms s) p.
Proof.
  assert (H0 : timer_ok demo_timer) by (exists [64; 128], [demo_idle; 12288], (fun _ => []); split; [exact demo_sleepers|exact demo_spawned_sinv]).
  destruct (timer_intr_run demo_timer [64; 128] _ _ 200 demo_sleepers demo_spawned_running)
    as (due & rest & s1 & El & E1 & Hd & Hr & HA1 & _ & _ & _ & _).
  assert (rest = [128]) as ->.
  { destruct due as [|x [|y [|z due]]]; cbn in El; simplify_eq.
    - apply Forall_cons_1 in Hr as [Hr _]. by vm_compute in Hr.
    - done.
    - apply Forall_cons_1 in Hd as [_ Hd]. apply Forall_cons_1 in Hd as [Hd _]. by vm_compute in Hd. }
  assert (Es : s1 = match timer_intr_handler 200 demo_timer with Done _ s => s | _ => demo_timer end) by (by rewrite E1).
  assert (Hc : match alarm_sleep 192 400 210 s1 with Done b _ => b | _ => false end = true) by (rewrite Es; by vm_compute).
  assert (Hi : bool_decide (curthr (ts s1) = idle_thr (ts s1)) = false) by (rewrite Es; by vm_compute).
  destruct (alarm_sleep 192 400 210 s1) as [[] s| | | | |] eqn:E2; try discriminate Hc.
  exists s1, s. split; [exact E1|]. split; [exact E2|].
  destruct (alarm_deadlines_covered demo_timer s1 s 200 H0 E1) as (l & HA & _ & Hl); [|by exists l].
  eapply TR_step; [apply TR_refl|]. eapply (T_sleep 192 400 210 true); [|exact (bool_decide_eq_false_1 _ Hi)|exact E2].
  split; [done|]. intros l Hl. assert (l = [128]) as ->; [|apply (bool_decide_eq_true_1 (192 ∉ [128])); reflexivity].
  eapply aseg_fun; [apply (as_seg _ _ _ Hl)|apply (as_seg _ _ _ HA1)].
Defined.
