(* ===== verification/CString.v ===== *)
(** * Strings and formatting (string.c)

    A C string is the list of its characters before the terminating NUL, so
    reading the first character of the empty list gives 0; a character buffer is
    a list of its bytes.  Output of the printf family goes through a callback;
    the model collects the characters passed to it, in order, as a list. *)

From stdpp Require Import base gmap list strings numbers.
From Stdlib Require Import Lia ZArith.
From S2P Require Import Prelude.
Local Open Scope Z_scope.

(** [*s] *)
Definition chr (s : list Z) : Z := hd 0 s.

(** The characters of a string constant. *)
Definition chars (s : string) : list Z := (fun c => Z.of_N (Ascii.N_of_ascii c)) <$> String.list_ascii_of_string s.

(** ** Comparison and copying *)

(** Pointers may be NULL ([None]). *)
Fixpoint strcmp_loop (s1 s2 : list Z) : Z :=
  if (chr s1 =? chr s2) && negb (chr s1 =? 0)
  then match s1, s2 with
       | _ :: t1, _ :: t2 => strcmp_loop t1 t2
       | _, _ => 0
       end
  else if chr s1 <? chr s2 then -1 else if chr s2 <? chr s1 then 1 else 0.

Definition strcmp (s1 s2 : option (list Z)) : Z :=
  match s1, s2 with
  | None, None => 0
  | None, Some _ => -1
  | Some _, None => 1
  | Some a, Some b => strcmp_loop a b
  end.

Fixpoint strncmp (s1 s2 : list Z) (n : nat) : Z :=
  match n with
  | O => 0
  | S n' =>
      if negb (chr s1 =? 0) && (chr s1 =? chr s2)
      then strncmp (tl s1) (tl s2) n'
      else chr s1 - chr s2
  end.

(** [strncpy(dst, src, n)]: the bytes of [dst] from its start. *)
Fixpoint strncpy (dst src : list Z) (n : nat) : list Z :=
  match n with
  | O => dst
  | S n' =>
      if chr src =? 0 then 0 :: tl dst
      else chr src :: strncpy (tl dst) (tl src) n'
  end.

Fixpoint strchr (s : list Z) (c : Z) : option (list Z) :=
  match s with
  | [] => None
  | x :: s' => if x =? w8 c then Some s else strchr s' c
  end.

(** The characters of a buffer up to its first NUL. *)
Fixpoint cstring (buf : list Z) : list Z :=
  match buf with
  | [] => []
  | c :: buf' => if c =? 0 then [] else c :: cstring buf'
  end.

(** ** Numbers *)

(** The digit loop of [format_int]: characters are stored from the end of
    [buf[40]]; [room] is the space left in front. *)
Fixpoint digit_loop (room : nat) (val base : Z) (acc : list Z) : option (list Z) :=
  match room with
  | O => None   (* a store before the start of buf *)
  | S room' =>
      let d := val mod base in
      let val' := val / base in
      let acc' := (if d <? 10 then 48 + d else 97 + d - 10) :: acc in
      if val' =? 0 then Some acc' else digit_loop room' val' base acc'
  end.

Definition format_int (val base : Z) (zpad : bool) (len : Z) : option (list Z) :=
  match digit_loop 40 val base [] with
  | None => None
  | Some ds =>
      Some (replicate (Z.to_nat (len - Z.of_nat (length ds))) (if zpad then 48 else 32) ++ ds)
  end.

Definition null_text : list Z := [40; 110; 117; 108; 108; 41].  (* "(null)" *)

Definition format_str (s : option (list Z)) (len : Z) : list Z :=
  let s' := default null_text s in
  s' ++ replicate (Z.to_nat (len - Z.of_nat (length s'))) 32.

(** [parse_int]; [None] when the value overflows an [int]. *)
Fixpoint parse_loop (str : list Z) (result : Z) : option Z :=
  match str with
  | [] => Some result
  | c :: str' =>
      if (c <? 48) || (57 <? c) then Some (-1) else
      let result' := result * 10 + (c - 48) in
      if 2147483647 <? result' then None else parse_loop str' result'
  end.

Definition parse_int (str : list Z) : option Z := parse_loop str 0.

(** ** [vgprintf] *)

(** One variable argument: a register-sized slot, read as the type the
    conversion asks for, or a string. *)
Inductive arg := AInt (bits : Z) | AStr (s : option (list Z)).

Definition is_digit (c : Z) : bool := (48 <=? c) && (c <=? 57).

(** The width loop: the value (an unsigned int, which wraps) and the rest. *)
Fixpoint parse_width (p : list Z) (len : Z) : Z * list Z :=
  match p with
  | c :: p' => if is_digit c then parse_width p' (w32 (10 * len + (c - 48))) else (len, p)
  | [] => (len, p)
  end.

Fixpoint count_l (p : list Z) (lcnt : Z) : Z * list Z :=
  match p with
  | c :: p' => if c =? 108 then count_l p' (lcnt + 1) else (lcnt, p)
  | [] => (lcnt, p)
  end.

(** Both [size_t] and [intmax_t] have the size of [long] and [long long], so
    the [z] and [j] prefixes count as two [l]s. *)
Definition length_prefix (p : list Z) (lcnt : Z) : Z * list Z :=
  if (chr p =? 122) || (chr p =? 106) then (2, tl p) else (lcnt, p).

Definition va_signed (lcnt : Z) (a : arg) : option Z :=
  match a with
  | AInt b => Some (if 0 <? lcnt then s64 b else s32 b)
  | AStr _ => None
  end.
Definition va_unsigned (lcnt : Z) (a : arg) : option Z :=
  match a with
  | AInt b => Some (if 0 <? lcnt then w64 b else w32 b)
  | AStr _ => None
  end.

(** One conversion, at its specifier character [*p]: its output and the
    arguments left.  [None]: undefined behaviour (a missing argument or one of
    the wrong type). *)
Definition convert (c : Z) (zpad : bool) (len lcnt : Z) (args : list arg) : option (list Z * list arg) :=
  if c =? 100 then            (* d *)
    match args with
    | a :: args' =>
        match va_signed lcnt a with
        | Some ival =>
            if ival <? 0
            then (fun o => (45 :: o, args')) <$>
                 format_int (w64 (- ival)) 10 zpad (if 0 <? len then len - 1 else len)
            else (fun o => (o, args')) <$> format_int ival 10 zpad len
        | None => None
        end
    | [] => None
    end
  else if (c =? 117) || (c =? 120) then   (* u, x *)
    match args with
    | a :: args' =>
        match va_unsigned lcnt a with
        | Some ival => (fun o => (o, args')) <$> format_int ival (if c =? 120 then 16 else 10) zpad len
        | None => None
        end
    | [] => None
    end
  else if c =? 115 then       (* s *)
    match args with
    | AStr s :: args' => Some (format_str s len, args')
    | _ => None
    end
  else if c =? 112 then       (* p *)
    match args with
    | AInt b :: args' =>
        (fun o => (format_str (Some [48; 120]) 2 ++ o, args')) <$> format_int (w64 b) 16 zpad len
    | _ => None
    end
  else Some ([37; if (c <? 32) || (127 <=? c) then 63 else c], args).

(** The main loop; [fuel] bounds the characters of the format. *)
Fixpoint vgprintf_loop (fuel : nat) (p : list Z) (args : list arg) : option (list Z) :=
  match fuel with
  | O => match p with [] => Some [] | _ => None end
  | S fuel' =>
      match p with
      | [] => Some []
      | c :: p' =>
          if c =? 37 then
            let '(len, p1) := parse_width p' 0 in
            let '(lcnt, p2) := count_l p1 0 in
            let '(lcnt', p3) := length_prefix p2 lcnt in
            match convert (chr p3) (chr p' =? 48) len lcnt' args with
            | Some (o, args') => (fun o' => o ++ o') <$> vgprintf_loop fuel' (tl p3) args'
            | None => None
            end
          else (fun o' => c :: o') <$> vgprintf_loop fuel' p' args
      end
  end.

Definition vgprintf (fmt : list Z) (args : list arg) : option (list Z) := vgprintf_loop (length fmt) fmt args.

(** [vsnprintf_putc]: the state is the buffer written so far and [rem]. *)
Definition vsnprintf_putc (st : list Z * Z) (c : Z) : list Z * Z :=
  let '(out, rem) := st in
  if rem <=? 1 then st else (out ++ [c], rem - 1).

(** The bytes stored at the start of [buf], and the result. *)
Definition vsnprintf (bufsz : Z) (fmt : list Z) (args : list arg) : option (list Z * Z) :=
  match vgprintf fmt args with
  | None => None
  | Some o =>
      let '(out, rem) := foldl vsnprintf_putc ([], bufsz) o in
      Some (if rem =? 0 then out else out ++ [0], Z.of_nat (length o))
  end.

(** ** Lemmas: comparison *)

(** C strings hold no NUL. *)
Definition cstr (s : list Z) : Prop := Forall (fun c => 0 < c < 256) s.

Lemma cstr_chr s : cstr s -> chr s = 0 <-> s = [].
Proof.
  intros H. destruct s as [|c s]; [done|]. inversion_clear H. cbn. split; [lia|done].
Qed.

Lemma strncmp_prefix n : forall s1 s2, cstr s1 -> cstr s2 ->
  strncmp s1 s2 n = 0 <-> take n s1 = take n s2.
Proof.
  induction n as [|n IH]; intros s1 s2 H1 H2; [done|]. cbn [strncmp].
  destruct s1 as [|a s1], s2 as [|b s2]; cbn; [done|..].
  - inversion_clear H2. split; [lia|done].
  - inversion_clear H1. rewrite (proj2 (Z.eqb_neq a 0)) by lia. cbn. split; [lia|done].
  - inversion_clear H1 as [|? ? Ha H1']. inversion_clear H2 as [|? ? Hb H2'].
    rewrite (proj2 (Z.eqb_neq a 0)) by lia. cbn. destruct (Z.eqb_spec a b) as [->|Hab].
    + rewrite IH by done. split; [by intros ->|by intros [= ->]].
    + split; [lia|congruence].
Qed.

(** Copying [n] bytes into a longer buffer that ends in NUL gives the first [n]
    characters of the source. *)
Lemma cstring_strncpy n : forall dst src, (n < length dst)%nat -> cstr (cstring src) ->
  cstring (<[n := 0]> (strncpy dst (cstring src) n)) = take n (cstring src).
Proof.
  intros dst src. generalize (cstring src). clear src. intros src. revert dst src.
  induction n as [|n IH]; intros dst src Hl Hc.
  - destruct dst; [simpl in Hl; lia|]. done.
  - destruct dst as [|d dst]; [simpl in Hl; lia|]. cbn [strncpy]. destruct src as [|c src]; [done|].
    inversion_clear Hc as [|? ? Hc0 Hc']. cbn [chr hd]. rewrite (proj2 (Z.eqb_neq c 0)) by lia.
    cbn [tl]. cbn. rewrite (proj2 (Z.eqb_neq c 0)) by lia. f_equal. apply IH; [simpl in Hl; lia|done].
Qed.

(** ** Lemmas: numbers *)

Definition digit_value (c : Z) : Z := if c <? 58 then c - 48 else c - 87.

(** The value of a digit string, most significant digit first. *)
Definition value_of (base : Z) (ds : list Z) : Z := foldl (fun v c => v * base + digit_value c) 0 ds.

Lemma foldl_value base ds : forall v,
  foldl (fun v c => v * base + digit_value c) v ds = v * base ^ Z.of_nat (length ds) + value_of base ds.
Proof.
  unfold value_of. induction ds as [|d ds IH] using rev_ind; intros v; [simpl; lia|].
  rewrite !foldl_app, length_app, Nat2Z.inj_add. cbn [foldl length]. rewrite (IH v).
  rewrite Z.pow_add_r by lia. change (Z.of_nat 1) with 1. rewrite Z.pow_1_r. ring.
Qed.

Lemma value_cons base d ds :
  value_of base (d :: ds) = digit_value d * base ^ Z.of_nat (length ds) + value_of base ds.
Proof. unfold value_of at 1. cbn [foldl]. rewrite foldl_value. ring. Qed.

Definition digit_char (d : Z) : Z := if d <? 10 then 48 + d else 97 + d - 10.

Lemma digit_value_char d : 0 <= d < 36 -> digit_value (digit_char d) = d.
Proof.
  intros H. unfold digit_char, digit_value. destruct (Z.ltb_spec d 10).
  - rewrite (proj2 (Z.ltb_lt (48 + d) 58)) by lia. lia.
  - rewrite (proj2 (Z.ltb_ge (97 + d - 10) 58)) by lia. lia.
Qed.

(** [c] is a digit character of [base]. *)
Definition is_digit_char (base c : Z) : Prop := exists d, 0 <= d < base /\ c = digit_char d.

(** The digit loop: it needs one byte per digit, and the digits stored denote
    the value. *)
Lemma digit_loop_ok base : 2 <= base <= 36 -> forall room val acc,
  0 <= val < base ^ Z.of_nat room -> (0 < room)%nat ->
  exists ds, digit_loop room val base acc = Some (ds ++ acc) /\ (0 < length ds <= room)%nat /\
    value_of base ds = val /\ Forall (is_digit_char base) ds /\
    (0 < val -> base ^ Z.of_nat (length ds - 1) <= val) /\ (val = 0 -> ds = [48]).
Proof.
  intros Hb. induction room as [|room IH]; intros val acc Hv Hr; [lia|]. cbn [digit_loop].
  assert (Hm := Z.mod_pos_bound val base ltac:(lia)). assert (Hdm := Z.div_mod val base ltac:(lia)).
  assert (Hq : 0 <= val / base) by (apply Z.div_pos; lia).
  set (c := if val mod base <? 10 then 48 + val mod base else 97 + val mod base - 10).
  assert (Hc : digit_value c = val mod base) by (apply digit_value_char; lia).
  assert (Hcd : is_digit_char base c) by (by exists (val mod base)).
  destruct (Z.eqb_spec (val / base) 0) as [E|E].
  - exists [c]. split; [done|]. split; [simpl; lia|]. rewrite value_cons. cbn.
    rewrite Hc. split; [lia|]. split; [by repeat constructor|]. split; [intros; lia|].
    intros Hz. unfold c. rewrite Hz. rewrite Zmod_0_l. done.
  - assert (Hval : 0 < val) by nia.
    assert (Hlt : val / base < base ^ Z.of_nat room).
    { apply Z.div_lt_upper_bound; [lia|]. rewrite Nat2Z.inj_succ, Z.pow_succ_r in Hv by lia. lia. }
    destruct room as [|room']; [simpl in Hlt; lia|].
    destruct (IH (val / base) (c :: acc)) as (ds & Eq & Hlen & Hval' & Hall & Hmin & _); [lia|lia|].
    exists (ds ++ [c]). rewrite <- app_assoc. split; [done|]. rewrite length_app. cbn [length].
    split; [lia|]. split; [|split; [|split]].
    + unfold value_of. rewrite foldl_app. cbn [foldl]. fold (value_of base ds). rewrite Hval', Hc. lia.
    + apply Forall_app. split; [done|by repeat constructor].
    + intros _. specialize (Hmin ltac:(lia)). replace (length ds + 1 - 1)%nat with (S (length ds - 1)) by lia.
      rewrite Nat2Z.inj_succ, Z.pow_succ_r by lia. nia.
    + lia.
Qed.

Lemma pow_mono_le b n : 2 <= b -> 2 ^ Z.of_nat n <= b ^ Z.of_nat n.
Proof. intros H. apply Z.pow_le_mono_l. lia. Qed.

(** [format_int] on a 64-bit value in base 10 or 16 never runs out of its
    40-byte buffer (at most 20 digits); the digits are those of the base, denote
    the value and have no leading zero, and the output is padded with the
    requested character to the width. *)
Theorem format_int_correct val base zpad len :
  0 <= val < 2 ^ 64 -> base = 10 \/ base = 16 ->
  exists ds, format_int val base zpad len =
      Some (replicate (Z.to_nat (len - Z.of_nat (length ds))) (if zpad then 48 else 32) ++ ds) /\
    (0 < length ds <= 20)%nat /\ value_of base ds = val /\ Forall (is_digit_char base) ds /\
    (val = 0 -> ds = [48]) /\ (0 < val -> hd 0 ds <> 48).
Proof.
  intros Hv Hbase. assert (Hb : 2 <= base <= 36) by lia.
  destruct (digit_loop_ok base Hb 40 val []) as (ds & E & Hlen & Hval & Hall & Hmin & Hz).
  { split; [lia|]. destruct Hbase as [->| ->]; [assert (2 ^ 64 < 10 ^ Z.of_nat 40) by done|assert (2 ^ 64 < 16 ^ Z.of_nat 40) by done]; lia. }
  { lia. }
  exists ds. unfold format_int. rewrite E, app_nil_r. split; [done|].
  assert (H20 : (length ds <= 20)%nat).
  { destruct (Z.eq_dec val 0) as [E0|E0]; [rewrite Hz by done; simpl; lia|].
    specialize (Hmin ltac:(lia)). destruct (decide (length ds <= 20)%nat) as [?|Hgt]; [done|].
    assert (Hp : base ^ 20 <= base ^ Z.of_nat (length ds - 1)) by (apply Z.pow_le_mono_r; lia).
    assert (2 ^ 64 < base ^ 20) by (destruct Hbase as [->| ->]; done). lia. }
  split; [lia|]. split; [done|]. split; [done|]. split; [done|]. intros Hpos Hhd.
  destruct ds as [|d ds]; [simpl in Hlen; lia|]. cbn in Hhd. subst d.
  rewrite value_cons in Hval. change (digit_value 48) with 0 in Hval.
  specialize (Hmin Hpos). cbn [length] in Hmin. replace (S (length ds) - 1)%nat with (length ds) in Hmin by lia.
  inversion_clear Hall as [|? ? _ Hall'].
  assert (Hub : value_of base ds < base ^ Z.of_nat (length ds)).
  { clear - Hall' Hb. induction Hall' as [|c ds (d & Hd & ->) _ IH]; [done|].
    rewrite value_cons, digit_value_char by lia. cbn [length]. rewrite Nat2Z.inj_succ, Z.pow_succ_r by lia. nia. }
  lia.
Qed.

Lemma format_int_correct_witness :
  exists ds, format_int 255 16 true 4 = Some (replicate (Z.to_nat (4 - Z.of_nat (length ds))) 48 ++ ds) /\
    value_of 16 ds = 255 /\ hd 0 ds <> 48.
Proof.
  destruct (format_int_correct 255 16 true 4) as (ds & E & Hl & Hv & _ & _ & Hh); [lia|lia|].
  exists ds. split; [exact E|]. split; [exact Hv|]. apply Hh. lia.
Defined.

(** ** [parse_int] *)

Lemma digit_char_range d : 0 <= d < 10 -> digit_char d = 48 + d.
Proof. intros H. unfold digit_char. by rewrite (proj2 (Z.ltb_lt d 10)) by lia. Qed.

Lemma value_of_nonneg ds : Forall (is_digit_char 10) ds -> 0 <= value_of 10 ds.
Proof.
  induction 1 as [|c ds (d & Hd & ->) _ IH]; [done|]. rewrite value_cons, digit_value_char by lia.
  assert (0 < 10 ^ Z.of_nat (length ds)) by (apply Z.pow_pos_nonneg; lia). nia.
Qed.

Lemma parse_loop_ok ds : Forall (is_digit_char 10) ds -> forall r, 0 <= r ->
  r * 10 ^ Z.of_nat (length ds) + value_of 10 ds <= 2147483647 ->
  parse_loop ds r = Some (r * 10 ^ Z.of_nat (length ds) + value_of 10 ds).
Proof.
  induction 1 as [|c ds (d & Hd & ->) Hall IH]; intros r Hr Hmax; [cbn; f_equal; lia|].
  assert (Hdv : digit_value (48 + d) = d) by (rewrite <- digit_char_range by lia; apply digit_value_char; lia).
  cbn [parse_loop]. rewrite digit_char_range in Hmax |- * by lia.
  rewrite (proj2 (Z.ltb_ge (48 + d) 48)), (proj2 (Z.ltb_ge 57 (48 + d))) by lia. cbn [orb].
  replace (48 + d - 48) with d by lia.
  rewrite value_cons, Hdv in Hmax |- *. cbn [length] in Hmax |- *. rewrite Nat2Z.inj_succ, Z.pow_succ_r in Hmax |- * by lia.
  assert (Hp : 1 <= 10 ^ Z.of_nat (length ds)) by (pose proof (Z.pow_pos_nonneg 10 (Z.of_nat (length ds))); lia).
  assert (Hvn := value_of_nonneg ds Hall).
  rewrite (proj2 (Z.ltb_ge 2147483647 (r * 10 + d))) by nia.
  rewrite IH by nia. f_equal. ring.
Qed.

Lemma s32_small x : -2147483648 <= x <= 2147483647 -> s32 x = x.
Proof.
  intros H. unfold s32, w32.
  destruct (Z.lt_ge_cases x 0); [rewrite <- (Z.mod_unique x 4294967296 (-1) (x + 4294967296)) by lia|rewrite Z.mod_small by lia];
    zbool; lia.
Qed.

(** A number that is not negative, in decimal behind its padding. *)
Lemma parse_padded val zpad len :
  0 <= val <= 2147483647 ->
  exists s, format_int val 10 zpad len = Some s /\ parse_int s = Some (if chr s =? 32 then -1 else val) /\
    (zpad = true \/ len <= 1 -> chr s <> 32).
Proof.
  intros Hv. destruct (digit_loop_ok 10 ltac:(lia) 40 val []) as (ds & E & Hlen & Hval & Hall & _).
  { split; [lia|]. assert (2147483647 < 10 ^ Z.of_nat 40) by done. lia. } { lia. }
  assert (Hds : parse_int ds = Some val /\ chr ds <> 32).
  { split; [unfold parse_int; rewrite parse_loop_ok by (done || lia); f_equal; lia|].
    destruct ds as [|c ds]; [cbn in Hlen; lia|]. apply Forall_cons_1 in Hall as [(d & Hd & ->) _].
    cbn. rewrite digit_char_range by done. lia. }
  destruct Hds as [Hp Hc]. unfold format_int. rewrite E, app_nil_r. eexists. split; [reflexivity|].
  destruct (Z.to_nat (len - Z.of_nat (length ds))) as [|k] eqn:Ek; cbn [replicate app].
  { by rewrite (proj2 (Z.eqb_neq _ _) Hc). }
  destruct zpad; [|cbn; split; [done|]; intros [?|?]; [done|lia]].
  split; [|done]. cbn [chr hd Z.eqb Pos.eqb]. rewrite <- Hp. unfold parse_int. clear Ek.
  change (parse_loop (replicate k 48 ++ ds) 0 = parse_loop ds 0). induction k as [|k IH]; [done|exact IH].
Qed.

(** C39: Printing a number and reading it back.  [%d] prints every [int], with any
    width and padding, and [parse_int] reads back the numbers that are not negative
    and printed with zeros or without padding; when the number is negative or blanks
    stand in front of it, it returns -1.  A width of at most 1 pads nothing. *)
Theorem parse_format_roundtrip val zpad len :
  -2147483648 <= val <= 2147483647 ->
  exists s, convert 100 zpad len 0 [AInt val] = Some (s, []) /\
    parse_int s = Some (if (val <? 0) || (chr s =? 32) then -1 else val) /\
    (zpad = true \/ len <= 1 -> chr s <> 32).
Proof.
  intros Hv. unfold convert, va_signed. cbn [Z.eqb Pos.eqb Z.ltb Z.compare]. rewrite s32_small by done.
  destruct (Z.ltb_spec val 0) as [Hn|Hn].
  - destruct (digit_loop_ok 10 ltac:(lia) 40 (w64 (- val)) []) as (ds & E & _).
    { pose proof (w64_range (- val)). assert (18446744073709551616 < 10 ^ Z.of_nat 40) by done. lia. } { lia. }
    unfold format_int. rewrite E. by eexists.
  - destruct (parse_padded val zpad len) as (s & E & Hp & Hs); [lia|]. rewrite E. exists s. by split_and!.
Qed.

(** Zeros are read back, blanks and minus signs are not. *)
Lemma parse_format_roundtrip_witness :
  (exists s, convert 100 true 8 0 [AInt 2024] = Some (s, []) /\ parse_int s = Some 2024) /\
  (exists s, convert 100 false 0 0 [AInt (-5)] = Some (s, []) /\ parse_int s = Some (-1)).
Proof.
  split.
  - destruct (parse_format_roundtrip 2024 true 8) as (s & E & P & H); [lia|]. exists s. split; [exact E|].
    rewrite P, (proj2 (Z.eqb_neq _ _) (H (or_introl eq_refl))). reflexivity.
  - destruct (parse_format_roundtrip (-5) false 0) as (s & E & P & _); [lia|]. exists s. split; [exact E|exact P].
Defined.

(** ** [vsnprintf] *)

Lemma putc_fold o : forall out rem, 0 <= rem ->
  foldl vsnprintf_putc (out, rem) o =
  (out ++ take (Z.to_nat (rem - 1)) o, rem - Z.min (Z.of_nat (length o)) (Z.max 0 (rem - 1))).
Proof.
  induction o as [|c o IH]; intros out rem Hr; cbn [foldl].
  - rewrite take_nil, app_nil_r. f_equal. simpl. lia.
  - unfold vsnprintf_putc at 2. destruct (Z.leb_spec rem 1) as [Hle|Hgt].
    + rewrite IH by lia. replace (Z.to_nat (rem - 1)) with 0%nat by lia. rewrite !take_0. f_equal. lia.
    + rewrite IH by lia. replace (Z.to_nat (rem - 1)) with (S (Z.to_nat (rem - 1 - 1))) by lia.
      cbn [take]. rewrite <- app_assoc. f_equal. cbn [length]. lia.
Qed.

(** C40: [vsnprintf] stores at most [bufsz] bytes: the first [bufsz - 1] characters
    of the formatted text, always followed by a NUL when [bufsz] is positive, and
    returns the full length of the text even when it was truncated. *)
Theorem vsnprintf_correct bufsz fmt args o :
  0 <= bufsz -> vgprintf fmt args = Some o ->
  exists stored, vsnprintf bufsz fmt args = Some (stored, Z.of_nat (length o)) /\
    Z.of_nat (length stored) <= bufsz /\
    (bufsz = 0 -> stored = []) /\
    (0 < bufsz -> stored = take (Z.to_nat (bufsz - 1)) o ++ [0]).
Proof.
  intros Hb E. unfold vsnprintf. rewrite E, putc_fold by done. cbn [app].
  set (rem := bufsz - _).
  destruct (Z.eq_dec bufsz 0) as [->|Hn].
  - assert (rem = 0) as -> by (unfold rem; lia). exists []. cbn. rewrite take_0. repeat split; (done || lia).
  - assert (rem <> 0) by (unfold rem; lia). rewrite (proj2 (Z.eqb_neq rem 0)) by done.
    eexists. split; [reflexivity|]. split; [|split; [lia|done]].
    rewrite length_app, length_take. cbn [length]. lia.
Qed.

Definition demo_fmt : list Z := [112; 105; 100; 37; 51; 100; 32; 37; 115].  (* "pid%3d %s" *)
Definition demo_args : list arg := [AInt 7; AStr (Some [105; 100; 108; 101])].

Lemma vsnprintf_correct_witness :
  exists stored, vsnprintf 6 demo_fmt demo_args = Some (stored, 11) /\ stored = [112; 105; 100; 32; 32; 0].
Proof.
  destruct (vsnprintf_correct 6 demo_fmt demo_args [112; 105; 100; 32; 32; 55; 32; 105; 100; 108; 101])
    as (stored & E & _ & _ & H); [lia|by vm_compute|].
  exists stored. split; [exact E|]. by apply H.
Defined.

(** ** Termination of the format loop *)

Lemma parse_width_len p len : (length (snd (parse_width p len)) <= length p)%nat.
Proof.
  revert len. induction p as [|c p IH]; intros len; [done|]. cbn [parse_width].
  destruct (is_digit c); [|done]. specialize (IH (w32 (10 * len + (c - 48)))). simpl. lia.
Qed.

Lemma count_l_len p n : (length (snd (count_l p n)) <= length p)%nat.
Proof.
  revert n. induction p as [|c p IH]; intros n; [done|]. cbn [count_l].
  destruct (c =? 108); [|done]. specialize (IH (n + 1)). simpl. lia.
Qed.

Lemma tl_len (p : list Z) : (length (tl p) <= length p)%nat.
Proof. destruct p; simpl; lia. Qed.

(** More fuel than the length of the format changes nothing. *)
Lemma vgprintf_fuel : forall n m p args,
  (length p <= n)%nat -> (length p <= m)%nat -> vgprintf_loop n p args = vgprintf_loop m p args.
Proof.
  induction n as [|n IH]; intros m p args Hn Hm.
  { destruct p; [|simpl in Hn; lia]. by destruct m. }
  destruct p as [|c p]; [by destruct m|]. destruct m as [|m]; [simpl in Hm; lia|]. simpl in Hn, Hm.
  cbn [vgprintf_loop]. destruct (c =? 37); [|by rewrite (IH m) by lia].
  pose proof (parse_width_len p 0) as H1. destruct (parse_width p 0) as [len p1]. cbn in H1.
  pose proof (count_l_len p1 0) as H2. destruct (count_l p1 0) as [lc p2]. cbn in H2.
  assert (H3 : (length (snd (length_prefix p2 lc)) <= length p2)%nat).
  { unfold length_prefix. destruct (_ || _); cbn; [apply tl_len|lia]. }
  destruct (length_prefix p2 lc) as [lc' p3]. cbn in H3. pose proof (tl_len p3) as H4.
  destruct (convert _ _ _ _ _) as [[o args']|]; [|done]. by rewrite (IH m) by lia.
Qed.

Lemma format_int_some val base zpad len :
  0 <= val < 2 ^ 64 -> base = 10 \/ base = 16 -> exists s, format_int val base zpad len = Some s.
Proof.
  intros Hv Hbase. destruct (digit_loop_ok base ltac:(lia) 40 val []) as (ds & E & _).
  { split; [lia|]. destruct Hbase as [-> | ->];
      [assert (2 ^ 64 < 10 ^ Z.of_nat 40) by done|assert (2 ^ 64 < 16 ^ Z.of_nat 40) by done]; lia. }
  { lia. }
  unfold format_int. rewrite E. eauto.
Qed.
