(* ===== verification/BlockIo.v ===== *)
(** * The block device interface (struct io_intf, io.h)

    The file system reaches its disk only through [io_ops]: it sets the position
    with the SETPOS control and then reads or writes.  [BlockIo] holds these
    operations; [BlockIoSpec] is what the file system relies on.  [Vioblk] gives
    the instance for the virtio block driver. *)

From stdpp Require Import base list numbers.
From Stdlib Require Import Lia ZArith.
From S2P Require Import Prelude.
Local Open Scope Z_scope.

(** The operations; a read also gives the bytes it stored in the caller's
    buffer. *)
Class BlockIo (B : Type) := {
  bio_setpos : Z -> M B Z;
  bio_read : Z -> M B (Z * list Z);
  bio_write : list Z -> M B Z
}.

(** The [n] bytes of [f] from [p]. *)
Definition bytes_at (f : Z -> Z) (p : Z) (n : nat) : list Z := (fun k => f (p + Z.of_nat k)) <$> seq 0 n.

(** [f] with the bytes of [l] stored from [p]. *)
Definition store_at (f : Z -> Z) (p : Z) (l : list Z) : Z -> Z := fun i =>
  if (p <=? i) && (i <? p + Z.of_nat (length l)) then default 0 (l !! Z.to_nat (i - p)) else f i.

(** The device holds [bio_size] bytes.  Within its bounds a transfer at the
    position set is complete; the position afterwards is not specified, and only
    a write changes the content. *)
Class BlockIoSpec (B : Type) `{BlockIo B} := {
  bio_ok : B -> Prop;
  bio_size : B -> Z;
  bio_pos : B -> Z;
  bio_data : B -> Z -> Z;
  bio_setpos_ok b p :
    bio_ok b -> 0 <= p <= bio_size b ->
    exists b', bio_setpos p b = Done 0 b' /\ bio_ok b' /\ bio_pos b' = p /\
      bio_size b' = bio_size b /\ forall i, 0 <= i -> bio_data b' i = bio_data b i;
  bio_setpos_bad b p :
    bio_ok b -> bio_size b < p -> exists r, bio_setpos p b = Done r b /\ r <> 0;
  bio_read_ok b n :
    bio_ok b -> 0 <= n -> 0 <= bio_pos b -> bio_pos b + n <= bio_size b ->
    exists b', bio_read n b = Done (n, bytes_at (bio_data b) (bio_pos b) (Z.to_nat n)) b' /\ bio_ok b' /\
      bio_size b' = bio_size b /\ forall i, 0 <= i -> bio_data b' i = bio_data b i;
  bio_write_ok b l :
    bio_ok b -> Forall (fun c => 0 <= c < 256) l -> 0 <= bio_pos b ->
    bio_pos b + Z.of_nat (length l) <= bio_size b ->
    exists b', bio_write l b = Done (Z.of_nat (length l)) b' /\ bio_ok b' /\
      bio_size b' = bio_size b /\ forall i, 0 <= i -> bio_data b' i = store_at (bio_data b) (bio_pos b) l i
}.

(** ** Lemmas on byte ranges *)

Lemma length_bytes_at f p n : length (bytes_at f p n) = n.
Proof. unfold bytes_at. by rewrite length_fmap, length_seq. Qed.

Lemma bytes_at_lookup f p n k : (k < n)%nat -> bytes_at f p n !! k = Some (f (p + Z.of_nat k)).
Proof.
  intros Hk. unfold bytes_at. rewrite list_lookup_fmap, lookup_seq_lt by done. done.
Qed.

Lemma bytes_at_ext f g p q n :
  (forall k, 0 <= k < Z.of_nat n -> f (p + k) = g (q + k)) -> bytes_at f p n = bytes_at g q n.
Proof.
  intros H. apply list_eq. intros k. destruct (decide (k < n)%nat) as [Hk|Hk].
  - rewrite !bytes_at_lookup by done. f_equal. apply H. lia.
  - rewrite !lookup_ge_None_2 by (rewrite length_bytes_at; lia). done.
Qed.

Lemma bytes_at_app f p n m : bytes_at f p (n + m) = bytes_at f p n ++ bytes_at f (p + Z.of_nat n) m.
Proof.
  unfold bytes_at. rewrite seq_app, fmap_app. f_equal. rewrite Nat.add_0_l.
  apply list_eq. intros k. rewrite !list_lookup_fmap.
  destruct (decide (k < m)%nat) as [Hk|Hk].
  - rewrite !lookup_seq_lt by done. cbn. f_equal. f_equal. lia.
  - rewrite !lookup_ge_None_2 by (rewrite length_seq; lia). done.
Qed.

Lemma take_drop_bytes_at f p n o m :
  (o + m <= n)%nat -> take m (drop o (bytes_at f p n)) = bytes_at f (p + Z.of_nat o) m.
Proof.
  intros H. apply list_eq. intros k. destruct (decide (k < m)%nat) as [Hk|Hk].
  - rewrite lookup_take_lt, lookup_drop, !bytes_at_lookup by lia. f_equal. f_equal. lia.
  - rewrite lookup_take_ge by lia. rewrite lookup_ge_None_2 by (rewrite length_bytes_at; lia). done.
Qed.

Lemma store_at_in f p l i :
  p <= i < p + Z.of_nat (length l) -> store_at f p l i = default 0 (l !! Z.to_nat (i - p)).
Proof. intros H. unfold store_at. by rewrite (proj2 (Z.leb_le p i)), (proj2 (Z.ltb_lt i _)) by lia. Qed.

Lemma store_at_out f p l i : i < p \/ p + Z.of_nat (length l) <= i -> store_at f p l i = f i.
Proof.
  intros H. unfold store_at. destruct (Z.leb_spec p i), (Z.ltb_spec i (p + Z.of_nat (length l))); cbn; lia || done.
Qed.

Lemma store_at_app f p l1 l2 i :
  store_at (store_at f p l1) (p + Z.of_nat (length l1)) l2 i = store_at f p (l1 ++ l2) i.
Proof.
  destruct (decide (p <= i < p + Z.of_nat (length (l1 ++ l2)))) as [Hin|Hout].
  - rewrite (store_at_in f p (l1 ++ l2)) by done. rewrite length_app in Hin.
    destruct (decide (i < p + Z.of_nat (length l1))) as [H1|H1].
    + rewrite store_at_out, store_at_in by lia. by rewrite lookup_app_l by lia.
    + rewrite store_at_in by lia. rewrite lookup_app_r by lia. f_equal. f_equal. lia.
  - rewrite length_app in Hout. rewrite !store_at_out by (rewrite ?length_app; lia). done.
Qed.

Lemma store_at_ext f g p l i : f i = g i -> store_at f p l i = store_at g p l i.
Proof. intros H. unfold store_at. by destruct (_ && _). Qed.

(** Rewriting a block of [n] bytes in which [c] replaces the bytes from [o] on
    stores just [c]. *)
Lemma store_block f q n o c i :
  (o + length c <= n)%nat ->
  store_at f q (take o (bytes_at f q n) ++ c ++ drop (o + length c) (bytes_at f q n)) i =
  store_at f (q + Z.of_nat o) c i.
Proof.
  intros Hn. set (b := bytes_at f q n). assert (Hb : length b = n) by apply length_bytes_at.
  assert (Hl : length (take o b ++ c ++ drop (o + length c) b) = n).
  { rewrite !length_app, length_take, length_drop. lia. }
  destruct (decide (q <= i < q + Z.of_nat n)) as [Hin|Hout].
  - rewrite store_at_in by lia. assert (Hbi : b !! Z.to_nat (i - q) = Some (f i)).
    { unfold b. rewrite bytes_at_lookup by lia. f_equal. f_equal. lia. }
    destruct (decide (i < q + Z.of_nat o)) as [H1|H1].
    { rewrite lookup_app_l by (rewrite length_take; lia). rewrite lookup_take_lt, Hbi by lia.
      by rewrite store_at_out by lia. }
    rewrite lookup_app_r by (rewrite length_take; lia). rewrite length_take.
    destruct (decide (i < q + Z.of_nat o + Z.of_nat (length c))) as [H2|H2].
    + rewrite lookup_app_l by lia. rewrite store_at_in by lia. f_equal. f_equal. lia.
    + rewrite lookup_app_r, lookup_drop by lia. rewrite store_at_out by lia.
      replace (o + length c + (Z.to_nat (i - q) - o `min` length b - length c))%nat with (Z.to_nat (i - q)) by lia.
      by rewrite Hbi.
  - rewrite !store_at_out by lia. done.
Qed.
