(* ===== verification/Vioblk.v ===== *)
(** * The virtio block driver (vioblk.c) and feature negotiation (virtio.c)

    The device behind the virtqueue is not part of the kernel: [VirtioDisk] is
    its request operation and the time its interrupt arrives, with the behaviour
    the virtio specification gives for read and write requests in
    [VirtioDiskSpec].  A transfer puts one request in the queue, notifies the
    device and goes to sleep on [used_updated] until [vioblk_isr] wakes it.  The
    driver notifies before it disables interrupts, so the interrupt can be taken
    between the two; [vioblk_isr] then finds nobody waiting and the thread sleeps
    for ever ([vioblk_lost_wakeup]).  The theorems on transfers are about devices
    whose interrupt arrives after the driver sleeps ([vd_slow]).  [io_lock] is
    held during a call; a call that finds it held blocks. *)

From stdpp Require Import base sets list strings numbers.
From Stdlib Require Import Lia ZArith.
From S2P Require Import Prelude BlockIo.
Local Open Scope Z_scope.
Local Open Scope kern_scope.

(** ** Feature sets (virtio.h) *)

Definition VIRTIO_FEATLEN : nat := 4.
Definition virtio_featset_init : list Z := replicate VIRTIO_FEATLEN 0.
Definition virtio_featset_add (fts : list Z) (k : Z) : list Z :=
  let i := Z.to_nat (k / 32) in
  <[i := Z.lor (default 0 (fts !! i)) (Z.shiftl 1 (k mod 32))]> fts.
Definition virtio_featset_test (fts : list Z) (k : Z) : bool :=
  Z.land (Z.shiftr (default 0 (fts !! Z.to_nat (k / 32))) (k mod 32)) 1 =? 1.

(** [virtio_negotiate_features]: [offered] are the words the device shows, and
    [enabled] the caller's array, which is stored to only where a feature is
    wanted. *)
Definition virtio_negotiate_features (offered enabled wanted needed : list Z) : Z * list Z :=
  if forallb (fun i =>
       let n := default 0 (needed !! i) in
       (n =? 0) || (Z.land (default 0 (offered !! i)) n =? n)) (seq 0 VIRTIO_FEATLEN)
  then (0, foldl (fun en i =>
         let w := default 0 (wanted !! i) in
         if w =? 0 then en else <[i := Z.land (default 0 (offered !! i)) w]> en)
       enabled (seq 0 VIRTIO_FEATLEN))
  else (- ENOTSUP, enabled).

(** ** The device *)

Definition VIRTIO_BLK_T_IN : Z := 0.
Definition VIRTIO_BLK_T_OUT : Z := 1.
Definition VIRTIO_BLK_F_BLK_SIZE : Z := 6.
Definition VIRTIO_BLK_F_TOPOLOGY : Z := 10.
Definition VIRTIO_F_INDIRECT_DESC : Z := 28.
Definition VIRTIO_F_RING_RESET : Z := 40.
Definition VIRTIO_ID_BLOCK : Z := 2.

(** [vd_serve typ sector buf d]: the device after the request, the data buffer
    and the status byte.  [vd_early d]: the interrupt of the request the device
    has just served is taken before the driver disables interrupts. *)
Class VirtioDisk (D : Type) := {
  vd_serve : Z -> Z -> list Z -> D -> D * list Z * Z;
  vd_early : D -> bool
}.

(** A read request fills the buffer from 512-byte sector [sector] on; a write
    request stores the buffer there.  [vd_slow] are the devices that never
    interrupt before the driver sleeps. *)
Class VirtioDiskSpec (D : Type) `{VirtioDisk D} := {
  vd_capacity : D -> Z;          (* in sectors of 512 bytes *)
  vd_byte : D -> Z -> Z;
  vd_byte_range d i : 0 <= vd_byte d i < 256;
  vd_slow : D -> Prop;
  vd_slow_early d : vd_slow d -> vd_early d = false;
  vd_slow_serve typ sector buf d : vd_slow d -> vd_slow (fst (fst (vd_serve typ sector buf d)));
  vd_in d sector buf :
    0 <= sector -> sector * 512 + Z.of_nat (length buf) <= vd_capacity d * 512 ->
    exists d', vd_serve VIRTIO_BLK_T_IN sector buf d = (d', bytes_at (vd_byte d) (sector * 512) (length buf), 0) /\
      vd_capacity d' = vd_capacity d /\ forall i, 0 <= i -> vd_byte d' i = vd_byte d i;
  vd_out d sector buf :
    0 <= sector -> sector * 512 + Z.of_nat (length buf) <= vd_capacity d * 512 ->
    Forall (fun c => 0 <= c < 256) buf ->
    exists d', vd_serve VIRTIO_BLK_T_OUT sector buf d = (d', buf, 0) /\
      vd_capacity d' = vd_capacity d /\
      forall i, 0 <= i -> vd_byte d' i = store_at (vd_byte d) (sector * 512) buf i
}.

Section Vioblk.
Context {D : Type} {VD : VirtioDisk D}.

Record vioblk_device := MkVio {
  disk : D;
  opened : bool;
  readonly : bool;
  refcnt : Z;
  blksz : Z;
  pos : Z;
  vsize : Z;                 (* size in bytes *)
  blkcnt : Z;
  blkbuf : list Z;
  avail_idx : Z;
  used_idx : Z;
  req_type : Z;
  req_sector : Z;
  req_status : Z;
  irq_enabled : bool;
  io_lock : bool;            (* held *)
  waiting : bool;            (* a thread sleeps on vq.used_updated *)
  interrupt_status : Z       (* the device's register *)
}.

Definition set_pos (p : Z) (v : vioblk_device) : vioblk_device :=
  MkVio (disk v) (opened v) (readonly v) (refcnt v) (blksz v) p (vsize v) (blkcnt v) (blkbuf v) (avail_idx v)
    (used_idx v) (req_type v) (req_sector v) (req_status v) (irq_enabled v) (io_lock v) (waiting v) (interrupt_status v).
Definition set_blkbuf (l : list Z) (v : vioblk_device) : vioblk_device :=
  MkVio (disk v) (opened v) (readonly v) (refcnt v) (blksz v) (pos v) (vsize v) (blkcnt v) l (avail_idx v)
    (used_idx v) (req_type v) (req_sector v) (req_status v) (irq_enabled v) (io_lock v) (waiting v) (interrupt_status v).
Definition set_io_lock (b : bool) (v : vioblk_device) : vioblk_device :=
  MkVio (disk v) (opened v) (readonly v) (refcnt v) (blksz v) (pos v) (vsize v) (blkcnt v) (blkbuf v) (avail_idx v)
    (used_idx v) (req_type v) (req_sector v) (req_status v) (irq_enabled v) b (waiting v) (interrupt_status v).
Definition set_open (o : bool) (r : Z) (avail used : Z) (irq : bool) (v : vioblk_device) : vioblk_device :=
  MkVio (disk v) o (readonly v) r (blksz v) (pos v) (vsize v) (blkcnt v) (blkbuf v) avail
    used (req_type v) (req_sector v) (req_status v) irq (io_lock v) (waiting v) (interrupt_status v).
Definition set_waiting (w : bool) (status : Z) (v : vioblk_device) : vioblk_device :=
  MkVio (disk v) (opened v) (readonly v) (refcnt v) (blksz v) (pos v) (vsize v) (blkcnt v) (blkbuf v) (avail_idx v)
    (used_idx v) (req_type v) (req_sector v) (req_status v) (irq_enabled v) (io_lock v) w status.

Definition io_lock_acquire : M vioblk_device unit := fun v => if io_lock v then Block v else Done tt (set_io_lock true v).
Definition io_lock_release : M vioblk_device unit := modify (set_io_lock false).

(** ** Attach, open, close *)

(** The structure of a new device with the given features enabled. *)
Definition vioblk_new (d : D) (enabled : list Z) (cfg_blk_size capacity : Z) : vioblk_device :=
  let bs := if virtio_featset_test enabled VIRTIO_BLK_F_BLK_SIZE then cfg_blk_size else 512 in
  let sz := w64 (capacity * 512) in
  MkVio d false false 0 bs 0 sz (sz / bs) (replicate (Z.to_nat bs) 0) 0 0 0 0 0 false false false 0.

Definition blk_needed : list Z :=
  virtio_featset_add (virtio_featset_add virtio_featset_init VIRTIO_F_RING_RESET) VIRTIO_F_INDIRECT_DESC.
Definition blk_wanted : list Z :=
  virtio_featset_add (virtio_featset_add virtio_featset_init VIRTIO_BLK_F_BLK_SIZE) VIRTIO_BLK_F_TOPOLOGY.

Definition vioblk_open : M vioblk_device Z :=
  io_lock_acquire ;;
  o <- gets opened ;;
  if (o : bool) then io_lock_release ;; ret (- EBUSY) else
  modify (set_open true 1 0 0 true) ;;
  io_lock_release ;;
  ret 0.

Definition vioblk_close : M vioblk_device unit :=
  io_lock_acquire ;;
  modify (fun v => set_open (opened v) (refcnt v) 0 (used_idx v) false v) ;;
  io_lock_release ;;
  modify (fun v => set_open false (refcnt v) (avail_idx v) (used_idx v) (irq_enabled v) v).

(** ** Requests *)

(** The header, the buffer and the avail ring of a request. *)
Definition queue_request (typ sector : Z) (v : vioblk_device) : vioblk_device :=
  MkVio (disk v) (opened v) (readonly v) (refcnt v) (blksz v) (pos v) (vsize v) (blkcnt v) (blkbuf v)
    (w16 (avail_idx v + 1)) (used_idx v) typ sector (req_status v) (irq_enabled v) (io_lock v) (waiting v) (interrupt_status v).

(** [virtio_notify_avail]: the device serves the request in the queue from or to
    [blkbuf] and raises its used-buffer interrupt. *)
Definition notify_avail (v : vioblk_device) : vioblk_device :=
  let '(d', buf', st) := vd_serve (req_type v) (req_sector v) (blkbuf v) (disk v) in
  MkVio d' (opened v) (readonly v) (refcnt v) (blksz v) (pos v) (vsize v) (blkcnt v) buf'
    (avail_idx v) (used_idx v) (req_type v) (req_sector v) st (irq_enabled v) (io_lock v) (waiting v)
    (Z.lor (interrupt_status v) 1).

(** [vioblk_isr]: a used-buffer interrupt is broadcast to the thread that waits on
    [used_updated], and acknowledged. *)
Definition vioblk_isr : M vioblk_device unit :=
  status <- gets interrupt_status ;;
  if Z.land status 1 =? 0 then ret tt else
  modify (fun v => set_waiting false (Z.land (interrupt_status v) (Z.lnot status)) v).

(** The pending interrupt of the device is taken if its line is enabled; with
    nothing pending the routine does nothing. *)
Definition take_irq : M vioblk_device unit :=
  e <- gets irq_enabled ;; if (e : bool) then vioblk_isr else ret tt.

(** One request.  The interrupt may be taken right after the notification, when
    interrupts are still enabled; [condition_wait] then puts the thread to sleep
    and interrupts are taken in the threads that run meanwhile.  A thread that is
    not woken stays blocked. *)
Definition vioblk_request (typ sector : Z) : M vioblk_device unit :=
  modify (queue_request typ sector) ;;
  modify notify_avail ;;
  early <- gets (fun v => vd_early (disk v)) ;;
  (if (early : bool) then take_irq else ret tt) ;;
  modify (fun v => set_waiting true (interrupt_status v) v) ;;
  take_irq ;;
  w <- gets waiting ;;
  if (w : bool) then (fun v => Block v) else ret tt.

Fixpoint vread_loop (fuel : nat) (bufsz total_read : Z) (acc : list Z) : M vioblk_device (list Z) :=
  if negb (total_read <? bufsz) then ret acc else
  match fuel with
  | O => fun _ => NoFuel
  | S fuel' =>
      v <- get ;;
      if vsize v <=? pos v then ret acc else
      let sector_index := w32 (pos v / blksz v) in
      let sector_offset := w32 (pos v mod blksz v) in
      let bytes_available_in_block := blksz v - sector_offset in
      let bytes_remaining := bufsz - total_read in
      let bytes_this_read :=
        if bytes_available_in_block <? bytes_remaining then bytes_available_in_block else bytes_remaining in
      vioblk_request VIRTIO_BLK_T_IN sector_index ;;
      b <- gets blkbuf ;;
      modify (fun v => set_pos (w64 (pos v + bytes_this_read)) v) ;;
      vread_loop fuel' bufsz (total_read + bytes_this_read)
        (acc ++ take (Z.to_nat bytes_this_read) (drop (Z.to_nat sector_offset) b))
  end.

(** A turn consumes at least one byte. *)
Definition vioblk_read (bufsz : Z) : M vioblk_device (Z * list Z) :=
  io_lock_acquire ;;
  out <- vread_loop (Z.to_nat bufsz) bufsz 0 [] ;;
  io_lock_release ;;
  ret (Z.of_nat (length out), out).

(** [inl] is the [return 0] inside the loop. *)
Fixpoint vwrite_loop (fuel : nat) (buf : list Z) (n total_written : Z) : M vioblk_device (Z + Z) :=
  if negb (total_written <? n) then ret (inr total_written) else
  match fuel with
  | O => fun _ => NoFuel
  | S fuel' =>
      v <- get ;;
      if vsize v <=? pos v then ret (inl 0) else
      let sector_index := w32 (pos v / blksz v) in
      let sector_offset := w32 (pos v mod blksz v) in
      let bytes_available_in_block := blksz v - sector_offset in
      let bytes_remaining := n - total_written in
      let bytes_this_write :=
        if bytes_available_in_block <? bytes_remaining then bytes_available_in_block else bytes_remaining in
      (if negb (bytes_this_write =? blksz v) then vioblk_request VIRTIO_BLK_T_IN sector_index else ret tt) ;;
      b <- gets blkbuf ;;
      let o := Z.to_nat sector_offset in
      let chunk := take (Z.to_nat bytes_this_write) (drop (Z.to_nat total_written) buf) in
      modify (set_blkbuf (take o b ++ chunk ++ drop (o + length chunk) b)) ;;
      vioblk_request VIRTIO_BLK_T_OUT sector_index ;;
      modify (fun v => set_pos (w64 (pos v + bytes_this_write)) v) ;;
      vwrite_loop fuel' buf n (total_written + bytes_this_write)
  end.

Definition vioblk_write (buf : list Z) : M vioblk_device Z :=
  ro <- gets readonly ;;
  if (ro : bool) then ret (- EINVAL) else
  io_lock_acquire ;;
  r <- vwrite_loop (length buf) buf (Z.of_nat (length buf)) 0 ;;
  match r with
  | inl x => ret x
  | inr total => io_lock_release ;; ret total
  end.

(** ** Controls *)

Definition vioblk_getlen (arg : option Z) : M vioblk_device (Z * option Z) :=
  match arg with None => ret (- EINVAL, arg) | Some _ => n <- gets vsize ;; ret (0, Some n) end.
Definition vioblk_getpos (arg : option Z) : M vioblk_device (Z * option Z) :=
  match arg with None => ret (- EINVAL, arg) | Some _ => p <- gets pos ;; ret (0, Some p) end.
Definition vioblk_setpos (arg : option Z) : M vioblk_device (Z * option Z) :=
  match arg with
  | None => ret (- EINVAL, arg)
  | Some new_pos =>
      n <- gets vsize ;;
      if n <? new_pos then ret (- EINVAL, arg) else
      modify (set_pos new_pos) ;; ret (0, arg)
  end.
Definition vioblk_getblksz (arg : option Z) : M vioblk_device (Z * option Z) :=
  match arg with None => ret (- EINVAL, arg) | Some _ => b <- gets blksz ;; ret (0, Some b) end.

(** Control numbers 1, 3, 4 and 6 are GETLEN, GETPOS, SETPOS and GETBLKSZ. *)
Definition vioblk_ioctl (cmd : Z) (arg : option Z) : M vioblk_device (Z * option Z) :=
  io_lock_acquire ;;
  if cmd =? 1 then r <- vioblk_getlen arg ;; io_lock_release ;; ret r else
  if cmd =? 3 then r <- vioblk_getpos arg ;; io_lock_release ;; ret r else
  if cmd =? 4 then r <- vioblk_setpos arg ;; io_lock_release ;; ret r else
  if cmd =? 6 then r <- vioblk_getblksz arg ;; io_lock_release ;; ret r else
  ret (- ENOTSUP, arg).

(** The driver as a block device. *)
#[export] Instance vioblk_io_ops : BlockIo vioblk_device := {
  bio_setpos p := r <- vioblk_ioctl 4 (Some p) ;; ret (fst r);
  bio_read := vioblk_read;
  bio_write := vioblk_write
}.
End Vioblk.

Arguments vioblk_device D : clear implicits.

(** ** Theorems *)

Section Props.
Context {D : Type} {VD : VirtioDisk D} {VS : VirtioDiskSpec D}.

(** An open device with 512-byte blocks, whose interrupt arrives after the driver
    sleeps. *)
Record vok (v : vioblk_device D) : Prop := {
  vk_blksz : blksz v = 512;
  vk_size : vsize v = vd_capacity (disk v) * 512;
  vk_max : 0 <= vd_capacity (disk v) <= 2 ^ 32;
  vk_buf : length (blkbuf v) = 512%nat;
  vk_pos : 0 <= pos v;
  vk_irq : irq_enabled v = true;
  vk_slow : vd_slow (disk v)
}.

(** What a transfer does not change. *)
Record kept (v v' : vioblk_device D) : Prop := {
  kp_lock : io_lock v' = io_lock v;
  kp_ro : readonly v' = readonly v;
  kp_size : vsize v' = vsize v;
  kp_open : opened v' = opened v
}.

Lemma kept_trans v1 v2 v3 : kept v1 v2 -> kept v2 v3 -> kept v1 v3.
Proof. intros [A1 A2 A3 A4] [B1 B2 B3 B4]. constructor; congruence. Qed.

Lemma sector_parts v :
  vok v -> pos v < vsize v ->
  w32 (pos v / blksz v) = pos v / 512 /\ w32 (pos v mod blksz v) = pos v mod 512 /\
  0 <= pos v mod 512 < 512 /\ pos v = pos v / 512 * 512 + pos v mod 512 /\
  0 <= pos v / 512 /\ pos v / 512 * 512 + 512 <= vd_capacity (disk v) * 512.
Proof.
  intros [H1 H2 H3 H4 H5 _ _] Hp. rewrite H1. pose proof (Z.div_mod (pos v) 512 ltac:(lia)).
  pose proof (Z.mod_pos_bound (pos v) 512 ltac:(lia)). unfold w32. rewrite !Z.mod_small by lia. lia.
Qed.

(** The device after a served request whose interrupt woke the driver. *)
Definition served (typ sector : Z) (d : D) (buf : list Z) (st : Z) (v : vioblk_device D) : vioblk_device D :=
  MkVio d (opened v) (readonly v) (refcnt v) (blksz v) (pos v) (vsize v) (blkcnt v) buf
    (w16 (avail_idx v + 1)) (used_idx v) typ sector st (irq_enabled v) (io_lock v) false 0.

Lemma isr_pending (v : vioblk_device D) :
  Z.land (interrupt_status v) 1 <> 0 -> vioblk_isr v = Done tt (set_waiting false 0 v).
Proof.
  intros H. unfold vioblk_isr. unfold bind, gets. rewrite (proj2 (Z.eqb_neq _ _) H). unfold modify.
  by rewrite Z.land_lnot_diag.
Qed.

Lemma lor_pending st : Z.land (Z.lor st 1) 1 <> 0.
Proof. rewrite Z.land_lor_distr_l. intros E. apply Z.lor_eq_0_iff in E as [_ E]. discriminate. Qed.

(** A request whose interrupt arrives after the driver sleeps completes. *)
Lemma request_done typ sector (v : vioblk_device D) d buf st :
  irq_enabled v = true -> vd_serve typ sector (blkbuf v) (disk v) = (d, buf, st) -> vd_early d = false ->
  vioblk_request typ sector v = Done tt (served typ sector d buf st v).
Proof.
  intros Hi E He. unfold vioblk_request. unfold bind at 1, modify at 1. unfold bind at 1, modify at 1.
  unfold notify_avail. cbn [req_type req_sector blkbuf disk queue_request]. rewrite E.
  unfold bind at 1, gets at 1. cbn [disk]. rewrite He. unfold bind at 1, ret at 1. unfold bind at 1, modify at 1.
  unfold take_irq. unfold bind at 1, bind at 1, gets at 1. cbn [irq_enabled set_waiting queue_request]. rewrite Hi.
  rewrite isr_pending by apply lor_pending. cbn. unfold served. by rewrite Hi.
Qed.

(** A request whose interrupt is taken before the driver disables interrupts
    sleeps for ever: the interrupt has been acknowledged and no other one comes. *)
Lemma request_lost typ sector (v : vioblk_device D) d buf st :
  irq_enabled v = true -> vd_serve typ sector (blkbuf v) (disk v) = (d, buf, st) -> vd_early d = true ->
  exists v', vioblk_request typ sector v = Block v' /\ waiting v' = true /\ interrupt_status v' = 0 /\
    io_lock v' = io_lock v /\ vioblk_isr v' = Done tt v'.
Proof.
  intros Hi E He. unfold vioblk_request. unfold bind at 1, modify at 1. unfold bind at 1, modify at 1.
  unfold notify_avail. cbn [req_type req_sector blkbuf disk queue_request]. rewrite E.
  unfold bind at 1, gets at 1. cbn [disk]. rewrite He.
  unfold take_irq at 1. unfold bind at 1, bind at 1, gets at 1. cbn [irq_enabled queue_request]. rewrite Hi.
  rewrite isr_pending by apply lor_pending. unfold bind at 1, modify at 1.
  unfold take_irq. unfold bind at 1, bind at 1, gets at 1. cbn [irq_enabled set_waiting]. rewrite ?Hi.
  by eexists.
Qed.

(** A read request brings the block into the buffer. *)
Lemma request_in v sector :
  vok v -> 0 <= sector -> sector * 512 + 512 <= vd_capacity (disk v) * 512 ->
  exists v', vioblk_request VIRTIO_BLK_T_IN sector v = Done tt v' /\ vok v' /\ kept v v' /\ pos v' = pos v /\
    blkbuf v' = bytes_at (vd_byte (disk v)) (sector * 512) 512 /\
    forall i, 0 <= i -> vd_byte (disk v') i = vd_byte (disk v) i.
Proof.
  intros [H1 H2 H3 H4 H5 H6 H7] Hs Hb. destruct (vd_in (disk v) sector (blkbuf v)) as (d' & E & C1 & C2); [done|rewrite H4; lia|].
  pose proof (vd_slow_serve VIRTIO_BLK_T_IN sector (blkbuf v) _ H7) as Hs'. rewrite E in Hs'. cbn in Hs'. rewrite H4 in E.
  eexists. split; [apply (request_done _ _ _ _ _ _ H6 E), vd_slow_early, Hs'|]. unfold served.
  split; [constructor; cbn [blksz vsize disk blkbuf pos irq_enabled]; [done|congruence|congruence|apply length_bytes_at|done..]|].
  split; [done|]. done.
Qed.

(** A write request stores the buffer. *)
Lemma request_out v sector :
  vok v -> 0 <= sector -> sector * 512 + 512 <= vd_capacity (disk v) * 512 ->
  Forall (fun c => 0 <= c < 256) (blkbuf v) ->
  exists v', vioblk_request VIRTIO_BLK_T_OUT sector v = Done tt v' /\ vok v' /\ kept v v' /\ pos v' = pos v /\
    blkbuf v' = blkbuf v /\
    forall i, 0 <= i -> vd_byte (disk v') i = store_at (vd_byte (disk v)) (sector * 512) (blkbuf v) i.
Proof.
  intros [H1 H2 H3 H4 H5 H6 H7] Hs Hb Hr. destruct (vd_out (disk v) sector (blkbuf v)) as (d' & E & C1 & C2);
    [done|rewrite H4; lia|done|].
  pose proof (vd_slow_serve VIRTIO_BLK_T_OUT sector (blkbuf v) _ H7) as Hs'. rewrite E in Hs'. cbn in Hs'.
  eexists. split; [apply (request_done _ _ _ _ _ _ H6 E), vd_slow_early, Hs'|]. unfold served.
  split; [constructor; cbn [blksz vsize disk blkbuf pos irq_enabled]; [done|congruence|congruence|done..]|]. split; [done|]. done.
Qed.

Lemma vok_set_pos p v : vok v -> 0 <= p -> vok (set_pos p v).
Proof. intros [H1 H2 H3 H4 H5 H6 H7] Hp. by constructor. Qed.

(** The bytes left to read. *)
Definition avail (v : vioblk_device D) (n : Z) : Z := Z.min n (Z.max 0 (vsize v - pos v)).

Lemma vread_loop_ok : forall fuel bufsz total acc v,
  vok v -> total <= bufsz -> bufsz - total <= Z.of_nat fuel ->
  exists v', vread_loop fuel bufsz total acc v =
      Done (acc ++ bytes_at (vd_byte (disk v)) (pos v) (Z.to_nat (avail v (bufsz - total)))) v' /\
    vok v' /\ kept v v' /\ pos v' = pos v + avail v (bufsz - total) /\
    forall i, 0 <= i -> vd_byte (disk v') i = vd_byte (disk v) i.
Proof.
  induction fuel as [|fuel IH]; intros bufsz total acc v Hv Ht Hf.
  all: cbn [vread_loop]; destruct (Z.ltb_spec total bufsz) as [Hlt|Hge]; cbn [negb].
  2, 4: exists v; replace (avail v (bufsz - total)) with 0 by (unfold avail; lia);
    cbn; rewrite app_nil_r, Z.add_0_r; split; [done|]; split; [done|]; split; [done|]; done.
  { lia. }
  unfold bind at 1, get. destruct (Z.leb_spec (vsize v) (pos v)) as [Hend|Hin].
  { exists v. replace (avail v (bufsz - total)) with 0 by (unfold avail; lia).
    cbn. rewrite app_nil_r, Z.add_0_r. split; [done|]. split; [done|]. split; done. }
  destruct (sector_parts v Hv Hin) as (E1 & E2 & R1 & R2 & R3 & R4). rewrite E1, E2, (vk_blksz _ Hv). cbv zeta.
  set (m := if 512 - pos v mod 512 <? bufsz - total then 512 - pos v mod 512 else bufsz - total).
  assert (Hm : 0 < m <= bufsz - total /\ m <= 512 - pos v mod 512).
  { unfold m. destruct (Z.ltb_spec (512 - pos v mod 512) (bufsz - total)); lia. }
  assert (Hav : avail v (bufsz - total) = m + Z.min (bufsz - total - m) (vsize v - (pos v + m))).
  { unfold avail. rewrite (vk_size _ Hv) in *. lia. }
  destruct (request_in v (pos v / 512) Hv R3 R4) as (v1 & Er & Hv1 & Hk1 & Hp1 & Hb1 & Hd1).
  mstep Er. unfold bind at 1, gets at 1. unfold bind at 1, modify at 1.
  assert (Hw : w64 (pos v1 + m) = pos v + m).
  { rewrite Hp1. unfold w64. apply Z.mod_small. pose proof (vk_max _ Hv). pose proof (vk_pos _ Hv).
    rewrite (vk_size _ Hv) in Hin. lia. }
  rewrite Hw. set (v2 := set_pos (pos v + m) v1).
  assert (Hav2 : avail v2 (bufsz - (total + m)) = avail v (bufsz - total) - m).
  { rewrite Hav. unfold avail. cbn. rewrite (kp_size _ _ Hk1). rewrite (vk_size _ Hv) in *. lia. }
  destruct (IH bufsz (total + m) (acc ++ take (Z.to_nat m) (drop (Z.to_nat (pos v mod 512)) (blkbuf v1))) v2)
    as (v' & E & Hv' & Hk' & Hp' & Hd'); [apply vok_set_pos; [done|lia]|lia|lia|].
  exists v'. split; [|split; [done|split; [eapply kept_trans; [exact Hk1|]; by destruct Hk'|split]]].
  - rewrite E, <- app_assoc. f_equal. f_equal. rewrite Hav2.
    assert (Hge0 : 0 <= avail v (bufsz - total) - m) by (rewrite <- Hav2; unfold avail; lia).
    replace (Z.to_nat (avail v (bufsz - total)))
      with (Z.to_nat m + Z.to_nat (avail v (bufsz - total) - m))%nat by lia.
    rewrite bytes_at_app, Z2Nat.id by lia. f_equal.
    + rewrite Hb1, take_drop_bytes_at by lia. rewrite Z2Nat.id by lia. f_equal. lia.
    + cbn. apply bytes_at_ext. intros k Hk. apply Hd1. lia.
  - rewrite Hp', Hav2. cbn. lia.
  - intros i Hi. rewrite Hd' by done. cbn. by apply Hd1.
Qed.

Lemma vread_any v n :
  vok v -> io_lock v = false -> 0 <= n ->
  exists v', vioblk_read n v = Done (avail v n, bytes_at (vd_byte (disk v)) (pos v) (Z.to_nat (avail v n))) v' /\
    vok v' /\ kept v v' /\ pos v' = pos v + avail v n /\
    forall i, 0 <= i -> vd_byte (disk v') i = vd_byte (disk v) i.
Proof.
  intros Hv Hl Hn. unfold vioblk_read. unfold bind at 1, io_lock_acquire at 1. rewrite Hl.
  assert (Hv1 : vok (set_io_lock true v)) by (destruct Hv; by constructor).
  destruct (vread_loop_ok (Z.to_nat n) n 0 [] (set_io_lock true v) Hv1) as (v1 & E & Hv2 & [K1 K2 K3 K4] & Hp & Hd);
    [lia|lia|]. rewrite Z.sub_0_r in E, Hp. mstep E. cbn [app].
  change (avail (set_io_lock true v) n) with (avail v n) in *.
  exists (set_io_lock false v1). split; [|split; [by destruct Hv2|split; [by constructor|done]]].
  unfold bind, io_lock_release, modify, ret. rewrite length_bytes_at. cbn [pos disk set_io_lock].
  rewrite Z2Nat.id by (unfold avail; lia). done.
Qed.

(** C22: [vioblk_read] on an open device with 512-byte blocks whose interrupts
    arrive after the driver sleeps ([vok]) returns exactly the bytes on the disk from the current position, as many as asked for or as
    are left before the end of the device, for any position and length (partial
    first and last blocks included); it advances the position by that many bytes,
    leaves the disk unchanged and releases its lock. *)
Theorem vioblk_read_correct v n :
  vok v -> io_lock v = false -> 0 <= n ->
  exists v', vioblk_read n v = Done (avail v n, bytes_at (vd_byte (disk v)) (pos v) (Z.to_nat (avail v n))) v' /\
    vok v' /\ kept v v' /\ pos v' = pos v + avail v n /\
    forall i, 0 <= i -> vd_byte (disk v') i = vd_byte (disk v) i.
Proof. apply vread_any. Qed.

Lemma bytes_at_range d p n : Forall (fun c => 0 <= c < 256) (bytes_at (vd_byte d) p n).
Proof. unfold bytes_at. rewrite Forall_fmap. apply Forall_true. intros k. apply vd_byte_range. Qed.

(** One turn of the write loop on a block: the bytes of [chunk] reach the disk
    and no other byte changes. *)
Lemma write_block v chunk :
  vok v -> pos v < vsize v -> (0 < length chunk)%nat -> pos v mod 512 + Z.of_nat (length chunk) <= 512 ->
  Forall (fun c => 0 <= c < 256) chunk ->
  let o := Z.to_nat (pos v mod 512) in
  exists v1, ((if negb (Z.of_nat (length chunk) =? 512) then vioblk_request VIRTIO_BLK_T_IN (pos v / 512) else ret tt) ;;
     b <- gets blkbuf ;;
     modify (set_blkbuf (take o b ++ chunk ++ drop (o + length chunk) b)) ;;
     vioblk_request VIRTIO_BLK_T_OUT (pos v / 512)) v = Done tt v1 /\
    vok v1 /\ kept v v1 /\ pos v1 = pos v /\
    forall i, 0 <= i -> vd_byte (disk v1) i = store_at (vd_byte (disk v)) (pos v) chunk i.
Proof.
  intros Hv Hin Hl Hm Hr o. destruct (sector_parts v Hv Hin) as (_ & _ & R1 & R2 & R3 & R4).
  assert (Ho : (o + length chunk <= 512)%nat) by (unfold o; lia).
  assert (Hq : pos v / 512 * 512 + Z.of_nat o = pos v) by (unfold o; lia).
  destruct (Z.eqb_spec (Z.of_nat (length chunk)) 512) as [E|E]; cbn [negb].
  - assert (o = 0%nat) as -> by (unfold o; lia). assert (Hq0 : pos v / 512 * 512 = pos v) by lia.
    unfold bind at 1, ret at 1. unfold bind at 1, gets at 1. unfold bind at 1, modify at 1.
    rewrite take_0. cbn [app]. rewrite drop_ge by (rewrite (vk_buf _ Hv); lia). rewrite app_nil_r.
    destruct (request_out (set_blkbuf chunk v) (pos v / 512)) as (v1 & Er & Hv1 & Hk1 & Hp1 & Hb1 & Hd1);
      [destruct Hv; constructor; auto; cbn; lia|done|done|done|].
    exists v1. split; [done|]. split; [done|]. split; [by destruct Hk1|]. split; [done|].
    intros i Hi. rewrite Hd1 by done. cbn. by rewrite Hq0.
  - destruct (request_in v (pos v / 512) Hv R3 R4) as (v1 & Er & Hv1 & Hk1 & Hp1 & Hb1 & Hd1).
    mstep Er. unfold bind at 1, gets at 1. unfold bind at 1, modify at 1. rewrite Hb1.
    set (nb := take o _ ++ chunk ++ drop (o + length chunk) _).
    assert (Hnb : length nb = 512%nat).
    { unfold nb. rewrite !length_app, length_take, length_drop, length_bytes_at. lia. }
    destruct (request_out (set_blkbuf nb v1) (pos v / 512)) as (v2 & Er2 & Hv2 & Hk2 & Hp2 & Hb2 & Hd2).
    { destruct Hv1; constructor; auto. }
    { done. }
    { cbn. destruct Hv1 as [_ S1 _ _ _ _ _], Hv as [_ S2 _ _ _ _ _], Hk1 as [_ _ S3 _]. lia. }
    { cbn. unfold nb. apply Forall_app. split; [apply Forall_take, bytes_at_range|].
      apply Forall_app. split; [done|apply Forall_drop, bytes_at_range]. }
    exists v2. split; [done|]. split; [done|]. split; [eapply kept_trans; [exact Hk1|]; by destruct Hk2|].
    split; [by rewrite Hp2|]. intros i Hi. rewrite Hd2 by done. cbn [disk blkbuf set_blkbuf].
    rewrite (store_at_ext _ (vd_byte (disk v))) by (by apply Hd1). unfold nb. rewrite store_block by done.
    by rewrite Hq.
Qed.

Lemma vwrite_loop_ok buf n : n = Z.of_nat (length buf) -> Forall (fun c => 0 <= c < 256) buf ->
  forall fuel total v,
  vok v -> 0 <= total <= n -> n - total <= Z.of_nat fuel -> pos v + (n - total) <= vsize v ->
  exists v', vwrite_loop fuel buf n total v = Done (inr n) v' /\ vok v' /\ kept v v' /\
    pos v' = pos v + (n - total) /\
    forall i, 0 <= i -> vd_byte (disk v') i = store_at (vd_byte (disk v)) (pos v) (drop (Z.to_nat total) buf) i.
Proof.
  intros Hn Hbuf fuel. induction fuel as [|fuel IH]; intros total v Hv Ht Hf Hend.
  all: cbn [vwrite_loop]; destruct (Z.ltb_spec total n) as [Hlt|Hge]; cbn [negb].
  2, 4: exists v; assert (total = n) as -> by lia; split; [done|]; split; [done|]; split; [done|];
    split; [lia|]; intros i Hi; rewrite drop_ge by lia; rewrite store_at_out; [done|simpl; lia].
  { lia. }
  unfold bind at 1, get. destruct (Z.leb_spec (vsize v) (pos v)) as [Hbad|Hin]; [lia|].
  destruct (sector_parts v Hv Hin) as (E1 & E2 & R1 & R2 & R3 & R4). rewrite E1, E2, (vk_blksz _ Hv). cbv zeta.
  set (m := if 512 - pos v mod 512 <? n - total then 512 - pos v mod 512 else n - total).
  assert (Hm : 0 < m <= n - total /\ m <= 512 - pos v mod 512).
  { unfold m. destruct (Z.ltb_spec (512 - pos v mod 512) (n - total)); lia. }
  set (chunk := take (Z.to_nat m) (drop (Z.to_nat total) buf)).
  assert (Hcl : length chunk = Z.to_nat m) by (unfold chunk; rewrite length_take, length_drop; lia).
  assert (Hcm : Z.of_nat (length chunk) = m) by lia.
  destruct (write_block v chunk Hv Hin) as (v1 & Ew & Hv1 & Hk1 & Hp1 & Hd1);
    [lia|lia|by apply Forall_take, Forall_drop|].
  rewrite Hcm in Ew. apply bind_inv_Done in Ew as ([] & u1 & Ea & Ew). mstep Ea.
  apply bind_inv_Done in Ew as (b & u2 & Eb & Ew). mstep Eb.
  apply bind_inv_Done in Ew as ([] & u3 & Ec & Ew). mstep Ec. mstep Ew.
  unfold bind at 1, modify at 1.
  assert (Hw : w64 (pos v1 + m) = pos v + m).
  { rewrite Hp1. unfold w64. apply Z.mod_small. pose proof (vk_max _ Hv). pose proof (vk_pos _ Hv).
    rewrite (vk_size _ Hv) in Hin. lia. }
  rewrite Hw. pose proof (vk_pos _ Hv).
  destruct (IH (total + m) (set_pos (pos v + m) v1)) as (v' & E & Hv' & Hk' & Hp' & Hd');
    [apply vok_set_pos; [done|lia]|lia|lia|cbn; rewrite (kp_size _ _ Hk1); lia|].
  exists v'. split; [done|]. split; [done|]. split; [eapply kept_trans; [exact Hk1|]; by destruct Hk'|].
  split; [rewrite Hp'; cbn; lia|]. intros i Hi. rewrite Hd' by done. cbn [disk pos set_pos].
  rewrite (store_at_ext _ _ _ _ i (Hd1 i Hi)).
  replace (pos v + m) with (pos v + Z.of_nat (length chunk)) by lia. rewrite store_at_app.
  f_equal. unfold chunk. replace (Z.to_nat (total + m)) with (Z.to_nat total + Z.to_nat m)%nat by lia.
  rewrite <- drop_drop. apply take_drop.
Qed.

Lemma vwrite_any v buf :
  vok v -> io_lock v = false -> Forall (fun c => 0 <= c < 256) buf ->
  readonly v = false -> pos v + Z.of_nat (length buf) <= vsize v ->
  exists v', vioblk_write buf v = Done (Z.of_nat (length buf)) v' /\ vok v' /\ kept v v' /\
    pos v' = pos v + Z.of_nat (length buf) /\
    forall i, 0 <= i -> vd_byte (disk v') i = store_at (vd_byte (disk v)) (pos v) buf i.
Proof.
  intros Hv Hl Hbuf Hro Hend. unfold vioblk_write; unfold bind at 1, gets at 1; rewrite Hro.
  unfold bind at 1, io_lock_acquire at 1. rewrite Hl.
  assert (Hv1 : vok (set_io_lock true v)) by (destruct Hv; by constructor).
  destruct (vwrite_loop_ok buf _ eq_refl Hbuf (length buf) 0 (set_io_lock true v) Hv1)
    as (v1 & E & Hv2 & [K1 K2 K3 K4] & Hp & Hd); [lia|lia|cbn; lia|].
  mstep E. exists (set_io_lock false v1). split; [done|]. split; [by destruct Hv2|]. split; [by constructor|].
  split; [cbn in *; lia|]. intros i Hi. cbn. by rewrite Hd.
Qed.

(** C23: on an open device with 512-byte blocks whose interrupts arrive after the
    driver sleeps ([vok]), [vioblk_write] of bytes that fit on the device stores
    exactly those bytes from the current position, reading partial blocks first so that no
    neighbouring byte changes; it returns their number, advances the position and
    releases its lock.  A write to a read-only device is refused. *)
Theorem vioblk_write_correct v buf :
  vok v -> io_lock v = false -> Forall (fun c => 0 <= c < 256) buf ->
  (readonly v = true -> vioblk_write buf v = Done (- EINVAL) v) /\
  (readonly v = false -> pos v + Z.of_nat (length buf) <= vsize v ->
   exists v', vioblk_write buf v = Done (Z.of_nat (length buf)) v' /\ vok v' /\ kept v v' /\
     pos v' = pos v + Z.of_nat (length buf) /\
     forall i, 0 <= i -> vd_byte (disk v') i = store_at (vd_byte (disk v)) (pos v) buf i).
Proof.
  intros Hv Hl Hbuf. split; intros Hro.
  - unfold vioblk_write. unfold bind at 1, gets at 1. by rewrite Hro.
  - by apply vwrite_any.
Qed.

(** A write at the end of the device returns 0 without releasing [io_lock];
    so does a control with an unknown command number, with -ENOTSUP.  Every later
    call then blocks. *)
Theorem vioblk_lock_leaked v buf cmd arg n :
  io_lock v = false -> readonly v = false -> vsize v <= pos v -> (0 < length buf)%nat ->
  cmd ∉ [1; 3; 4; 6] ->
  exists v1 v2, vioblk_write buf v = Done 0 v1 /\ vioblk_ioctl cmd arg v = Done (- ENOTSUP, arg) v2 /\
    vioblk_read n v1 = Block v1 /\ vioblk_read n v2 = Block v2 /\ vioblk_open v1 = Block v1.
Proof.
  intros Hl Hro Hend Hn Hcmd. exists (set_io_lock true v), (set_io_lock true v). split; [|split; [|done]].
  - unfold vioblk_write. unfold bind at 1, gets at 1. rewrite Hro. unfold bind at 1, io_lock_acquire at 1. rewrite Hl.
    destruct buf as [|c buf]; [simpl in Hn; lia|]. cbn [length vwrite_loop].
    rewrite (proj2 (Z.ltb_lt 0 _)) by lia. cbn [negb]. unfold bind at 1, bind at 1, get.
    cbn [vsize pos set_io_lock]. by rewrite (proj2 (Z.leb_le _ _) Hend).
  - unfold vioblk_ioctl. unfold bind at 1, io_lock_acquire at 1. rewrite Hl.
    rewrite !(proj2 (Z.eqb_neq cmd _)) by (intros ->; apply Hcmd; set_solver). done.
Qed.

(** A wake-up is lost when the interrupt of a request is taken between the
    notification and [intr_disable]: [vioblk_read] never returns, no interrupt is
    pending that would wake it, and it keeps [io_lock], so every later call blocks
    as well. *)
Theorem vioblk_lost_wakeup v n :
  io_lock v = false -> irq_enabled v = true -> 0 < n -> pos v < vsize v ->
  vd_early (fst (fst (vd_serve VIRTIO_BLK_T_IN (w32 (pos v / blksz v)) (blkbuf v) (disk v)))) = true ->
  exists v', vioblk_read n v = Block v' /\ waiting v' = true /\ vioblk_isr v' = Done tt v' /\
    vioblk_open v' = Block v'.
Proof.
  intros Hl Hi Hn Hp He. unfold vioblk_read. unfold bind at 1, io_lock_acquire at 1. rewrite Hl.
  destruct (Z.to_nat n) as [|fuel] eqn:En; [lia|]. cbn [vread_loop]. rewrite (proj2 (Z.ltb_lt 0 n)) by lia. cbn [negb].
  unfold bind at 1, bind at 1, get at 1. cbn [vsize pos blksz set_io_lock]. rewrite (proj2 (Z.leb_gt _ _) Hp).
  destruct (vd_serve VIRTIO_BLK_T_IN (w32 (pos v / blksz v)) (blkbuf v) (disk v)) as [[d buf] st] eqn:E. cbn in He.
  destruct (request_lost VIRTIO_BLK_T_IN (w32 (pos v / blksz v)) (set_io_lock true v) d buf st Hi E He)
    as (v' & Er & Hw & Hs & Hk & Hisr).
  exists v'. split; [|split; [done|split; [done|]]].
  - unfold bind at 1. by rewrite Er.
  - unfold vioblk_open. unfold bind at 1, io_lock_acquire. by rewrite Hk.
Qed.

(** With a negotiated block size [bs] the driver asks for sector [pos / bs], while
    the device counts sectors of 512 bytes: reading block [k] returns the bytes
    at [512 * k] and not those at [bs * k]. *)
Theorem vioblk_blksz_wrong_sector v bs k :
  io_lock v = false -> irq_enabled v = true -> vd_slow (disk v) -> blksz v = bs -> 0 < bs -> 0 <= k < 2 ^ 32 ->
  length (blkbuf v) = Z.to_nat bs -> pos v = k * bs -> k * bs < vsize v -> k * 512 + bs <= vd_capacity (disk v) * 512 ->
  exists v', vioblk_read bs v = Done (bs, bytes_at (vd_byte (disk v)) (k * 512) (Z.to_nat bs)) v'.
Proof.
  intros Hl Hi Hslow Hbs Hb Hk Hlen Hp Hsz Hcap. unfold vioblk_read. unfold bind at 1, io_lock_acquire at 1. rewrite Hl.
  destruct (Z.to_nat bs) as [|fuel] eqn:En; [lia|]. cbn [vread_loop]. rewrite (proj2 (Z.ltb_lt 0 bs)) by lia. cbn [negb].
  unfold bind at 1, bind at 1, get at 1. cbn [vsize pos blksz set_io_lock]. rewrite Hp, Hbs.
  rewrite (proj2 (Z.leb_gt _ _) Hsz). rewrite Z.div_mul, Z_mod_mult by lia.
  replace (w32 k) with k by (unfold w32; rewrite Z.mod_small; lia). change (w32 0) with 0.
  rewrite !Z.sub_0_r, Z.ltb_irrefl.
  destruct (vd_in (disk v) k (blkbuf v)) as (d' & E & C1 & C2); [lia|rewrite Hlen; lia|].
  pose proof (vd_slow_serve VIRTIO_BLK_T_IN k (blkbuf v) _ Hslow) as Hs'. rewrite E in Hs'.
  pose proof (request_done VIRTIO_BLK_T_IN k (set_io_lock true v) d' _ 0 Hi E (vd_slow_early _ Hs')) as Er.
  unfold bind at 1. rewrite Er. unfold bind at 1, gets at 1. unfold bind at 1, modify at 1.
  cbn [served blkbuf app]. change (Z.to_nat 0) with 0%nat. rewrite drop_0, Hlen, Z.add_0_l, take_ge by (rewrite length_bytes_at; lia).
  assert (Hstop : forall f acc w, vread_loop f bs bs acc w = Done acc w).
  { intros f acc w. destruct f; cbn [vread_loop]; by rewrite Z.ltb_irrefl. }
  rewrite Hstop. unfold bind, io_lock_release, modify, ret. rewrite length_bytes_at.
  replace (Z.of_nat (S fuel)) with bs by lia. by eexists.
Qed.

(** The driver implements the block device interface. *)
#[export, refine] Instance vioblk_block_io : BlockIoSpec (vioblk_device D) := {
  bio_ok v := vok v /\ io_lock v = false /\ readonly v = false;
  bio_size := vsize;
  bio_pos := pos;
  bio_data v := vd_byte (disk v)
}.
Proof.
  - intros v p (Hv & Hl & Hro) Hp. exists (set_pos p v). split; [|split; [split; [apply vok_set_pos; [done|lia]|done]|done]].
    unfold bio_setpos, vioblk_io_ops, vioblk_ioctl. unfold bind at 1, bind at 1, io_lock_acquire at 1. rewrite Hl.
    cbn. unfold bind at 1, bind at 1, gets at 1. cbn. rewrite (proj2 (Z.ltb_ge _ _)) by lia.
    destruct v; cbn in *; by subst.
  - intros v p (Hv & Hl & Hro) Hp. exists (- EINVAL). split; [|done].
    unfold bio_setpos, vioblk_io_ops, vioblk_ioctl. unfold bind at 1, bind at 1, io_lock_acquire at 1. rewrite Hl.
    cbn. unfold bind at 1, bind at 1, gets at 1. cbn. rewrite (proj2 (Z.ltb_lt _ _)) by lia.
    destruct v; cbn in *; by subst.
  - intros v n (Hv & Hl & Hro) Hn Hp Hb.
    destruct (vread_any v n Hv Hl Hn) as (v' & E & Hv' & Hk & _ & Hd).
    assert (Ha : avail v n = n) by (unfold avail; lia). rewrite Ha in E.
    exists v'. split; [exact E|]. destruct Hk as [K1 K2 K3 K4].
    split; [split; [done|split; congruence]|]. split; [done|exact Hd].
  - intros v l (Hv & Hl & Hro) Hr Hp Hb.
    destruct (vwrite_any v l Hv Hl Hr Hro Hb) as (v' & E & Hv' & [K1 K2 K3 K4] & _ & Hd).
    exists v'. split; [exact E|]. split; [split; [done|split; congruence]|]. split; [done|exact Hd].
Defined.
End Props.

(** ** A concrete disk *)

(** [ram_early]: its interrupts are taken before the driver disables them. *)
Record ramdisk := MkRam { ram_sectors : Z; ram_byte : Z -> Z; ram_early : bool }.

#[export] Instance ramdisk_serve : VirtioDisk ramdisk := {
  vd_serve typ sector buf d :=
    if typ =? VIRTIO_BLK_T_IN
    then (d, bytes_at (fun i => w8 (ram_byte d i)) (sector * 512) (length buf), 0)
    else (MkRam (ram_sectors d) (store_at (ram_byte d) (sector * 512) buf) (ram_early d), buf, 0);
  vd_early := ram_early
}.

#[export, refine] Instance ramdisk_spec : VirtioDiskSpec ramdisk := {
  vd_capacity := ram_sectors;
  vd_byte d i := w8 (ram_byte d i);
  vd_slow d := ram_early d = false
}.
Proof.
  - intros d i. unfold w8. apply Z.mod_pos_bound. lia.
  - done.
  - intros typ sector buf d H. cbn. by destruct (typ =? VIRTIO_BLK_T_IN).
  - intros d sector buf Hs Hb. by exists d.
  - intros d sector buf Hs Hb Hr. eexists. split; [reflexivity|]. split; [done|].
    intros i Hi. cbn. destruct (decide (sector * 512 <= i < sector * 512 + Z.of_nat (length buf))) as [Hin|Hout].
    + rewrite !store_at_in by done. destruct (lookup_lt_is_Some_2 buf (Z.to_nat (i - sector * 512))) as [c Hc]; [lia|].
      rewrite Hc. cbn. unfold w8. apply Z.mod_small.
      by apply (Forall_lookup_1 _ _ _ _ Hr Hc).
    + rewrite !store_at_out by lia. done.
Defined.

(** A four-sector disk whose byte [i] is [i mod 251]. *)
Definition demo_disk : ramdisk := MkRam 4 (fun i => i mod 251) false.
Definition demo_vio : vioblk_device ramdisk :=
  MkVio demo_disk true false 1 512 500 2048 4 (replicate 512 0) 0 0 0 0 0 true false false 0.

Lemma demo_vio_ok : vok demo_vio.
Proof. constructor; (done || cbn; lia). Qed.

Lemma vioblk_read_correct_witness :
  exists v', vioblk_read 20 demo_vio = Done (20, bytes_at (vd_byte demo_disk) 500 20) v' /\ pos v' = 520.
Proof.
  destruct (vioblk_read_correct demo_vio 20 demo_vio_ok) as (v' & E & _ & _ & Hp & _); [reflexivity|lia|].
  exists v'. split; [exact E|exact Hp].
Defined.

Lemma vioblk_write_correct_witness :
  exists v', vioblk_write [1; 2; 3] demo_vio = Done 3 v' /\ pos v' = 503.
Proof.
  destruct (vioblk_write_correct demo_vio [1; 2; 3] demo_vio_ok) as [_ H]; [reflexivity|repeat constructor; lia|].
  destruct H as (v' & E & _ & _ & Hp & _); [reflexivity|cbn; lia|]. exists v'. split; [exact E|exact Hp].
Defined.

Lemma vioblk_lock_leaked_witness :
  exists v1, vioblk_write [7] (set_pos 2048 demo_vio) = Done 0 v1 /\ vioblk_read 1 v1 = Block v1.
Proof.
  destruct (vioblk_lock_leaked (set_pos 2048 demo_vio) [7] 9 None 1) as (v1 & v2 & E & _ & Hb & _);
    [reflexivity|reflexivity|cbn; lia|simpl; lia|set_solver|].
  exists v1. split; [exact E|exact Hb].
Defined.

(** The same disk, interrupting at once. *)
Definition early_vio : vioblk_device ramdisk :=
  MkVio (MkRam 4 (fun i => i mod 251) true) true false 1 512 500 2048 4 (replicate 512 0) 0 0 0 0 0 true false false 0.

Lemma vioblk_lost_wakeup_witness : exists v', vioblk_read 20 early_vio = Block v' /\ vioblk_open v' = Block v'.
Proof.
  destruct (vioblk_lost_wakeup early_vio 20) as (v' & E & _ & _ & Ho); [reflexivity|reflexivity|lia|cbn; lia|reflexivity|].
  exists v'. split; [exact E|exact Ho].
Defined.

(** A disk with 4096-byte blocks: block 1 reads as the bytes from 512 on. *)
Definition block4k_vio : vioblk_device ramdisk :=
  MkVio (MkRam 16 (fun i => i / 512) false) true false 1 4096 4096 8192 2 (replicate 4096 0) 0 0 0 0 0 true false false 0.

Lemma vioblk_blksz_wrong_sector_witness :
  exists v', vioblk_read 4096 block4k_vio = Done (4096, bytes_at (vd_byte (disk block4k_vio)) 512 4096) v' /\
    vd_byte (disk block4k_vio) 512 = 1 /\ vd_byte (disk block4k_vio) 4096 = 8.
Proof.
  destruct (vioblk_blksz_wrong_sector block4k_vio 4096 1) as (v' & E);
    [reflexivity|reflexivity|reflexivity|reflexivity|lia|lia|reflexivity|reflexivity|cbn; lia|cbn; lia|].
  exists v'. split; [exact E|split; reflexivity].
Defined.

(** The features the driver needs are looked for but not requested: after a
    successful negotiation with its sets the INDIRECT_DESC feature it uses is not
    enabled, whatever the device offers. *)
Lemma needed_feature_not_enabled offered :
  let needed := virtio_featset_add (virtio_featset_add virtio_featset_init VIRTIO_F_RING_RESET) VIRTIO_F_INDIRECT_DESC in
  let wanted := virtio_featset_add (virtio_featset_add virtio_featset_init VIRTIO_BLK_F_BLK_SIZE) VIRTIO_BLK_F_TOPOLOGY in
  forall enabled uninit, length uninit = 4%nat ->
    virtio_negotiate_features offered uninit wanted needed = (0, enabled) ->
    virtio_featset_test needed VIRTIO_F_INDIRECT_DESC = true /\
    virtio_featset_test enabled VIRTIO_F_INDIRECT_DESC = false.
Proof.
  intros needed wanted enabled uninit Hl Hn. split; [done|]. revert Hn. unfold virtio_negotiate_features.
  destruct (forallb _ _); [|done]. destruct uninit as [|a [|b [|c [|d [|e u]]]]]; try done.
  cbn -[Z.land]. intros [= <-]. unfold virtio_featset_test.
  change (Z.to_nat (VIRTIO_F_INDIRECT_DESC / 32)) with 0%nat. cbn [lookup list_lookup default from_option id].
  rewrite Z.shiftr_land, <- Z.land_assoc. by rewrite Z.land_0_r.
Qed.
