(* ===== verification/Kfs.v ===== *)
(** * The file system (kfs.c, kfs.h)

    The disk holds a boot block with the directory, then one block per inode,
    then the data blocks.  [boot_block], [inode] and [data_block] are the global
    buffers of the code, as their 4096 bytes; a file is named by its index in
    [file_structs], which stands for the pointer to its [io] member.  The
    functions run under [fs_lock]: a call that finds it held blocks. *)

From stdpp Require Import base list strings numbers.
From Stdlib Require Import Lia ZArith.
From S2P Require Import Prelude CString BlockIo.
Local Open Scope Z_scope.
Local Open Scope kern_scope.

Definition FS_BLKSZ : Z := 4096.
Definition FS_NAMELEN : nat := 32.
Definition FS_MAXOPEN : nat := 32.
Definition MAX_DENTRY : Z := 63.
Definition MAX_BLOCKS : Z := 1023.   (* length of inode_t.data_block_num *)
Definition SIZEOF_INODE : Z := 4096. (* sizeof(inode_t) *)

(** ** On-disk structures *)

(** The little-endian word at byte [off]. *)
Definition le32 (l : list Z) (off : Z) : Z :=
  let b k := default 0 (l !! Z.to_nat (off + k)) in
  b 0 + 256 * b 1 + 65536 * b 2 + 16777216 * b 3.

(** [boot_block_t]: three counts, 52 reserved bytes, 63 entries of 64 bytes. *)
Definition num_dentry (bb : list Z) : Z := le32 bb 0.
Definition num_inodes (bb : list Z) : Z := le32 bb 4.
Definition num_data (bb : list Z) : Z := le32 bb 8.
Definition dentry_off (i : Z) : Z := 64 + 64 * i.
Definition file_name (bb : list Z) (i : Z) : list Z := take FS_NAMELEN (drop (Z.to_nat (dentry_off i)) bb).
Definition dentry_inode (bb : list Z) (i : Z) : Z := le32 bb (dentry_off i + 32).

(** [inode_t]: the length in bytes and the numbers of the data blocks. *)
Definition byte_len (ino : list Z) : Z := le32 ino 0.
Definition data_block_num (ino : list Z) (i : Z) : Z := le32 ino (4 + 4 * i).

(** ** State *)

Record file_struct := MkFile {
  f_refcnt : Z; file_position : Z; file_size : Z; inode_number : Z; f_flags : Z
}.
Definition no_file : file_struct := MkFile 0 0 0 0 0.

Section Kfs.
Context {B : Type} {BI : BlockIo B}.

Record fstate := MkFs {
  vioblk_io : B;
  fs_initialized : bool;
  boot_block : list Z;
  file_structs : list file_struct;
  inode : list Z;
  data_block : list Z;
  fs_lock : bool                 (* held *)
}.

Definition set_dev (b : B) (s : fstate) : fstate :=
  MkFs b (fs_initialized s) (boot_block s) (file_structs s) (inode s) (data_block s) (fs_lock s).
Definition set_init (v : bool) (s : fstate) : fstate :=
  MkFs (vioblk_io s) v (boot_block s) (file_structs s) (inode s) (data_block s) (fs_lock s).
Definition set_boot (l : list Z) (s : fstate) : fstate :=
  MkFs (vioblk_io s) (fs_initialized s) l (file_structs s) (inode s) (data_block s) (fs_lock s).
Definition set_files (l : list file_struct) (s : fstate) : fstate :=
  MkFs (vioblk_io s) (fs_initialized s) (boot_block s) l (inode s) (data_block s) (fs_lock s).
Definition set_inode (l : list Z) (s : fstate) : fstate :=
  MkFs (vioblk_io s) (fs_initialized s) (boot_block s) (file_structs s) l (data_block s) (fs_lock s).
Definition set_block (l : list Z) (s : fstate) : fstate :=
  MkFs (vioblk_io s) (fs_initialized s) (boot_block s) (file_structs s) (inode s) l (fs_lock s).
Definition set_lock (v : bool) (s : fstate) : fstate :=
  MkFs (vioblk_io s) (fs_initialized s) (boot_block s) (file_structs s) (inode s) (data_block s) v.

Definition get_file (i : nat) (s : fstate) : file_struct := default no_file (file_structs s !! i).
Definition set_file (i : nat) (f : file_struct) (s : fstate) : fstate :=
  set_files (<[i := f]> (file_structs s)) s.

(** ** Calls to the lock and the device *)

Definition fs_lock_acquire : M fstate unit := fun s => if fs_lock s then Block s else Done tt (set_lock true s).
Definition fs_lock_release : M fstate unit := modify (set_lock false).

(** [vioblk_io->ops->ctl(vioblk_io, IOCTL_SETPOS, &pos)] *)
Definition dev_setpos (p : Z) : M fstate Z := lift vioblk_io set_dev (bio_setpos p).
Definition dev_read (n : Z) : M fstate (Z * list Z) := lift vioblk_io set_dev (bio_read n).
Definition dev_write (l : list Z) : M fstate Z := lift vioblk_io set_dev (bio_write l).

(** [l] stored at the start of the buffer [buf]. *)
Definition overlay (l buf : list Z) : list Z := l ++ drop (length l) buf.

(** ** [fs_mount] *)

Definition fs_mount (blkio : B) : M fstate Z :=
  modify (set_lock false) ;;
  modify (set_dev blkio) ;;
  ini <- gets fs_initialized ;;
  if (ini : bool) then ret (-1) else
  r <- dev_setpos 0 ;;
  if negb (r =? 0) then ret (-1) else
  x <- dev_read FS_BLKSZ ;;
  modify (fun s => set_boot (overlay (snd x) (boot_block s)) s) ;;
  if fst x <? 0 then ret (-1) else
  modify (set_init true) ;;
  modify (set_files (replicate FS_MAXOPEN no_file)) ;;
  ret 0.

(** ** [fs_open] *)

(** The first unused slot. *)
Fixpoint free_file (i : nat) (fs : list file_struct) : option nat :=
  match fs with
  | [] => None
  | f :: fs' => if f_flags f =? 0 then Some i else free_file (S i) fs'
  end.

(** [fname]: 33 bytes, the last one NUL. *)
Definition entry_name (bb : list Z) (i : Z) : list Z :=
  cstring (<[FS_NAMELEN := 0]> (strncpy (replicate 33 0) (cstring (file_name bb i)) FS_NAMELEN)).

(** The directory search over the entries [i], [i+1], ...: [None] when the index
    leaves [dir_entries]. *)
Fixpoint find_dentry (n : nat) (i : Z) (bb name : list Z) : option (option Z) :=
  match n with
  | O => Some None
  | S n' =>
      if MAX_DENTRY <=? i then None else
      if strncmp name (entry_name bb i) FS_NAMELEN =? 0 then Some (Some i)
      else find_dentry n' (i + 1) bb name
  end.

(** The result of an open: the error or the index of the file.  [open_entry] is
    the part of [fs_open] after the searches: slot [i] gets directory entry
    [d]. *)
Definition open_entry (i : nat) (bb : list Z) (d : Z) : M fstate (Z + nat) :=
  modify (fun s => let f := get_file i s in
    set_file i (MkFile (f_refcnt f) 0 (file_size f) (dentry_inode bb d) (f_flags f)) s) ;;
  let inode_pos := w64 (FS_BLKSZ + dentry_inode bb d * FS_BLKSZ) in
  r <- dev_setpos inode_pos ;;
  if negb (r =? 0) then fs_lock_release ;; ret (inl (-1)) else
  x <- dev_read SIZEOF_INODE ;;
  modify (fun s => set_inode (overlay (snd x) (inode s)) s) ;;
  if negb (fst x =? SIZEOF_INODE) then fs_lock_release ;; ret (inl (-1)) else
  modify (fun s => let f := get_file i s in
    set_file i (MkFile 1 (file_position f) (byte_len (inode s)) (inode_number f) 1) s) ;;
  fs_lock_release ;;
  ret (inr i).

Definition fs_open (name : list Z) : M fstate (Z + nat) :=
  fs_lock_acquire ;;
  ini <- gets fs_initialized ;;
  if negb ini then fs_lock_release ;; ret (inl (-1)) else
  slot <- gets (fun s => free_file 0 (file_structs s)) ;;
  match slot with
  | None => fs_lock_release ;; ret (inl (-1))
  | Some i =>
      bb <- gets boot_block ;;
      match find_dentry (Z.to_nat (num_dentry bb)) 0 bb name with
      | None => undef "dir_entries index out of range"
      | Some None => fs_lock_release ;; ret (inl (-1))
      | Some (Some d) => open_entry i bb d
      end
  end.

(** ** [fs_close] *)

Definition fs_close (io : nat) : M fstate unit :=
  modify (fun s => let f := get_file io s in
    set_file io (MkFile (f_refcnt f) (file_position f) (file_size f) (inode_number f) 0) s).

(** ** Transfers *)

(** Reads the inode of a file at the computed offset. *)
Definition inode_offset (ino : Z) : Z := w32 (FS_BLKSZ + w32 (w32 ino * FS_BLKSZ)).

Definition data_block_offset (bb : list Z) (blk : Z) : Z :=
  w32 (FS_BLKSZ + w32 (num_inodes bb * FS_BLKSZ) + w32 (blk * FS_BLKSZ)).

(** The read loop: [inl] is an error return, [inr] the final position, each with
    the bytes copied to the caller's buffer. *)
Fixpoint read_loop (fuel : nat) (bytes_to_read file_pos : Z) (acc : list Z) : M fstate (Z * list Z + Z * list Z) :=
  if bytes_to_read <=? 0 then ret (inr (file_pos, acc)) else
  match fuel with
  | O => fun _ => NoFuel
  | S fuel' =>
      let block_index := w32 (file_pos / FS_BLKSZ) in
      let block_offset := w32 (file_pos mod FS_BLKSZ) in
      if SIZEOF_INODE <=? block_index then ret (inr (file_pos, acc)) else
      if MAX_BLOCKS <=? block_index then undef "data_block_num index out of range" else
      blk <- gets (fun s => data_block_num (inode s) block_index) ;;
      bb <- gets boot_block ;;
      r <- dev_setpos (data_block_offset bb blk) ;;
      if negb (r =? 0) then ret (inl (-1, acc)) else
      let bytes_available := FS_BLKSZ - block_offset in
      let bytes_this_read := if bytes_to_read <? bytes_available then bytes_to_read else bytes_available in
      x <- dev_read FS_BLKSZ ;;
      modify (fun s => set_block (overlay (snd x) (data_block s)) s) ;;
      if negb (fst x =? FS_BLKSZ) then ret (inl (-1, acc)) else
      d <- gets data_block ;;
      read_loop fuel' (bytes_to_read - bytes_this_read) (w64 (file_pos + bytes_this_read))
        (acc ++ take (Z.to_nat bytes_this_read) (drop (Z.to_nat block_offset) d))
  end.

(** Every turn ends a block, so [n] bytes take at most [n/4096 + 2] turns. *)
Definition turns (n : Z) : nat := Z.to_nat (n / FS_BLKSZ + 2).

(** [io] is [None] for NULL; [buf] tells whether the buffer pointer is not NULL.
    The result is the return value and the bytes stored in the buffer. *)
Definition fs_read (io : option nat) (buf : bool) (n : Z) : M fstate (Z * list Z) :=
  fs_lock_acquire ;;
  match io with
  | None => fs_lock_release ;; ret (-1, [])
  | Some i =>
      if negb buf then fs_lock_release ;; ret (-1, []) else
      file <- gets (get_file i) ;;
      if f_flags file =? 0 then fs_lock_release ;; ret (-1, []) else
      ini <- gets fs_initialized ;;
      if negb ini then fs_lock_release ;; ret (-1, []) else
      if file_size file <=? file_position file then fs_lock_release ;; ret (0, []) else
      let n' := if file_size file <? w64 (file_position file + n)
                then file_size file - file_position file else n in
      r <- dev_setpos (inode_offset (inode_number file)) ;;
      if negb (r =? 0) then fs_lock_release ;; ret (-1, []) else
      x <- dev_read SIZEOF_INODE ;;
      modify (fun s => set_inode (overlay (snd x) (inode s)) s) ;;
      if negb (fst x =? SIZEOF_INODE) then fs_lock_release ;; ret (-1, []) else
      res <- read_loop (turns n') n' (file_position file) [] ;;
      match res with
      | inl e => fs_lock_release ;; ret e
      | inr (file_pos, out) =>
          modify (fun s => let f := get_file i s in
            set_file i (MkFile (f_refcnt f) file_pos (file_size f) (inode_number f) (f_flags f)) s) ;;
          fs_lock_release ;;
          ret (Z.of_nat (length out), out)
      end
  end.

Fixpoint write_loop (fuel : nat) (bytes_to_write file_pos total : Z) (buf : list Z) : M fstate (Z + Z * Z) :=
  if bytes_to_write <=? 0 then ret (inr (file_pos, total)) else
  match fuel with
  | O => fun _ => NoFuel
  | S fuel' =>
      let block_index := w32 (file_pos / FS_BLKSZ) in
      let block_offset := w32 (file_pos mod FS_BLKSZ) in
      if SIZEOF_INODE <=? block_index then ret (inr (file_pos, total)) else
      if MAX_BLOCKS <=? block_index then undef "data_block_num index out of range" else
      blk <- gets (fun s => data_block_num (inode s) block_index) ;;
      bb <- gets boot_block ;;
      r <- dev_setpos (w32 (data_block_offset bb blk + block_offset)) ;;
      if negb (r =? 0) then ret (inl (-6)) else
      let bytes_available := FS_BLKSZ - block_offset in
      let bytes_this_write := if bytes_to_write <? bytes_available then bytes_to_write else bytes_available in
      let chunk := take (Z.to_nat bytes_this_write) (drop (Z.to_nat total) buf) in
      modify (fun s => set_block (overlay chunk (data_block s)) s) ;;
      d <- gets data_block ;;
      w <- dev_write (take (Z.to_nat bytes_this_write) d) ;;
      if negb (w =? bytes_this_write) then ret (inl (-7)) else
      write_loop fuel' (bytes_to_write - bytes_this_write) (w64 (file_pos + bytes_this_write))
        (total + bytes_this_write) buf
  end.

(** [buf] holds the bytes at the buffer pointer ([None] for NULL), at least [n]
    of them. *)
Definition fs_write (io : option nat) (buf : option (list Z)) (n : Z) : M fstate Z :=
  fs_lock_acquire ;;
  match io, buf with
  | Some i, Some data =>
      file <- gets (get_file i) ;;
      if f_flags file =? 0 then fs_lock_release ;; ret (-2) else
      ini <- gets fs_initialized ;;
      if negb ini then fs_lock_release ;; ret (-3) else
      if file_size file <=? file_position file then fs_lock_release ;; ret 0 else
      let n' := if file_size file <? w64 (file_position file + n)
                then file_size file - file_position file else n in
      r <- dev_setpos (inode_offset (inode_number file)) ;;
      if negb (r =? 0) then fs_lock_release ;; ret (-1) else
      x <- dev_read SIZEOF_INODE ;;
      modify (fun s => set_inode (overlay (snd x) (inode s)) s) ;;
      if negb (fst x =? SIZEOF_INODE) then fs_lock_release ;; ret (-5) else
      res <- write_loop (turns n') n' (file_position file) 0 data ;;
      match res with
      | inl e => fs_lock_release ;; ret e
      | inr (file_pos, total) =>
          modify (fun s => let f := get_file i s in
            set_file i (MkFile (f_refcnt f) file_pos (file_size f) (inode_number f) (f_flags f)) s) ;;
          fs_lock_release ;;
          ret total
      end
  | _, _ => fs_lock_release ;; ret (-1)
  end.

(** ** Controls *)

Definition IOCTL_GETLEN : Z := 1.
Definition IOCTL_SETLEN : Z := 2.
Definition IOCTL_GETPOS : Z := 3.
Definition IOCTL_SETPOS : Z := 4.
Definition IOCTL_FLUSH : Z := 5.
Definition IOCTL_GETBLKSZ : Z := 6.

(** [arg] is the 64-bit word the argument points to ([None] for NULL); the
    result is the return value and the new value of that word. *)
Definition fs_getlen (fd : nat) (arg : option Z) : M fstate (Z * option Z) :=
  match arg with
  | None => ret (-1, arg)
  | Some _ => f <- gets (get_file fd) ;; ret (0, Some (file_size f))
  end.
Definition fs_getpos (fd : nat) (arg : option Z) : M fstate (Z * option Z) :=
  match arg with
  | None => ret (-1, arg)
  | Some _ => f <- gets (get_file fd) ;; ret (0, Some (file_position f))
  end.
Definition fs_setpos (fd : nat) (arg : option Z) : M fstate (Z * option Z) :=
  match arg with
  | None => ret (-1, arg)
  | Some new_pos =>
      f <- gets (get_file fd) ;;
      if file_size f <? new_pos then ret (-1, arg) else
      modify (set_file fd (MkFile (f_refcnt f) new_pos (file_size f) (inode_number f) (f_flags f))) ;;
      ret (0, arg)
  end.
Definition fs_getblksz (fd : nat) (arg : option Z) : M fstate (Z * option Z) :=
  match arg with
  | None => ret (-1, arg)
  | Some _ => ret (0, Some FS_BLKSZ)
  end.

Definition fs_ioctl (io : nat) (cmd : Z) (arg : option Z) : M fstate (Z * option Z) :=
  fs_lock_acquire ;;
  file <- gets (get_file io) ;;
  if f_flags file =? 0 then fs_lock_release ;; ret (-1, arg) else
  if cmd =? IOCTL_GETLEN then r <- fs_getlen io arg ;; fs_lock_release ;; ret r else
  if cmd =? IOCTL_GETPOS then r <- fs_getpos io arg ;; fs_lock_release ;; ret r else
  if cmd =? IOCTL_SETPOS then r <- fs_setpos io arg ;; fs_lock_release ;; ret r else
  if cmd =? IOCTL_GETBLKSZ then r <- fs_getblksz io arg ;; fs_lock_release ;; ret r else
  ret (- ENOTSUP, arg).

End Kfs.

Arguments fstate B : clear implicits.
