(* ===== verification/KfsProps.v ===== *)
(** * Theorems on the file system (kfs.c)

    Proved against the block device interface [BlockIoSpec].  A file's bytes are
    found on the disk through its inode: [faddr] is the disk address of a file
    offset.  The layout of the open file is assumed to be inside the device. *)

From stdpp Require Import base list strings numbers.
From Stdlib Require Import Lia ZArith.
From S2P Require Import Prelude CString BlockIo Vioblk Kfs.
Local Open Scope Z_scope.
Local Open Scope kern_scope.

(** ** Disk layout *)

Definition inode_at (d : Z -> Z) (ino : Z) : list Z := bytes_at d (FS_BLKSZ + ino * FS_BLKSZ) 4096.

(** First byte of data block [k] of the file with inode bytes [ib]. *)
Definition block_addr (bb ib : list Z) (k : Z) : Z :=
  FS_BLKSZ + num_inodes bb * FS_BLKSZ + data_block_num ib k * FS_BLKSZ.

(** The disk address of byte [i] of the file. *)
Definition faddr (bb ib : list Z) (i : Z) : Z := block_addr bb ib (i / FS_BLKSZ) + i mod FS_BLKSZ.

(** The [n] bytes of the file from offset [p]. *)
Definition file_bytes (d : Z -> Z) (bb ib : list Z) (p : Z) (n : nat) : list Z :=
  bytes_at (fun i => d (faddr bb ib i)) p n.

(** The blocks of a file of [size] bytes are inside a device of [dsize] bytes,
    which is at most 4 GiB. *)
Record file_layout (bb ib : list Z) (size dsize : Z) : Prop := {
  lay_dsize : dsize <= 2 ^ 32;
  lay_inodes : 0 <= num_inodes bb;
  lay_size : 0 <= size <= MAX_BLOCKS * FS_BLKSZ;
  lay_blocks : forall k, 0 <= k * FS_BLKSZ < size ->
    0 <= data_block_num ib k /\ block_addr bb ib k + FS_BLKSZ <= dsize
}.

Section Props.
Context {B : Type} {BI : BlockIo B} {BIO : BlockIoSpec B}.

(** [s'] differs from [s] in the device and the block buffer, and the device
    content is the same. *)
Definition same_disk (b b' : B) : Prop :=
  bio_ok b' /\ bio_size b' = bio_size b /\ forall i, 0 <= i -> bio_data b' i = bio_data b i.

Lemma same_disk_trans b1 b2 b3 : same_disk b1 b2 -> same_disk b2 b3 -> same_disk b1 b3.
Proof.
  intros (H1 & H2 & H3) (H4 & H5 & H6). split; [done|]. split; [congruence|].
  intros i Hi. rewrite H6, H3 by done. done.
Qed.

Lemma dev_setpos_ok s p :
  bio_ok (vioblk_io s) -> 0 <= p <= bio_size (vioblk_io s) ->
  exists b, dev_setpos p s = Done 0 (set_dev b s) /\ same_disk (vioblk_io s) b /\ bio_pos b = p.
Proof.
  intros Hok Hp. destruct (bio_setpos_ok _ p Hok Hp) as (b & E & H1 & H2 & H3 & H4).
  exists b. unfold dev_setpos, lift. rewrite E. split; [done|]. split; [done|done].
Qed.

Lemma dev_read_ok s n :
  bio_ok (vioblk_io s) -> 0 <= n -> 0 <= bio_pos (vioblk_io s) ->
  bio_pos (vioblk_io s) + n <= bio_size (vioblk_io s) ->
  exists b, dev_read n s =
      Done (n, bytes_at (bio_data (vioblk_io s)) (bio_pos (vioblk_io s)) (Z.to_nat n)) (set_dev b s) /\
    same_disk (vioblk_io s) b.
Proof.
  intros Hok Hn Hp Hb. destruct (bio_read_ok _ n Hok Hn Hp Hb) as (b & E & H1 & H2 & H3).
  exists b. unfold dev_read, lift. rewrite E. done.
Qed.

(** Setting the position and reading [n] bytes there. *)
Lemma dev_fetch s p n :
  bio_ok (vioblk_io s) -> 0 <= p -> 0 <= n -> p + n <= bio_size (vioblk_io s) ->
  exists b1 b2, dev_setpos p s = Done 0 (set_dev b1 s) /\
    dev_read n (set_dev b1 s) = Done (n, bytes_at (bio_data (vioblk_io s)) p (Z.to_nat n)) (set_dev b2 s) /\
    same_disk (vioblk_io s) b2.
Proof.
  intros Hok Hp Hn Hb. destruct (dev_setpos_ok s p Hok ltac:(lia)) as (b1 & E1 & Hs1 & Hp1).
  pose proof Hs1 as (Hok1 & Hz1 & Hd1).
  destruct (dev_read_ok (set_dev b1 s) n) as (b2 & E2 & Hs2); cbn [vioblk_io set_dev]; [done|done|lia|lia|].
  exists b1, b2. split; [done|]. split; [|by eapply same_disk_trans].
  rewrite E2. cbn [vioblk_io set_dev]. rewrite Hp1. f_equal. f_equal. apply bytes_at_ext. intros k Hk. apply Hd1. lia.
Qed.

Lemma overlay_full l buf : length buf = length l -> overlay l buf = l.
Proof. intros Hl. unfold overlay. rewrite drop_ge by lia. apply app_nil_r. Qed.

(** The offsets the code computes in 32 bits do not wrap. *)
Lemma data_block_offset_eq bb ib k size dsize :
  file_layout bb ib size dsize -> 0 <= k * FS_BLKSZ < size ->
  data_block_offset bb (data_block_num ib k) = block_addr bb ib k /\
  0 <= block_addr bb ib k /\ block_addr bb ib k + FS_BLKSZ <= dsize.
Proof.
  intros [H1 H2 H3 H4] Hk. destruct (H4 k Hk) as [Hd Hb]. unfold data_block_offset, block_addr, FS_BLKSZ in *.
  assert (Hsmall : forall x, 0 <= x < 2 ^ 32 -> w32 x = x) by (intros x Hx; unfold w32; apply Z.mod_small; lia).
  rewrite (Hsmall (num_inodes bb * 4096)), (Hsmall (data_block_num ib k * 4096)) by lia.
  rewrite Hsmall by lia. lia.
Qed.

Lemma file_pos_parts p size :
  0 <= p < size -> size <= MAX_BLOCKS * FS_BLKSZ ->
  w32 (p / FS_BLKSZ) = p / FS_BLKSZ /\ w32 (p mod FS_BLKSZ) = p mod FS_BLKSZ /\
  0 <= p / FS_BLKSZ < MAX_BLOCKS /\ 0 <= p / FS_BLKSZ * FS_BLKSZ < size /\ 0 <= p mod FS_BLKSZ < FS_BLKSZ /\
  p = p / FS_BLKSZ * FS_BLKSZ + p mod FS_BLKSZ.
Proof.
  unfold MAX_BLOCKS, FS_BLKSZ. intros Hp Hs. pose proof (Z.div_mod p 4096 ltac:(lia)).
  pose proof (Z.mod_pos_bound p 4096 ltac:(lia)). unfold w32. rewrite !Z.mod_small by lia. lia.
Qed.

(** File offsets within one block have consecutive addresses. *)
Lemma faddr_block bb ib p k :
  0 <= k -> p mod FS_BLKSZ + k < FS_BLKSZ -> faddr bb ib (p + k) = faddr bb ib p + k.
Proof.
  unfold faddr, FS_BLKSZ. intros Hk Hb. pose proof (Z.div_mod p 4096 ltac:(lia)) as Hd.
  pose proof (Z.mod_pos_bound p 4096 ltac:(lia)).
  assert (E1 : (p + k) / 4096 = p / 4096).
  { symmetry. apply (Z.div_unique (p + k) 4096 (p / 4096) (p mod 4096 + k)); lia. }
  assert (E2 : (p + k) mod 4096 = p mod 4096 + k).
  { symmetry. apply (Z.mod_unique (p + k) 4096 (p / 4096) (p mod 4096 + k)); lia. }
  rewrite E1, E2. lia.
Qed.

(** The next position of a transfer: the end, or the next block. *)
Lemma next_position p n fuel :
  0 <= p -> 0 < n -> p + n <= (p / FS_BLKSZ + Z.of_nat (S fuel)) * FS_BLKSZ ->
  let m := if n <? FS_BLKSZ - p mod FS_BLKSZ then n else FS_BLKSZ - p mod FS_BLKSZ in
  0 < m <= n /\ p mod FS_BLKSZ + m <= FS_BLKSZ /\
  (n - m <= 0 \/ (p + m) + (n - m) <= ((p + m) / FS_BLKSZ + Z.of_nat fuel) * FS_BLKSZ).
Proof.
  intros Hp Hn Hf m. unfold m, FS_BLKSZ in *. clear m. pose proof (Z.mod_pos_bound p 4096 ltac:(lia)) as Hm.
  pose proof (Z.div_mod p 4096 ltac:(lia)) as Hd.
  destruct (Z.ltb_spec n (4096 - p mod 4096)); [lia|]. split; [lia|]. split; [lia|]. right.
  assert (E : (p + (4096 - p mod 4096)) / 4096 = p / 4096 + 1).
  { symmetry. apply (Z.div_unique _ 4096 (p / 4096 + 1) 0); lia. }
  rewrite E. lia.
Qed.

Lemma turns_enough p n :
  0 <= p -> 0 <= n -> p + n <= (p / FS_BLKSZ + Z.of_nat (turns n)) * FS_BLKSZ.
Proof.
  unfold turns, FS_BLKSZ. intros Hp Hn. pose proof (Z.div_mod p 4096 ltac:(lia)).
  pose proof (Z.mod_pos_bound p 4096 ltac:(lia)). pose proof (Z.div_mod n 4096 ltac:(lia)).
  pose proof (Z.mod_pos_bound n 4096 ltac:(lia)). pose proof (Z.div_pos n 4096 ltac:(lia) ltac:(lia)).
  rewrite Z2Nat.id by lia. lia.
Qed.

(** ** [fs_read] *)

Lemma read_loop_ok bb ib size dsize : forall fuel n p acc s,
  file_layout bb ib size dsize -> boot_block s = bb -> inode s = ib -> length (data_block s) = 4096%nat ->
  bio_ok (vioblk_io s) -> bio_size (vioblk_io s) = dsize ->
  0 <= p -> 0 <= n -> p + n <= size -> (n <= 0 \/ p + n <= (p / FS_BLKSZ + Z.of_nat fuel) * FS_BLKSZ) ->
  exists b blk, read_loop fuel n p acc s =
      Done (inr (p + n, acc ++ file_bytes (bio_data (vioblk_io s)) bb ib p (Z.to_nat n)))
           (set_block blk (set_dev b s)) /\
    same_disk (vioblk_io s) b /\ length blk = 4096%nat.
Proof.
  intros fuel. induction fuel as [|fuel IH]; intros n p acc s HL Hbb Hib Hblk Hok Hsz Hp Hn Hend Hf.
  all: cbn [read_loop]; destruct (Z.leb_spec n 0) as [Hz|Hz].
  1, 3: exists (vioblk_io s), (data_block s); assert (n = 0) as -> by lia; cbn;
    rewrite app_nil_r, Z.add_0_r; split; [by destruct s|]; by split.
  - destruct Hf as [?|Hf]; [lia|]. exfalso. cbn in Hf. rewrite Z.add_0_r in Hf.
    pose proof (Z.div_mod p FS_BLKSZ ltac:(done)). pose proof (Z.mod_pos_bound p FS_BLKSZ ltac:(done)). lia.
  - destruct Hf as [?|Hf]; [lia|]. destruct HL as [L1 L2 L3 L4]. pose proof (Build_file_layout _ _ _ _ L1 L2 L3 L4) as HL.
    destruct (file_pos_parts p size) as (E1 & E2 & R1 & R2 & R3 & R4); [lia|lia|].
    rewrite E1, E2. cbv zeta.
    rewrite (proj2 (Z.leb_gt SIZEOF_INODE _)) by (unfold SIZEOF_INODE, MAX_BLOCKS in *; lia).
    rewrite (proj2 (Z.leb_gt MAX_BLOCKS _)) by lia.
    unfold bind at 1, gets at 1. unfold bind at 1, gets at 1. rewrite Hbb, Hib.
    destruct (data_block_offset_eq bb ib (p / FS_BLKSZ) size dsize HL R2) as (Eoff & A1 & A2). rewrite Eoff.
    destruct (dev_fetch s (block_addr bb ib (p / FS_BLKSZ)) FS_BLKSZ Hok A1 ltac:(done) ltac:(lia))
      as (b1 & b2 & F1 & F2 & Hsame).
    mstep F1. cbn [Z.eqb negb]. mstep F2. unfold bind at 1, modify at 1. cbn [fst snd].
    rewrite Z.eqb_refl. cbn [negb]. unfold bind at 1, gets at 1.
    cbn [data_block set_block set_dev]. rewrite overlay_full by (rewrite length_bytes_at; done).
    destruct (next_position p n fuel Hp Hz Hf) as (M1 & M2 & M3).
    set (m := if n <? FS_BLKSZ - p mod FS_BLKSZ then n else FS_BLKSZ - p mod FS_BLKSZ) in *.
    set (blk := bytes_at (bio_data (vioblk_io s)) (block_addr bb ib (p / FS_BLKSZ)) (Z.to_nat FS_BLKSZ)).
    assert (Hw : w64 (p + m) = p + m) by (unfold w64; apply Z.mod_small; unfold MAX_BLOCKS, FS_BLKSZ in *; lia).
    rewrite Hw. pose proof Hsame as (S1 & S2 & S3).
    set (s1 := set_block blk (set_dev b2 s)).
    destruct (IH (n - m) (p + m)
      (acc ++ take (Z.to_nat m) (drop (Z.to_nat (p mod FS_BLKSZ)) blk)) s1) as (b & blk' & E & Hsame' & Hlen);
      [done|done|done|unfold s1, blk; cbn; by rewrite length_bytes_at|done|cbn; congruence|lia|lia|lia|done|].
    exists b, blk'. split; [|split; [by eapply same_disk_trans|done]]. rewrite E.
    replace (p + m + (n - m)) with (p + n) by lia. f_equal. f_equal. f_equal.
    rewrite <- app_assoc. f_equal. replace (Z.to_nat n) with (Z.to_nat m + Z.to_nat (n - m))%nat by lia.
    unfold file_bytes. rewrite bytes_at_app. rewrite Z2Nat.id by lia. f_equal.
    + unfold blk. rewrite take_drop_bytes_at by (unfold FS_BLKSZ in *; lia). rewrite Z2Nat.id by lia.
      apply bytes_at_ext. intros k Hk. f_equal. rewrite faddr_block by lia. unfold faddr. lia.
    + apply bytes_at_ext. intros k Hk. cbn. apply S3.
      destruct (file_pos_parts (p + m + k) size) as (_ & _ & _ & R2' & R3' & _); [lia|lia|].
      destruct (data_block_offset_eq bb ib ((p + m + k) / FS_BLKSZ) size dsize HL R2') as (_ & A1' & _).
      unfold faddr. lia.
Qed.

(** An open file ready for a transfer. *)
Record open_file (s : fstate B) (i : nat) (f : file_struct) : Prop := {
  of_file : file_structs s !! i = Some f;
  of_flags : f_flags f <> 0;
  of_init : fs_initialized s = true;
  of_lock : fs_lock s = false;
  of_dev : bio_ok (vioblk_io s);
  of_pos : 0 <= file_position f;
  of_ino : 0 <= inode_number f /\ FS_BLKSZ + inode_number f * FS_BLKSZ + SIZEOF_INODE <= bio_size (vioblk_io s);
  of_bufs : length (inode s) = 4096%nat /\ length (data_block s) = 4096%nat;
  of_layout : file_layout (boot_block s) (inode_at (bio_data (vioblk_io s)) (inode_number f)) (file_size f)
    (bio_size (vioblk_io s))
}.

Definition the_inode (s : fstate B) (f : file_struct) : list Z :=
  inode_at (bio_data (vioblk_io s)) (inode_number f).

(** The file content, as the inode on disk describes it. *)
Definition contents_at (s : fstate B) (f : file_struct) (p : Z) (n : nat) : list Z :=
  file_bytes (bio_data (vioblk_io s)) (boot_block s) (the_inode s f) p n.

Definition with_pos (p : Z) (f : file_struct) : file_struct :=
  MkFile (f_refcnt f) p (file_size f) (inode_number f) (f_flags f).

Lemma inode_offset_eq s i f :
  open_file s i f -> inode_offset (inode_number f) = FS_BLKSZ + inode_number f * FS_BLKSZ.
Proof.
  intros H. destruct (of_ino _ _ _ H) as [H0 H1]. pose proof (lay_dsize _ _ _ _ (of_layout _ _ _ H)).
  unfold inode_offset, FS_BLKSZ, SIZEOF_INODE in *.
  assert (Hsmall : forall x, 0 <= x < 2 ^ 32 -> w32 x = x) by (intros x Hx; unfold w32; apply Z.mod_small; lia).
  rewrite (Hsmall (inode_number f)) by lia. rewrite (Hsmall (inode_number f * 4096)) by lia. apply Hsmall. lia.
Qed.

(** The inode is fetched into the global buffer. *)
Lemma fetch_inode s i f :
  open_file s i f ->
  exists b1 b2, dev_setpos (inode_offset (inode_number f)) (set_lock true s) = Done 0 (set_dev b1 (set_lock true s)) /\
    dev_read SIZEOF_INODE (set_dev b1 (set_lock true s)) =
      Done (SIZEOF_INODE, the_inode s f) (set_dev b2 (set_lock true s)) /\ same_disk (vioblk_io s) b2.
Proof.
  intros H. rewrite (inode_offset_eq _ _ _ H). destruct (of_ino _ _ _ H) as [H0 H1].
  destruct (dev_fetch (set_lock true s) (FS_BLKSZ + inode_number f * FS_BLKSZ) SIZEOF_INODE)
    as (b1 & b2 & E1 & E2 & Hs); cbn [vioblk_io set_lock];
    [apply (of_dev _ _ _ H)|unfold FS_BLKSZ; lia|done|done|]. eauto.
Qed.

Lemma clamp_eq f n :
  0 <= file_position f < file_size f -> file_size f <= MAX_BLOCKS * FS_BLKSZ ->
  0 <= n -> file_position f + n < 2 ^ 64 ->
  (if file_size f <? w64 (file_position f + n) then file_size f - file_position f else n) =
  Z.min n (file_size f - file_position f).
Proof.
  intros Hp Hs Hn Hw. unfold w64. rewrite Z.mod_small by lia.
  destruct (Z.ltb_spec (file_size f) (file_position f + n)); lia.
Qed.

Lemma layout_ext bb d d' ino size dsize :
  file_layout bb (inode_at d ino) size dsize -> inode_at d' ino = inode_at d ino -> file_layout bb (inode_at d' ino) size dsize.
Proof. by intros H ->. Qed.

Lemma same_disk_inode b b' ino : same_disk b b' -> 0 <= ino -> inode_at (bio_data b') ino = inode_at (bio_data b) ino.
Proof.
  intros (_ & _ & Hd) Hi. apply bytes_at_ext. intros k Hk. apply Hd. unfold FS_BLKSZ. lia.
Qed.

(** The transfer up to the loop. *)
Lemma read_front s i f n :
  open_file s i f -> file_position f < file_size f -> 0 <= n -> file_position f + n < 2 ^ 64 ->
  let n' := Z.min n (file_size f - file_position f) in
  exists b, same_disk (vioblk_io s) b /\
    fs_read (Some i) true n s =
    (res <- read_loop (turns n') n' (file_position f) [] ;;
     match res with
     | inl e => fs_lock_release ;; ret e
     | inr (file_pos, out) =>
         modify (fun s => let f := get_file i s in set_file i (with_pos file_pos f) s) ;;
         fs_lock_release ;; ret (Z.of_nat (length out), out)
     end) (set_inode (the_inode s f) (set_dev b (set_lock true s))).
Proof.
  intros H Hpos Hn Hw n'. destruct (fetch_inode s i f H) as (b1 & b2 & E1 & E2 & Hs). exists b2. split; [done|].
  assert (Hg : get_file i (set_lock true s) = f).
  { unfold get_file. cbn. by rewrite (of_file _ _ _ H). }
  unfold fs_read. unfold bind at 1, fs_lock_acquire at 1. rewrite (of_lock _ _ _ H). cbn [negb].
  unfold bind at 1, gets at 1. rewrite Hg. rewrite (proj2 (Z.eqb_neq _ _) (of_flags _ _ _ H)).
  unfold bind at 1, gets at 1. cbn [fs_initialized set_lock]. rewrite (of_init _ _ _ H). cbn [negb].
  rewrite (proj2 (Z.leb_gt (file_size f) (file_position f))) by done.
  rewrite clamp_eq; [|pose proof (of_pos _ _ _ H); lia|apply (of_layout _ _ _ H)|done|done]. cbv zeta. fold n'.
  mstep E1. cbn [Z.eqb negb]. mstep E2. unfold bind at 1, modify at 1. cbn [fst snd]. rewrite Z.eqb_refl. cbn [negb].
  cbn [inode set_dev set_lock]. rewrite overlay_full; [done|].
  unfold the_inode, inode_at. rewrite length_bytes_at. apply (of_bufs _ _ _ H).
Qed.

(** ** [fs_write] *)

(** No data block belongs to the file twice. *)
Definition distinct_blocks (ib : list Z) (size : Z) : Prop :=
  forall k1 k2, 0 <= k1 * FS_BLKSZ < size -> 0 <= k2 * FS_BLKSZ < size ->
    data_block_num ib k1 = data_block_num ib k2 -> k1 = k2.

Lemma faddr_inj bb ib size i j :
  distinct_blocks ib size -> size <= MAX_BLOCKS * FS_BLKSZ -> 0 <= i < size -> 0 <= j < size ->
  faddr bb ib i = faddr bb ib j -> i = j.
Proof.
  intros Hd Hs Hi Hj E. destruct (file_pos_parts i size Hi Hs) as (_ & _ & _ & I2 & I3 & I4).
  destruct (file_pos_parts j size Hj Hs) as (_ & _ & _ & J2 & J3 & J4).
  unfold faddr, block_addr, FS_BLKSZ in *.
  assert (Eb : data_block_num ib (i / 4096) = data_block_num ib (j / 4096)) by lia.
  pose proof (Hd _ _ I2 J2 Eb) as Ek. rewrite Ek in *. lia.
Qed.

(** [d'] is [d] with the bytes of [l] stored in the file from offset [p]. *)
Definition written (bb ib : list Z) (d d' : Z -> Z) (p : Z) (l : list Z) : Prop :=
  (forall k c, l !! k = Some c -> d' (faddr bb ib (p + Z.of_nat k)) = c) /\
  (forall x, 0 <= x -> (forall k, (k < length l)%nat -> x <> faddr bb ib (p + Z.of_nat k)) -> d' x = d x).

Lemma written_nil bb ib d d' p : (forall x, 0 <= x -> d' x = d x) -> written bb ib d d' p [].
Proof. intros H. split; [by intros k c|]. auto. Qed.

Lemma faddr_nonneg bb ib size dsize i : file_layout bb ib size dsize -> 0 <= i < size -> 0 <= faddr bb ib i.
Proof.
  intros HL Hi. destruct (file_pos_parts i size Hi (proj2 (lay_size _ _ _ _ HL))) as (_ & _ & _ & R2 & R3 & _).
  destruct (data_block_offset_eq bb ib (i / FS_BLKSZ) size dsize HL R2) as (_ & A1 & _). unfold faddr. lia.
Qed.

(** A write inside one block, followed by a write of the rest. *)
Lemma written_app bb ib size dsize d d1 d2 p l1 l2 :
  file_layout bb ib size dsize -> distinct_blocks ib size -> 0 <= p ->
  p + Z.of_nat (length l1) + Z.of_nat (length l2) <= size ->
  p mod FS_BLKSZ + Z.of_nat (length l1) <= FS_BLKSZ ->
  (forall x, 0 <= x -> d1 x = store_at d (faddr bb ib p) l1 x) ->
  written bb ib d1 d2 (p + Z.of_nat (length l1)) l2 ->
  written bb ib d d2 p (l1 ++ l2).
Proof.
  intros HL Hdist Hp Hend Hblk H1 [W1 W2].
  assert (Hsz : size <= MAX_BLOCKS * FS_BLKSZ) by apply (lay_size _ _ _ _ HL).
  assert (Hf : forall k, (k < length l1)%nat -> faddr bb ib (p + Z.of_nat k) = faddr bb ib p + Z.of_nat k).
  { intros k Hk. apply faddr_block; lia. }
  split.
  - intros k c Hk. destruct (decide (k < length l1)%nat) as [Hlt|Hge].
    + rewrite lookup_app_l in Hk by done.
      assert (Hnn : 0 <= faddr bb ib (p + Z.of_nat k)) by (eapply faddr_nonneg; [done|lia]).
      rewrite W2; [|done|].
      * rewrite H1 by done. rewrite Hf by done. rewrite store_at_in by lia.
        replace (Z.to_nat (faddr bb ib p + Z.of_nat k - faddr bb ib p)) with k by lia. by rewrite Hk.
      * intros j Hj E. apply (faddr_inj bb ib size) in E; [lia|done|done|lia|lia].
    + rewrite lookup_app_r in Hk by lia. pose proof (W1 _ _ Hk) as E. rewrite <- E. f_equal. f_equal. lia.
  - intros x Hx Hno. rewrite W2; [|done|].
    + rewrite H1 by done. apply store_at_out.
      destruct (decide (x < faddr bb ib p)) as [?|Hge]; [by left|].
      destruct (decide (faddr bb ib p + Z.of_nat (length l1) <= x)) as [?|Hlt]; [by right|]. exfalso.
      apply (Hno (Z.to_nat (x - faddr bb ib p))); [rewrite length_app; lia|]. rewrite Hf by lia. lia.
    + intros k Hk. replace (p + Z.of_nat (length l1) + Z.of_nat k) with (p + Z.of_nat (length l1 + k)) by lia.
      apply Hno. rewrite length_app. lia.
Qed.

Lemma dev_write_ok s p l :
  bio_ok (vioblk_io s) -> Forall (fun c => 0 <= c < 256) l -> 0 <= p ->
  p + Z.of_nat (length l) <= bio_size (vioblk_io s) ->
  exists b1 b2, dev_setpos p s = Done 0 (set_dev b1 s) /\
    (forall blk, dev_write l (set_block blk (set_dev b1 s)) =
       Done (Z.of_nat (length l)) (set_block blk (set_dev b2 s))) /\
    bio_ok b2 /\ bio_size b2 = bio_size (vioblk_io s) /\
    forall i, 0 <= i -> bio_data b2 i = store_at (bio_data (vioblk_io s)) p l i.
Proof.
  intros Hok Hl Hp Hb. destruct (dev_setpos_ok s p Hok ltac:(lia)) as (b1 & E1 & (S1 & S2 & S3) & Hp1).
  destruct (bio_write_ok b1 l S1 Hl) as (b2 & E2 & G1 & G2 & G3); [lia|lia|].
  exists b1, b2. split; [done|]. split.
  { intros blk. unfold dev_write, lift. cbn [vioblk_io set_block set_dev]. by rewrite E2. }
  split; [done|]. split; [congruence|]. intros i Hi. rewrite G3 by done. rewrite Hp1.
  unfold store_at. destruct (_ && _); [done|]. by apply S3.
Qed.

Lemma write_loop_ok bb ib size dsize buf :
  file_layout bb ib size dsize -> distinct_blocks ib size -> Forall (fun c => 0 <= c < 256) buf ->
  forall fuel n p total s,
  boot_block s = bb -> inode s = ib -> length (data_block s) = 4096%nat ->
  bio_ok (vioblk_io s) -> bio_size (vioblk_io s) = dsize ->
  0 <= p -> 0 <= n -> 0 <= total -> p + n <= size -> total + n <= Z.of_nat (length buf) ->
  (n <= 0 \/ p + n <= (p / FS_BLKSZ + Z.of_nat fuel) * FS_BLKSZ) ->
  exists b blk, write_loop fuel n p total buf s = Done (inr (p + n, total + n)) (set_block blk (set_dev b s)) /\
    bio_ok b /\ bio_size b = dsize /\
    written bb ib (bio_data (vioblk_io s)) (bio_data b) p (take (Z.to_nat n) (drop (Z.to_nat total) buf)) /\
    length blk = 4096%nat.
Proof.
  intros HL Hdist Hbuf fuel.
  induction fuel as [|fuel IH]; intros n p total s Hbb Hib Hblk Hok Hsz Hp Hn Ht Hend Hlen Hf.
  all: cbn [write_loop]; destruct (Z.leb_spec n 0) as [Hz|Hz].
  1, 3: exists (vioblk_io s), (data_block s); assert (n = 0) as -> by lia;
    rewrite !Z.add_0_r; split; [by destruct s|]; split; [done|]; split; [done|]; split; [by apply written_nil|done].
  - destruct Hf as [?|Hf]; [lia|]. exfalso. cbn in Hf. rewrite Z.add_0_r in Hf.
    pose proof (Z.div_mod p FS_BLKSZ ltac:(done)). pose proof (Z.mod_pos_bound p FS_BLKSZ ltac:(done)). lia.
  - destruct Hf as [?|Hf]; [lia|]. pose proof (proj2 (lay_size _ _ _ _ HL)) as Hmax.
    pose proof (lay_dsize _ _ _ _ HL) as Hds.
    destruct (file_pos_parts p size) as (E1 & E2 & R1 & R2 & R3 & R4); [lia|lia|].
    rewrite E1, E2. cbv zeta.
    rewrite (proj2 (Z.leb_gt SIZEOF_INODE _)) by (unfold SIZEOF_INODE, MAX_BLOCKS in *; lia).
    rewrite (proj2 (Z.leb_gt MAX_BLOCKS _)) by lia.
    unfold bind at 1, gets at 1. unfold bind at 1, gets at 1. rewrite Hbb, Hib.
    destruct (data_block_offset_eq bb ib (p / FS_BLKSZ) size dsize HL R2) as (Eoff & A1 & A2). rewrite Eoff.
    destruct (next_position p n fuel Hp Hz Hf) as (M1 & M2 & M3).
    set (m := if n <? FS_BLKSZ - p mod FS_BLKSZ then n else FS_BLKSZ - p mod FS_BLKSZ) in *.
    set (chunk := take (Z.to_nat m) (drop (Z.to_nat total) buf)).
    assert (Hcl : length chunk = Z.to_nat m) by (unfold chunk; rewrite length_take, length_drop; lia).
    assert (Hcb : Forall (fun c => 0 <= c < 256) chunk) by (by apply Forall_take, Forall_drop).
    assert (Hfa : block_addr bb ib (p / FS_BLKSZ) + p mod FS_BLKSZ = faddr bb ib p) by done.
    assert (Hw32 : w32 (block_addr bb ib (p / FS_BLKSZ) + p mod FS_BLKSZ) = faddr bb ib p).
    { rewrite Hfa. unfold w32. apply Z.mod_small. rewrite <- Hfa. lia. }
    rewrite Hw32.
    destruct (dev_write_ok s (faddr bb ib p) chunk Hok Hcb) as (b1 & b2 & F1 & F2 & G1 & G2 & G3); [lia|lia|].
    mstep F1. cbn [Z.eqb negb]. unfold bind at 1, modify at 1. unfold bind at 1, gets at 1.
    cbn [data_block set_block set_dev].
    assert (Htk : take (Z.to_nat m) (overlay chunk (data_block s)) = chunk).
    { unfold overlay. rewrite take_app_le by lia. apply take_ge. lia. }
    rewrite Htk. mstep (F2 (overlay chunk (data_block s))). rewrite Hcl, Z2Nat.id by lia. rewrite Z.eqb_refl. cbn [negb].
    assert (Hw : w64 (p + m) = p + m) by (unfold w64; apply Z.mod_small; unfold MAX_BLOCKS, FS_BLKSZ in *; lia).
    rewrite Hw. set (s1 := set_block (overlay chunk (data_block s)) (set_dev b2 s)).
    destruct (IH (n - m) (p + m) (total + m) s1) as (b & blk & E & K1 & K2 & K3 & K4);
      [done|done|unfold s1, overlay; cbn; rewrite length_app, length_drop; unfold FS_BLKSZ in *; lia
      |done|cbn; congruence|lia|lia|lia|lia|lia|done|].
    exists b, blk. split; [rewrite E; f_equal; f_equal; f_equal; lia|]. split; [done|]. split; [done|]. split; [|done].
    assert (Hsplit : take (Z.to_nat n) (drop (Z.to_nat total) buf) =
      chunk ++ take (Z.to_nat (n - m)) (drop (Z.to_nat (total + m)) buf)).
    { unfold chunk. replace (Z.to_nat n) with (Z.to_nat m + Z.to_nat (n - m))%nat by lia.
      replace (Z.to_nat (total + m)) with (Z.to_nat total + Z.to_nat m)%nat by lia.
      rewrite <- drop_drop. by rewrite take_take_drop. }
    rewrite Hsplit. eapply (written_app bb ib size dsize); [done|done|done| |rewrite Hcl; lia|exact G3|].
    + rewrite Hcl, length_take, length_drop. lia.
    + rewrite Hcl, Z2Nat.id by lia. exact K3.
Qed.

(** ** Complete transfers *)

(** The number of bytes a transfer of [n] moves. *)
Definition moved (f : file_struct) (n : Z) : Z := Z.min n (Z.max 0 (file_size f - file_position f)).

Lemma contents_same s f b p n :
  same_disk (vioblk_io s) b -> 0 <= inode_number f -> file_layout (boot_block s) (the_inode s f) (file_size f) (bio_size (vioblk_io s)) ->
  0 <= p -> p + Z.of_nat n <= file_size f ->
  file_bytes (bio_data b) (boot_block s) (the_inode s f) p n = contents_at s f p n.
Proof.
  intros (_ & _ & Hd) Hi HL Hp Hn. apply bytes_at_ext. intros k Hk. apply Hd. eapply faddr_nonneg; [exact HL|lia].
Qed.

(** An open file stays open when the device content of its inode is kept. *)
Lemma open_file_after s i f b blk p :
  open_file s i f -> bio_ok b -> bio_size b = bio_size (vioblk_io s) ->
  inode_at (bio_data b) (inode_number f) = the_inode s f -> length blk = 4096%nat -> 0 <= p ->
  open_file (set_lock false (set_file i (with_pos p f)
    (set_block blk (set_dev b (set_inode (the_inode s f) (set_lock true s)))))) i (with_pos p f).
Proof.
  intros [O1 O2 O3 O4 O5 O6 O7 O8 O9] Hok Hsz Hino Hblk Hp.
  constructor; cbn [vioblk_io set_lock set_file set_files set_block set_dev set_inode inode_number with_pos
    file_structs f_flags fs_initialized fs_lock file_position inode data_block boot_block file_size];
    [|done|done|done|done|done| | |].
  - apply list_lookup_insert_eq. by eapply lookup_lt_Some.
  - by rewrite Hsz.
  - split; [apply length_bytes_at|done].
  - by rewrite Hsz, Hino.
Qed.

(** Other open files and the fields of the state a transfer keeps. *)
Definition only_file (i : nat) (s s' : fstate B) : Prop :=
  boot_block s' = boot_block s /\ fs_initialized s' = fs_initialized s /\
  forall j, j <> i -> file_structs s' !! j = file_structs s !! j.

Lemma read_any s i f n :
  open_file s i f -> 0 <= n -> file_position f + n < 2 ^ 64 ->
  exists s', fs_read (Some i) true n s =
      Done (moved f n, contents_at s f (file_position f) (Z.to_nat (moved f n))) s' /\
    open_file s' i (with_pos (file_position f + moved f n) f) /\
    same_disk (vioblk_io s) (vioblk_io s') /\ only_file i s s'.
Proof.
  intros HO Hn Hw. pose proof (of_pos _ _ _ HO) as Hp.
  destruct (decide (file_size f <= file_position f)) as [Hend|Hin].
  - assert (Hm : moved f n = 0) by (unfold moved; lia). rewrite Hm, Z.add_0_r.
    exists s. assert (Hg : get_file i (set_lock true s) = f).
    { unfold get_file. cbn. by rewrite (of_file _ _ _ HO). }
    split; [|split; [destruct f; by destruct HO|split; [split; [apply (of_dev _ _ _ HO)|done]|done]]].
    unfold fs_read. unfold bind at 1, fs_lock_acquire at 1. rewrite (of_lock _ _ _ HO). cbn [negb].
    unfold bind at 1, gets at 1. rewrite Hg, (proj2 (Z.eqb_neq _ _) (of_flags _ _ _ HO)).
    unfold bind at 1, gets at 1. cbn [fs_initialized set_lock]. rewrite (of_init _ _ _ HO). cbn [negb].
    rewrite (proj2 (Z.leb_le _ _) Hend). pose proof (of_lock _ _ _ HO). destruct s; cbn in *; by subst.
  - destruct (read_front s i f n HO ltac:(lia) Hn Hw) as (b & Hsame & E).
    assert (Hm : moved f n = Z.min n (file_size f - file_position f)) by (unfold moved; lia).
    rewrite <- Hm in E. pose proof (of_layout _ _ _ HO) as HL. pose proof Hsame as (S1 & S2 & S3).
    destruct (read_loop_ok (boot_block s) (the_inode s f) (file_size f) (bio_size (vioblk_io s)) (turns (moved f n))
      (moved f n) (file_position f) [] (set_inode (the_inode s f) (set_dev b (set_lock true s))))
      as (b2 & blk & El & Hsame2 & Hlen);
      [done|done|done|apply (of_bufs _ _ _ HO)|done|done|done|lia|lia|right; apply turns_enough; lia|].
    cbn [vioblk_io set_inode set_dev app] in El, Hsame2.
    rewrite contents_same in El by (done || lia || apply (of_ino _ _ _ HO)).
    rewrite E. mstep El. cbv beta iota. eexists. split.
    { unfold bind at 1, modify at 1. unfold bind, fs_lock_release, modify, ret. unfold contents_at at 1.
      unfold file_bytes. rewrite length_bytes_at, Z2Nat.id by lia. reflexivity. }
    assert (Hsd : same_disk (vioblk_io s) b2) by (by eapply same_disk_trans).
    assert (Hg : get_file i (set_block blk (set_dev b2 (set_inode (the_inode s f) (set_dev b (set_lock true s))))) = f).
    { unfold get_file. cbn. by rewrite (of_file _ _ _ HO). }
    rewrite Hg. split; [|split; [done|split; [done|split; [done|]]]].
    + change (set_block blk (set_dev b2 (set_inode (the_inode s f) (set_dev b (set_lock true s)))))
        with (set_block blk (set_dev b2 (set_inode (the_inode s f) (set_lock true s)))).
      destruct Hsd as (T1 & T2 & T3). apply open_file_after; [done|done|done| |done|lia].
      apply same_disk_inode; [done|apply (of_ino _ _ _ HO)].
    + intros j Hj. cbn. by rewrite list_lookup_insert_ne.
Qed.

(** C14: [fs_read] on an open file returns exactly the bytes of the file from the
    current position, as many as asked for or as are left, collected from the data
    blocks its inode lists across any number of block boundaries; it advances the
    position by that many bytes, leaves the disk and other open files unchanged
    and releases the lock.  At the end of the file it returns 0. *)
Theorem fs_read_correct s i f n :
  open_file s i f -> 0 <= n -> file_position f + n < 2 ^ 64 ->
  exists s', fs_read (Some i) true n s =
      Done (moved f n, contents_at s f (file_position f) (Z.to_nat (moved f n))) s' /\
    open_file s' i (with_pos (file_position f + moved f n) f) /\
    same_disk (vioblk_io s) (vioblk_io s') /\ only_file i s s'.
Proof. apply read_any. Qed.

Lemma write_front s i f n data :
  open_file s i f -> file_position f < file_size f -> 0 <= n -> file_position f + n < 2 ^ 64 ->
  let n' := Z.min n (file_size f - file_position f) in
  exists b, same_disk (vioblk_io s) b /\
    fs_write (Some i) (Some data) n s =
    (res <- write_loop (turns n') n' (file_position f) 0 data ;;
     match res with
     | inl e => fs_lock_release ;; ret e
     | inr (file_pos, total) =>
         modify (fun s => let f := get_file i s in set_file i (with_pos file_pos f) s) ;;
         fs_lock_release ;; ret total
     end) (set_inode (the_inode s f) (set_dev b (set_lock true s))).
Proof.
  intros HO Hpos Hn Hw n'. destruct (fetch_inode s i f HO) as (b1 & b2 & E1 & E2 & Hs). exists b2. split; [done|].
  assert (Hg : get_file i (set_lock true s) = f).
  { unfold get_file. cbn. by rewrite (of_file _ _ _ HO). }
  unfold fs_write. unfold bind at 1, fs_lock_acquire at 1. rewrite (of_lock _ _ _ HO).
  unfold bind at 1, gets at 1. rewrite Hg. rewrite (proj2 (Z.eqb_neq _ _) (of_flags _ _ _ HO)).
  unfold bind at 1, gets at 1. cbn [fs_initialized set_lock]. rewrite (of_init _ _ _ HO). cbn [negb].
  rewrite (proj2 (Z.leb_gt (file_size f) (file_position f))) by done.
  rewrite clamp_eq; [|pose proof (of_pos _ _ _ HO); lia|apply (of_layout _ _ _ HO)|done|done]. cbv zeta. fold n'.
  mstep E1. cbn [Z.eqb negb]. mstep E2. unfold bind at 1, modify at 1. cbn [fst snd]. rewrite Z.eqb_refl. cbn [negb].
  cbn [inode set_dev set_lock]. rewrite overlay_full; [done|].
  unfold the_inode, inode_at. rewrite length_bytes_at. apply (of_bufs _ _ _ HO).
Qed.

(** Data writes do not reach the inode blocks. *)
Lemma written_inode bb ib size dsize d d' p l ino :
  file_layout bb ib size dsize -> written bb ib d d' p l -> 0 <= p -> p + Z.of_nat (length l) <= size ->
  0 <= ino < num_inodes bb -> inode_at d' ino = inode_at d ino.
Proof.
  intros HL [_ W2] Hp Hend Hi. apply bytes_at_ext. intros k Hk. apply W2; [unfold FS_BLKSZ; lia|].
  intros j Hj E. destruct (file_pos_parts (p + Z.of_nat j) size) as (_ & _ & _ & R2 & R3 & _);
    [lia|apply (lay_size _ _ _ _ HL)|].
  destruct (lay_blocks _ _ _ _ HL _ R2) as [Hd _]. unfold faddr, block_addr, FS_BLKSZ in *. lia.
Qed.

Lemma write_any s i f data :
  open_file s i f -> distinct_blocks (the_inode s f) (file_size f) ->
  inode_number f < num_inodes (boot_block s) -> Forall (fun c => 0 <= c < 256) data ->
  file_position f + Z.of_nat (length data) < 2 ^ 64 ->
  let r := moved f (Z.of_nat (length data)) in
  exists s', fs_write (Some i) (Some data) (Z.of_nat (length data)) s = Done r s' /\
    open_file s' i (with_pos (file_position f + r) f) /\ the_inode s' f = the_inode s f /\
    bio_size (vioblk_io s') = bio_size (vioblk_io s) /\
    written (boot_block s) (the_inode s f) (bio_data (vioblk_io s)) (bio_data (vioblk_io s'))
      (file_position f) (take (Z.to_nat r) data) /\ only_file i s s'.
Proof.
  intros HO Hdist Hino Hdata Hw r. pose proof (of_pos _ _ _ HO) as Hp.
  destruct (decide (file_size f <= file_position f)) as [Hend|Hin].
  - assert (Hm : r = 0) by (unfold r, moved; lia). rewrite Hm, Z.add_0_r.
    exists s. assert (Hg : get_file i (set_lock true s) = f).
    { unfold get_file. cbn. by rewrite (of_file _ _ _ HO). }
    split; [|split; [destruct f; by destruct HO|split; [done|split; [done|split; [by apply written_nil|done]]]]].
    unfold fs_write. unfold bind at 1, fs_lock_acquire at 1. rewrite (of_lock _ _ _ HO).
    unfold bind at 1, gets at 1. rewrite Hg, (proj2 (Z.eqb_neq _ _) (of_flags _ _ _ HO)).
    unfold bind at 1, gets at 1. cbn [fs_initialized set_lock]. rewrite (of_init _ _ _ HO). cbn [negb].
    rewrite (proj2 (Z.leb_le _ _) Hend). pose proof (of_lock _ _ _ HO). destruct s; cbn in *; by subst.
  - destruct (write_front s i f (Z.of_nat (length data)) data HO ltac:(lia) ltac:(lia) Hw) as (b & Hsame & E).
    assert (Hm : r = Z.min (Z.of_nat (length data)) (file_size f - file_position f)) by (unfold r, moved; lia).
    rewrite <- Hm in E. pose proof (of_layout _ _ _ HO) as HL. pose proof Hsame as (S1 & S2 & S3).
    destruct (write_loop_ok (boot_block s) (the_inode s f) (file_size f) (bio_size (vioblk_io s)) data HL Hdist Hdata
      (turns r) r (file_position f) 0 (set_inode (the_inode s f) (set_dev b (set_lock true s))))
      as (b2 & blk & El & G1 & G2 & G3 & G4);
      [done|done|apply (of_bufs _ _ _ HO)|done|done|done|lia|lia|lia|lia|right; apply turns_enough; lia|].
    cbn [vioblk_io set_inode set_dev] in El, G3. change (Z.to_nat 0) with 0%nat in G3. rewrite drop_0 in G3.
    assert (HW : written (boot_block s) (the_inode s f) (bio_data (vioblk_io s)) (bio_data b2)
      (file_position f) (take (Z.to_nat r) data)).
    { destruct G3 as [W1 W2]. split; [done|]. intros x Hx Hno. rewrite W2 by done. by apply S3. }
    assert (Hin2 : inode_at (bio_data b2) (inode_number f) = the_inode s f).
    { eapply written_inode; [exact HL|exact HW|done|rewrite length_take; lia|].
      split; [apply (of_ino _ _ _ HO)|done]. }
    rewrite E. mstep El. cbv beta iota. rewrite Z.add_0_l. eexists. split.
    { unfold bind at 1, modify at 1. unfold bind, fs_lock_release, modify, ret. reflexivity. }
    assert (Hg : get_file i (set_block blk (set_dev b2 (set_inode (the_inode s f) (set_dev b (set_lock true s))))) = f).
    { unfold get_file. cbn. by rewrite (of_file _ _ _ HO). }
    rewrite Hg. split; [|split; [exact Hin2|split; [done|split; [done|split; [done|split; [done|]]]]]].
    + change (set_block blk (set_dev b2 (set_inode (the_inode s f) (set_dev b (set_lock true s)))))
        with (set_block blk (set_dev b2 (set_inode (the_inode s f) (set_lock true s)))).
      apply open_file_after; [done|done|congruence|done|done|lia].
    + intros j Hj. cbn. by rewrite list_lookup_insert_ne.
Qed.

(** C15: [fs_write] on an open file stores exactly the given bytes in the file from
    the current position, as many as fit before its end, and changes no other
    byte of the disk: not the other files' data, nor any inode or the directory.
    The size of the file does not change; the position advances by the number
    returned and the lock is released. *)
Theorem fs_write_correct s i f data :
  open_file s i f -> distinct_blocks (the_inode s f) (file_size f) ->
  inode_number f < num_inodes (boot_block s) -> Forall (fun c => 0 <= c < 256) data ->
  file_position f + Z.of_nat (length data) < 2 ^ 64 ->
  let r := moved f (Z.of_nat (length data)) in
  exists s', fs_write (Some i) (Some data) (Z.of_nat (length data)) s = Done r s' /\
    open_file s' i (with_pos (file_position f + r) f) /\ the_inode s' f = the_inode s f /\
    bio_size (vioblk_io s') = bio_size (vioblk_io s) /\
    written (boot_block s) (the_inode s f) (bio_data (vioblk_io s)) (bio_data (vioblk_io s'))
      (file_position f) (take (Z.to_nat r) data) /\ only_file i s s'.
Proof. apply write_any. Qed.

(** ** Seeking *)

Lemma setpos_ok s i f p :
  open_file s i f -> 0 <= p <= file_size f ->
  exists s', fs_ioctl i IOCTL_SETPOS (Some p) s = Done (0, Some p) s' /\ open_file s' i (with_pos p f) /\
    vioblk_io s' = vioblk_io s /\ boot_block s' = boot_block s.
Proof.
  intros HO Hp. assert (Hg : get_file i (set_lock true s) = f).
  { unfold get_file. cbn. by rewrite (of_file _ _ _ HO). }
  exists (set_lock false (set_file i (with_pos p f) (set_lock true s))). split; [|split; [|done]].
  - unfold fs_ioctl. unfold bind at 1, fs_lock_acquire at 1. rewrite (of_lock _ _ _ HO).
    unfold bind at 1, gets at 1. rewrite Hg, (proj2 (Z.eqb_neq _ _) (of_flags _ _ _ HO)). cbn [Z.eqb].
    change (IOCTL_SETPOS =? IOCTL_GETLEN) with false. change (IOCTL_SETPOS =? IOCTL_GETPOS) with false.
    change (IOCTL_SETPOS =? IOCTL_SETPOS) with true. cbv iota. unfold fs_setpos. rewrite bind_assoc.
    unfold bind at 1, gets at 1. rewrite Hg. by rewrite (proj2 (Z.ltb_ge _ _)) by lia.
  - destruct HO as [O1 O2 O3 O4 O5 O6 O7 O8 O9].
    constructor; cbn [vioblk_io set_lock set_file set_files inode_number with_pos
      file_structs f_flags fs_initialized fs_lock file_position inode data_block boot_block file_size];
      [|done|done|done|done|lia|done|done|done].
    apply list_lookup_insert_eq. by eapply lookup_lt_Some.
Qed.

Lemma setpos_bad s i f p :
  open_file s i f -> file_size f < p -> fs_ioctl i IOCTL_SETPOS (Some p) s = Done (-1, Some p) s.
Proof.
  intros HO Hp. assert (Hg : get_file i (set_lock true s) = f).
  { unfold get_file. cbn. by rewrite (of_file _ _ _ HO). }
  assert (Hs : set_lock false (set_lock true s) = s).
  { pose proof (of_lock _ _ _ HO). destruct s; cbn in *; by subst. }
  unfold fs_ioctl. unfold bind at 1, fs_lock_acquire. rewrite (of_lock _ _ _ HO).
  unfold bind at 1, gets at 1. rewrite Hg, (proj2 (Z.eqb_neq _ _) (of_flags _ _ _ HO)).
  change (IOCTL_SETPOS =? IOCTL_GETLEN) with false. change (IOCTL_SETPOS =? IOCTL_GETPOS) with false.
  change (IOCTL_SETPOS =? IOCTL_SETPOS) with true. cbv iota. unfold fs_setpos. rewrite bind_assoc.
  unfold bind at 1, gets at 1. rewrite Hg. rewrite (proj2 (Z.ltb_lt _ _) Hp).
  unfold bind, fs_lock_release, modify, ret. by rewrite Hs.
Qed.

(** C11: Round trip.  Bytes written to an open file are read back after seeking to
    where they were written: [fs_write], then the SETPOS control, then [fs_read]
    of as many bytes as were written returns the bytes written. *)
Theorem fs_write_read_roundtrip s i f data :
  open_file s i f -> distinct_blocks (the_inode s f) (file_size f) ->
  inode_number f < num_inodes (boot_block s) -> Forall (fun c => 0 <= c < 256) data ->
  file_position f + Z.of_nat (length data) <= file_size f ->
  exists s1 s2 s3, fs_write (Some i) (Some data) (Z.of_nat (length data)) s = Done (Z.of_nat (length data)) s1 /\
    fs_ioctl i IOCTL_SETPOS (Some (file_position f)) s1 = Done (0, Some (file_position f)) s2 /\
    fs_read (Some i) true (Z.of_nat (length data)) s2 = Done (Z.of_nat (length data), data) s3.
Proof.
  intros HO Hdist Hino Hdata Hfit. pose proof (of_pos _ _ _ HO) as Hp. pose proof (of_layout _ _ _ HO) as HL.
  pose proof (lay_size _ _ _ _ HL) as Hsz. assert (Hbig : file_size f < 2 ^ 64) by (unfold MAX_BLOCKS, FS_BLKSZ in *; lia).
  destruct (write_any s i f data HO Hdist Hino Hdata ltac:(lia)) as (s1 & E1 & HO1 & Hi1 & Hs1 & HW & (Hbb & _)).
  assert (Hr : moved f (Z.of_nat (length data)) = Z.of_nat (length data)) by (unfold moved; lia). rewrite Hr in *.
  destruct (setpos_ok s1 i _ (file_position f) HO1) as (s2 & E2 & HO2 & Hd2 & Hb2); [cbn; lia|].
  destruct (read_any s2 i _ (Z.of_nat (length data)) HO2) as (s3 & E3 & _); [lia|cbn; lia|].
  exists s1, s2, s3. split; [done|]. split; [done|]. rewrite E3. cbn [file_position with_pos].
  assert (Hr2 : moved (with_pos (file_position f) (with_pos (file_position f + Z.of_nat (length data)) f))
    (Z.of_nat (length data)) = Z.of_nat (length data)) by (unfold moved; cbn; lia).
  rewrite Hr2. f_equal. f_equal. rewrite Nat2Z.id, take_ge in HW by lia. rewrite Nat2Z.id.
  unfold contents_at, the_inode. rewrite Hd2, Hb2, Hbb. cbn [inode_number with_pos]. fold (the_inode s1 f). rewrite Hi1.
  destruct HW as [W1 _]. apply list_eq. intros k. destruct (decide (k < length data)%nat) as [Hk|Hk].
  - destruct (lookup_lt_is_Some_2 data k Hk) as [c Hc]. unfold file_bytes. rewrite bytes_at_lookup by done.
    rewrite Hc. f_equal. by apply W1.
  - unfold file_bytes. rewrite !lookup_ge_None_2; [done|lia|rewrite length_bytes_at; lia].
Qed.

(** ** [fs_open] *)

(** The name of directory entry [j]. *)
Definition dir_name (bb : list Z) (j : Z) : list Z := cstring (file_name bb j).

Lemma cstring_cstr l : Forall (fun c => 0 <= c < 256) l -> cstr (cstring l).
Proof.
  unfold cstr. induction 1 as [|c l Hc _ IH]; [constructor|]. cbn [cstring].
  destruct (Z.eqb_spec c 0); [constructor|]. constructor; [lia|done].
Qed.

Lemma cstring_length l : (length (cstring l) <= length l)%nat.
Proof. induction l as [|c l IH]; [done|]. cbn. destruct (c =? 0); simpl; lia. Qed.

Lemma entry_name_eq bb j : Forall (fun c => 0 <= c < 256) bb -> entry_name bb j = dir_name bb j.
Proof.
  intros Hb. unfold entry_name, dir_name. rewrite cstring_strncpy.
  - apply take_ge. etransitivity; [apply cstring_length|]. unfold file_name. rewrite length_take. lia.
  - rewrite length_replicate. unfold FS_NAMELEN. lia.
  - apply cstring_cstr. unfold file_name. by apply Forall_take, Forall_drop.
Qed.

(** Entry [j] names the file [name] (which is compared up to 32 characters). *)
Definition names (bb name : list Z) (j : Z) : Prop := take FS_NAMELEN name = dir_name bb j.

Lemma strncmp_names bb name j :
  Forall (fun c => 0 <= c < 256) bb -> cstr name ->
  (strncmp name (entry_name bb j) FS_NAMELEN =? 0) = true <-> names bb name j.
Proof.
  intros Hb Hn. rewrite Z.eqb_eq, entry_name_eq by done. unfold names, dir_name.
  assert (Hc : cstr (cstring (file_name bb j))).
  { apply cstring_cstr. unfold file_name. by apply Forall_take, Forall_drop. }
  rewrite strncmp_prefix by done. rewrite (take_ge (cstring (file_name bb j))); [done|].
  etransitivity; [apply cstring_length|]. unfold file_name. rewrite length_take. lia.
Qed.

Lemma find_dentry_spec bb name : Forall (fun c => 0 <= c < 256) bb -> cstr name ->
  forall n i, 0 <= i -> i + Z.of_nat n <= MAX_DENTRY ->
  (exists d, find_dentry n i bb name = Some (Some d) /\ i <= d < i + Z.of_nat n /\ names bb name d /\
     forall j, i <= j < d -> ~ names bb name j) \/
  (find_dentry n i bb name = Some None /\ forall j, i <= j < i + Z.of_nat n -> ~ names bb name j).
Proof.
  intros Hb Hn. induction n as [|n IH]; intros i Hi Hmax; cbn [find_dentry].
  { right. split; [done|]. intros j. lia. }
  rewrite (proj2 (Z.leb_gt MAX_DENTRY i)) by lia.
  destruct (strncmp name (entry_name bb i) FS_NAMELEN =? 0) eqn:E.
  - apply strncmp_names in E; [|done|done]. left. exists i. split; [done|]. split; [lia|]. split; [done|]. intros j. lia.
  - assert (Hni : ~ names bb name i) by (intros Hx; apply (strncmp_names bb name i Hb Hn) in Hx; congruence).
    destruct (IH (i + 1)) as [(d & E' & Hd & Hm & Hj)|(E' & Hj)]; [lia|lia|left|right].
    + exists d. split; [done|]. split; [lia|]. split; [done|]. intros j Hji.
      destruct (decide (j = i)) as [->|]; [done|]. apply Hj. lia.
    + split; [done|]. intros j Hji. destruct (decide (j = i)) as [->|]; [done|]. apply Hj. lia.
Qed.

Lemma free_file_spec fs : forall k,
  match free_file k fs with
  | Some i => exists f, (k <= i)%nat /\ fs !! (i - k)%nat = Some f /\ f_flags f = 0 /\
                forall j g, fs !! j = Some g -> (k + j < i)%nat -> f_flags g <> 0
  | None => forall j g, fs !! j = Some g -> f_flags g <> 0
  end.
Proof.
  induction fs as [|f fs IH]; intros k; cbn [free_file]; [by intros j g|].
  destruct (Z.eqb_spec (f_flags f) 0) as [E|E].
  - exists f. rewrite Nat.sub_diag. split; [lia|]. split; [done|]. split; [done|]. intros. lia.
  - specialize (IH (S k)). destruct (free_file (S k) fs) as [i|].
    + destruct IH as (g & Hi & Hl & Hf & Hj). exists g. split; [lia|].
      split; [replace (i - k)%nat with (S (i - S k)) by lia; done|]. split; [done|].
      intros [|j] h Hh Hlt; [cbn in Hh; congruence|]. apply (Hj j); [done|lia].
    + intros [|j] g Hg; [cbn in Hg; congruence|]. by apply (IH j).
Qed.

(** A mounted file system between calls. *)
Record mounted (s : fstate B) : Prop := {
  mt_init : fs_initialized s = true;
  mt_lock : fs_lock s = false;
  mt_dev : bio_ok (vioblk_io s);
  mt_boot : Forall (fun c => 0 <= c < 256) (boot_block s);
  mt_dir : 0 <= num_dentry (boot_block s) <= MAX_DENTRY;
  mt_bufs : length (inode s) = 4096%nat
}.

Lemma fs_open_front s name :
  fs_initialized s = true -> fs_lock s = false ->
  fs_open name s =
  match free_file 0 (file_structs s) with
  | None => Done (inl (-1)) s
  | Some i =>
      match find_dentry (Z.to_nat (num_dentry (boot_block s))) 0 (boot_block s) name with
      | None => Undef "dir_entries index out of range" (set_lock true s)
      | Some None => Done (inl (-1)) s
      | Some (Some d) => open_entry i (boot_block s) d (set_lock true s)
      end
  end.
Proof.
  intros M1 M2. unfold fs_open. unfold bind at 1, fs_lock_acquire. rewrite M2.
  unfold bind at 1, gets at 1. cbn [fs_initialized set_lock]. rewrite M1. cbn [negb].
  unfold bind at 1, gets at 1. cbn [file_structs set_lock].
  assert (Hlk : forall r : Z + nat, (fs_lock_release ;; ret r) (set_lock true s) = Done r s).
  { intros r. unfold fs_lock_release, bind, modify, ret. destruct s; cbn in *; by subst. }
  destruct (free_file 0 (file_structs s)) as [i|]; [|apply Hlk].
  unfold bind at 1, gets at 1. cbn [boot_block set_lock].
  destruct (find_dentry _ _ _ _) as [[d|]|]; [done|apply Hlk|done].
Qed.

(** The successful case. *)
Lemma open_found s name i d :
  mounted s -> cstr name ->
  (forall j, 0 <= j < num_dentry (boot_block s) ->
     0 <= dentry_inode (boot_block s) j /\
     FS_BLKSZ + dentry_inode (boot_block s) j * FS_BLKSZ + SIZEOF_INODE <= bio_size (vioblk_io s) < 2 ^ 64) ->
  free_file 0 (file_structs s) = Some i -> 0 <= d < num_dentry (boot_block s) ->
  names (boot_block s) name d -> (forall j, 0 <= j < d -> ~ names (boot_block s) name j) ->
  exists s', fs_open name s = Done (inr i) s' /\
    file_structs s' !! i =
      Some (MkFile 1 0 (byte_len (inode_at (bio_data (vioblk_io s)) (dentry_inode (boot_block s) d)))
              (dentry_inode (boot_block s) d) 1) /\
    (forall j, j <> i -> file_structs s' !! j = file_structs s !! j) /\
    fs_lock s' = false /\ same_disk (vioblk_io s) (vioblk_io s') /\
    boot_block s' = boot_block s /\ fs_initialized s' = true /\ data_block s' = data_block s /\
    length (inode s') = 4096%nat.
Proof.
  intros [M1 M2 M3 M4 M5 M6] Hn Hdir Hslot Hd Hm Hfirst.
  pose proof (find_dentry_spec (boot_block s) name M4 Hn (Z.to_nat (num_dentry (boot_block s))) 0 ltac:(lia)) as Hfd.
  rewrite Z2Nat.id, Z.add_0_l in Hfd by lia. specialize (Hfd ltac:(lia)).
  rewrite (fs_open_front s name M1 M2), Hslot.
  destruct Hfd as [(d' & E & Hd' & Hm' & Hj')|(E & Hnone)]; [|by apply Hnone in Hm].
  assert (d' = d) as ->.
  { destruct (Z.lt_trichotomy d d') as [Hlt|[->|Hlt]]; [|done|]; [by apply (Hj' d) in Hm; [|lia]|by apply (Hfirst d') in Hm'; [|lia]]. }
  rewrite E. unfold open_entry. unfold bind at 1, modify at 1. destruct (Hdir d Hd) as [Hi0 Hi1].
  set (ino := dentry_inode (boot_block s) d) in *.
  assert (Hw : w64 (FS_BLKSZ + ino * FS_BLKSZ) = FS_BLKSZ + ino * FS_BLKSZ).
  { unfold w64. apply Z.mod_small. unfold FS_BLKSZ, SIZEOF_INODE in *. lia. }
  rewrite Hw. set (s1 := set_file i _ (set_lock true s)).
  destruct (dev_fetch s1 (FS_BLKSZ + ino * FS_BLKSZ) SIZEOF_INODE) as (b1 & b2 & E1 & E2 & Hsame);
    [done|unfold FS_BLKSZ; lia|done|cbn [vioblk_io s1 set_file set_files set_lock]; lia|].
  mstep E1. cbn [Z.eqb negb]. mstep E2. unfold bind at 1, modify at 1. cbn [fst snd]. rewrite Z.eqb_refl. cbn [negb].
  change (inode (set_dev b2 s1)) with (inode s).
  rewrite overlay_full by (rewrite length_bytes_at; done).
  pose proof (free_file_spec (file_structs s) 0) as Hff. rewrite Hslot in Hff.
  destruct Hff as (f0 & _ & Hf0 & _). rewrite Nat.sub_0_r in Hf0. pose proof (lookup_lt_Some _ _ _ Hf0) as Hlt.
  eexists. split; [unfold bind at 1, modify at 1; unfold bind, fs_lock_release, modify, ret; reflexivity|].
  assert (Hg : forall l b, get_file i (set_inode l (set_dev b s1)) =
    MkFile (f_refcnt f0) 0 (file_size f0) ino (f_flags f0)).
  { intros l b. unfold get_file. cbn. rewrite list_lookup_insert_eq by done. cbn. unfold get_file. cbn. by rewrite Hf0. }
  rewrite Hg. cbn [inode set_inode file_position inode_number]. split_and!; [| |done|exact Hsame|done|exact M1|done|apply length_bytes_at].
  + cbn [file_structs set_lock set_file set_files]. rewrite list_lookup_insert_eq; [done|].
    cbn. by rewrite length_insert.
  + intros j Hj. cbn [file_structs set_lock set_file set_files]. rewrite list_lookup_insert_ne by done.
    cbn. by rewrite list_lookup_insert_ne.
Qed.

(** [fs_open] looks the name up in the directory (names are compared up to 32
    characters, and the first matching entry counts) and opens the file in the
    first free slot, at position 0, with the inode of the entry and the length
    stored in that inode on disk; other slots and the disk are unchanged.  With
    no matching entry or no free slot it returns -1 and changes nothing.  In all
    cases the lock is released. *)
Theorem fs_open_correct s name :
  mounted s -> cstr name ->
  (forall j, 0 <= j < num_dentry (boot_block s) ->
     0 <= dentry_inode (boot_block s) j /\
     FS_BLKSZ + dentry_inode (boot_block s) j * FS_BLKSZ + SIZEOF_INODE <= bio_size (vioblk_io s) < 2 ^ 64) ->
  (free_file 0 (file_structs s) = None -> fs_open name s = Done (inl (-1)) s) /\
  ((forall j, 0 <= j < num_dentry (boot_block s) -> ~ names (boot_block s) name j) ->
     fs_open name s = Done (inl (-1)) s) /\
  (forall i d, free_file 0 (file_structs s) = Some i -> 0 <= d < num_dentry (boot_block s) ->
     names (boot_block s) name d -> (forall j, 0 <= j < d -> ~ names (boot_block s) name j) ->
     exists s', fs_open name s = Done (inr i) s' /\
       file_structs s' !! i =
         Some (MkFile 1 0 (byte_len (inode_at (bio_data (vioblk_io s)) (dentry_inode (boot_block s) d)))
                 (dentry_inode (boot_block s) d) 1) /\
       (forall j, j <> i -> file_structs s' !! j = file_structs s !! j) /\
       fs_lock s' = false /\ same_disk (vioblk_io s) (vioblk_io s')).
Proof.
  intros [M1 M2 M3 M4 M5 M6] Hn Hdir.
  assert (Hf := fs_open_front s name M1 M2).
  split; [intros E; by rewrite Hf, E|].
  pose proof (find_dentry_spec (boot_block s) name M4 Hn (Z.to_nat (num_dentry (boot_block s))) 0 ltac:(lia)) as Hfd.
  rewrite Z2Nat.id, Z.add_0_l in Hfd by lia. specialize (Hfd ltac:(lia)). split.
  - intros Hno. rewrite Hf. destruct (free_file 0 (file_structs s)) as [i|]; [|done].
    destruct Hfd as [(d & E & Hd & Hm & _)|(E & _)]; [by apply Hno in Hm|]. by rewrite E.
  - intros i d Hslot Hd Hm Hfirst.
    destruct (open_found s name i d) as (s' & E & H1 & H2 & H3 & H4 & _); [by constructor|done..|]. eauto 6.
Qed.

(** The controls of an open file: GETLEN and GETPOS report its length and
    position, SETPOS accepts exactly the positions up to its length, GETBLKSZ
    reports the block size, and each releases the lock.  An unsupported command
    returns -ENOTSUP with the lock still held, after which every operation of the
    file system blocks. *)
Theorem fs_ioctl_correct s i f x :
  open_file s i f -> 0 <= x ->
  fs_ioctl i IOCTL_GETLEN (Some x) s = Done (0, Some (file_size f)) s /\
  fs_ioctl i IOCTL_GETPOS (Some x) s = Done (0, Some (file_position f)) s /\
  fs_ioctl i IOCTL_GETBLKSZ (Some x) s = Done (0, Some FS_BLKSZ) s /\
  (x <= file_size f -> exists s', fs_ioctl i IOCTL_SETPOS (Some x) s = Done (0, Some x) s' /\
     open_file s' i (with_pos x f)) /\
  (file_size f < x -> fs_ioctl i IOCTL_SETPOS (Some x) s = Done (-1, Some x) s) /\
  exists s', fs_ioctl i IOCTL_FLUSH (Some x) s = Done (- ENOTSUP, Some x) s' /\
    (forall n, fs_read (Some i) true n s' = Block s') /\ (forall name, fs_open name s' = Block s').
Proof.
  intros HO Hx. assert (Hg : get_file i (set_lock true s) = f).
  { unfold get_file. cbn. by rewrite (of_file _ _ _ HO). }
  assert (Hs : set_lock false (set_lock true s) = s).
  { pose proof (of_lock _ _ _ HO). destruct s; cbn in *; by subst. }
  assert (Hc : forall cmd arg, fs_ioctl i cmd arg s =
    (if cmd =? IOCTL_GETLEN then r <- fs_getlen i arg ;; fs_lock_release ;; ret r else
     if cmd =? IOCTL_GETPOS then r <- fs_getpos i arg ;; fs_lock_release ;; ret r else
     if cmd =? IOCTL_SETPOS then r <- fs_setpos i arg ;; fs_lock_release ;; ret r else
     if cmd =? IOCTL_GETBLKSZ then r <- fs_getblksz i arg ;; fs_lock_release ;; ret r else
     ret (- ENOTSUP, arg)) (set_lock true s)).
  { intros cmd arg. unfold fs_ioctl. unfold bind at 1, fs_lock_acquire. rewrite (of_lock _ _ _ HO).
    unfold bind at 1, gets at 1. by rewrite Hg, (proj2 (Z.eqb_neq _ _) (of_flags _ _ _ HO)). }
  rewrite !Hc. cbn [Z.eqb]. unfold IOCTL_GETLEN, IOCTL_GETPOS, IOCTL_SETPOS, IOCTL_GETBLKSZ, IOCTL_FLUSH. cbn [Z.eqb Pos.eqb].
  split; [|split; [|split; [|split; [|split]]]].
  - unfold fs_getlen, bind, gets, fs_lock_release, modify, ret. by rewrite Hg, Hs.
  - unfold fs_getpos, bind, gets, fs_lock_release, modify, ret. by rewrite Hg, Hs.
  - unfold fs_getblksz, bind, gets, fs_lock_release, modify, ret. by rewrite Hs.
  - intros Hle. destruct (setpos_ok s i f x HO ltac:(lia)) as (s' & E & HO' & _). rewrite Hc in E. eauto.
  - intros Hlt. pose proof (setpos_bad s i f x HO Hlt) as E. rewrite Hc in E. exact E.
  - eexists. split; [reflexivity|]. done.
Qed.
End Props.

(** ** A concrete file system

    One file "a" of 5000 bytes, in data blocks 1 and 0, on a disk behind the
    virtio driver. *)

Definition demo_image (i : Z) : Z :=
  if i =? 0 then 1 else if i =? 4 then 1 else if i =? 8 then 2 else if i =? 64 then 97 else
  if i =? 4096 then 136 else if i =? 4097 then 19 else if i =? 4100 then 1 else
  if i <? 8192 then 0 else i mod 251.

Definition demo_dev : vioblk_device ramdisk :=
  MkVio (MkRam 32 demo_image false) true false 1 512 0 16384 32 (replicate 512 0) 0 0 0 0 0 true false false 0.

Definition demo_file : file_struct := MkFile 1 4090 5000 0 1.

Definition demo_fs : fstate (vioblk_device ramdisk) :=
  MkFs demo_dev true (bytes_at demo_image 0 4096) (demo_file :: replicate 31 no_file)
    (replicate 4096 0) (replicate 4096 0) false.

Lemma demo_dev_ok : bio_ok demo_dev.
Proof. split; [|done]. constructor; (done || cbn; lia). Qed.

Lemma demo_blocks k : 0 <= k * FS_BLKSZ < 5000 -> k = 0 \/ k = 1.
Proof. unfold FS_BLKSZ. lia. Qed.

Lemma demo_open : open_file demo_fs 0 demo_file.
Proof.
  constructor; [reflexivity|discriminate|reflexivity|reflexivity|apply demo_dev_ok|cbn; lia|cbn; unfold FS_BLKSZ, SIZEOF_INODE; lia| |].
  - split; apply length_replicate.
  - constructor.
    + vm_compute. discriminate.
    + vm_compute. discriminate.
    + cbn. unfold MAX_BLOCKS, FS_BLKSZ. lia.
    + intros k Hk. destruct (demo_blocks k Hk) as [-> | ->]; split; vm_compute; discriminate.
Qed.

Lemma demo_distinct : distinct_blocks (the_inode demo_fs demo_file) (file_size demo_file).
Proof.
  intros k1 k2 H1 H2. destruct (demo_blocks k1 H1) as [-> | ->], (demo_blocks k2 H2) as [-> | ->];
    try reflexivity; intros E; vm_compute in E; discriminate.
Qed.

Lemma fs_read_correct_witness :
  exists s', fs_read (Some 0%nat) true 10 demo_fs = Done (10, contents_at demo_fs demo_file 4090 10) s' /\
    open_file s' 0 (with_pos 4100 demo_file).
Proof.
  destruct (fs_read_correct demo_fs 0 demo_file 10 demo_open) as (s' & E & HO & _); [lia|cbn; lia|].
  exists s'. split; [exact E|exact HO].
Defined.

Definition demo_data : list Z := [1; 2; 3; 4; 5; 6; 7; 8; 9; 10].

Lemma demo_data_ok : Forall (fun c => 0 <= c < 256) demo_data.
Proof. repeat constructor; lia. Qed.

Lemma demo_inode_ok : inode_number demo_file < num_inodes (boot_block demo_fs).
Proof. vm_compute. reflexivity. Qed.

Lemma fs_write_correct_witness :
  exists s', fs_write (Some 0%nat) (Some demo_data) 10 demo_fs = Done 10 s' /\
    open_file s' 0 (with_pos 4100 demo_file).
Proof.
  destruct (fs_write_correct demo_fs 0 demo_file demo_data demo_open demo_distinct demo_inode_ok demo_data_ok)
    as (s' & E & HO & _); [cbn; lia|].
  exists s'. split; [exact E|exact HO].
Defined.

Lemma fs_write_read_roundtrip_witness :
  exists s1 s2 s3, fs_write (Some 0%nat) (Some demo_data) 10 demo_fs = Done 10 s1 /\
    fs_ioctl 0 IOCTL_SETPOS (Some 4090) s1 = Done (0, Some 4090) s2 /\
    fs_read (Some 0%nat) true 10 s2 = Done (10, demo_data) s3.
Proof.
  apply (fs_write_read_roundtrip demo_fs 0 demo_file demo_data demo_open demo_distinct demo_inode_ok demo_data_ok).
  cbn. lia.
Defined.

Lemma demo_boot_bytes : Forall (fun c => 0 <= c < 256) (boot_block demo_fs).
Proof.
  cbn [demo_fs boot_block]. unfold bytes_at. rewrite Forall_fmap. apply Forall_true. intros k. cbn. unfold demo_image.
  repeat (destruct (_ =? _); [lia|]). destruct (_ <? _); [lia|]. pose proof (Z.mod_pos_bound (0 + Z.of_nat k) 251). lia.
Qed.

Lemma demo_mounted : mounted demo_fs.
Proof.
  constructor; [reflexivity|reflexivity|apply demo_dev_ok|apply demo_boot_bytes| |apply length_replicate].
  vm_compute. split; discriminate.
Qed.

Lemma fs_open_correct_witness :
  exists s', fs_open [97] demo_fs = Done (inr 1%nat) s' /\
    file_structs s' !! 1%nat = Some (MkFile 1 0 (byte_len (inode_at (bio_data demo_dev) 0)) 0 1).
Proof.
  assert (Hone : forall j, 0 <= j < num_dentry (boot_block demo_fs) -> j = 0).
  { intros j. replace (num_dentry (boot_block demo_fs)) with 1 by (vm_compute; reflexivity). lia. }
  destruct (fs_open_correct demo_fs [97] demo_mounted) as (_ & _ & H).
  - repeat constructor; lia.
  - intros j Hj. rewrite (Hone j Hj). vm_compute. split; [discriminate|split; [discriminate|reflexivity]].
  - destruct (H 1%nat 0) as (s' & E & Hf & _).
    + reflexivity.
    + vm_compute. split; [discriminate|reflexivity].
    + vm_compute. reflexivity.
    + intros j. lia.
    + exists s'. split; [exact E|]. rewrite Hf. vm_compute. reflexivity.
Defined.

Lemma fs_ioctl_correct_witness :
  fs_ioctl 0 IOCTL_GETLEN (Some 0) demo_fs = Done (0, Some 5000) demo_fs /\
  exists s', fs_ioctl 0 IOCTL_FLUSH (Some 0) demo_fs = Done (- ENOTSUP, Some 0) s' /\
    fs_open [97] s' = Block s'.
Proof.
  destruct (fs_ioctl_correct demo_fs 0 demo_file 0 demo_open) as (H1 & _ & _ & _ & _ & s' & H2 & _ & H3); [lia|].
  split; [exact H1|]. exists s'. split; [exact H2|apply H3].
Defined.
