(* ===== verification/Io.v ===== *)
(** * Device-independent I/O (io.c, io.h)

    The transfer loops [iowrite] and [ioread_full], reference counts, the memory
    object [io_lit], and the terminal object [io_term] with its line-ending
    conversion and line editing.  The object below a terminal or a transfer loop
    is a parameter: its read and write operations. *)

From stdpp Require Import base sets list strings numbers.
From Stdlib Require Import Lia ZArith.
From S2P Require Import Prelude CString BlockIo.
Local Open Scope Z_scope.
Local Open Scope kern_scope.

(** ** The object below *)

(** [ops->write] and [ops->read] of an I/O object, [None] for a NULL operation;
    a read also gives the bytes it stored. *)
Class RawIo (R : Type) := {
  raw_write : option (list Z -> M R Z);
  raw_read : option (Z -> M R (Z * list Z))
}.

Section Transfers.
Context {R : Type} {RI : RawIo R}.

(** [iowrite]: writes until all is written or the object takes nothing. *)
Fixpoint iowrite_loop (write : list Z -> M R Z) (fuel : nat) (buf : list Z) (acc : Z) : M R Z :=
  match buf with
  | [] => ret acc
  | _ =>
      match fuel with
      | O => fun _ => NoFuel
      | S fuel' =>
          cnt <- write buf ;;
          if cnt <? 0 then ret cnt else
          if cnt =? 0 then ret acc else
          iowrite_loop write fuel' (drop (Z.to_nat cnt) buf) (acc + cnt)
      end
  end.

(** Each turn moves at least one byte. *)
Definition iowrite (buf : list Z) : M R Z :=
  match raw_write with
  | None => ret (- ENOTSUP)
  | Some write => iowrite_loop write (length buf) buf 0
  end.

Definition ioread (bufsz : Z) : M R (Z * list Z) :=
  match raw_read with
  | None => ret (- ENOTSUP, [])
  | Some read => read bufsz
  end.

(** [ioread_full]: the result and the bytes in the buffer. *)
Fixpoint ioread_full_loop (read : Z -> M R (Z * list Z)) (fuel : nat) (bufsz : Z) (acc : list Z) : M R (Z * list Z) :=
  if bufsz <=? Z.of_nat (length acc) then ret (Z.of_nat (length acc), acc) else
  match fuel with
  | O => fun _ => NoFuel
  | S fuel' =>
      x <- read (bufsz - Z.of_nat (length acc)) ;;
      if fst x <? 0 then ret (fst x, acc) else
      if fst x =? 0 then ret (Z.of_nat (length acc), acc) else
      ioread_full_loop read fuel' bufsz (acc ++ take (Z.to_nat (fst x)) (snd x))
  end.

Definition ioread_full (bufsz : Z) : M R (Z * list Z) :=
  match raw_read with
  | None => ret (- ENOTSUP, [])
  | Some read => ioread_full_loop read (Z.to_nat bufsz) bufsz []
  end.

Definition ioputc (c : Z) : M R Z :=
  wlen <- iowrite [c] ;;
  if wlen <? 0 then ret wlen else if wlen =? 0 then ret (- EIO) else ret (w8 c).

(** The character that [read] gives for a buffer of one byte, or the error. *)
Definition iogetc {T} (read : Z -> M T (Z * list Z)) : M T Z :=
  x <- read 1 ;;
  if fst x <? 0 then ret (fst x) else
  if fst x =? 0 then ret (- EIO) else ret (w8 (hd 0 (snd x))).

(** [ioputs]: the string and a newline. *)
Definition ioputs (s : list Z) : M R Z :=
  wlen <- iowrite s ;;
  if wlen <? 0 then ret wlen else
  wlen' <- iowrite [10] ;;
  if wlen' <? 0 then ret wlen' else ret 0.

(** The state of [iovprintf]: the error of the first character that failed. *)
Definition iovprintf_putc (c : Z) (err : Z) : M R Z :=
  if err =? 0 then
    result <- ioputc c ;;
    if result <? 0 then ret result else ret err
  else ret err.

Fixpoint put_all (o : list Z) (err : Z) : M R Z :=
  match o with
  | [] => ret err
  | c :: o' => err' <- iovprintf_putc c err ;; put_all o' err'
  end.

(** [iovprintf] and [ioprintf]: the output of [vgprintf], a character at a time. *)
Definition iovprintf (fmt : list Z) (args : list arg) : M R Z :=
  match vgprintf fmt args with
  | None => undef "vgprintf"
  | Some o =>
      err <- put_all o 0 ;;
      ret (if err =? 0 then Z.of_nat (length o) else err)
  end.

(** ** The terminal *)

Record io_term := MkTerm { cr_in : bool; cr_out : bool; rawio : R }.

Definition set_cr_in (b : bool) (t : io_term) : io_term := MkTerm b (cr_out t) (rawio t).
Definition set_cr_out (b : bool) (t : io_term) : io_term := MkTerm (cr_in t) b (rawio t).
Definition on_raw {A} (c : M R A) : M io_term A := lift rawio (fun r t => MkTerm (cr_in t) (cr_out t) r) c.

Definition CR : Z := 13.
Definition NL : Z := 10.

Definition ioterm_init (raw : R) : io_term := MkTerm false false raw.

(** The scan of the characters read: what stays in the buffer, and [cr_in]. *)
Fixpoint fix_input (cr : bool) (l : list Z) : list Z * bool :=
  match l with
  | [] => ([], cr)
  | ch :: l' =>
      if cr then
        if ch =? CR then let '(o, c) := fix_input true l' in (NL :: o, c)
        else if ch =? NL then fix_input false l'
        else let '(o, c) := fix_input false l' in (ch :: o, c)
      else
        if ch =? CR then let '(o, c) := fix_input true l' in (NL :: o, c)
        else let '(o, c) := fix_input false l' in (ch :: o, c)
  end.

(** [do ... while (wp == buf)]; [fuel] bounds the turns. *)
Fixpoint ioterm_read (fuel : nat) (len : Z) : M io_term (Z * list Z) :=
  match fuel with
  | O => fun _ => NoFuel
  | S fuel' =>
      x <- on_raw (ioread len) ;;
      if fst x <? 0 then ret (fst x, []) else
      t <- get ;;
      let '(out, cr) := fix_input (cr_in t) (take (Z.to_nat (fst x)) (snd x)) in
      modify (set_cr_in cr) ;;
      match out with
      | [] => ioterm_read fuel' len
      | _ => ret (Z.of_nat (length out), out)
      end
  end.

(** Writes out [l] and continues with the count when it is positive. *)
Definition flush (l : list Z) (acc : Z) (k : Z -> M io_term Z) : M io_term Z :=
  cnt <- on_raw (iowrite l) ;;
  if cnt <? 0 then ret cnt else if cnt =? 0 then ret acc else k cnt.

(** The scan of [ioterm_write]: [pend] are the characters from [wp] to [rp], not
    yet written, [rest] those from [rp] on. *)
Fixpoint term_scan (pend rest : list Z) (acc : Z) : M io_term Z :=
  match rest with
  | [] =>
      match pend with
      | [] => ret acc
      | _ => flush pend acc (fun cnt => ret (acc + cnt))
      end
  | ch :: rest' =>
      if ch =? CR then
        match rest' with
        | nl :: rest'' =>
            if nl =? NL then modify (set_cr_out false) ;; term_scan (pend ++ [ch; nl]) rest'' acc
            else
              flush (pend ++ [ch]) acc (fun cnt =>
                c <- on_raw (ioputc NL) ;;
                if c <? 0 then ret c else
                modify (set_cr_out true) ;; term_scan (drop (Z.to_nat cnt) (pend ++ [ch])) rest' (acc + cnt))
        | [] =>
            flush (pend ++ [ch]) acc (fun cnt =>
              c <- on_raw (ioputc NL) ;;
              if c <? 0 then ret c else
              modify (set_cr_out true) ;; term_scan (drop (Z.to_nat cnt) (pend ++ [ch])) rest' (acc + cnt))
        end
      else if ch =? NL then
        t <- get ;;
        if cr_out t then modify (set_cr_out false) ;; term_scan (drop 1 (pend ++ [ch])) rest' acc
        else
          match pend with
          | [] =>
              c <- on_raw (ioputc CR) ;;
              if c <? 0 then ret c else
              modify (set_cr_out false) ;; term_scan [ch] rest' acc
          | _ =>
              flush pend acc (fun cnt =>
                c <- on_raw (ioputc CR) ;;
                if c <? 0 then ret c else
                modify (set_cr_out false) ;; term_scan (drop (Z.to_nat cnt) pend ++ [ch]) rest' (acc + cnt))
          end
      else modify (set_cr_out false) ;; term_scan (pend ++ [ch]) rest' acc
  end.

Definition ioterm_write (buf : list Z) : M io_term Z := term_scan [] buf 0.

(** ** Line editing *)

(** One turn of [ioterm_getsn] on the character [c]: [line] are the characters
    in the buffer (last first) and [n] the space left.  [inl] ends the call. *)
Definition getsn_step (c : Z) (line : list Z) (n : Z) : M io_term (option (list Z) + list Z * Z) :=
  if c =? 91 then modify (set_cr_in false) ;; ret (inr (line, n)) else      (* '\133' *)
  if (c =? CR) || (c =? NL) then
    r <- on_raw (ioputc CR) ;;
    if r <? 0 then ret (inl None) else
    r <- on_raw (ioputc NL) ;;
    if r <? 0 then ret (inl None) else ret (inl (Some (rev line)))
  else if (c =? 8) || (c =? 127) then
    match line with
    | _ :: line' =>
        r <- on_raw (ioputc 8) ;;
        if r <? 0 then ret (inl None) else
        r <- on_raw (ioputc 32) ;;
        if r <? 0 then ret (inl None) else
        r <- on_raw (ioputc 8) ;;
        if r <? 0 then ret (inl None) else ret (inr (line', n + 1))
    | [] =>
        r <- on_raw (ioputc 7) ;;
        if r <? 0 then ret (inl None) else ret (inr (line, n))
    end
  else if 1 <? n then
    r <- on_raw (ioputc c) ;;
    if r <? 0 then ret (inl None) else ret (inr (c :: line, n - 1))
  else
    r <- on_raw (ioputc 7) ;;
    if r <? 0 then ret (inl None) else ret (inr (line, n)).

(** [ioterm_getsn]; each turn reads one character through the terminal. *)
Fixpoint ioterm_getsn (fuel : nat) (line : list Z) (n : Z) : M io_term (option (list Z)) :=
  match fuel with
  | O => fun _ => NoFuel
  | S fuel' =>
      c <- iogetc (ioterm_read fuel) ;;
      r <- getsn_step (w8 c) line n ;;
      match r with
      | inl res => ret res
      | inr (line', n') => ioterm_getsn fuel' line' n'
      end
  end.

(** [ioterm_ioctl]: [ctl] is the control operation of the object below. *)
Definition ioterm_ioctl (ctl : Z -> M R Z) (cmd : Z) : M io_term Z :=
  if negb (cmd =? 4) then on_raw (ctl cmd) else ret (- ENOTSUP).
End Transfers.

Arguments io_term R : clear implicits.

(** ** Reference counts (ioref, ioclose) *)

Definition ioref (refcnt : Z) : Z := w32 (refcnt + 1).
(** The new count and whether the close operation is called. *)
Definition ioclose (refcnt : Z) (has_close : bool) : Z * bool :=
  if refcnt =? 0 then (refcnt, false) else
  let r := refcnt - 1 in (r, (r =? 0) && has_close).

(** ** Memory objects *)

Record io_lit := MkLit { lit_buf : list Z; lit_size : Z; lit_pos : Z }.

Definition iolit_init (buf : list Z) (size : Z) : io_lit := MkLit buf size 0.

Definition lit_read (bufsz : Z) : M io_lit (Z * list Z) := fun l =>
  if lit_size l <=? lit_pos l then Done (0, []) l else
  let remaining := lit_size l - lit_pos l in
  let to_read := if bufsz <? remaining then bufsz else remaining in
  Done (to_read, take (Z.to_nat to_read) (drop (Z.to_nat (lit_pos l)) (lit_buf l))) l.

Definition lit_write (buf : list Z) : M io_lit Z := fun l =>
  if lit_size l <=? lit_pos l then Done 0 l else
  let remaining := lit_size l - lit_pos l in
  let bufsz := Z.of_nat (length buf) in
  let to_write := if bufsz <? remaining then bufsz else remaining in
  let p := Z.to_nat (lit_pos l) in
  let chunk := take (Z.to_nat to_write) buf in
  Done to_write (MkLit (take p (lit_buf l) ++ chunk ++ drop (p + length chunk) (lit_buf l)) (lit_size l) (lit_pos l)).

Definition lit_ioctl (cmd : Z) (arg : Z) : M io_lit (Z * Z) := fun l =>
  if cmd =? 1 then Done (0, lit_size l) l else
  if cmd =? 3 then Done (0, lit_pos l) l else
  if cmd =? 4 then
    if lit_size l <? arg then Done (-1, arg) l
    else Done (0, arg) (MkLit (lit_buf l) (lit_size l) arg)
  else Done (- ENOTSUP, arg) l.

#[export] Instance lit_raw : RawIo io_lit := { raw_write := Some lit_write; raw_read := Some lit_read }.
#[export] Instance lit_block : BlockIo io_lit := {
  bio_setpos p := r <- lit_ioctl 4 p ;; ret (fst r);
  bio_read := lit_read;
  bio_write := lit_write
}.
