(* ===== verification/IoProps.v ===== *)
(** * Properties of the I/O objects (io.c)

    The terminal over any object that keeps the contract of io.h: a write takes
    at least one byte, a read gives at least one byte of a non-empty input. *)

From stdpp Require Import base sets list strings numbers.
From Stdlib Require Import Lia ZArith.
From S2P Require Import Prelude CString BlockIo Io.
Local Open Scope Z_scope.
Local Open Scope kern_scope.

(** ** The contract of the object below *)

(** [tty_in] is the input not yet read and [tty_out] all output so far. *)
Class RawTty (R : Type) {RI : RawIo R} := {
  tty_in : R -> list Z;
  tty_out : R -> list Z;
  tty_wr : list Z -> M R Z;
  tty_rd : Z -> M R (Z * list Z);
  tty_has_write : raw_write = Some tty_wr;
  tty_has_read : raw_read = Some tty_rd;
  tty_write r buf :
    buf <> [] ->
    exists n r', tty_wr buf r = Done (Z.of_nat n) r' /\ (1 <= n <= length buf)%nat /\
      tty_out r' = tty_out r ++ take n buf /\ tty_in r' = tty_in r;
  tty_read r len :
    1 <= len -> tty_in r <> [] ->
    exists l r', tty_rd len r = Done (Z.of_nat (length l), l) r' /\ l <> [] /\ Z.of_nat (length l) <= len /\
      tty_in r = l ++ tty_in r' /\ tty_out r' = tty_out r;
  tty_read_eof r len : tty_in r = [] -> tty_rd len r = Done (0, []) r
}.

(** ** Reference definitions *)

(** The output automaton of the comment in io.c: what one character sends and
    the new [cr_out]. *)
Definition out_step (cr : bool) (ch : Z) : list Z * bool :=
  if ch =? CR then ([CR; NL], true)
  else if ch =? NL then (if cr then [] else [CR; NL], false)
  else ([ch], false).

Fixpoint crlf (cr : bool) (l : list Z) : list Z :=
  match l with
  | [] => []
  | ch :: l' => fst (out_step cr ch) ++ crlf (snd (out_step cr ch)) l'
  end.

Definition crlf_state (cr : bool) (l : list Z) : bool := fold_left (fun c ch => snd (out_step c ch)) l cr.

(** The newline of a pair that was split between two calls is not counted. *)
Definition skipped (cr : bool) (l : list Z) : Z :=
  match l with ch :: _ => if cr && (ch =? NL) then 1 else 0 | [] => 0 end.

(** Every carriage return is followed by a newline and every newline follows a
    carriage return. *)
Fixpoint crlf_only (l : list Z) : bool :=
  match l with
  | [] => true
  | ch :: l' =>
      if ch =? CR then match l' with nl :: l'' => (nl =? NL) && crlf_only l'' | [] => false end
      else negb (ch =? NL) && crlf_only l'
  end.

(** Line editing: the line (last character first) after the character [c], in a
    buffer of [cap] bytes, and what is echoed. *)
Definition edit (cap : Z) (line : list Z) (c : Z) : list Z :=
  if c =? 91 then line
  else if (c =? 8) || (c =? 127) then tl line
  else if Z.of_nat (length line) + 1 <? cap then c :: line else line.

Definition echo (cap : Z) (line : list Z) (c : Z) : list Z :=
  if c =? 91 then []
  else if (c =? 8) || (c =? 127) then match line with [] => [7] | _ => [8; 32; 8] end
  else if Z.of_nat (length line) + 1 <? cap then [c] else [7].

Fixpoint echo_all (cap : Z) (line body : list Z) : list Z :=
  match body with
  | [] => []
  | c :: body' => echo cap line c ++ echo_all cap (edit cap line c) body'
  end.

Definition edit_line (cap : Z) (line body : list Z) : list Z := fold_left (edit cap) body line.

(** ** The reference definitions compose *)

Lemma edit_line_fits cap body line :
  Z.of_nat (length line) < cap -> Z.of_nat (length (edit_line cap line body)) < cap.
Proof.
  revert line. induction body as [|c body IH]; intros line H; [done|]. cbn. apply IH. unfold edit.
  destruct (c =? 91); [done|]. destruct (_ || _); [destruct line; cbn in *; lia|].
  destruct (Z.ltb_spec (Z.of_nat (length line) + 1) cap); cbn [length]; lia.
Qed.

Lemma crlf_app cr l1 l2 : crlf cr (l1 ++ l2) = crlf cr l1 ++ crlf (crlf_state cr l1) l2.
Proof. revert cr. induction l1 as [|ch l1 IH]; intros cr; [done|]. cbn. by rewrite IH, app_assoc. Qed.

Lemma crlf_only_crlf cr l : crlf_only (crlf cr l) = true.
Proof.
  revert cr. induction l as [|ch l IH]; intros cr; [done|]. cbn [crlf]. unfold out_step.
  destruct (Z.eqb_spec ch CR) as [-> |H1]; [by cbn|].
  destruct (Z.eqb_spec ch NL) as [-> |H2]; [destruct cr; by cbn|].
  cbn. rewrite (proj2 (Z.eqb_neq ch CR)), (proj2 (Z.eqb_neq ch NL)) by done. apply IH.
Qed.

Lemma fix_input_app cr l1 l2 :
  fix_input cr (l1 ++ l2) =
  (fst (fix_input cr l1) ++ fst (fix_input (snd (fix_input cr l1)) l2), snd (fix_input (snd (fix_input cr l1)) l2)).
Proof.
  revert cr. induction l1 as [|ch l1 IH]; intros cr; [by destruct (fix_input _ _)|].
  cbn. destruct cr, (ch =? CR), (ch =? NL); rewrite ?IH;
    repeat match goal with |- context [fix_input ?b l1] => destruct (fix_input b l1) end; done.
Qed.

(** What a reader makes of normalised output is what it makes of the text
    itself. *)
Lemma fix_input_crlf cr l : fst (fix_input false (crlf cr l)) = fst (fix_input cr l).
Proof.
  revert cr. induction l as [|ch l IH]; intros cr; [done|]. cbn [crlf]. unfold out_step.
  destruct (Z.eqb_spec ch CR) as [-> |H1].
  { specialize (IH true). cbn in *. destruct cr; destruct (fix_input false (crlf true l)), (fix_input true l); cbn in *; by f_equal. }
  specialize (IH false).
  destruct (Z.eqb_spec ch NL) as [-> |H2].
  { cbn in *. destruct cr; cbn in *; [done|].
    destruct (fix_input false (crlf false l)), (fix_input false l); cbn in *; by f_equal. }
  cbn. rewrite (proj2 (Z.eqb_neq ch CR)), (proj2 (Z.eqb_neq ch NL)) by done.
  destruct cr; destruct (fix_input false (crlf false l)), (fix_input false l); cbn in *; by f_equal.
Qed.

Lemma fix_input_no_cr l : CR ∉ l -> fix_input false l = (l, false).
Proof.
  induction l as [|ch l IH]; intros H; [done|]. apply not_elem_of_cons in H as [H1 H2].
  cbn. rewrite (proj2 (Z.eqb_neq ch CR)) by congruence. by rewrite (IH H2).
Qed.

Lemma crlf_state_no_cr l : CR ∉ l -> crlf_state false l = false.
Proof.
  induction l as [|ch l IH]; intros H; [done|]. apply not_elem_of_cons in H as [H1 H2].
  unfold crlf_state. cbn [fold_left]. unfold out_step at 2. rewrite (proj2 (Z.eqb_neq ch CR)) by congruence.
  destruct (ch =? NL); by apply IH.
Qed.

Lemma length_fix_input cr l : (length (fst (fix_input cr l)) <= length l)%nat.
Proof.
  revert cr. induction l as [|ch l IH]; intros cr; [done|]. cbn.
  destruct cr, (ch =? CR), (ch =? NL);
    match goal with |- context [fix_input ?b l] => specialize (IH b); destruct (fix_input b l) end; cbn in *; lia.
Qed.

(** Only a newline after a carriage return leaves nothing. *)
Lemma fix_input_empty cr l : l <> [] -> fst (fix_input cr l) = [] -> cr = true /\ l = [NL].
Proof.
  destruct l as [|ch l]; [done|]. intros _. cbn.
  destruct cr, (ch =? CR), (ch =? NL) eqn:E; repeat match goal with |- context [fix_input ?b l] => destruct (fix_input b l) eqn:? end; try done.
  cbn. intros ->. split; [done|]. apply Z.eqb_eq in E as ->. f_equal.
  destruct l as [|c l]; [done|]. exfalso. cbn in *.
  destruct (c =? CR); match goal with H : context [fix_input ?b l] |- _ => destruct (fix_input b l) end; congruence.
Qed.

Section Tty.
Context {R : Type} {RI : RawIo R} {RT : RawTty R}.

(** [r'] is [r] after sending [o]. *)
Definition sent (o : list Z) (r r' : R) : Prop := tty_out r' = tty_out r ++ o /\ tty_in r' = tty_in r.

Lemma sent_trans o1 o2 r1 r2 r3 : sent o1 r1 r2 -> sent o2 r2 r3 -> sent (o1 ++ o2) r1 r3.
Proof. intros [H1 H2] [H3 H4]. split; [by rewrite H3, H1, app_assoc|congruence]. Qed.

Lemma iowrite_loop_sent fuel buf acc r :
  (length buf <= fuel)%nat ->
  exists r', iowrite_loop tty_wr fuel buf acc r = Done (acc + Z.of_nat (length buf)) r' /\ sent buf r r'.
Proof.
  revert buf acc r. induction fuel as [|fuel IH]; intros [|c buf] acc r Hf; cbn in Hf; try lia;
    try (exists r; split; [cbn; unfold ret; f_equal; lia|split; [by rewrite app_nil_r|done]]).
  set (b := c :: buf). destruct (tty_write r b) as (n & r1 & E & Hn & Ho & Hi); [done|].
  destruct (IH (drop n b) (acc + Z.of_nat n) r1) as (r2 & E2 & Ho2 & Hi2).
  { rewrite length_drop. cbn. lia. }
  exists r2. split.
  - cbn [iowrite_loop b]. rewrite (bind_Done _ _ _ _ _ E).
    rewrite (proj2 (Z.ltb_ge _ _)), (proj2 (Z.eqb_neq _ _)), Nat2Z.id by lia. fold b.
    rewrite E2, length_drop. f_equal. lia.
  - split; [|congruence]. rewrite Ho2, Ho, <- app_assoc. by rewrite take_drop.
Qed.

(** [iowrite] writes all of its buffer. *)
Lemma iowrite_sent buf r :
  exists r', iowrite buf r = Done (Z.of_nat (length buf)) r' /\ sent buf r r'.
Proof. unfold iowrite. rewrite tty_has_write. by apply (iowrite_loop_sent (length buf) buf 0). Qed.

Lemma ioputc_sent c r : exists r', ioputc c r = Done (w8 c) r' /\ sent [c] r r'.
Proof.
  destruct (iowrite_sent [c] r) as (r' & E & S). exists r'. split; [|done].
  unfold ioputc. by rewrite (bind_Done _ _ _ _ _ E).
Qed.

Lemma put_all_sent o r : exists r', put_all o 0 r = Done 0 r' /\ sent o r r'.
Proof.
  revert r. induction o as [|c o IH]; intros r.
  - exists r. split; [done|]. split; [by rewrite app_nil_r|done].
  - destruct (ioputc_sent c r) as (r1 & E1 & S1), (IH r1) as (r2 & E2 & S2).
    exists r2. split; [|apply (sent_trans [c] o _ r1 _ S1 S2)].
    cbn [put_all]. assert (E : iovprintf_putc c 0 r = Done 0 r1).
    { unfold iovprintf_putc. cbn [Z.eqb]. rewrite (bind_Done _ _ _ _ _ E1).
      rewrite (proj2 (Z.ltb_ge _ _)); [done|apply w8_range]. }
    by rewrite (bind_Done _ _ _ _ _ E).
Qed.

(** ** Writing to a terminal *)

Definition with_raw (t : io_term R) (r : R) : io_term R := MkTerm (cr_in t) (cr_out t) r.

Lemma on_raw_Done {A} (c : M R A) t a r : c (rawio t) = Done a r -> on_raw c t = Done a (with_raw t r).
Proof. intros E. unfold on_raw, lift. by rewrite E. Qed.

Lemma flush_sent l acc k t :
  l <> [] -> exists r, sent l (rawio t) r /\ flush l acc k t = k (Z.of_nat (length l)) (with_raw t r).
Proof.
  intros Hl. destruct (iowrite_sent l (rawio t)) as (r & E & S). exists r. split; [done|].
  unfold flush. rewrite (bind_Done _ _ _ _ _ (on_raw_Done _ _ _ _ E)).
  assert (length l <> 0)%nat by (by destruct l).
  rewrite (proj2 (Z.ltb_ge _ _)), (proj2 (Z.eqb_neq _ _)) by lia. done.
Qed.

Lemma putc_then {A} c (k : M (io_term R) A) (e : Z -> M (io_term R) A) t :
  exists r, sent [c] (rawio t) r /\
    (x <- on_raw (ioputc c) ;; if x <? 0 then e x else k) t = k (with_raw t r).
Proof.
  destruct (ioputc_sent c (rawio t)) as (r & E & S). exists r. split; [done|].
  rewrite (bind_Done _ _ _ _ _ (on_raw_Done _ _ _ _ E)). by rewrite (proj2 (Z.ltb_ge _ _)) by apply w8_range.
Qed.

(** One step of a computation that starts by sending a character. *)
Ltac put_step r S :=
  match goal with
  | |- context [bind (on_raw (ioputc ?c)) (fun x => if x <? 0 then @?e x else ?k) ?t] =>
      destruct (putc_then c k e t) as (r & S & ->)
  end.

Lemma drop_pend (pend : list Z) ch : drop (Z.to_nat (Z.of_nat (length (pend ++ [ch])))) (pend ++ [ch]) = [].
Proof. rewrite Nat2Z.id. by rewrite drop_all. Qed.

Definition scan_ok (pend rest : list Z) : Prop := forall acc t,
  (cr_out t = true -> pend = []) ->
  exists r, sent (pend ++ crlf (cr_out t) rest) (rawio t) r /\
    term_scan pend rest acc t =
      Done (acc + Z.of_nat (length pend + length rest) - skipped (cr_out t) rest)
           (MkTerm (cr_in t) (crlf_state (cr_out t) rest) r).

Lemma scan_nil pend : scan_ok pend [].
Proof.
  intros acc t _. cbn [crlf app skipped crlf_state fold_left length]. rewrite app_nil_r.
  destruct pend as [|c pend].
  - exists (rawio t). split; [split; [by rewrite app_nil_r|done]|]. destruct t. cbn. unfold ret. f_equal; lia.
  - destruct (flush_sent (c :: pend) acc (fun cnt => ret (acc + cnt)) t) as (r & S & E); [done|].
    exists r. split; [done|]. cbn [term_scan]. rewrite E. unfold ret, with_raw. f_equal; lia.
Qed.

(** A carriage return that is not followed by a newline. *)
Lemma scan_lone_cr pend rest :
  skipped true rest = 0 -> scan_ok [] rest -> scan_ok pend (CR :: rest).
Proof.
  intros Hs IH acc t Hp.
  set (K := fun cnt => c <- on_raw (ioputc NL) ;;
    if c <? 0 then ret c else
    modify (set_cr_out true) ;; term_scan (drop (Z.to_nat cnt) (pend ++ [CR])) rest (acc + cnt)).
  assert (Ek : term_scan pend (CR :: rest) acc t = flush (pend ++ [CR]) acc K t).
  { cbn [term_scan]. rewrite Z.eqb_refl. destruct rest as [|nl rest']; [done|].
    destruct (Z.eqb_spec nl NL) as [-> |]; [done|done]. }
  rewrite Ek. destruct (flush_sent (pend ++ [CR]) acc K t) as (r1 & S1 & ->); [by destruct pend|].
  unfold K. put_step r2 S2.
  unfold modify, bind at 1. rewrite drop_pend.
  destruct (IH (acc + Z.of_nat (length (pend ++ [CR]))) (set_cr_out true (with_raw (with_raw t r1) r2))) as (r3 & S3 & E3); [done|].
  exists r3. split.
  - replace (pend ++ crlf (cr_out t) (CR :: rest)) with ((pend ++ [CR]) ++ [NL] ++ crlf true rest) by (by rewrite <- app_assoc).
    eapply sent_trans; [exact S1|]. eapply sent_trans; [exact S2|exact S3].
  - rewrite E3. cbn [cr_in cr_out set_cr_out with_raw]. f_equal. rewrite Hs, length_app. cbn [skipped length].
    replace (cr_out t && (CR =? NL)) with false by (by rewrite andb_comm). lia.
Qed.

Lemma scan_other pend ch rest :
  ch <> CR -> ch <> NL -> scan_ok (pend ++ [ch]) rest -> scan_ok pend (ch :: rest).
Proof.
  intros H1 H2 IH acc t Hp. cbn [term_scan].
  rewrite (proj2 (Z.eqb_neq ch CR)), (proj2 (Z.eqb_neq ch NL)) by done.
  unfold modify, bind. destruct (IH acc (set_cr_out false t)) as (r & S & E); [done|].
  assert (Ho : out_step (cr_out t) ch = ([ch], false)).
  { unfold out_step. by rewrite (proj2 (Z.eqb_neq ch CR)), (proj2 (Z.eqb_neq ch NL)). }
  exists r. split.
  - cbn [crlf]. rewrite Ho. rewrite <- app_assoc in S. exact S.
  - rewrite E. unfold crlf_state. cbn [fold_left]. rewrite Ho. cbn [cr_in cr_out set_cr_out fst snd]. f_equal.
    rewrite length_app. cbn [length skipped]. rewrite (proj2 (Z.eqb_neq ch NL)), andb_false_r by done.
    destruct rest; cbn [skipped andb length]; lia.
Qed.

(** The easy case: the pair is in the buffer. *)
Lemma scan_pair pend rest : scan_ok (pend ++ [CR; NL]) rest -> scan_ok pend (CR :: NL :: rest).
Proof.
  intros IH acc t Hp. cbn [term_scan]. rewrite !Z.eqb_refl.
  unfold modify, bind. destruct (IH acc (set_cr_out false t)) as (r & S & E); [done|].
  exists r. split.
  - rewrite <- app_assoc in S. exact S.
  - rewrite E. cbn [cr_in cr_out set_cr_out]. f_equal.
    rewrite length_app. cbn [length skipped]. replace (cr_out t && (CR =? NL)) with false by (by rewrite andb_comm).
    destruct rest; cbn [skipped andb length]; lia.
Qed.

Lemma scan_nl pend rest : scan_ok [] rest -> scan_ok [NL] rest -> scan_ok pend (NL :: rest).
Proof.
  intros IH0 IH1 acc t Hp. destruct (cr_out t) eqn:Ec.
  - rewrite (Hp eq_refl) in *. clear Hp.
    destruct (IH0 acc (set_cr_out false t)) as (r & S & E); [done|].
    exists r. split; [exact S|].
    assert (Et : term_scan [] (NL :: rest) acc t = term_scan [] rest acc (set_cr_out false t)).
    { cbn [term_scan]. replace (NL =? CR) with false by done. rewrite Z.eqb_refl. unfold get, modify, bind. by rewrite Ec. }
    rewrite Et, E. f_equal.
    cbn [length skipped]. rewrite Z.eqb_refl. destruct rest; cbn [skipped andb length cr_out set_cr_out]; lia.
  - set (K := fun acc' => c <- on_raw (ioputc CR) ;;
      if c <? 0 then ret c else modify (set_cr_out false) ;; term_scan [NL] rest acc').
    assert (Ek : exists r, sent pend (rawio t) r /\ term_scan pend (NL :: rest) acc t = K (acc + Z.of_nat (length pend)) (with_raw t r)).
    { cbn [term_scan]. replace (NL =? CR) with false by done. rewrite Z.eqb_refl. unfold get, bind at 1. rewrite Ec.
      destruct pend as [|c pend].
      - exists (rawio t). split; [split; [by rewrite app_nil_r|done]|]. cbn [length]. rewrite Z.add_0_r. by destruct t.
      - edestruct flush_sent as (r & S & E); [|exists r; split; [exact S|rewrite E]]; [done|].
        by rewrite Nat2Z.id, drop_all. }
    destruct Ek as (r1 & S1 & ->). unfold K. put_step r2 S2.
    unfold modify, bind. destruct (IH1 (acc + Z.of_nat (length pend)) (set_cr_out false (with_raw (with_raw t r1) r2))) as (r3 & S3 & E3); [done|].
    exists r3. split.
    + eapply sent_trans; [exact S1|]. apply (sent_trans [CR] _ _ r2); [exact S2|exact S3].
    + rewrite E3. cbn [cr_in cr_out set_cr_out with_raw]. f_equal. cbn [length skipped andb].
      destruct rest; cbn [skipped andb length]; lia.
Qed.

Lemma term_scan_ok n : forall pend rest, (length rest <= n)%nat -> scan_ok pend rest.
Proof.
  induction n as [|n IH]; intros pend [|ch rest] Hn; try apply scan_nil; cbn in Hn; try lia.
  destruct (Z.eq_dec ch CR) as [-> |H1].
  { destruct rest as [|nl rest]; [by apply scan_lone_cr; [done|apply IH; cbn; lia]|]. cbn in Hn.
    destruct (Z.eq_dec nl NL) as [-> |H2]; [apply scan_pair, IH; lia|].
    apply scan_lone_cr; [|apply IH; cbn; lia]. cbn. by rewrite (proj2 (Z.eqb_neq nl NL)). }
  destruct (Z.eq_dec ch NL) as [-> |H2]; [apply scan_nl; apply IH; lia|].
  apply scan_other; [done|done|apply IH; lia].
Qed.

(** ** Reading from a terminal *)

(** One turn of the loop of [ioterm_read]. *)
Lemma ioterm_read_turn fuel len t :
  1 <= len -> tty_in (rawio t) <> [] ->
  exists l r, l <> [] /\ Z.of_nat (length l) <= len /\ tty_in (rawio t) = l ++ tty_in r /\ tty_out r = tty_out (rawio t) /\
    ioterm_read (S fuel) len t =
      (let t' := MkTerm (snd (fix_input (cr_in t) l)) (cr_out t) r in
       match fst (fix_input (cr_in t) l) with
       | [] => ioterm_read fuel len t'
       | out => Done (Z.of_nat (length out), out) t'
       end).
Proof.
  intros Hlen Hin. destruct (tty_read (rawio t) len) as (l & r & E & Hl & Hll & Hs & Ho); [done|done|].
  exists l, r. split_and!; try done. cbn [ioterm_read].
  assert (Er : on_raw (ioread len) t = Done (Z.of_nat (length l), l) (with_raw t r)).
  { apply on_raw_Done. unfold ioread. by rewrite tty_has_read. }
  rewrite (bind_Done _ _ _ _ _ Er). cbn [fst snd]. rewrite (proj2 (Z.ltb_ge _ _)) by lia.
  rewrite Nat2Z.id, firstn_all. unfold get, bind. cbn [cr_in with_raw].
  by destruct (fix_input (cr_in t) l) as [[|c o] cr].
Qed.

Lemma ioterm_read_some fuel len t :
  1 <= len -> fst (fix_input (cr_in t) (tty_in (rawio t))) <> [] ->
  exists l r out cr', ioterm_read (S (S fuel)) len t = Done (Z.of_nat (length out), out) (MkTerm cr' (cr_out t) r) /\
    out <> [] /\ Z.of_nat (length out) <= len /\
    tty_in (rawio t) = l ++ tty_in r /\ fix_input (cr_in t) l = (out, cr') /\ tty_out r = tty_out (rawio t).
Proof.
  intros Hlen Hf. assert (Hin : tty_in (rawio t) <> []) by (intros E; rewrite E in Hf; by destruct (cr_in t)).
  destruct (ioterm_read_turn (S fuel) len t) as (l & r & Hl & Hll & Hs & Ho & E); [done..|].
  pose proof (length_fix_input (cr_in t) l) as Hlf. cbn zeta in E.
  destruct (fix_input (cr_in t) l) as [[|c o] cr'] eqn:Ef; cbn [fst snd] in *.
  2: { exists l, r, (c :: o), cr'. split_and!; try done. lia. }
  destruct (fix_input_empty (cr_in t) l) as [Hc ->]; [done|by rewrite Ef|].
  rewrite Hc in *. injection Ef as <-. rewrite Hs in Hf. cbn in Hf.
  assert (Hin2 : tty_in r <> []) by (by intros E'; rewrite E' in Hf).
  destruct (ioterm_read_turn fuel len (MkTerm false (cr_out t) r)) as (l2 & r2 & Hl2 & Hll2 & Hs2 & Ho2 & E2); [done..|].
  cbn [rawio cr_in cr_out] in *. pose proof (length_fix_input false l2) as Hlf2.
  rewrite E2 in E. cbn zeta in E.
  destruct (fix_input false l2) as [[|c o] cr'] eqn:Ef2; cbn [fst snd] in *.
  { destruct (fix_input_empty false l2) as [? _]; [done|by rewrite Ef2|done]. }
  exists (NL :: l2), r2, (c :: o), cr'. split_and!; try done; [lia|by rewrite Hs, Hs2|congruence].
Qed.

(** At the end of the input the loop of [ioterm_read] never ends. *)
Lemma ioterm_read_eof fuel len t : tty_in (rawio t) = [] -> ioterm_read fuel len t = NoFuel.
Proof.
  revert t. induction fuel as [|fuel IH]; intros t H; [done|]. cbn [ioterm_read].
  assert (Er : on_raw (ioread len) t = Done (0, []) (with_raw t (rawio t))).
  { apply on_raw_Done. unfold ioread. rewrite tty_has_read. by apply tty_read_eof. }
  rewrite (bind_Done _ _ _ _ _ Er). cbn. unfold bind, get. by apply IH.
Qed.

(** ** Line editing *)

Lemma fix_input_chars cr l :
  Forall (fun c => 0 <= c < 256) l -> Forall (fun c => 0 <= c < 256 /\ c <> CR) (fst (fix_input cr l)).
Proof.
  intros H. revert cr. induction H as [|ch l Hc _ IH]; intros cr; [constructor|]. cbn.
  destruct (Z.eqb_spec ch CR), (Z.eqb_spec ch NL), cr; try apply IH;
    match goal with |- context [fix_input ?b l] => specialize (IH b); destruct (fix_input b l) end;
    by constructor.
Qed.

(** The state after a character other than a newline. *)
Lemma fix_input_last cr l c cr' : fix_input cr l = ([c], cr') -> c <> NL -> cr' = false.
Proof.
  revert cr. induction l as [|ch l IH]; intros cr; cbn; [congruence|]. intros E Hc.
  assert (Hl : forall b o, fix_input b l = (o, cr') -> o = [] -> b = false -> cr' = false).
  { intros b o El -> ->. destruct l as [|c2 l]; [cbn in El; congruence|].
    destruct (fix_input_empty false (c2 :: l)); [done|by rewrite El|done]. }
  destruct (Z.eqb_spec ch CR) as [-> |].
  { destruct cr, (fix_input true l); injection E as ? ? ?; by subst. }
  destruct (Z.eqb_spec ch NL), cr; try (by eapply IH);
    destruct (fix_input false l) eqn:El; injection E as ? -> ->; by eapply Hl.
Qed.

(** Reading one character. *)
Lemma read_char fuel t c o :
  fst (fix_input (cr_in t) (tty_in (rawio t))) = c :: o ->
  exists l r cr', ioterm_read (S (S fuel)) 1 t = Done (1, [c]) (MkTerm cr' (cr_out t) r) /\
    tty_in (rawio t) = l ++ tty_in r /\ fix_input (cr_in t) l = ([c], cr') /\ tty_out r = tty_out (rawio t) /\
    fst (fix_input cr' (tty_in r)) = o.
Proof.
  intros Hf. destruct (ioterm_read_some fuel 1 t) as (l & r & out & cr' & E & Ho & Hl & Hs & Ef & Hout); [lia|by rewrite Hf|].
  rewrite Hs, fix_input_app, Ef in Hf. cbn [fst snd] in Hf.
  destruct out as [|c' [|? ?]]; [done| |cbn in Hl; lia]. injection Hf as -> Hf.
  exists l, r, cr'. done.
Qed.

Lemma getsn_step_edit c line cap t :
  c <> CR -> c <> NL -> (c = 91 -> cr_in t = false) -> Z.of_nat (length line) < cap ->
  exists r, sent (echo cap line c) (rawio t) r /\
    getsn_step c line (cap - Z.of_nat (length line)) t =
      Done (inr (edit cap line c, cap - Z.of_nat (length (edit cap line c)))) (with_raw t r).
Proof.
  intros H1 H2 H91 Hcap. unfold getsn_step, echo, edit.
  destruct (Z.eqb_spec c 91) as [-> |H3].
  { exists (rawio t). split; [split; [by rewrite app_nil_r|done]|].
    unfold modify, bind, ret, set_cr_in, with_raw. by rewrite <- (H91 eq_refl). }
  rewrite (proj2 (Z.eqb_neq c CR)), (proj2 (Z.eqb_neq c NL)) by done. cbn [orb].
  destruct ((c =? 8) || (c =? 127)).
  - destruct line as [|x line].
    + put_step r Sr. exists r. done.
    + put_step r1 S1. put_step r2 S2. put_step r3 S3. exists r3. split.
      * apply (sent_trans [8] _ _ r1); [exact S1|]. by apply (sent_trans [32] [8] _ r2).
      * cbn [tl length]. unfold ret. do 3 f_equal. lia.
  - destruct (Z.ltb_spec 1 (cap - Z.of_nat (length line))), (Z.ltb_spec (Z.of_nat (length line) + 1) cap); try lia.
    + put_step r Sr. exists r. split; [done|]. cbn [length]. unfold ret. do 3 f_equal. lia.
    + put_step r Sr. exists r. done.
Qed.

Lemma getsn_step_end line n t :
  exists r, sent [CR; NL] (rawio t) r /\ getsn_step NL line n t = Done (inl (Some (rev line))) (with_raw t r).
Proof.
  unfold getsn_step. replace (NL =? 91) with false by done. replace ((NL =? CR) || (NL =? NL)) with true by done.
  put_step r1 S1. put_step r2 S2. exists r2. split; [by apply (sent_trans [CR] [NL] _ r1)|done].
Qed.

(** One turn of [ioterm_getsn]. *)
Lemma getsn_turn fuel line n t c o :
  0 <= c < 256 -> fst (fix_input (cr_in t) (tty_in (rawio t))) = c :: o ->
  exists l r cr', tty_in (rawio t) = l ++ tty_in r /\ fix_input (cr_in t) l = ([c], cr') /\
    tty_out r = tty_out (rawio t) /\ fst (fix_input cr' (tty_in r)) = o /\
    ioterm_getsn (S (S fuel)) line n t =
      (x <- getsn_step c line n ;;
       match x with
       | inl res => ret res
       | inr (line', n') => ioterm_getsn (S fuel) line' n'
       end) (MkTerm cr' (cr_out t) r).
Proof.
  intros Hc Hin. destruct (read_char fuel t c o Hin) as (l & r & cr' & E & Hs & Ef & Ho & Hr).
  exists l, r, cr'. split_and!; try done. cbn [ioterm_getsn].
  assert (Eg : iogetc (ioterm_read (S (S fuel))) t = Done c (MkTerm cr' (cr_out t) r)).
  { unfold iogetc. rewrite (bind_Done _ _ _ _ _ E). cbn. by rewrite w8_small. }
  by rewrite (bind_Done _ _ _ _ _ Eg), w8_small.
Qed.

Lemma ioterm_getsn_line fuel body after : forall line cap t,
  (length body + 2 <= fuel)%nat -> Z.of_nat (length line) < cap ->
  fst (fix_input (cr_in t) (tty_in (rawio t))) = body ++ NL :: after ->
  Forall (fun c => 0 <= c < 256 /\ c <> CR /\ c <> NL) body ->
  exists l r cr', ioterm_getsn fuel line (cap - Z.of_nat (length line)) t =
      Done (Some (rev (edit_line cap line body))) (MkTerm cr' (cr_out t) r) /\
    tty_in (rawio t) = l ++ tty_in r /\ fix_input (cr_in t) l = (body ++ [NL], cr') /\
    tty_out r = tty_out (rawio t) ++ echo_all cap line body ++ [CR; NL].
Proof.
  revert fuel. induction body as [|c body IH]; intros fuel line cap t Hf Hcap Hin Hb;
    destruct fuel as [|[|fuel]]; cbn [length] in Hf; try lia.
  - destruct (getsn_turn fuel line (cap - Z.of_nat (length line)) t NL after) as (l & r & cr' & Hs & Ef & Ho & _ & ->); [done|done|].
    destruct (getsn_step_end line (cap - Z.of_nat (length line)) (MkTerm cr' (cr_out t) r)) as (r2 & [So Si] & E).
    rewrite (bind_Done _ _ _ _ _ E). exists l, r2, cr'. cbn in *. split_and!; [done|by rewrite Si|done|by rewrite So, Ho].
  - apply Forall_cons_1 in Hb as [(Hc & H1 & H2) Hb'].
    destruct (getsn_turn fuel line (cap - Z.of_nat (length line)) t c (body ++ NL :: after)) as (l & r & cr' & Hs & Ef & Ho & Hr & ->); [done|done|].
    destruct (getsn_step_edit c line cap (MkTerm cr' (cr_out t) r)) as (r2 & [So Si] & E); [done|done| |done|].
    { intros _. by eapply fix_input_last. }
    rewrite (bind_Done _ _ _ _ _ E). cbn [rawio with_raw cr_in cr_out] in *.
    destruct (IH (S fuel) (edit cap line c) cap (MkTerm cr' (cr_out t) r2)) as (l2 & r3 & cr2 & E3 & Hs3 & Ef3 & Ho3).
    { lia. } { apply (edit_line_fits cap [c] line Hcap). } { cbn. by rewrite Si. } { exact Hb'. }
    exists (l ++ l2), r3, cr2. cbn [rawio cr_in cr_out] in *. split_and!.
    + exact E3.
    + by rewrite Hs, <- Si, Hs3, app_assoc.
    + rewrite fix_input_app, Ef. cbn [fst snd]. by rewrite Ef3.
    + rewrite Ho3, So, Ho. cbn [echo_all]. by rewrite <- !app_assoc.
Qed.

(** ** A terminal as an I/O object *)

(** [ioterm_init] sets the operations; two turns of the read loop are enough
    while input is left. *)
#[local] Instance term_io : RawIo (io_term R) := { raw_write := Some ioterm_write; raw_read := Some (ioterm_read 2) }.

Lemma ioread_full_term fuel bufsz : forall acc t,
  let o := fst (fix_input (cr_in t) (tty_in (rawio t))) in
  let want := (Z.to_nat bufsz - length acc)%nat in
  (want <= fuel)%nat -> (want <= length o)%nat -> Z.of_nat (length acc) <= bufsz ->
  exists t', ioread_full_loop (ioterm_read 2) fuel bufsz acc t = Done (bufsz, acc ++ take want o) t'.
Proof.
  induction fuel as [|fuel IH]; intros acc t o want Hf Ho Hacc;
    assert (Hw : want = (Z.to_nat bufsz - length acc)%nat) by done; clearbody want; cbn [ioread_full_loop];
    destruct (Z.leb_spec bufsz (Z.of_nat (length acc)));
    try (exists t; replace want with 0%nat by lia; rewrite take_0, app_nil_r; unfold ret; do 2 f_equal; lia).
  destruct (ioterm_read_some 0 (bufsz - Z.of_nat (length acc)) t) as (l & r & out & cr' & E & Hout & Hl & Hs & Ef & _).
  { lia. } { fold o. intros E. rewrite E in Ho. cbn in Ho. lia. }
  assert (Hlo : (1 <= length out)%nat) by (destruct out; [done|cbn; lia]).
  rewrite (bind_Done _ _ _ _ _ E). cbn [fst snd].
  rewrite (proj2 (Z.ltb_ge _ _)), (proj2 (Z.eqb_neq _ _)), Nat2Z.id, firstn_all by lia.
  assert (Eo : o = out ++ fst (fix_input cr' (tty_in r))).
  { unfold o. by rewrite Hs, fix_input_app, Ef. }
  destruct (IH (acc ++ out) (MkTerm cr' (cr_out t) r)) as (t' & E').
  { rewrite length_app. lia. }
  { cbn. rewrite Eo, length_app in Ho. rewrite length_app. lia. }
  { rewrite length_app. lia. }
  exists t'. rewrite E'. cbn [cr_in rawio]. rewrite <- app_assoc. do 3 f_equal.
  rewrite Eo, length_app, take_app_ge by lia. do 2 f_equal. lia.
Qed.

Lemma ioterm_write_sent buf t :
  exists r, sent (crlf (cr_out t) buf) (rawio t) r /\ ioterm_write buf t =
    Done (Z.of_nat (length buf) - skipped (cr_out t) buf) (MkTerm (cr_in t) (crlf_state (cr_out t) buf) r).
Proof. apply (term_scan_ok (length buf) [] buf (le_n _) 0 t). done. Qed.

(** ** Main theorems *)

(** C25: [ioterm_write] on an object that accepts at least one byte per write
    implements the output automaton described in the comment of io.c: it sends
    exactly the characters the automaton sends, ends in the automaton's state,
    leaves no lone carriage return or newline, and returns the number of
    characters given, less one when the buffer starts with the newline of a pair
    split between two calls. *)
Theorem ioterm_write_correct (buf : list Z) (t : io_term R) :
  exists r, ioterm_write buf t =
      Done (Z.of_nat (length buf) - skipped (cr_out t) buf) (MkTerm (cr_in t) (crlf_state (cr_out t) buf) r) /\
    tty_out r = tty_out (rawio t) ++ crlf (cr_out t) buf /\ tty_in r = tty_in (rawio t) /\
    crlf_only (crlf (cr_out t) buf) = true.
Proof.
  destruct (ioterm_write_sent buf t) as (r & [So Si] & E).
  exists r. split_and!; [exact E|exact So|exact Si|apply crlf_only_crlf].
Qed.

(** C26: The text written to one terminal in two calls, cut at any place, is
    what another terminal reads from the line, when it holds no carriage
    return: line endings survive the conversion in both directions. *)
Theorem ioterm_roundtrip (text1 text2 : list Z) (r1 r2 : R) :
  CR ∉ text1 ++ text2 -> tty_out r1 = [] ->
  exists n1 n2 t1 t2, ioterm_write text1 (ioterm_init r1) = Done n1 t1 /\ ioterm_write text2 t1 = Done n2 t2 /\
    n1 + n2 = Z.of_nat (length (text1 ++ text2)) /\
    (tty_in r2 = tty_out (rawio t2) ->
     exists t3, ioread_full (Z.of_nat (length (text1 ++ text2))) (ioterm_init r2) =
       Done (Z.of_nat (length (text1 ++ text2)), text1 ++ text2) t3).
Proof.
  intros Hcr Hr1. set (text := text1 ++ text2).
  assert (Hcr1 : CR ∉ text1) by set_solver.
  destruct (ioterm_write_sent text1 (ioterm_init r1)) as (s1 & [So1 _] & E1).
  destruct (ioterm_write_sent text2 (MkTerm false (crlf_state false text1) s1)) as (s2 & [So2 _] & E2).
  cbn [ioterm_init cr_in cr_out rawio] in *. rewrite (crlf_state_no_cr text1 Hcr1) in *.
  do 4 eexists. split_and!; [exact E1|exact E2|unfold text; rewrite length_app; destruct text1, text2; cbn; lia|].
  cbn [rawio]. intros Hin.
  assert (Ho : fst (fix_input false (tty_in r2)) = text).
  { rewrite Hin, So2, So1, Hr1. cbn [app].
    pose proof (crlf_app false text1 text2) as Ha. rewrite (crlf_state_no_cr text1 Hcr1) in Ha.
    by rewrite <- Ha, fix_input_crlf, fix_input_no_cr. }
  destruct (ioread_full_term (Z.to_nat (Z.of_nat (length text))) (Z.of_nat (length text)) [] (ioterm_init r2)) as (t3 & E3);
    [lia|cbn [ioterm_init cr_in rawio]; rewrite Ho; lia|cbn; lia|].
  exists t3. unfold ioread_full. cbn [raw_read term_io]. rewrite E3. cbn [ioterm_init cr_in rawio].
  rewrite Ho. cbn [length app]. do 2 f_equal. by rewrite Nat2Z.id, Nat.sub_0_r, firstn_all.
Qed.

(** [ioterm_read] with input left returns between one and [len]
    characters, which are the normal form of the raw characters it took from the
    line, after at most two turns of its loop; consecutive reads therefore
    deliver the normal form of the whole input.  At the end of the input the loop
    runs forever. *)
Theorem ioterm_read_correct (fuel : nat) (len : Z) (t : io_term R) :
  (1 <= len -> fst (fix_input (cr_in t) (tty_in (rawio t))) <> [] ->
   exists l r out cr', ioterm_read (2 + fuel) len t = Done (Z.of_nat (length out), out) (MkTerm cr' (cr_out t) r) /\
     1 <= Z.of_nat (length out) <= len /\ tty_in (rawio t) = l ++ tty_in r /\ fix_input (cr_in t) l = (out, cr') /\
     fst (fix_input (cr_in t) (tty_in (rawio t))) = out ++ fst (fix_input cr' (tty_in r))) /\
  (tty_in (rawio t) = [] -> ioterm_read fuel len t = NoFuel).
Proof.
  split; [|apply ioterm_read_eof]. intros Hlen Hf.
  destruct (ioterm_read_some fuel len t Hlen Hf) as (l & r & out & cr' & E & Ho & Hl & Hs & Ef & _).
  exists l, r, out, cr'. split_and!; try done.
  - destruct out; [done|cbn; lia].
  - by rewrite Hs, fix_input_app, Ef.
Qed.

(** When a line of input is available, [ioterm_getsn] with a buffer of
    [n >= 1] bytes returns the line after backspace and delete editing, at most
    [n - 1] characters so that the terminator fits; it takes the characters up to
    and including the newline from the input, and echoes each character, the
    erase sequence for a deletion, a bell when there is nothing to delete or no
    room, and a newline at the end. *)
Theorem ioterm_getsn_correct (fuel : nat) (n : Z) (t : io_term R) (body after : list Z) :
  1 <= n -> (length body + 2 <= fuel)%nat ->
  Forall (fun c => 0 <= c < 256) (tty_in (rawio t)) ->
  fst (fix_input (cr_in t) (tty_in (rawio t))) = body ++ NL :: after -> NL ∉ body ->
  exists l r cr', ioterm_getsn fuel [] n t = Done (Some (rev (edit_line n [] body))) (MkTerm cr' (cr_out t) r) /\
    Z.of_nat (length (rev (edit_line n [] body))) < n /\
    tty_in (rawio t) = l ++ tty_in r /\ fix_input (cr_in t) l = (body ++ [NL], cr') /\
    tty_out r = tty_out (rawio t) ++ echo_all n [] body ++ [CR; NL].
Proof.
  intros Hn Hf Hb Hin Hnl. pose proof (fix_input_chars (cr_in t) _ Hb) as Hc. rewrite Hin in Hc.
  destruct (ioterm_getsn_line fuel body after [] n t) as (l & r & cr' & E & Hs & Ef & Ho); [done|cbn; lia|done| |].
  { apply Forall_lookup_2. intros i c Hi. destruct (Forall_lookup_1 _ _ i c Hc) as [H1 H2]; [by apply lookup_app_l_Some|].
    split; [done|split; [done|]]. intros ->. by apply Hnl, (list_elem_of_lookup_2 _ i). }
  exists l, r, cr'. cbn [length] in E. rewrite Z.sub_0_r in E. split_and!; try done.
  rewrite length_rev. apply edit_line_fits. cbn. lia.
Qed.
End Tty.

(** ** Memory objects are block devices *)

Definition lit_ok (l : io_lit) : Prop := lit_size l = Z.of_nat (length (lit_buf l)).
Definition lit_data (l : io_lit) (i : Z) : Z := default 0 (lit_buf l !! Z.to_nat i).

Lemma take_drop_lit (l : list Z) p n :
  (p + n <= length l)%nat ->
  take n (drop p l) = bytes_at (fun i => default 0 (l !! Z.to_nat i)) (Z.of_nat p) n.
Proof.
  intros H. apply list_eq. intros k. destruct (decide (k < n)%nat) as [Hk|Hk].
  - rewrite lookup_take_lt, lookup_drop, bytes_at_lookup by done.
    replace (Z.to_nat (Z.of_nat p + Z.of_nat k)) with (p + k)%nat by lia.
    destruct (lookup_lt_is_Some_2 l (p + k)) as [x ->]; [lia|done].
  - rewrite lookup_take_ge by lia. by rewrite lookup_ge_None_2 by (rewrite length_bytes_at; lia).
Qed.

Lemma lookup_splice (b c : list Z) p i :
  (p + length c <= length b)%nat ->
  (take p b ++ c ++ drop (p + length c) b) !! i =
  if decide (p <= i < p + length c)%nat then c !! (i - p)%nat else b !! i.
Proof.
  intros H. destruct (decide (i < p)%nat) as [H1|H1].
  - rewrite lookup_app_l by (rewrite length_take; lia). rewrite lookup_take_lt by lia. by rewrite decide_False by lia.
  - rewrite lookup_app_r, length_take, Nat.min_l by (rewrite ?length_take; lia).
    destruct (decide (p <= i < p + length c)%nat).
    + by rewrite lookup_app_l by lia.
    + rewrite lookup_app_r, lookup_drop by lia. f_equal. lia.
Qed.

#[export] Program Instance lit_block_spec : BlockIoSpec io_lit :=
  {| bio_ok := lit_ok; bio_size := lit_size; bio_pos := lit_pos; bio_data := lit_data |}.
Next Obligation.
  intros l p Hok [Hp0 Hp]. exists (MkLit (lit_buf l) (lit_size l) p). cbn. unfold bind, lit_ioctl. cbn.
  by rewrite (proj2 (Z.ltb_ge _ _)) by lia.
Qed.
Next Obligation.
  intros l p Hok Hp. exists (-1). cbn. unfold bind, lit_ioctl. cbn. by rewrite (proj2 (Z.ltb_lt _ _)) by lia.
Qed.
Next Obligation.
  intros l n Hok Hn Hp Hpn. exists l. split; [|done]. cbn. unfold lit_read. unfold lit_ok in Hok.
  destruct (Z.leb_spec (lit_size l) (lit_pos l)).
  { by replace n with 0 by lia. }
  replace (if n <? lit_size l - lit_pos l then n else lit_size l - lit_pos l) with n by (destruct (Z.ltb_spec n (lit_size l - lit_pos l)); lia).
  rewrite take_drop_lit by lia. by rewrite Z2Nat.id.
Qed.
Next Obligation.
  intros l b Hok _ Hp Hpn. cbn. unfold lit_write. unfold lit_ok in *.
  destruct (Z.leb_spec (lit_size l) (lit_pos l)).
  { exists l. assert (length b = 0)%nat by lia. destruct b; [|done]. split_and!; [done..|].
    intros i Hi. by rewrite store_at_out by (cbn; lia). }
  assert (Ew : (if Z.of_nat (length b) <? lit_size l - lit_pos l then Z.of_nat (length b) else lit_size l - lit_pos l) = Z.of_nat (length b)).
  { destruct (Z.ltb_spec (Z.of_nat (length b)) (lit_size l - lit_pos l)); lia. }
  rewrite Ew, Nat2Z.id, firstn_all. eexists. split; [done|]. cbn [lit_size lit_buf]. split_and!; [|done|].
  - rewrite !length_app, length_take, length_drop. lia.
  - intros i Hi. unfold lit_data. cbn [lit_buf]. rewrite lookup_splice by lia.
    destruct (decide (lit_pos l <= i < lit_pos l + Z.of_nat (length b))).
    + rewrite store_at_in by done. rewrite decide_True by lia. do 2 f_equal. lia.
    + rewrite store_at_out by lia. by rewrite decide_False by lia.
Qed.

(** ** A concrete line *)

(** A line that takes at most three characters per write and gives at most two
    per read. *)
Record line := MkLine { line_in : list Z; line_out : list Z }.

Definition line_write (buf : list Z) : M line Z := fun s =>
  let n := Nat.min 3 (length buf) in
  Done (Z.of_nat n) (MkLine (line_in s) (line_out s ++ take n buf)).
Definition line_read (len : Z) : M line (Z * list Z) := fun s =>
  let l := take (Nat.min 2 (Z.to_nat len)) (line_in s) in
  Done (Z.of_nat (length l), l) (MkLine (drop (length l) (line_in s)) (line_out s)).

#[export] Instance line_raw : RawIo line := { raw_write := Some line_write; raw_read := Some line_read }.

#[export] Program Instance line_tty : RawTty line :=
  {| tty_in := line_in; tty_out := line_out; tty_wr := line_write; tty_rd := line_read |}.
Next Obligation. done. Qed.
Next Obligation. done. Qed.
Next Obligation.
  intros r buf Hb. exists (Nat.min 3 (length buf)). eexists. split; [done|].
  assert (length buf <> 0)%nat by (by destruct buf). split; [lia|done].
Qed.
Next Obligation.
  intros [i o] len Hlen Hin. cbn in *. do 2 eexists. split; [done|].
  destruct (Z.to_nat len) as [|k] eqn:Ek; [lia|]. destruct i as [|c i]; [done|]. cbn [line_in line_out]. split_and!; [done| | |done].
  - rewrite length_take. lia.
  - rewrite length_take. set (m := Nat.min 2 (S k)).
    rewrite <- (take_drop m (c :: i)) at 1. f_equal.
    destruct (decide (m <= length (c :: i))%nat); [by rewrite Nat.min_l by lia|].
    rewrite !drop_ge by lia. done.
Qed.
Next Obligation. intros [i o] len Hi. cbn in *. subst i. unfold line_read. cbn. by rewrite take_nil. Qed.

(** The text "a\nb" and a line with a typing error: "ac<BS>b\r\n". *)
Lemma ioterm_roundtrip_witness :
  exists n1 n2 t1 t2, ioterm_write [97; 10] (ioterm_init (MkLine [] [])) = Done n1 t1 /\ ioterm_write [98; 10] t1 = Done n2 t2 /\
    n1 + n2 = 4 /\
    (line_in (MkLine [97; 13; 10; 98; 13; 10] []) = line_out (rawio t2) ->
     exists t3, ioread_full (RI := term_io) 4 (ioterm_init (MkLine [97; 13; 10; 98; 13; 10] [])) = Done (4, [97; 10; 98; 10]) t3).
Proof.
  refine (ioterm_roundtrip [97; 10] [98; 10] (MkLine [] []) (MkLine [97; 13; 10; 98; 13; 10] []) _ eq_refl).
  by apply (bool_decide_unpack _).
Defined.

Lemma ioterm_read_correct_witness :
  exists l r out cr', ioterm_read 2 1 (MkTerm true false (MkLine [10; 97] [])) = Done (Z.of_nat (length out), out) (MkTerm cr' false r) /\
     1 <= Z.of_nat (length out) <= 1 /\ [10; 97] = l ++ line_in r /\ fix_input true l = (out, cr') /\
     fst (fix_input true [10; 97]) = out ++ fst (fix_input cr' (line_in r)).
Proof.
  refine (proj1 (ioterm_read_correct 0 1 (MkTerm true false (MkLine [10; 97] []))) _ _); [done|]. by vm_compute.
Defined.

Lemma ioterm_getsn_correct_witness :
  exists l r cr', ioterm_getsn 6 [] 16 (ioterm_init (MkLine [97; 99; 8; 98; 13; 10] [])) = Done (Some [97; 98]) (MkTerm cr' false r) /\
    2 < 16 /\
    [97; 99; 8; 98; 13; 10] = l ++ line_in r /\ fix_input false l = ([97; 99; 8; 98; 10], cr') /\
    line_out r = [97; 99; 8; 32; 8; 98; 13; 10].
Proof.
  refine (ioterm_getsn_correct 6 16 (ioterm_init (MkLine [97; 99; 8; 98; 13; 10] [])) [97; 99; 8; 98] [] _ _ _ _ _).
  - lia.
  - cbn. lia.
  - by apply (bool_decide_unpack _).
  - by vm_compute.
  - by apply (bool_decide_unpack _).
Defined.
