(* ===== verification/Elf.v ===== *)
(** * The loader of executables (elf.c, elf.h)

    [elf_load] reads an executable from an I/O object and places its segments in
    the user range of the active address space.  The object and the memory manager
    are two parts of the caller's state ([parts]); the object is reached through
    its read and seek operations ([seq_ops]). *)

From stdpp Require Import base gmap list strings numbers.
From Stdlib Require Import Lia ZArith.
From S2P Require Import Prelude CMem PageAlloc PageTable VmSpace UserMem BlockIo Kfs Io.
Local Open Scope Z_scope.
Local Open Scope kern_scope.

Definition EI_NIDENT : nat := 16.
Definition PT_LOAD : Z := 1.
Definition PF_X : Z := 1.
Definition PF_W : Z := 2.
Definition PF_R : Z := 4.
Definition RV64_MACHINE : Z := 243.
Definition ELFDATA2LSB : Z := 1.
Definition SIZEOF_EHDR : Z := 64.
Definition SIZEOF_PHDR : Z := 56.

(** ** The structures *)

Record Elf64_Ehdr := MkEhdr {
  e_ident : list Z;
  e_type : Z;
  e_machine : Z;
  e_version : Z;
  e_entry : Z;
  e_phoff : Z;
  e_shoff : Z;
  e_flags : Z;
  e_ehsize : Z;
  e_phentsize : Z;
  e_phnum : Z;
  e_shentsize : Z;
  e_shnum : Z;
  e_shstrndx : Z
}.

Record Elf64_Phdr := MkPhdr {
  p_type : Z;
  p_flags : Z;
  p_offset : Z;
  p_vaddr : Z;
  p_paddr : Z;
  p_filesz : Z;
  p_memsz : Z;
  p_align : Z
}.

(** The [n]-byte member at offset [off] of a structure with the bytes [l]. *)
Definition member (off n : nat) (l : list Z) : Z := le_value (take n (drop off l)).

Definition ehdr_of (l : list Z) : Elf64_Ehdr :=
  MkEhdr (take EI_NIDENT l) (member 16 2 l) (member 18 2 l) (member 20 4 l) (member 24 8 l) (member 32 8 l)
    (member 40 8 l) (member 48 4 l) (member 52 2 l) (member 54 2 l) (member 56 2 l) (member 58 2 l)
    (member 60 2 l) (member 62 2 l).
Definition phdr_of (l : list Z) : Elf64_Phdr :=
  MkPhdr (member 0 4 l) (member 4 4 l) (member 8 8 l) (member 16 8 l) (member 24 8 l) (member 32 8 l)
    (member 40 8 l) (member 48 8 l).

Definition ident (h : Elf64_Ehdr) (i : nat) : Z := default 0 (e_ident h !! i).
Definition ELF_MAGIC_OK (h : Elf64_Ehdr) : bool :=
  (ident h 0 =? 0x7f) && (ident h 1 =? 69) && (ident h 2 =? 76) && (ident h 3 =? 70).

Definition round_up_size (n blksz : Z) : Z := w64 (n + blksz - 1) / blksz * blksz.

(** The page table flags of a segment. *)
Definition segment_flags (flags : Z) : Z :=
  Z.lor (Z.lor (Z.lor
    (if Z.land flags PF_R =? 0 then 0 else PTE_R)
    (if Z.land flags PF_W =? 0 then 0 else PTE_W))
    (if Z.land flags PF_X =? 0 then 0 else PTE_X))
    PTE_U.

(** ** The object and the memory as parts of a state *)

Record seq_ops (F : Type) := MkSeq {
  sq_read : Z -> M F (Z * list Z);
  sq_seek : Z -> M F Z
}.
Arguments MkSeq {F} _ _.
Arguments sq_read {F} _.
Arguments sq_seek {F} _.

(** A file of the file system. *)
Definition kfs_ops {B} {BI : BlockIo B} (i : nat) : seq_ops (fstate B) :=
  MkSeq (fs_read (Some i) true) (fun p => r <- fs_ioctl i IOCTL_SETPOS (Some p) ;; ret (fst r)).

Record parts (T F : Type) := MkParts {
  mem_of : T -> mstate;
  put_mem : mstate -> T -> T;
  file_of : T -> F;
  put_file : F -> T -> T
}.
Arguments MkParts {T F} _ _ _ _.
Arguments mem_of {T F} _.
Arguments put_mem {T F} _.
Arguments file_of {T F} _.
Arguments put_file {T F} _.

Section Elf.
Context {T F : Type} (io : seq_ops F) (P : parts T F).

Definition on_mem {A} (c : M mstate A) : M T A := lift (mem_of P) (put_mem P) c.
Definition on_file {A} (c : M F A) : M T A := lift (file_of P) (put_file P) c.

(** [ioread_full]: every turn of its loop gets a byte, so [n] turns are enough. *)
Definition read_full (n : Z) : M F (Z * list Z) := ioread_full_loop (sq_read io) (Z.to_nat n) n [].

(** The body of the loop for a segment of type [PT_LOAD]; 0 when the loop goes
    on.  The bytes go to [p_paddr] as a virtual address. *)
Definition load_segment (phdr : Elf64_Phdr) : M T Z :=
  if (p_vaddr phdr <? USER_START_VMA) || (USER_END_VMA <? w64 (p_vaddr phdr + p_memsz phdr)) then ret (-6) else
  let aligned_vaddr := round_down_addr (p_vaddr phdr) PAGE_SIZE in
  let aligned_memsz := round_up_size (p_memsz phdr) PAGE_SIZE in
  let rwxug_flags := segment_flags (p_flags phdr) in
  mapped_range <- on_mem (memory_alloc_and_map_range aligned_vaddr aligned_memsz (Z.lor rwxug_flags PTE_W)) ;;
  if mapped_range =? NULL then ret (-10) else
  sk <- on_file (sq_seek io (p_offset phdr)) ;;
  if negb (sk =? 0) then ret (-7) else
  x <- on_file (read_full (p_filesz phdr)) ;;
  on_mem (store_virt (p_paddr phdr) (snd x)) ;;
  if negb (w64 (fst x) =? p_filesz phdr) then ret (-8) else
  (if p_filesz phdr <? p_memsz phdr
   then on_mem (store_virt (w64 (p_vaddr phdr + p_filesz phdr))
                  (replicate (Z.to_nat (p_memsz phdr - p_filesz phdr)) 0))
   else ret tt) ;;
  on_mem (memory_set_range_flags aligned_vaddr aligned_memsz rwxug_flags) ;;
  ret 0.

(** One turn of the loop.  The offset of the header is an [int] product. *)
Definition load_header (h : Elf64_Ehdr) (i : Z) : M T Z :=
  if 2147483648 <=? i * e_phentsize h then undef "overflow of int" else
  sk <- on_file (sq_seek io (w64 (e_phoff h + i * e_phentsize h))) ;;
  if negb (sk =? 0) then ret (-4) else
  x <- on_file (read_full SIZEOF_PHDR) ;;
  if negb (w64 (fst x) =? SIZEOF_PHDR) then ret (-5) else
  let phdr := phdr_of (snd x) in
  if USER_STACK_VMA <? w64 (p_vaddr phdr + p_memsz phdr) then ret (-11) else
  if p_type phdr =? PT_LOAD then load_segment phdr else ret 0.

(** The loop over the program headers, from number [i]. *)
Fixpoint load_headers (n : nat) (i : Z) (h : Elf64_Ehdr) : M T Z :=
  match n with
  | O => ret 0
  | S n' => c <- load_header h i ;; if c =? 0 then load_headers n' (i + 1) h else ret c
  end.

(** The error code, or the entry point. *)
Definition elf_load : M T (Z + Z) :=
  x <- on_file (read_full SIZEOF_EHDR) ;;
  if negb (w64 (fst x) =? SIZEOF_EHDR) then ret (inl (-1)) else
  let h := ehdr_of (snd x) in
  if negb (ELF_MAGIC_OK h) then ret (inl (-2)) else
  if negb (e_type h =? 2) || negb (e_machine h =? RV64_MACHINE) then ret (inl (-3)) else
  if negb (ident h 5 =? ELFDATA2LSB) then ret (inl (-9)) else
  c <- load_headers (Z.to_nat (e_phnum h)) 0 h ;;
  if c =? 0 then ret (inr (e_entry h)) else ret (inl c).
End Elf.
