(* ===== verification/ElfProps.v ===== *)
(** * Theorems on the loader of executables (elf.c)

    Proved for any object that behaves as a sequential file ([seq_laws]), in any
    state that holds the object and the memory side by side ([parts_laws]).  The
    reference definitions [verdict] and [image] say, from the content of the file
    alone, what the loader returns and what the user range holds afterwards. *)

From stdpp Require Import base gmap list strings numbers.
From Stdlib Require Import Lia ZArith List.
From S2P Require Import Prelude CMem PageAlloc PageTable PageInv VmSpace UserRange MemInit VmProps UserMem BlockIo Vioblk Kfs KfsProps Io Elf.
Local Open Scope Z_scope.
Local Open Scope kern_scope.

(** ** What the loader relies on *)

(** The state of a file as its user sees it. *)
Record seq_spec (F : Type) := MkSpec {
  q_ok : F -> Prop;
  q_pos : F -> Z;
  q_size : F -> Z;
  q_data : F -> Z -> Z
}.
Arguments MkSpec {F} _ _ _ _.
Arguments q_ok {F} _.
Arguments q_pos {F} _.
Arguments q_size {F} _.
Arguments q_data {F} _.

Definition same_file {F} (q : seq_spec F) (f f' : F) : Prop :=
  q_ok q f' /\ q_size q f' = q_size q f /\ forall i, 0 <= i -> q_data q f' i = q_data q f i.

(** Reads give the bytes from the position on, up to the end of the file, and
    advance the position; a seek past the end fails. *)
Record seq_laws {F} (io : seq_ops F) (q : seq_spec F) : Prop := {
  sq_bounds : forall f, q_ok q f -> 0 <= q_pos q f <= q_size q f /\ q_size q f < 2^63;
  sq_seek_ok : forall f p, q_ok q f -> 0 <= p <= q_size q f ->
    exists f', sq_seek io p f = Done 0 f' /\ same_file q f f' /\ q_pos q f' = p;
  sq_seek_bad : forall f p, q_ok q f -> q_size q f < p < 2^64 ->
    exists c f', sq_seek io p f = Done c f' /\ c <> 0 /\ same_file q f f';
  sq_read_ok : forall f n, q_ok q f -> 0 <= n -> q_pos q f + n < 2^64 ->
    let k := Z.min n (q_size q f - q_pos q f) in
    exists f', sq_read io n f = Done (k, bytes_at (q_data q f) (q_pos q f) (Z.to_nat k)) f' /\
      same_file q f f' /\ q_pos q f' = q_pos q f + k
}.

Record parts_laws {T F} (P : parts T F) : Prop := {
  pl_mem : forall m t, mem_of P (put_mem P m t) = m;
  pl_file : forall f t, file_of P (put_file P f t) = f;
  pl_mem_file : forall f t, mem_of P (put_file P f t) = mem_of P t;
  pl_file_mem : forall m t, file_of P (put_mem P m t) = file_of P t
}.

(** ** Reference: verdict and image *)

Section Reference.
Context (d : Z -> Z) (size : Z).

Definition the_ehdr : Elf64_Ehdr := ehdr_of (bytes_at d 0 64).
Definition phdr_at (i : Z) : Z := e_phoff the_ehdr + i * e_phentsize the_ehdr.
Definition the_phdr (i : Z) : Elf64_Phdr := phdr_of (bytes_at d (phdr_at i) 56).

(** The first thing wrong with program header [i], 0 when nothing is. *)
Definition phdr_verdict (i : Z) : Z :=
  let p := the_phdr i in
  if size <? phdr_at i then -4 else
  if size <? phdr_at i + 56 then -5 else
  if USER_END_VMA <? p_vaddr p + p_memsz p then -11 else
  if negb (p_type p =? PT_LOAD) then 0 else
  if p_vaddr p <? USER_START_VMA then -6 else
  if size <? p_offset p then -7 else
  if size <? p_offset p + p_filesz p then -8 else 0.

Fixpoint phdrs_verdict (n : nat) (i : Z) : Z :=
  match n with
  | O => 0
  | S n' => if phdr_verdict i =? 0 then phdrs_verdict n' (i + 1) else phdr_verdict i
  end.

Definition verdict : Z :=
  if size <? 64 then -1 else
  if negb (ELF_MAGIC_OK the_ehdr) then -2 else
  if negb (e_type the_ehdr =? 2) || negb (e_machine the_ehdr =? RV64_MACHINE) then -3 else
  if negb (ident the_ehdr 5 =? ELFDATA2LSB) then -9 else
  phdrs_verdict (Z.to_nat (e_phnum the_ehdr)) 0.

(** The pages of a segment. *)
Definition seg_start (p : Elf64_Phdr) : Z := round_down_addr (p_vaddr p) PAGE_SIZE.
Definition seg_size (p : Elf64_Phdr) : Z := round_up_size (p_memsz p) PAGE_SIZE.
Definition seg_end (p : Elf64_Phdr) : Z := seg_start p + seg_size p.

(** [g] with a segment in place: the bytes of the file, zeros around them, and
    the permissions of the segment. *)
Definition seg_view (p : Elf64_Phdr) (g : Z -> option (Z * Z)) (v : Z) : option (Z * Z) :=
  if decide (seg_start p <= v < seg_end p) then
    Some (if decide (p_vaddr p <= v < p_vaddr p + p_filesz p) then w8 (d (p_offset p + (v - p_vaddr p))) else 0,
          leaf_flags (segment_flags (p_flags p)))
  else g v.

(** The headers from [i] on that are loaded. *)
Definition placed (i : Z) : bool :=
  let p := the_phdr i in
  (phdr_at i + 56 <=? size) && (p_type p =? PT_LOAD) &&
  (USER_START_VMA <=? p_vaddr p) && (p_vaddr p + p_memsz p <=? USER_END_VMA).
Fixpoint segments (n : nat) (i : Z) : list Elf64_Phdr :=
  match n with
  | O => []
  | S n' => if placed i then the_phdr i :: segments n' (i + 1) else segments n' (i + 1)
  end.
Definition all_segments : list Elf64_Phdr := segments (Z.to_nat (e_phnum the_ehdr)) 0.

Definition image (segs : list Elf64_Phdr) (g : Z -> option (Z * Z)) : Z -> option (Z * Z) :=
  foldl (fun g p => seg_view p g) g segs.
End Reference.

(** Segments as linkers make them for this loader: the physical address is the
    virtual one, and the rounding of the size covers the offset in the first
    page. *)
Record seg_ok (p : Elf64_Phdr) : Prop := {
  so_paddr : p_paddr p = p_vaddr p;
  so_sizes : 0 <= p_filesz p <= p_memsz p;
  so_cover : p_vaddr p mod PAGE_SIZE + p_memsz p <= seg_size p;
  so_offset : 0 <= p_offset p /\ p_offset p + p_filesz p < 2^64
}.

(** The sums of the loader do not wrap for header [i]. *)
Record no_wrap (d : Z -> Z) (i : Z) : Prop := {
  nw_index : i * e_phentsize (the_ehdr d) < 2147483648;
  nw_at : 0 <= phdr_at d i /\ phdr_at d i + 56 < 2^64;
  nw_seg : 0 <= p_vaddr (the_phdr d i) + p_memsz (the_phdr d i) < 2^64
}.

(** What the program headers describe: every byte of a segment that is in the file
    is in place, the rest of its pages is zero, all with the permissions of the
    segment, and other addresses are as they were. *)
Definition on_pages (p : Elf64_Phdr) (v : Z) : Prop := seg_start p <= v < seg_end p.
Definition in_file (p : Elf64_Phdr) (v : Z) : Prop := p_vaddr p <= v < p_vaddr p + p_filesz p.

Record described (d : Z -> Z) (segs : list Elf64_Phdr) (old new : Z -> option (Z * Z)) : Prop := {
  dsc_file p v : p ∈ segs -> upper v -> in_file p v ->
    new v = Some (w8 (d (p_offset p + (v - p_vaddr p))), leaf_flags (segment_flags (p_flags p)));
  dsc_zero p v : p ∈ segs -> upper v -> on_pages p v -> ~ in_file p v ->
    new v = Some (0, leaf_flags (segment_flags (p_flags p)));
  dsc_rest v : upper v -> (forall p, p ∈ segs -> ~ on_pages p v) -> new v = old v
}.

(** No two segments have a page in common. *)
Fixpoint separate (segs : list Elf64_Phdr) : Prop :=
  match segs with
  | [] => True
  | p :: segs' => Forall (fun q => seg_end p <= seg_start q \/ seg_end q <= seg_start p) segs' /\ separate segs'
  end.

(** Frames a list of segments may need: one and two tables for each page. *)
Definition frames (segs : list Elf64_Phdr) : Z := foldr (fun p n => 3 * (seg_size p / PAGE_SIZE) + n) 0 segs.

(** ** Lemmas *)

Lemma ioread_full_loop_S {R} (read : Z -> M R (Z * list Z)) fuel n acc s :
  ioread_full_loop read (S fuel) n acc s =
  if n <=? Z.of_nat (length acc) then Done (Z.of_nat (length acc), acc) s else
  (x <- read (n - Z.of_nat (length acc)) ;;
   if fst x <? 0 then ret (fst x, acc) else
   if fst x =? 0 then ret (Z.of_nat (length acc), acc) else
   ioread_full_loop read fuel n (acc ++ take (Z.to_nat (fst x)) (snd x))) s.
Proof. cbn [ioread_full_loop]. by destruct (n <=? _). Qed.

Lemma same_file_trans {F} (q : seq_spec F) f1 f2 f3 : same_file q f1 f2 -> same_file q f2 f3 -> same_file q f1 f3.
Proof. intros (_ & A2 & A3) (B1 & B2 & B3). split; [done|]. split; [congruence|]. intros i Hi. rewrite B3; auto. Qed.

Section File.
Context {F : Type} (io : seq_ops F) (q : seq_spec F) (L : seq_laws io q).

(** [ioread_full] returns what is left of the file, up to the bytes asked for. *)
Lemma read_full_ok f n :
  q_ok q f -> 0 <= n -> q_pos q f + n < 2^64 ->
  let k := Z.min n (q_size q f - q_pos q f) in
  exists f', read_full io n f = Done (k, bytes_at (q_data q f) (q_pos q f) (Z.to_nat k)) f' /\ same_file q f f'.
Proof.
  intros Hok Hn Hw k. destruct (sq_bounds _ _ L f Hok) as [Hp _].
  assert (Hfull : forall fuel acc f1, n <= Z.of_nat (length acc) ->
    ioread_full_loop (sq_read io) fuel n acc f1 = Done (Z.of_nat (length acc), acc) f1).
  { intros fuel acc f1 Hl. apply Z.leb_le in Hl. by destruct fuel; cbn [ioread_full_loop]; rewrite Hl. }
  unfold read_full. destruct (decide (n = 0)) as [->|Hn0].
  { exists f. rewrite Hfull by (simpl; lia). replace k with 0 by lia. by split. }
  destruct (sq_read_ok _ _ L f n Hok Hn Hw) as (f1 & E1 & S1 & P1). fold k in E1, P1.
  destruct (Z.to_nat n) as [|fuel] eqn:En; [lia|].
  rewrite ioread_full_loop_S. change (Z.of_nat (length [])) with 0. rewrite (proj2 (Z.leb_gt n 0)), Z.sub_0_r by lia. mstep E1.
  cbn [fst snd app]. rewrite (proj2 (Z.ltb_ge k 0)) by lia.
  destruct (Z.eqb_spec k 0) as [Ek|Ek]; [exists f1; rewrite Ek; by split|].
  rewrite take_ge by (rewrite length_bytes_at; lia).
  assert (Hl : Z.of_nat (length (bytes_at (q_data q f) (q_pos q f) (Z.to_nat k))) = k) by (rewrite length_bytes_at; lia).
  destruct (decide (k = n)) as [Ekn|Ekn]; [exists f1; rewrite Hfull, Hl by lia; by split|].
  destruct S1 as (S1a & S1b & S1c). destruct fuel as [|fuel]; [lia|].
  destruct (sq_read_ok _ _ L f1 (n - k) S1a) as (f2 & E2 & S2 & _); [lia..|].
  replace (Z.min (n - k) (q_size q f1 - q_pos q f1)) with 0 in E2 by lia.
  exists f2. rewrite ioread_full_loop_S, Hl, (proj2 (Z.leb_gt n k)) by lia. mstep E2.
  split; [done|]. eapply same_file_trans; [|exact S2]. done.
Qed.

(** Seeking and then reading. *)
Lemma seek_read f p n :
  q_ok q f -> 0 <= p <= q_size q f -> 0 <= n -> p + n < 2^64 ->
  let k := Z.min n (q_size q f - p) in
  exists f1 f2, sq_seek io p f = Done 0 f1 /\ read_full io n f1 = Done (k, bytes_at (q_data q f) p (Z.to_nat k)) f2 /\
    same_file q f f1 /\ same_file q f f2.
Proof.
  intros Hok Hp Hn Hw k. destruct (sq_seek_ok _ _ L f p Hok Hp) as (f1 & E1 & S1 & P1).
  destruct S1 as (A1 & A2 & A3).
  destruct (read_full_ok f1 n A1 Hn) as (f2 & E2 & S2); [lia|].
  exists f1, f2. split; [done|]. rewrite P1, A2 in E2. fold k in E2. split; [|split; [done|]].
  - rewrite E2. do 2 f_equal. apply bytes_at_ext. intros j Hj. apply A3. lia.
  - eapply same_file_trans; [|exact S2]. done.
Qed.
End File.

Lemma segment_flags_range f : 0 <= segment_flags f < 2^8.
Proof. unfold segment_flags. repeat destruct (_ =? 0); by vm_compute. Qed.

(** Loading with write permission and then taking it away. *)
Lemma segment_flags_final f :
  reflag (segment_flags f) (leaf_flags (Z.lor (segment_flags f) PTE_W)) = leaf_flags (segment_flags f).
Proof. unfold segment_flags. by repeat destruct (_ =? 0). Qed.

Lemma segment_flags_writable f : Z.land (leaf_flags (Z.lor (segment_flags f) PTE_W)) PTE_W <> 0.
Proof. unfold segment_flags. by repeat destruct (_ =? 0). Qed.

(** The pages of a segment in range lie in the user range and hold the segment. *)
Lemma seg_bounds p :
  seg_ok p -> USER_START_VMA <= p_vaddr p -> p_vaddr p + p_memsz p <= USER_END_VMA ->
  seg_start p mod PAGE_SIZE = 0 /\ seg_size p mod PAGE_SIZE = 0 /\ USER_START_VMA <= seg_start p /\
  0 <= seg_size p /\ seg_end p <= USER_END_VMA /\ seg_start p <= p_vaddr p /\ p_vaddr p + p_memsz p <= seg_end p.
Proof.
  intros [_ Hsz Hc _] Hlo Hhi. unfold seg_end, seg_start, seg_size, round_down_addr, round_up_size in *.
  unfold PAGE_SIZE, USER_START_VMA, USER_END_VMA in *. rewrite w64_small in * by lia. zdiv.
Qed.

(** ** The image is what the headers describe *)

Lemma image_rest d segs g v : (forall p, p ∈ segs -> ~ on_pages p v) -> image d segs g v = g v.
Proof.
  unfold image. revert g. induction segs as [|p segs IH]; intros g H; [done|]. cbn [foldl]. rewrite IH by set_solver.
  unfold seg_view. rewrite decide_False; [done|]. apply (H p). set_solver.
Qed.

Lemma image_seg d segs g p v :
  separate segs -> p ∈ segs -> on_pages p v -> image d segs g v = seg_view d p g v.
Proof.
  revert g. induction segs as [|q0 segs IH]; intros g Hs Hp Hv; [set_solver|]. destruct Hs as [Hq Hs].
  rewrite list.Forall_forall in Hq. change (image d (q0 :: segs) g v) with (image d segs (seg_view d q0 g) v).
  apply elem_of_cons in Hp as [->|Hp].
  - rewrite image_rest; [done|]. intros p Hp Hpv. specialize (Hq p Hp). unfold on_pages in *. lia.
  - rewrite IH by done. unfold seg_view. by rewrite !(decide_True (P := seg_start p <= v < seg_end p)) by exact Hv.
Qed.

Lemma in_file_pages p v : seg_ok p -> 0 <= p_vaddr p -> in_file p v -> on_pages p v.
Proof.
  intros [H1 H2 H3 H4] H0 Hv. unfold on_pages, in_file, seg_end, seg_start, round_down_addr in *.
  pose proof (Z.div_mod (p_vaddr p) PAGE_SIZE ltac:(unfold PAGE_SIZE; lia)).
  pose proof (Z.mod_pos_bound (p_vaddr p) PAGE_SIZE ltac:(unfold PAGE_SIZE; lia)). lia.
Qed.

Lemma placed_nonneg d size p : p ∈ all_segments d size -> 0 <= p_vaddr p.
Proof.
  assert (H : forall n i, p ∈ segments d size n i -> 0 <= p_vaddr p); [|apply H].
  induction n as [|n IH]; intros i; cbn [segments]; [set_solver|].
  destruct (placed d size i) eqn:E; [|apply IH]. intros [->|H]%elem_of_cons; [|by apply (IH (i + 1))].
  unfold placed in E. rewrite !andb_true_iff in E. unfold USER_START_VMA in E. lia.
Qed.

Lemma image_described d size g :
  Forall seg_ok (all_segments d size) -> separate (all_segments d size) ->
  described d (all_segments d size) g (image d (all_segments d size) g).
Proof.
  intros Hok Hs. rewrite list.Forall_forall in Hok. constructor.
  - intros p v Hp Hu Hv. pose proof (in_file_pages p v (Hok p Hp) (placed_nonneg d size p Hp) Hv) as Hpg.
    rewrite (image_seg d _ g p v Hs Hp Hpg). unfold seg_view. by rewrite (decide_True (P := seg_start p <= v < seg_end p)), decide_True.
  - intros p v Hp Hu Hpg Hv. rewrite (image_seg d _ g p v Hs Hp Hpg). unfold seg_view.
    by rewrite (decide_True (P := seg_start p <= v < seg_end p)), decide_False.
  - intros v _ H. by apply image_rest.
Qed.

Lemma described_same d segs old new new' :
  described d segs old new -> (forall v, upper v -> new' v = new v) -> described d segs old new'.
Proof. intros [H1 H2 H3] E. constructor; intros; rewrite E by done; eauto. Qed.

(** ** One segment *)

Section Load.
Context {T F : Type} (io : seq_ops F) (q : seq_spec F) (L : seq_laws io q) (P : parts T F) (PL : parts_laws P).

Lemma on_mem_step {A} (c : M mstate A) t a m :
  c (mem_of P t) = Done a m ->
  exists t', on_mem P c t = Done a t' /\ mem_of P t' = m /\ file_of P t' = file_of P t.
Proof.
  intros E. exists (put_mem P m t). unfold on_mem, lift. rewrite E. by rewrite (pl_mem _ PL), (pl_file_mem _ PL).
Qed.

Lemma on_file_step {A} (c : M F A) t a f :
  c (file_of P t) = Done a f ->
  exists t', on_file P c t = Done a t' /\ mem_of P t' = mem_of P t /\ file_of P t' = f.
Proof.
  intros E. exists (put_file P f t). unfold on_file, lift. rewrite E. by rewrite (pl_file _ PL), (pl_mem_file _ PL).
Qed.

(** Bytes at the start of a freshly mapped segment. *)
Lemma store_segment s own l last r p g data :
  active s own l last r -> seg_ok p -> USER_START_VMA <= p_vaddr p -> p_vaddr p + p_memsz p <= USER_END_VMA ->
  (forall v, upper v -> uview s r v =
     if decide (seg_start p <= v < seg_end p)
     then Some (0, leaf_flags (Z.lor (segment_flags (p_flags p)) PTE_W)) else g v) ->
  Z.of_nat (length data) <= p_filesz p ->
  exists s', store_virt (p_paddr p) data s = Done tt s' /\ active s' own l last r /\
    shows s own r s' own (view_write (uview s r) (p_vaddr p) data).
Proof.
  intros HA Hp Hlo Hhi Hg Hl. destruct (seg_bounds p Hp Hlo Hhi) as (B1 & B2 & B3 & B4 & B5 & B6 & B7).
  pose proof (so_sizes _ Hp). rewrite (so_paddr _ Hp). apply view_store; [done|lia|lia|].
  intros v Hv. rewrite Hg by (apply user_upper; unfold user_vma; lia). rewrite decide_True by lia.
  eexists _, _. split; [done|]. apply segment_flags_writable.
Qed.

(** What the whole body leaves, once all bytes are read. *)
Lemma finish_segment s own l last r p g data :
  active s own l last r -> seg_ok p -> USER_START_VMA <= p_vaddr p -> p_vaddr p + p_memsz p <= USER_END_VMA ->
  (forall v, upper v -> uview s r v =
     view_write (fun v => if decide (seg_start p <= v < seg_end p)
       then Some (0, leaf_flags (Z.lor (segment_flags (p_flags p)) PTE_W)) else g v) (p_vaddr p) data v) ->
  Z.of_nat (length data) = p_filesz p ->
  exists s1 s2,
    (if p_filesz p <? p_memsz p
     then store_virt (w64 (p_vaddr p + p_filesz p)) (replicate (Z.to_nat (p_memsz p - p_filesz p)) 0) else ret tt) s
      = Done tt s1 /\
    memory_set_range_flags (seg_start p) (seg_size p) (segment_flags (p_flags p)) s1 = Done tt s2 /\
    active s2 own l last r /\
    shows s own r s2 own (fun v => if decide (seg_start p <= v < seg_end p)
      then Some (if decide (p_vaddr p <= v < p_vaddr p + p_filesz p)
                 then w8 (default 0 (data !! Z.to_nat (v - p_vaddr p))) else 0,
                 leaf_flags (segment_flags (p_flags p))) else g v).
Proof.
  intros HA Hp Hlo Hhi Hg Hl. destruct (seg_bounds p Hp Hlo Hhi) as (B1 & B2 & B3 & B4 & B5 & B6 & B7).
  pose proof (so_sizes _ Hp) as Hsz. set (zeros := replicate (Z.to_nat (p_memsz p - p_filesz p)) 0).
  assert (Hz : Z.of_nat (length zeros) = p_memsz p - p_filesz p) by (unfold zeros; rewrite length_replicate; lia).
  assert (Hup : forall v, seg_start p <= v < seg_end p -> upper v)
    by (intros v Hv; apply user_upper; unfold user_vma; lia).
  destruct (view_store zeros s own l last r (p_vaddr p + p_filesz p) HA) as (s1 & E1 & HA1 & S1); [lia|lia| |].
  { intros v Hv. rewrite Hg by (apply Hup; lia). unfold view_write. rewrite decide_False, decide_True by lia.
    eexists _, _. split; [done|]. apply segment_flags_writable. }
  destruct (view_flags_range s1 own l last r (seg_start p) (seg_size p) (segment_flags (p_flags p)) HA1)
    as (s2 & E2 & HA2 & S2); auto using segment_flags_range.
  { intros v Hv. rewrite (sh_view _ _ _ _ _ _ S1) by (by apply Hup). unfold view_write.
    rewrite Hg by (by apply Hup). unfold view_write. fold (seg_end p) in Hv.
    by repeat case_decide. }
  exists s1, s2. split; [|split; [done|split; [done|]]].
  - unfold USER_START_VMA, USER_END_VMA in *. rewrite w64_small by lia. destruct (Z.ltb_spec (p_filesz p) (p_memsz p)); [done|].
    rewrite <- E1. unfold zeros. by replace (Z.to_nat (p_memsz p - p_filesz p)) with 0%nat by lia.
  - eapply shows_ext; [exact (shows_trans _ _ _ _ _ _ _ _ _ S1 S2)|]. intros v Hv. cbn beta.
    rewrite (sh_view _ _ _ _ _ _ S1 v Hv). unfold view_write. rewrite (Hg v Hv). unfold view_write.
    rewrite Hz, Hl. fold (seg_end p).
    replace (default 0 (zeros !! Z.to_nat (v - (p_vaddr p + p_filesz p)))) with 0.
    2:{ unfold zeros. destruct (_ !! _) as [x|] eqn:Ex; [|done]. by apply lookup_replicate_1 in Ex as [-> _]. }
    repeat case_decide; cbn [fmap option_fmap option_map fst snd]; rewrite ?segment_flags_final; done || lia.
Qed.

(** The same in the caller's state. *)
Lemma finish_segment_run t own l last r p g data :
  active (mem_of P t) own l last r -> seg_ok p ->
  USER_START_VMA <= p_vaddr p -> p_vaddr p + p_memsz p <= USER_END_VMA ->
  (forall v, upper v -> uview (mem_of P t) r v =
     view_write (fun v => if decide (seg_start p <= v < seg_end p)
       then Some (0, leaf_flags (Z.lor (segment_flags (p_flags p)) PTE_W)) else g v) (p_vaddr p) data v) ->
  Z.of_nat (length data) = p_filesz p ->
  exists t',
    ((if p_filesz p <? p_memsz p
      then on_mem P (store_virt (w64 (p_vaddr p + p_filesz p)) (replicate (Z.to_nat (p_memsz p - p_filesz p)) 0))
      else ret tt) ;;
     on_mem P (memory_set_range_flags (seg_start p) (seg_size p) (segment_flags (p_flags p))) ;; ret 0) t = Done 0 t' /\
    file_of P t' = file_of P t /\ active (mem_of P t') own l last r /\
    shows (mem_of P t) own r (mem_of P t') own (fun v => if decide (seg_start p <= v < seg_end p)
      then Some (if decide (p_vaddr p <= v < p_vaddr p + p_filesz p)
                 then w8 (default 0 (data !! Z.to_nat (v - p_vaddr p))) else 0,
                 leaf_flags (segment_flags (p_flags p))) else g v).
Proof.
  intros HA Hp Hlo Hhi Hg Hl.
  destruct (finish_segment (mem_of P t) own l last r p g data HA Hp Hlo Hhi Hg Hl) as (s1 & s2 & E1 & E2 & HA2 & S2).
  assert (exists t1, (if p_filesz p <? p_memsz p
      then on_mem P (store_virt (w64 (p_vaddr p + p_filesz p)) (replicate (Z.to_nat (p_memsz p - p_filesz p)) 0))
      else ret tt) t = Done tt t1 /\ mem_of P t1 = s1 /\ file_of P t1 = file_of P t) as (t1 & T1 & M1 & F1).
  { destruct (p_filesz p <? p_memsz p); [by apply on_mem_step|]. exists t. injection E1 as <-. done. }
  rewrite <- M1 in E2. destruct (on_mem_step _ t1 _ _ E2) as (t2 & T2 & M2 & F2).
  exists t2. mstep T1. mstep T2. rewrite M2, F2, F1. done.
Qed.

(** A state in which the file and the space are as the loader needs them. *)
Record ready (t : T) (f0 : F) (own : gmap Z role) (l : list Z) (last r : Z) : Prop := {
  rd_file : same_file q f0 (file_of P t);
  rd_active : active (mem_of P t) own l last r
}.

(** The outcome of a step: a code, and for code 0 the view [g] and the frames
    used. *)
Definition gives (c : M T Z) (t : T) (f0 : F) (own : gmap Z role) (l : list Z) (last r : Z)
    (code used : Z) (g : Z -> option (Z * Z)) : Prop :=
  exists t', c t = Done code t' /\ same_file q f0 (file_of P t') /\
    (code = 0 -> exists own' l', ready t' f0 own' l' last r /\
       Z.of_nat (length l) <= Z.of_nat (length l') + used /\
       shows (mem_of P t) own r (mem_of P t') own' g).

Lemma load_segment_run t f0 own l last r p :
  ready t f0 own l last r -> seg_ok p ->
  USER_START_VMA <= p_vaddr p -> p_vaddr p + p_memsz p <= USER_END_VMA ->
  3 * (seg_size p / PAGE_SIZE) <= Z.of_nat (length l) ->
  gives (load_segment io P p) t f0 own l last r
    (if q_size q f0 <? p_offset p then -7 else if q_size q f0 <? p_offset p + p_filesz p then -8 else 0)
    (3 * (seg_size p / PAGE_SIZE)) (seg_view (q_data q f0) p (uview (mem_of P t) r)).
Proof.
  intros [Hf HA] Hp Hlo Hhi Hfr. destruct (seg_bounds p Hp Hlo Hhi) as (B1 & B2 & B3 & B4 & B5 & B6 & B7).
  pose proof (so_sizes _ Hp) as Hsz. destruct (so_offset _ Hp) as [Ho1 Ho2].
  set (s := mem_of P t) in *. set (g := uview s r).
  destruct (view_map_range s own l last r (seg_start p) (seg_size p) (Z.lor (segment_flags (p_flags p)) PTE_W) HA)
    as (s1 & own1 & l1 & E1 & HA1 & Hl1 & S1); auto.
  destruct (on_mem_step _ t _ _ E1) as (t1 & T1 & M1 & F1).
  unfold gives. unfold load_segment. cbv zeta.
  assert (Hw : w64 (p_vaddr p + p_memsz p) = p_vaddr p + p_memsz p).
  { apply w64_small. unfold USER_START_VMA, USER_END_VMA in *. lia. }
  rewrite Hw, (proj2 (Z.ltb_ge (p_vaddr p) _)), (proj2 (Z.ltb_ge USER_END_VMA _)) by lia. cbn [orb].
  fold (seg_start p) (seg_size p). mstep T1.
  destruct (Z.eqb_spec (seg_start p) NULL) as [En|_]; [unfold NULL, USER_START_VMA in *; lia|].
  destruct Hf as (Hf1 & Hf2 & Hf3).
  destruct (Z.ltb_spec (q_size q f0) (p_offset p)) as [Hbad|Hgood].
  { destruct (sq_seek_bad _ _ L (file_of P t) (p_offset p) Hf1) as (c & f1 & E2 & Hc & S2); [lia|].
    rewrite <- F1 in E2. destruct (on_file_step _ t1 _ _ E2) as (t2 & T2 & M2 & F2).
    exists t2. mstep T2. rewrite (proj2 (Z.eqb_neq c 0) Hc). cbn [negb]. split; [done|]. split; [|done].
    rewrite F2. by eapply same_file_trans; [|exact S2]. }
  destruct (seek_read io q L (file_of P t) (p_offset p) (p_filesz p) Hf1) as (f1 & f2 & E2 & E3 & S2 & S3); [lia..|].
  rewrite <- F1 in E2. destruct (on_file_step _ t1 _ _ E2) as (t2 & T2 & M2 & F2).
  rewrite <- F2 in E3. destruct (on_file_step _ t2 _ _ E3) as (t3 & T3 & M3 & F3).
  mstep T2. cbn [Z.eqb negb]. mstep T3. cbn [fst snd]. rewrite Hf2.
  set (k := Z.min (p_filesz p) (q_size q f0 - p_offset p)). set (data := bytes_at _ _ _).
  assert (Hd : Z.of_nat (length data) = k) by (unfold data; rewrite length_bytes_at; lia).
  destruct (store_segment s1 own1 l1 last r p g data HA1 Hp Hlo Hhi) as (s2 & E4 & HA2 & S4);
    [intros v Hv; by rewrite (sh_view _ _ _ _ _ _ S1 v Hv)|lia|].
  assert (M3' : mem_of P t3 = s1) by congruence. rewrite <- M3' in E4.
  destruct (on_mem_step _ t3 _ _ E4) as (t4 & T4 & M4 & F4). mstep T4.
  assert (SF : same_file q f0 (file_of P t4)).
  { rewrite F4, F3. by eapply same_file_trans; [|exact S3]. }
  unfold USER_START_VMA, USER_END_VMA in *. rewrite (w64_small k) by lia.
  destruct (Z.ltb_spec (q_size q f0) (p_offset p + p_filesz p)) as [Hsh|Hfull].
  { exists t4. rewrite (proj2 (Z.eqb_neq k _)) by lia. by split. }
  assert (Hk : k = p_filesz p) by lia. rewrite Hk, Z.eqb_refl. cbn [negb].
  rewrite <- M4 in HA2, S4.
  destruct (finish_segment_run t4 own1 l1 last r p g data HA2 Hp) as (t5 & E5 & F5 & HA5 & S5); [done|done| |lia|].
  { intros v Hv. rewrite (sh_view _ _ _ _ _ _ S4 v Hv). unfold view_write.
    by rewrite (sh_view _ _ _ _ _ _ S1 v Hv). }
  exists t5. split; [exact E5|]. rewrite F5. split; [done|]. intros _. exists own1, l1.
  split; [constructor; by rewrite ?F5|]. split; [done|].
  eapply shows_ext; [exact (shows_trans _ _ _ _ _ _ _ _ _ S1 (shows_trans _ _ _ _ _ _ _ _ _ S4 S5))|].
  intros v Hv. unfold seg_view. repeat case_decide; try done. do 3 f_equal. unfold data.
  rewrite bytes_at_lookup by lia. simpl. rewrite Hf3 by lia. f_equal. lia.
Qed.

(** ** The program headers *)

Lemma phdr_of_file (d d' : Z -> Z) i :
  (forall k, 0 <= k -> d' k = d k) -> 0 <= phdr_at d i -> phdr_of (bytes_at d' (phdr_at d i) 56) = the_phdr d i.
Proof. intros H Hi. unfold the_phdr. f_equal. apply bytes_at_ext. intros k Hk. apply H. lia. Qed.

Lemma gives_ret t f0 own l last r c g :
  ready t f0 own l last r -> (forall v, upper v -> g v = uview (mem_of P t) r v) ->
  gives (ret c) t f0 own l last r c 0 g.
Proof.
  intros HR Hg. exists t. split; [done|]. split; [apply HR|]. intros _. exists own, l.
  split; [done|]. split; [lia|]. eapply shows_ext; [apply shows_refl|]. intros v Hv. by rewrite Hg.
Qed.

(** After a read that changed nothing but the position. *)
Lemma gives_after c t t1 f0 own l last r code used g :
  mem_of P t1 = mem_of P t -> gives c t1 f0 own l last r code used g ->
  forall c' : M T Z, c' t = c t1 -> gives c' t f0 own l last r code used g.
Proof.
  intros Hm (t' & E & S & H) c' Ec. exists t'. split; [by rewrite Ec|]. split; [done|].
  intros Hc. destruct (H Hc) as (own' & l' & H1 & H2 & H3). exists own', l'. by rewrite <- Hm.
Qed.

(** What happens after a header is read. *)
Definition judge (p : Elf64_Phdr) : M T Z :=
  if USER_STACK_VMA <? w64 (p_vaddr p + p_memsz p) then ret (-11) else
  if p_type p =? PT_LOAD then load_segment io P p else ret 0.

Lemma fetch_header t f0 own l last r i :
  ready t f0 own l last r -> no_wrap (q_data q f0) i ->
  let d := q_data q f0 in
  exists t', mem_of P t' = mem_of P t /\ same_file q f0 (file_of P t') /\
    load_header io P (the_ehdr d) i t =
      if q_size q f0 <? phdr_at d i then Done (-4) t' else
      if q_size q f0 <? phdr_at d i + 56 then Done (-5) t' else judge (the_phdr d i) t'.
Proof.
  intros [Hf HA] [Hi [Ha1 Ha2] _] d. fold d in Hi, Ha1, Ha2. pose proof Hf as (Hf1 & Hf2 & Hf3). unfold load_header.
  fold (phdr_at d i). rewrite (proj2 (Z.leb_gt 2147483648 _)) by lia. rewrite (w64_small (phdr_at d i)) by lia.
  destruct (Z.ltb_spec (q_size q f0) (phdr_at d i)) as [H4|H4].
  { destruct (sq_seek_bad _ _ L (file_of P t) (phdr_at d i) Hf1) as (c & f1 & E1 & Hc & S1); [lia|].
    destruct (on_file_step _ t _ _ E1) as (t1 & T1 & M1 & F1). exists t1. mstep T1.
    rewrite (proj2 (Z.eqb_neq c 0) Hc), F1. cbn [negb]. split; [done|]. split; [|done]. by eapply same_file_trans. }
  destruct (seek_read io q L (file_of P t) (phdr_at d i) SIZEOF_PHDR Hf1) as (f1 & f2 & E1 & E2 & S1 & S2);
    [unfold SIZEOF_PHDR; lia..|].
  destruct (on_file_step _ t _ _ E1) as (t1 & T1 & M1 & F1).
  rewrite <- F1 in E2. destruct (on_file_step _ t1 _ _ E2) as (t2 & T2 & M2 & F2).
  exists t2. rewrite F2, M2, M1. split; [done|]. split; [by eapply same_file_trans|].
  mstep T1. cbn [Z.eqb negb]. mstep T2. cbn [fst snd]. rewrite Hf2.
  unfold SIZEOF_PHDR in *. set (k := Z.min 56 _).
  assert (0 <= k <= 56) by lia. rewrite (w64_small k) by lia.
  destruct (Z.ltb_spec (q_size q f0) (phdr_at d i + 56)) as [H5|H5]; [by rewrite (proj2 (Z.eqb_neq k _)) by lia|].
  replace k with 56 by lia. change (negb (56 =? 56)) with false. change (Z.to_nat 56) with 56%nat. cbv iota.
  by rewrite (phdr_of_file d _ i Hf3 Ha1).
Qed.

Definition header_view (f0 : F) (i : Z) (g : Z -> option (Z * Z)) : Z -> option (Z * Z) :=
  if placed (q_data q f0) (q_size q f0) i then seg_view (q_data q f0) (the_phdr (q_data q f0) i) g else g.
Definition header_frames (f0 : F) (i : Z) : Z :=
  if placed (q_data q f0) (q_size q f0) i then 3 * (seg_size (the_phdr (q_data q f0) i) / PAGE_SIZE) else 0.

Lemma load_header_run t f0 own l last r i :
  ready t f0 own l last r -> no_wrap (q_data q f0) i ->
  (placed (q_data q f0) (q_size q f0) i = true -> seg_ok (the_phdr (q_data q f0) i)) ->
  header_frames f0 i <= Z.of_nat (length l) ->
  gives (load_header io P (the_ehdr (q_data q f0)) i) t f0 own l last r
    (phdr_verdict (q_data q f0) (q_size q f0) i) (header_frames f0 i)
    (header_view f0 i (uview (mem_of P t) r)).
Proof.
  intros HR HN Hseg Hfr. destruct (fetch_header t f0 own l last r i HR HN) as (t' & HM & HF & E). cbv zeta in E.
  unfold header_view, header_frames, phdr_verdict, placed in *. cbv zeta in *.
  set (d := q_data q f0) in *. set (size := q_size q f0) in *. set (p := the_phdr d i) in *.
  assert (Herr : forall c u g, c <> 0 -> load_header io P (the_ehdr d) i t = Done c t' ->
    gives (load_header io P (the_ehdr d) i) t f0 own l last r c u g) by (intros c u g Hc Ec; by exists t').
  destruct (Z.ltb_spec size (phdr_at d i)) as [H4|H4]; [by apply Herr|].
  destruct (Z.ltb_spec size (phdr_at d i + 56)) as [H5|H5]; [by apply Herr|].
  destruct (Z.leb_spec (phdr_at d i + 56) size) as [_|?]; [|lia].
  unfold judge in E. rewrite w64_small in E by apply (nw_seg _ _ HN). fold p in E.
  change USER_STACK_VMA with USER_END_VMA in E.
  destruct (Z.ltb_spec USER_END_VMA (p_vaddr p + p_memsz p)) as [H11|H11]; [by apply Herr|].
  destruct (Z.leb_spec (p_vaddr p + p_memsz p) USER_END_VMA) as [_|?]; [|lia].
  assert (HR' : ready t' f0 own l last r) by (constructor; [done|rewrite HM; apply HR]).
  destruct (p_type p =? PT_LOAD); cbn [negb andb] in *.
  - destruct (Z.ltb_spec (p_vaddr p) USER_START_VMA) as [H6|H6].
    { apply Herr; [done|]. rewrite E. unfold load_segment. by rewrite (proj2 (Z.ltb_lt _ _) H6). }
    destruct (Z.leb_spec USER_START_VMA (p_vaddr p)) as [_|?]; [|lia]. cbn [andb] in *.
    apply (gives_after (load_segment io P p) t t'); [done| |done]. rewrite <- HM.
    apply load_segment_run; auto.
  - apply (gives_after (ret 0) t t'); [done| |done]. rewrite <- HM. by apply gives_ret.
Qed.

Lemma seg_size_nonneg p : 0 <= seg_size p / PAGE_SIZE.
Proof.
  apply Z.div_pos; [|done]. unfold seg_size, round_up_size. apply Z.mul_nonneg_nonneg; [|done].
  apply Z.div_pos; [apply w64_range|done].
Qed.

Lemma frames_nonneg segs : 0 <= frames segs.
Proof. induction segs as [|p segs IH]; cbn; [done|]. pose proof (seg_size_nonneg p). unfold frames in *. lia. Qed.

(** Views that agree on the upper half give images that do. *)
Lemma image_ext d segs g g' :
  (forall v, upper v -> g v = g' v) -> forall v, upper v -> image d segs g v = image d segs g' v.
Proof.
  unfold image. revert g g'. induction segs as [|p segs IH]; intros g g' H v Hv; [by apply H|].
  cbn. apply IH; [|done]. intros w Hw. unfold seg_view. case_decide; [done|]. by apply H.
Qed.

(** ** Files with the same bytes *)

Section SameBytes.
Context (d d' : Z -> Z) (size : Z).
Hypothesis Hd : forall k, 0 <= k -> d k = d' k.
Hypothesis Hr : forall k, 0 <= d k < 256.

Lemma le_value_nonneg l : Forall (fun c => 0 <= c < 256) l -> 0 <= le_value l.
Proof. unfold le_value. induction 1 as [|c l Hc Hl IH]; cbn; lia. Qed.

Lemma member_nonneg off n p m : 0 <= member off n (bytes_at d p m).
Proof using Hr.
  apply le_value_nonneg, Forall_take, Forall_drop. unfold bytes_at. apply Forall_fmap, Forall_true. intros k. apply Hr.
Qed.

Lemma ehdr_same : the_ehdr d = the_ehdr d'.
Proof using Hd. unfold the_ehdr. f_equal. apply bytes_at_ext. intros k Hk. apply Hd. lia. Qed.

Lemma phdr_at_nonneg i : 0 <= i -> 0 <= phdr_at d i.
Proof using Hr.
  intros Hi. unfold phdr_at, the_ehdr, ehdr_of. cbn [e_phoff e_phentsize].
  pose proof (member_nonneg 32 8 0 64). pose proof (member_nonneg 54 2 0 64). nia.
Qed.

Lemma phdr_same i : 0 <= i -> phdr_at d' i = phdr_at d i /\ the_phdr d' i = the_phdr d i.
Proof using Hd Hr.
  intros Hi. assert (E : phdr_at d' i = phdr_at d i) by (unfold phdr_at; by rewrite ehdr_same). split; [done|].
  unfold the_phdr. rewrite E. f_equal. apply bytes_at_ext. intros k Hk. symmetry. apply Hd. pose proof (phdr_at_nonneg i Hi). lia.
Qed.

Lemma verdict_same : verdict d' size = verdict d size.
Proof using Hd Hr.
  unfold verdict. rewrite <- ehdr_same. assert (E : forall n i, 0 <= i -> phdrs_verdict d' size n i = phdrs_verdict d size n i).
  { induction n as [|n IH]; intros i Hi; [done|]. cbn [phdrs_verdict]. unfold phdr_verdict.
    destruct (phdr_same i Hi) as [-> ->]. by rewrite IH by lia. }
  by rewrite E.
Qed.

Lemma segments_same : all_segments d' size = all_segments d size.
Proof using Hd Hr.
  unfold all_segments. rewrite <- ehdr_same. generalize (Z.to_nat (e_phnum (the_ehdr d))). intros n.
  assert (E : forall i, 0 <= i -> segments d' size n i = segments d size n i); [|by apply E].
  induction n as [|n IH]; intros i Hi; [done|]. cbn [segments]. unfold placed.
  destruct (phdr_same i Hi) as [-> ->]. by rewrite IH by lia.
Qed.

Lemma no_wrap_same i : 0 <= i -> no_wrap d i -> no_wrap d' i.
Proof using Hd Hr.
  intros Hi [H1 H2 H3]. destruct (phdr_same i Hi) as [E1 E2]. constructor; rewrite <- ?ehdr_same, ?E1, ?E2; done.
Qed.

Lemma image_same segs g : Forall seg_ok segs -> forall v, image d' segs g v = image d segs g v.
Proof using Hd Hr.
  unfold image. intros HS. assert (E : forall g g', (forall v, g v = g' v) -> forall v,
    foldl (fun g p => seg_view d' p g) g segs v = foldl (fun g p => seg_view d p g) g' segs v); [|intros v; by apply E].
  induction HS as [|p segs Hp HS IH]; intros g1 g2 Hg v; cbn [foldl]; [done|]. apply IH. intros w. unfold seg_view.
  case_decide; [|done]. case_decide; [|done]. rewrite Hd; [done|]. destruct (so_offset p Hp). lia.
Qed.
End SameBytes.

Lemma load_headers_run f0 last r n : forall i t own l,
  ready t f0 own l last r ->
  (forall j, i <= j < i + Z.of_nat n -> no_wrap (q_data q f0) j) ->
  Forall seg_ok (segments (q_data q f0) (q_size q f0) n i) ->
  frames (segments (q_data q f0) (q_size q f0) n i) <= Z.of_nat (length l) ->
  gives (load_headers io P n i (the_ehdr (q_data q f0))) t f0 own l last r
    (phdrs_verdict (q_data q f0) (q_size q f0) n i)
    (frames (segments (q_data q f0) (q_size q f0) n i))
    (image (q_data q f0) (segments (q_data q f0) (q_size q f0) n i) (uview (mem_of P t) r)).
Proof.
  induction n as [|n IH]; intros i t own l HR HN Hs Hfr; [by apply gives_ret|].
  set (d := q_data q f0) in *. set (size := q_size q f0) in *.
  assert (Hh : (placed d size i = true -> seg_ok (the_phdr d i)) /\ Forall seg_ok (segments d size n (i + 1)) /\
    0 <= header_frames f0 i /\
    frames (segments d size (S n) i) = header_frames f0 i + frames (segments d size n (i + 1)) /\
    image d (segments d size (S n) i) (uview (mem_of P t) r) =
      image d (segments d size n (i + 1)) (header_view f0 i (uview (mem_of P t) r))).
  { unfold header_frames, header_view. fold d size. cbn [segments] in Hs |- *.
    destruct (placed d size i) eqn:Ep; [|by repeat split].
    apply Forall_cons_1 in Hs as [Hs1 Hs2]. split; [done|]. split; [done|].
    split; [|done]. pose proof (seg_size_nonneg (the_phdr d i)). lia. }
  destruct Hh as (Hh1 & Hh2 & Hh3 & Hh4 & Hh5). rewrite Hh4, Hh5 in *.
  pose proof (frames_nonneg (segments d size n (i + 1))).
  destruct (load_header_run t f0 own l last r i HR (HN i ltac:(lia)) Hh1 ltac:(lia)) as (t1 & E1 & S1 & H1).
  fold d size in E1, H1. unfold gives. cbn [phdrs_verdict load_headers].
  destruct (Z.eqb_spec (phdr_verdict d size i) 0) as [Ez|Ez].
  2:{ exists t1. mstep E1. by rewrite (proj2 (Z.eqb_neq _ _) Ez). }
  destruct (H1 Ez) as (own1 & l1 & HR1 & Hl1 & Sh1).
  destruct (IH (i + 1) t1 own1 l1 HR1) as (t2 & E2 & S2 & H2); [intros j Hj; apply HN; lia|done|lia|].
  exists t2. mstep E1. rewrite Ez. split; [exact E2|]. split; [done|]. intros Hc.
  destruct (H2 Hc) as (own2 & l2 & HR2 & Hl2 & Sh2). exists own2, l2. split; [done|]. split; [lia|].
  eapply shows_ext; [exact (shows_trans _ _ _ _ _ _ _ _ _ Sh1 Sh2)|].
  apply image_ext. exact (sh_view _ _ _ _ _ _ Sh1).
Qed.

(** ** The whole file *)

Lemma elf_load_run t own l last r :
  let f := file_of P t in let d := q_data q f in let size := q_size q f in
  q_ok q f -> q_pos q f = 0 -> active (mem_of P t) own l last r ->
  (forall j, 0 <= j < e_phnum (the_ehdr d) -> no_wrap d j) ->
  Forall seg_ok (all_segments d size) ->
  frames (all_segments d size) <= Z.of_nat (length l) ->
  exists t',
    elf_load io P t =
      Done (if verdict d size =? 0 then inr (e_entry (the_ehdr d)) else inl (verdict d size)) t' /\
    same_file q f (file_of P t') /\
    (verdict d size = 0 -> exists own' l', active (mem_of P t') own' l' last r /\
       shows (mem_of P t) own r (mem_of P t') own' (image d (all_segments d size) (uview (mem_of P t) r))).
Proof.
  intros f d size Hok Hpos HA HN Hs Hfr. destruct (sq_bounds _ _ L f Hok) as [Hb _].
  destruct (read_full_ok io q L f SIZEOF_EHDR Hok) as (f1 & E1 & S1); [done|unfold SIZEOF_EHDR; lia|].
  destruct (on_file_step _ t _ _ E1) as (t1 & T1 & M1 & F1). rewrite Hpos, Z.sub_0_r in T1.
  assert (SF : same_file q f (file_of P t1)) by (by rewrite F1).
  unfold elf_load, verdict. mstep T1. cbn [fst snd]. fold d size. set (k := Z.min SIZEOF_EHDR size).
  unfold SIZEOF_EHDR in *. rewrite (w64_small k) by lia.
  destruct (Z.ltb_spec size 64) as [H1|H1].
  { exists t1. rewrite (proj2 (Z.eqb_neq k _)) by lia. by split. }
  replace k with 64 by lia. change (negb (64 =? 64)) with false. change (Z.to_nat 64) with 64%nat. cbv iota.
  fold (the_ehdr d). cbv zeta.
  destruct (ELF_MAGIC_OK (the_ehdr d)); cbn [negb]; [|by exists t1].
  destruct (_ || _); [by exists t1|]. destruct (negb (ident _ _ =? _)); [by exists t1|].
  assert (HR : ready t1 f own l last r) by (constructor; [done|by rewrite M1]).
  destruct (load_headers_run f last r (Z.to_nat (e_phnum (the_ehdr d))) 0 t1 own l HR) as (t2 & E2 & S2 & H2);
    [intros j Hj; apply HN; lia|done|done|]. fold d size in E2, H2. fold (all_segments d size) in H2.
  exists t2. mstep E2. split; [by destruct (_ =? 0)|]. split; [done|]. intros Hv.
  destruct (H2 Hv) as (own2 & l2 & [_ HA2] & _ & Sh2). exists own2, l2. split; [done|]. by rewrite <- M1.
Qed.

(** C6: [elf_load] of a file in which no sum of header fields wraps around
    ([no_wrap]) and whose loaded segments have p_paddr = p_vaddr, p_filesz <= p_memsz
    and a rounded size that covers the offset of p_vaddr in its page ([seg_ok]) is
    decided by the content of the file: it returns the code that [verdict] computes
    from the header and the program headers (the first check that fails, in the order
    of the loop, each with its own code), or the entry point.  When it succeeds and
    no two segments share a page, the user half of the active space is what the
    program headers describe ([described]): each segment's bytes from the file, zeros
    in the rest of its pages, with exactly the permissions of the segment and no write
    permission left over from loading, and everything else as before.  In general it
    is [image], where a page that two segments share is the later one's, as the
    loader maps it anew.  Other spaces are as before, and the ownership invariant
    holds.  The file must be at its start, and memory must suffice. *)
Theorem elf_load_correct t own l last r :
  let f := file_of P t in let d := q_data q f in let size := q_size q f in
  q_ok q f -> q_pos q f = 0 -> active (mem_of P t) own l last r ->
  (forall j, 0 <= j < e_phnum (the_ehdr d) -> no_wrap d j) ->
  Forall seg_ok (all_segments d size) ->
  frames (all_segments d size) <= Z.of_nat (length l) ->
  exists t',
    elf_load io P t =
      Done (if verdict d size =? 0 then inr (e_entry (the_ehdr d)) else inl (verdict d size)) t' /\
    same_file q f (file_of P t') /\
    (verdict d size = 0 -> exists own' l', active (mem_of P t') own' l' last r /\
       shows (mem_of P t) own r (mem_of P t') own' (image d (all_segments d size) (uview (mem_of P t) r)) /\
       (separate (all_segments d size) ->
        described d (all_segments d size) (uview (mem_of P t) r) (uview (mem_of P t') r))).
Proof.
  intros f d size Hok Hpos HA HN Hs Hfr. destruct (elf_load_run t own l last r Hok Hpos HA HN Hs Hfr) as (t' & E & S & H).
  exists t'. split; [done|]. split; [done|]. intros Hv. destruct (H Hv) as (own' & l' & HA' & Sh).
  exists own', l'. split; [done|]. split; [done|]. intros Hsep.
  eapply described_same; [by apply image_described|]. apply (sh_view _ _ _ _ _ _ Sh).
Qed.
End Load.

(** ** What the conditions exclude *)

(** The range checks of the loader add with wrap-around: a segment that starts in
    the user range and is almost 2^64 bytes long passes both of them. *)
Lemma range_check_wraps :
  let p := MkPhdr PT_LOAD 5 0 0xC0000000 0xC0000000 0 (2 ^ 64 - 0xC0000000) 4096 in
  (USER_STACK_VMA <? w64 (p_vaddr p + p_memsz p)) = false /\
  (p_vaddr p <? USER_START_VMA) || (USER_END_VMA <? w64 (p_vaddr p + p_memsz p)) = false /\
  USER_END_VMA < p_vaddr p + p_memsz p.
Proof. by vm_compute. Qed.

(** The rounding of the size ignores the offset of the segment in its first page:
    the second byte of a segment of two bytes at the end of a page is not on the
    pages that are mapped for it. *)
Lemma rounding_misses_page :
  let p := MkPhdr PT_LOAD 5 0 0xC0000FFF 0xC0000FFF 2 2 4096 in
  p_vaddr p + 2 <= USER_END_VMA /\ in_file p 0xC0001000 /\ ~ on_pages p 0xC0001000.
Proof. split; [by vm_compute|]. split; [unfold in_file; cbn; lia|]. unfold on_pages. by vm_compute; intros [_ H]. Qed.

(** A later segment on the same page replaces what an earlier one put there. *)
Lemma shared_page_replaced d :
  let p := MkPhdr PT_LOAD 5 0 0xC0000000 0xC0000000 16 16 4096 in
  let q := MkPhdr PT_LOAD 6 64 0xC0000100 0xC0000100 16 16 4096 in
  in_file p 0xC0000000 /\ image d [p; q] (fun _ => None) 0xC0000000 = Some (0, leaf_flags (segment_flags 6)).
Proof. split; [unfold in_file; cbn; lia|]. by vm_compute. Qed.

(** ** Files of the file system are such objects *)

Section KfsFile.
Context {B : Type} {BI : BlockIo B} {BIO : BlockIoSpec B} (i : nat).

Definition kfs_data (s : fstate B) (k : Z) : Z :=
  let f := get_file i s in
  if k <? file_size f then bio_data (vioblk_io s) (faddr (boot_block s) (the_inode s f) k) else 0.

Definition kfs_spec : seq_spec (fstate B) :=
  MkSpec (fun s => open_file s i (get_file i s) /\ file_position (get_file i s) <= file_size (get_file i s))
    (fun s => file_position (get_file i s)) (fun s => file_size (get_file i s)) kfs_data.

Lemma get_open s f : open_file s i f -> get_file i s = f.
Proof. intros HO. unfold get_file. by rewrite (of_file _ _ _ HO). Qed.

Lemma kfs_same_file s s' p f :
  open_file s i f -> open_file s' i (with_pos p f) -> same_disk (vioblk_io s) (vioblk_io s') ->
  boot_block s' = boot_block s -> p <= file_size f -> same_file kfs_spec s s'.
Proof.
  intros HO HO' Hd Hb Hp. unfold same_file, kfs_spec. cbn [q_ok q_size q_data].
  rewrite (get_open s' _ HO'), (get_open s _ HO). split; [done|]. split; [done|]. intros k Hk. unfold kfs_data.
  rewrite (get_open s' _ HO'), (get_open s _ HO). cbn [file_size with_pos].
  destruct (Z.ltb_spec k (file_size f)); [|done].
  assert (Hi : the_inode s' (with_pos p f) = the_inode s f) by (apply same_disk_inode; [done|apply (of_ino _ _ _ HO)]).
  rewrite Hi, Hb. apply Hd. eapply faddr_nonneg; [apply (of_layout _ _ _ HO)|lia].
Qed.

Lemma kfs_laws : seq_laws (kfs_ops i) kfs_spec.
Proof.
  constructor; cbn [q_ok q_pos q_size q_data kfs_spec sq_seek sq_read kfs_ops].
  - intros s [HO Hp]. pose proof (of_pos _ _ _ HO). pose proof (lay_size _ _ _ _ (of_layout _ _ _ HO)).
    unfold MAX_BLOCKS, FS_BLKSZ in *. lia.
  - intros s p [HO Hp] Hr. destruct (setpos_ok s i _ p HO Hr) as (s' & E & HO' & Hv & Hb).
    exists s'. mstep E. split; [done|]. split; [|by rewrite (get_open s' _ HO')].
    eapply kfs_same_file; eauto; [|lia]. rewrite Hv. split; [apply (of_dev _ _ _ HO)|done].
  - intros s p [HO Hp] Hr. exists (-1), s. mstep (setpos_bad s i _ p HO ltac:(lia)).
    split; [done|]. split; [done|]. by split.
  - intros s n [HO Hp] Hn Hw. set (f := get_file i s) in *. pose proof (of_pos _ _ _ HO) as Hpos.
    destruct (read_any s i f n HO Hn Hw) as (s' & E & HO' & Hd & Hb & _).
    assert (Hm : moved f n = Z.min n (file_size f - file_position f)) by (unfold moved; lia).
    exists s'. rewrite E, <- Hm. split; [|split; [|by rewrite (get_open s' _ HO')]].
    + do 2 f_equal. unfold contents_at, file_bytes. apply bytes_at_ext. intros k Hk. unfold kfs_data. fold f.
      by rewrite (proj2 (Z.ltb_lt _ _)) by lia.
    + eapply kfs_same_file; eauto; lia.
Qed.
End KfsFile.

(** Two components side by side. *)
Definition pair_parts (F : Type) : parts (F * mstate) F :=
  MkParts snd (fun m t => (fst t, m)) fst (fun f t => (f, snd t)).

Lemma pair_laws F : parts_laws (pair_parts F).
Proof. by constructor; intros ? []. Qed.

(** ** A concrete executable

    One read-execute segment of four bytes at the start of the user range, in a
    file on a disk behind the virtio driver. *)

Definition elf_bytes : list Z :=
  [0x7f; 69; 76; 70; 2; 1; 1; 0; 0; 0; 0; 0; 0; 0; 0; 0; 2; 0; 243; 0; 1; 0; 0; 0] ++
  le_bytes 8 0xC0000000 ++ le_bytes 8 64 ++ le_bytes 8 0 ++ le_bytes 4 0 ++
  le_bytes 2 64 ++ le_bytes 2 56 ++ le_bytes 2 1 ++ le_bytes 6 0 ++
  le_bytes 4 1 ++ le_bytes 4 5 ++ le_bytes 8 120 ++ le_bytes 8 0xC0000000 ++ le_bytes 8 0xC0000000 ++
  le_bytes 8 4 ++ le_bytes 8 8 ++ le_bytes 8 4096 ++ [115; 1; 2; 3].

Definition exec_image (k : Z) : Z :=
  if k =? 0 then 1 else if k =? 4 then 1 else if k =? 8 then 2 else if k =? 64 then 97 else
  if k =? 4096 then 124 else if k <? 8192 then 0 else default 0 (elf_bytes !! Z.to_nat (k - 8192)).
Definition exec_dev : vioblk_device ramdisk :=
  MkVio (MkRam 32 exec_image false) true false 1 512 0 16384 32 (replicate 512 0) 0 0 0 0 0 true false false 0.
Definition exec_file : file_struct := MkFile 1 0 124 0 1.
Definition exec_fs : fstate (vioblk_device ramdisk) :=
  MkFs exec_dev true (bytes_at exec_image 0 4096) (exec_file :: replicate 31 no_file)
    (replicate 4096 0) (replicate 4096 0) false.

Lemma exec_open : open_file exec_fs 0 exec_file.
Proof.
  constructor; [reflexivity|discriminate|reflexivity|reflexivity| |cbn; lia|cbn; unfold FS_BLKSZ, SIZEOF_INODE; lia| |].
  - split; [|done]. constructor; (done || cbn; lia).
  - split; apply length_replicate.
  - constructor; [by vm_compute|by vm_compute|cbn; unfold MAX_BLOCKS, FS_BLKSZ; lia|].
    intros k Hk. assert (k = 0) as -> by (unfold FS_BLKSZ in Hk; cbn in Hk; lia). split; by vm_compute.
Qed.

Lemma elf_bytes_range : Forall (fun c => 0 <= c < 256) elf_bytes.
Proof. repeat (apply Forall_app_2 || apply Forall_cons_2 || apply Forall_nil_2); vm_compute; intuition congruence. Qed.

Lemma exec_data k : 0 <= k < 124 -> kfs_data 0 exec_fs k = default 0 (elf_bytes !! Z.to_nat k).
Proof.
  intros Hk. unfold kfs_data. change (get_file 0 exec_fs) with exec_file. cbn [file_size exec_file].
  rewrite (proj2 (Z.ltb_lt k 124)) by lia. change (vioblk_io exec_fs) with exec_dev.
  assert (faddr (boot_block exec_fs) (the_inode exec_fs exec_file) k = 8192 + k) as ->.
  { unfold faddr. change FS_BLKSZ with 4096. rewrite Z.div_small, Z.mod_small by lia. f_equal. }
  change (bio_data exec_dev (8192 + k)) with (w8 (exec_image (8192 + k))). unfold exec_image.
  repeat match goal with |- context [?a =? ?b] => rewrite (proj2 (Z.eqb_neq a b)) by lia end.
  rewrite (proj2 (Z.ltb_ge (8192 + k) 8192)) by lia. replace (8192 + k - 8192) with k by lia.
  destruct (elf_bytes !! Z.to_nat k) as [x|] eqn:E; [|done]. apply w8_small. exact (Forall_lookup_1 _ _ _ _ elf_bytes_range E).
Qed.

Lemma exec_bytes p n : 0 <= p -> p + Z.of_nat n <= 124 ->
  bytes_at (kfs_data 0 exec_fs) p n = take n (drop (Z.to_nat p) elf_bytes).
Proof.
  intros Hp Hn. apply list_eq. intros k. destruct (decide (k < n)%nat) as [Hk|Hk].
  - rewrite bytes_at_lookup, lookup_take_lt, lookup_drop, exec_data by lia.
    destruct (elf_bytes !! _) as [x|] eqn:E; [|apply lookup_ge_None in E; cbn in E; lia].
    replace (Z.to_nat p + k)%nat with (Z.to_nat (p + Z.of_nat k)) by lia. by rewrite E.
  - rewrite lookup_take_ge, lookup_ge_None_2 by (rewrite ?length_bytes_at; lia). done.
Qed.

Definition exec_phdr : Elf64_Phdr := MkPhdr 1 5 120 0xC0000000 0xC0000000 4 8 4096.

Lemma exec_ehdr : the_ehdr (kfs_data 0 exec_fs) = ehdr_of (take 64 elf_bytes).
Proof. unfold the_ehdr. by rewrite exec_bytes. Qed.

Lemma exec_at j : phdr_at (kfs_data 0 exec_fs) j = 64 + j * 56.
Proof. unfold phdr_at. by rewrite exec_ehdr. Qed.

Lemma exec_the_phdr : the_phdr (kfs_data 0 exec_fs) 0 = exec_phdr.
Proof. unfold the_phdr. rewrite exec_at, exec_bytes by lia. by vm_compute. Qed.

Lemma exec_segments : all_segments (kfs_data 0 exec_fs) 124 = [exec_phdr].
Proof.
  unfold all_segments. rewrite exec_ehdr. change (Z.to_nat (e_phnum (ehdr_of (take 64 elf_bytes)))) with 1%nat.
  cbn [segments]. unfold placed. rewrite exec_at, exec_the_phdr. done.
Qed.

Lemma exec_verdict : verdict (kfs_data 0 exec_fs) 124 = 0.
Proof.
  unfold verdict. rewrite exec_ehdr. change (Z.to_nat (e_phnum (ehdr_of (take 64 elf_bytes)))) with 1%nat.
  cbn [phdrs_verdict]. unfold phdr_verdict. rewrite exec_at, exec_the_phdr. by vm_compute.
Qed.

Lemma exec_seg_ok : seg_ok exec_phdr.
Proof. constructor; cbn; unfold seg_size; vm_compute; intuition congruence. Qed.

Lemma exec_no_wrap j : 0 <= j < e_phnum (the_ehdr (kfs_data 0 exec_fs)) -> no_wrap (kfs_data 0 exec_fs) j.
Proof.
  rewrite exec_ehdr. change (e_phnum _) with 1. intros Hj. assert (j = 0) as -> by lia.
  constructor; [by rewrite exec_ehdr|rewrite exec_at; lia|rewrite exec_the_phdr; cbn; lia].
Qed.

Lemma demo_active : active demo_state demo_own demo_pages 0 demo_root.
Proof. constructor; [exact demo_minv|exact demo_satp|exact demo_root_role|done]. Qed.

(** The four bytes and the zeros behind them, readable and executable but not
    writable. *)
Lemma elf_load_correct_witness :
  exists t', elf_load (kfs_ops 0) (pair_parts _) (exec_fs, demo_state) = Done (inr 0xC0000000) t' /\
    uview (snd t') demo_root 0xC0000000 = Some (115, leaf_flags (Z.lor (Z.lor PTE_R PTE_X) PTE_U)) /\
    uview (snd t') demo_root 0xC0000003 = Some (3, leaf_flags (Z.lor (Z.lor PTE_R PTE_X) PTE_U)) /\
    uview (snd t') demo_root 0xC0000004 = Some (0, leaf_flags (Z.lor (Z.lor PTE_R PTE_X) PTE_U)) /\
    uview (snd t') demo_root 0xC0001000 = None.
Proof.
  destruct (elf_load_correct (kfs_ops 0) (kfs_spec 0) (kfs_laws 0) (pair_parts _) (pair_laws _)
    (exec_fs, demo_state) demo_own demo_pages 0 demo_root) as (t' & E & _ & H).
  - split; [exact exec_open|cbn; lia].
  - reflexivity.
  - exact demo_active.
  - exact exec_no_wrap.
  - change (Forall seg_ok (all_segments (kfs_data 0 exec_fs) 124)). rewrite exec_segments.
    apply Forall_singleton. exact exec_seg_ok.
  - change (frames (all_segments (kfs_data 0 exec_fs) 124) <= 8). rewrite exec_segments. by vm_compute.
  - cbn [fst snd file_of mem_of pair_parts q_data q_size kfs_spec] in *.
    change (file_size (get_file 0 exec_fs)) with 124 in *. rewrite exec_verdict, exec_ehdr in E. destruct (H exec_verdict) as (own' & l' & _ & [V _ _] & _).
    exists t'. split; [exact E|]. rewrite !V by (apply user_upper; unfold user_vma, USER_START_VMA, USER_END_VMA; lia).
    rewrite exec_segments. unfold image. cbn [foldl]. unfold seg_view.
    change (seg_start exec_phdr) with 0xC0000000. change (seg_end exec_phdr) with 0xC0001000.
    cbn [p_vaddr p_filesz p_offset p_flags exec_phdr].
    rewrite !decide_True, !decide_False, !exec_data by lia. split_and!; [done..|].
    unfold uview. by rewrite demo_empty.
Defined.
