(* ===== verification/Strtok.v ===== *)
(** * Splitting strings (strtok, strlen, strncat of string.c)

    [strtok] keeps a pointer into the caller's buffer between calls and writes a
    NUL behind every token it returns.  The buffer is the list of its bytes, a
    pointer an index into it; reading past the end of the buffer is undefined
    behaviour.  [words] is the reference: the maximal runs of characters that are
    no separators. *)

From stdpp Require Import base list strings numbers.
From Stdlib Require Import Lia ZArith.
From S2P Require Import Prelude CString.
Local Open Scope Z_scope.
Local Open Scope kern_scope.

(** ** Code *)

(** The index of the first NUL of a buffer; [None] when there is none. *)
Fixpoint strlen (buf : list Z) : option nat :=
  match buf with
  | [] => None
  | c :: buf' => if c =? 0 then Some 0%nat else S <$> strlen buf'
  end.

(** The copying loop of [strncat] and the final NUL: the bytes of [dst] from the
    end of its string on; [None] when the buffer ends before. *)
Fixpoint strncat_loop (dst src : list Z) (n : nat) : option (list Z) :=
  match dst with
  | [] => None
  | _ :: dst' =>
      match n with
      | O => Some (0 :: dst')
      | S n' => if chr src =? 0 then Some (0 :: dst') else cons (chr src) <$> strncat_loop dst' (tl src) n'
      end
  end.
Definition strncat (dst src : list Z) (n : nat) : option (list Z) :=
  match strlen dst with
  | None => None
  | Some k => app (take k dst) <$> strncat_loop (drop k dst) src n
  end.

Record tokenizer := MkTok { tk_buf : list Z; tk_last : option nat }.

Definition is_delim (delim : list Z) (c : Z) : bool :=
  match strchr delim c with Some _ => true | None => false end.

(** [while ( *p != '\0' && keep( *p)) p++] from index [i]; [None] past the end. *)
Fixpoint scan (keep : Z -> bool) (rest : list Z) (i : nat) : option nat :=
  match rest with
  | [] => None
  | c :: rest' => if negb (c =? 0) && keep c then scan keep rest' (S i) else Some i
  end.

Definition at_buf (buf : list Z) (i : nat) : Z := default 0 (buf !! i).

Definition strtok (s : option nat) (delim : list Z) : M tokenizer (option nat) := fun t =>
  let buf := tk_buf t in
  match (match s with Some p => Some p | None => tk_last t end) with
  | None => Done None (MkTok buf None)
  | Some last =>
      match scan (is_delim delim) (drop last buf) last with
      | None => Undef "string without NUL" t
      | Some start =>
          if at_buf buf start =? 0 then Done None (MkTok buf None) else
          match scan (fun c => negb (is_delim delim c)) (drop start buf) start with
          | None => Undef "string without NUL" t
          | Some en =>
              if at_buf buf en =? 0 then Done (Some start) (MkTok buf None)
              else Done (Some start) (MkTok (<[en := 0]> buf) (Some (S en)))
          end
      end
  end.

(** The usual loop: [for (p = strtok(str, d); p != NULL; p = strtok(NULL, d))];
    it collects the token at every [p]. *)
Fixpoint strtok_loop (fuel : nat) (s : option nat) (delim : list Z) : M tokenizer (list (list Z)) :=
  match fuel with
  | O => fun _ => NoFuel
  | S fuel' =>
      p <- strtok s delim ;;
      match p with
      | None => ret []
      | Some i =>
          w <- gets (fun t => cstring (drop i (tk_buf t))) ;;
          ws <- strtok_loop fuel' None delim ;;
          ret (w :: ws)
      end
  end.

(** ** Reference *)

Definition flush (cur : list Z) : list (list Z) := match cur with [] => [] | _ => [cur] end.
Fixpoint words_aux (sep : Z -> bool) (cur l : list Z) : list (list Z) :=
  match l with
  | [] => flush cur
  | c :: l' => if sep c then flush cur ++ words_aux sep [] l' else words_aux sep (cur ++ [c]) l'
  end.
Definition words (sep : Z -> bool) (l : list Z) : list (list Z) := words_aux sep [] l.

Lemma words_run sep w : forall cur l,
  Forall (fun c => sep c = false) w -> words_aux sep cur (w ++ l) = words_aux sep (cur ++ w) l.
Proof.
  induction w as [|c w IH]; intros cur l Hw; [by rewrite app_nil_r|].
  apply Forall_cons_1 in Hw as [Hc Hw]. cbn. rewrite Hc, IH by done. by rewrite <- app_assoc.
Qed.

Lemma words_skip sep a l : Forall (fun c => sep c = true) a -> words sep (a ++ l) = words sep l.
Proof.
  intros Ha. unfold words. induction a as [|c a IH]; [done|]. apply Forall_cons_1 in Ha as [Hc Ha].
  cbn. by rewrite Hc, IH.
Qed.

(** A run of separators, a word, and the rest behind the next separator. *)
Lemma words_cons sep a w c l :
  Forall (fun c => sep c = true) a -> Forall (fun c => sep c = false) w -> w <> [] -> sep c = true ->
  words sep (a ++ w ++ c :: l) = w :: words sep l.
Proof.
  intros Ha Hw Hn Hc. rewrite words_skip by done. unfold words. rewrite words_run by done. cbn.
  rewrite Hc. by destruct w.
Qed.
Lemma words_last sep a w :
  Forall (fun c => sep c = true) a -> Forall (fun c => sep c = false) w -> w <> [] ->
  words sep (a ++ w) = [w].
Proof.
  intros Ha Hw Hn. rewrite words_skip by done. unfold words.
  pose proof (words_run sep w [] [] Hw) as E. rewrite app_nil_r in E. rewrite E. cbn. by destruct w.
Qed.

(** Every line has one of three shapes. *)
Lemma span (f : Z -> bool) l :
  exists a b, l = a ++ b /\ Forall (fun c => f c = true) a /\ (b = [] \/ exists c b', b = c :: b' /\ f c = false).
Proof.
  induction l as [|c l (a & b & E & Ha & Hb)]; [exists [], []; auto|].
  destruct (f c) eqn:Ec; [|exists [], (c :: l); split; [done|]; split; [constructor|]; right; by exists c, l].
  exists (c :: a), b. rewrite E. split; [done|]. split; [by apply Forall_cons_2|done].
Qed.

Inductive line_shape (sep : Z -> bool) : list Z -> Prop :=
| shape_blank a : Forall (fun c => sep c = true) a -> line_shape sep a
| shape_last a w : Forall (fun c => sep c = true) a -> Forall (fun c => sep c = false) w -> w <> [] ->
    line_shape sep (a ++ w)
| shape_more a w c l : Forall (fun c => sep c = true) a -> Forall (fun c => sep c = false) w -> w <> [] ->
    sep c = true -> line_shape sep (a ++ w ++ c :: l).

Lemma line_shapes sep l : line_shape sep l.
Proof.
  destruct (span sep l) as (a & b & -> & Ha & [-> |(c & b' & -> & Hc)]);
    [rewrite app_nil_r; by apply shape_blank|].
  destruct (span (fun c => negb (sep c)) (c :: b')) as (w & r & E & Hw & Hr). rewrite E.
  assert (Hw' : Forall (fun c => sep c = false) w) by (eapply Forall_impl; [|exact Hw]; intros x; apply negb_true_iff).
  assert (Hn : w <> []).
  { intros ->. destruct Hr as [-> |(c' & r' & -> & Hc')]; [done|]. injection E as <- <-. by rewrite Hc in Hc'. }
  destruct Hr as [-> |(c' & r' & -> & Hc')]; [rewrite app_nil_r; by apply shape_last|].
  apply shape_more; auto. by apply negb_false_iff.
Qed.

(** ** [strtok] on a line *)

Lemma scan_stop keep a c rest : forall i,
  Forall (fun x => x <> 0 /\ keep x = true) a -> c = 0 \/ keep c = false ->
  scan keep (a ++ c :: rest) i = Some (i + length a)%nat.
Proof.
  induction a as [|x a IH]; intros i Ha Hc.
  - cbn. destruct (Z.eqb_spec c 0); [by rewrite Nat.add_0_r|]. destruct Hc as [?| ->]; [done|]. by rewrite Nat.add_0_r.
  - apply Forall_cons_1 in Ha as [[Hx Hk] Ha]. cbn. rewrite (proj2 (Z.eqb_neq x 0) Hx), Hk. cbn.
    rewrite IH by done. f_equal. lia.
Qed.

Lemma at_buf_mid pre c post : at_buf (pre ++ c :: post) (length pre) = c.
Proof. unfold at_buf. by rewrite list_lookup_middle. Qed.

Lemma cstring_stop w post : Forall (fun c => c <> 0) w -> cstring (w ++ 0 :: post) = w.
Proof.
  induction w as [|c w IH]; intros Hw; [done|]. apply Forall_cons_1 in Hw as [Hc Hw].
  cbn. rewrite (proj2 (Z.eqb_neq c 0) Hc). by rewrite IH.
Qed.

(** One call with [last] at [length pre], before blanks and the end of the line. *)
Lemma strtok_none delim pre a post last s :
  (match s with Some p => Some p | None => last end) = Some (length pre) ->
  Forall (fun c => c <> 0 /\ is_delim delim c = true) a ->
  strtok s delim (MkTok (pre ++ a ++ 0 :: post) last) = Done None (MkTok (pre ++ a ++ 0 :: post) None).
Proof.
  intros Hs Ha. unfold strtok. cbn [tk_buf tk_last]. rewrite Hs, drop_app_length.
  rewrite (scan_stop _ a 0) by auto. rewrite app_assoc, <- length_app, at_buf_mid. done.
Qed.

(** Before a word that ends at [x], a separator or the NUL. *)
Lemma strtok_word delim pre a w x post last s :
  (match s with Some p => Some p | None => last end) = Some (length pre) ->
  Forall (fun c => c <> 0 /\ is_delim delim c = true) a ->
  Forall (fun c => c <> 0 /\ is_delim delim c = false) w -> w <> [] -> x = 0 \/ is_delim delim x = true ->
  strtok s delim (MkTok (pre ++ a ++ w ++ x :: post) last) =
    Done (Some (length (pre ++ a)))
      (MkTok (pre ++ a ++ w ++ 0 :: post) (if x =? 0 then None else Some (length (pre ++ a ++ w ++ [0])))).
Proof.
  intros Hs Ha Hw Hn Hx. destruct w as [|y w]; [done|]. apply Forall_cons_1 in Hw as Hw'. destruct Hw' as [[Hy0 Hy] _].
  unfold strtok. cbn [tk_buf tk_last]. rewrite Hs, drop_app_length.
  change ((y :: w) ++ x :: post) with (y :: (w ++ x :: post)). rewrite (scan_stop _ a y) by auto.
  rewrite app_assoc, <- length_app, at_buf_mid, (proj2 (Z.eqb_neq y 0) Hy0), drop_app_length.
  change (y :: w ++ x :: post) with ((y :: w) ++ x :: post). rewrite (scan_stop _ (y :: w) x).
  2:{ eapply Forall_impl; [|exact Hw]. intros c [Hc0 Hc]. by rewrite Hc. }
  2:{ destruct Hx as [?| ->]; auto. }
  rewrite app_assoc, <- length_app, at_buf_mid.
  destruct (Z.eqb_spec x 0) as [-> |Hx0]; [by rewrite <- !app_assoc|]. do 2 f_equal.
  - rewrite insert_app_r_alt by lia. rewrite Nat.sub_diag. cbn. by rewrite <- !app_assoc.
  - f_equal. rewrite !length_app. cbn. lia.
Qed.

Lemma strtok_loop_run delim n : forall line pre post last s fuel,
  (length line <= n)%nat -> Forall (fun c => c <> 0) line ->
  (match s with Some p => Some p | None => last end) = Some (length pre) ->
  (length (words (is_delim delim) line) < fuel)%nat ->
  exists line', length line' = length line /\
    strtok_loop fuel s delim (MkTok (pre ++ line ++ 0 :: post) last) =
      Done (words (is_delim delim) line) (MkTok (pre ++ line' ++ 0 :: post) None).
Proof.
  set (sep := is_delim delim).
  assert (Hboth : forall b a, Forall (fun c => sep c = b) a -> Forall (fun c => c <> 0) a ->
    Forall (fun c => c <> 0 /\ sep c = b) a).
  { intros b a H1 H2. apply Forall_forall. intros x Hx. rewrite !Forall_forall in *. auto. }
  induction n as [|n IH]; intros line pre post last s fuel Hlen Hz Hs Hf.
  { destruct line; [|cbn in Hlen; lia]. exists []. split; [done|]. destruct fuel; [lia|]. cbn [strtok_loop].
    mstep (strtok_none delim pre [] post last s Hs ltac:(constructor)). done. }
  destruct fuel as [|fuel]; [lia|]. cbn [strtok_loop].
  destruct (line_shapes sep line) as [a Ha|a w Ha Hw Hn|a w c l Ha Hw Hn Hc].
  - exists a. split; [done|]. mstep (strtok_none delim pre a post last s Hs (Hboth _ _ Ha Hz)).
    pose proof (words_skip sep a [] Ha) as E. rewrite app_nil_r in E. by rewrite E.
  - apply Forall_app in Hz as [Hz1 Hz2]. rewrite (words_last sep a w Ha Hw Hn) in *.
    exists (a ++ w). split; [done|]. destruct fuel as [|fuel]; [cbn in Hf; lia|].
    rewrite <- (app_assoc a w). mstep (strtok_word delim pre a w 0 post last s Hs (Hboth _ _ Ha Hz1) (Hboth _ _ Hw Hz2) Hn (or_introl eq_refl)).
    cbn [Z.eqb]. unfold bind at 1, gets at 1. cbn [tk_buf]. rewrite app_assoc, drop_app_length, cstring_stop by done. done.
  - apply Forall_app in Hz as [Hz1 Hz]. apply Forall_app in Hz as [Hz2 Hz]. apply Forall_cons_1 in Hz as [Hz3 Hz4].
    rewrite (words_cons sep a w c l Ha Hw Hn Hc) in *. rewrite !length_app in Hlen. cbn in Hlen, Hf.
    destruct (IH l (pre ++ a ++ w ++ [0]) post (Some (length (pre ++ a ++ w ++ [0]))) None fuel) as (l' & Hl' & E);
      [lia|done|done|lia|].
    exists (a ++ w ++ 0 :: l'). split; [rewrite !length_app; cbn; lia|].
    rewrite <- !app_assoc, <- app_comm_cons.
    mstep (strtok_word delim pre a w c (l ++ 0 :: post) last s Hs (Hboth _ _ Ha Hz1) (Hboth _ _ Hw Hz2) Hn (or_intror Hc)).
    rewrite (proj2 (Z.eqb_neq c 0) Hz3). unfold bind at 1, gets at 1. cbn [tk_buf].
    assert (Ed : drop (length (pre ++ a)) (pre ++ a ++ w ++ 0 :: l ++ 0 :: post) = w ++ 0 :: l ++ 0 :: post)
      by (rewrite (app_assoc pre a); apply drop_app_length).
    rewrite Ed, cstring_stop by done. rewrite <- !app_assoc in E. cbn [app] in E. mstep E. done.
Qed.

(** C30: The loop over the tokens of a string terminates and finds exactly its
    words: calling [strtok] with the string, and then with NULL until it returns
    NULL, returns the maximal runs without separators in order, one call more than
    there are words, each readable as a string of its own when it is returned; bytes
    before and behind the string are not touched, and afterwards [strtok] holds no
    pointer into the buffer. *)
Theorem strtok_splits delim line pre post last :
  Forall (fun c => c <> 0) line ->
  exists line', length line' = length line /\
    strtok_loop (S (length (words (is_delim delim) line))) (Some (length pre)) delim
      (MkTok (pre ++ line ++ 0 :: post) last) =
      Done (words (is_delim delim) line) (MkTok (pre ++ line' ++ 0 :: post) None).
Proof. intros Hz. apply (strtok_loop_run delim (length line)); [lia|done|done|lia]. Qed.

(** "run  ls" split at blanks. *)
Lemma strtok_splits_witness :
  exists t, strtok_loop 3 (Some 1%nat) [32] (MkTok ([7] ++ [114; 117; 110; 32; 32; 108; 115] ++ 0 :: [9]) None) =
    Done [[114; 117; 110]; [108; 115]] t /\ tk_last t = None.
Proof.
  destruct (strtok_splits [32] [114; 117; 110; 32; 32; 108; 115] [7] [9] None) as (line' & _ & E);
    [repeat (apply Forall_cons_2; [lia|]); apply Forall_nil_2|].
  eexists. split; [exact E|reflexivity].
Defined.
