(* ===== verification/Shell.v ===== *)
(** * The shell (shell.c)

    The globals of the shell are the fields of [shell]; what the program does
    through system calls is appended to [trace].  The answers of the kernel to
    these calls are a parameter ([kernel]).  Array accesses out of bounds are
    undefined behaviour and show up as such. *)

From stdpp Require Import base list strings numbers.
From Stdlib Require Import Lia ZArith.
From S2P Require Import Prelude CString Strtok.
Local Open Scope Z_scope.
Local Open Scope kern_scope.

Definition MAX_INPUT : nat := 64.
Definition MAX_HISTORY : nat := 10.
Definition MAX_ARGS : nat := 10.
Definition SHELL_NAMELEN : Z := 32.   (* FS_NAMELEN *)
Definition SHELL_NPROC : Z := 16.     (* NPROC *)

(** System calls of the shell, in the order it makes them. *)
Inductive event :=
| EWrite (l : list Z)                       (* _write(0, ...) *)
| EMsg (s : list Z)                         (* _msgout of a string *)
| EMsgWild                                  (* _msgout of a pointer that is NULL, never set, or to no string *)
| EExit
| EGetNumProgs
| EGetProgNames
| EGetProcs
| ESignal (pid sig : Z)
| EFork
| EDevOpen (fd : Z) (name : list Z) (instno : Z)
| EFsOpen (fd : Z) (name : list Z)
| EExec (fd : Z).

(** What the kernel answers. *)
Record kernel := MkKernel {
  num_progs : Z;               (* *_getnumprogs *)
  prog_names : list Z;         (* the array _getprognames fills *)
  proc_pids : list Z;          (* the arrays after _getprocs *)
  proc_names : list Z;
  fork_ret : Z;
  devopen_ret : Z;
  fsopen_ret : Z
}.

Record shell := MkSh {
  input : list Z;              (* char input[MAX_INPUT] *)
  buf_size : Z;
  cursor_pos : Z;
  history : list (list Z);     (* char history[MAX_HISTORY][MAX_INPUT] *)
  history_count : Z;
  history_pos : Z;
  device_counter : Z;
  trace : list event
}.

Definition set_input (v : list Z) (s : shell) : shell :=
  MkSh v (buf_size s) (cursor_pos s) (history s) (history_count s) (history_pos s) (device_counter s) (trace s).
Definition set_line (size cur : Z) (s : shell) : shell :=
  MkSh (input s) size cur (history s) (history_count s) (history_pos s) (device_counter s) (trace s).
Definition set_history (h : list (list Z)) (n : Z) (s : shell) : shell :=
  MkSh (input s) (buf_size s) (cursor_pos s) h n (history_pos s) (device_counter s) (trace s).
Definition set_history_pos (v : Z) (s : shell) : shell :=
  MkSh (input s) (buf_size s) (cursor_pos s) (history s) (history_count s) v (device_counter s) (trace s).
Definition set_device_counter (v : Z) (s : shell) : shell :=
  MkSh (input s) (buf_size s) (cursor_pos s) (history s) (history_count s) (history_pos s) v (trace s).
Definition add_event (e : event) (s : shell) : shell :=
  MkSh (input s) (buf_size s) (cursor_pos s) (history s) (history_count s) (history_pos s) (device_counter s)
    (trace s ++ [e]).

Definition emit (e : event) : M shell unit := modify (add_event e).
Definition write (l : list Z) : M shell unit := emit (EWrite l).
(** [for (...) _write(0, l, ...)], [n] times. *)
Definition write_times (n : Z) (l : list Z) : M shell unit := for_upto (Z.to_nat n) 0 (fun _ => write l).

Definition CRLF : list Z := [13; 10].
(** [_write(0, s, sizeof(s))] writes the NUL too. *)
Definition write_sizeof (s : list Z) : M shell unit := write (s ++ [0]).

(** [input[i]] and [input[i] = c]. *)
Definition input_get (i : Z) : M shell Z := fun s =>
  if i <? 0 then Undef "input index" s else
  match input s !! Z.to_nat i with Some c => Done c s | None => Undef "input index" s end.
Definition input_put (i c : Z) : M shell unit := fun s =>
  if (i <? 0) || (Z.of_nat (length (input s)) <=? i) then Undef "input index" s
  else Done tt (set_input (<[Z.to_nat i := c]> (input s)) s).
(** [_write(0, &input[i], n)] *)
Definition write_input (i n : Z) : M shell unit := fun s =>
  write (take (Z.to_nat n) (drop (Z.to_nat i) (input s))) s.

(** ** Editing *)

(** [for (int i = buf_size; i > cursor_pos; i--) input[i] = input[i - 1];] *)
Fixpoint shift_right (n : nat) (i : Z) : M shell unit :=
  match n with
  | O => ret tt
  | S n' => c <- input_get (i - 1) ;; input_put i c ;; shift_right n' (i - 1)
  end.
(** [for (int i = cursor_pos; i < buf_size + 1; i++) input[i] = input[i + 1];] *)
Fixpoint shift_left (n : nat) (i : Z) : M shell unit :=
  match n with
  | O => ret tt
  | S n' => c <- input_get (i + 1) ;; input_put i c ;; shift_left n' (i + 1)
  end.

Definition insert_char (c : Z) : M shell unit :=
  s <- get ;;
  if Z.of_nat MAX_INPUT - 1 <=? buf_size s then ret tt else
  shift_right (Z.to_nat (buf_size s - cursor_pos s)) (buf_size s) ;;
  input_put (cursor_pos s) c ;;
  let size := buf_size s + 1 in
  let cur := cursor_pos s + 1 in
  modify (set_line size cur) ;;
  write_input (cur - 1) 1 ;;
  write_input cur (size - cur) ;;
  write_times (size - cur) [8].

Definition handle_backspace_char : M shell unit :=
  s <- get ;;
  let cur := cursor_pos s - 1 in
  let size := buf_size s - 1 in
  modify (set_line size cur) ;;
  shift_left (Z.to_nat (size + 1 - cur)) cur ;;
  write [8] ;;
  write_input cur (size - cur) ;;
  write [32] ;;
  write_times (size + 1 - cur) [8].

(** ** History *)

(** Shows [history[history_pos]], if there is one. *)
Definition show_history : M shell unit :=
  s <- get ;;
  if (0 <=? history_pos s) && (history_pos s <? history_count s) then
    match history s !! Z.to_nat (history_pos s) with
    | None => undef "history index"
    | Some h =>
        let line := strncpy (input s) h MAX_INPUT in
        match strlen line with
        | None => undef "input without NUL"
        | Some n =>
            let size := Z.of_nat n in
            modify (fun s => set_line size size (set_input line s)) ;;
            write [13; 62; 32] ;;
            write_input 0 size ;;
            write_times (Z.of_nat MAX_INPUT - size) [32] ;;
            write_times (Z.of_nat MAX_INPUT - size) [8]
        end
    end
  else ret tt.

(** [memset(input, 0, buf_size)] comes after [buf_size = 0], so it clears nothing. *)
Definition clear_line : M shell unit :=
  modify (fun s => set_history_pos (-1) (set_line 0 0 s)) ;;
  write [13; 62; 32] ;;
  write_times (Z.of_nat MAX_INPUT) [32] ;;
  write_times (Z.of_nat MAX_INPUT) [8].

Definition fetch_history (direction : Z) : M shell unit :=
  s <- get ;;
  if direction =? 1 then
    if history_pos s =? history_count s - 1 then ret tt
    else modify (set_history_pos (history_pos s + 1)) ;; show_history
  else if direction =? -1 then
    if history_pos s =? 0 then clear_line else
    if history_pos s =? -1 then ret tt
    else modify (set_history_pos (history_pos s - 1)) ;; show_history
  else show_history.

Definition handle_arrow_keys (c : Z) : M shell unit :=
  s <- get ;;
  if (c =? 68) && (0 <? cursor_pos s) then
    modify (set_line (buf_size s) (cursor_pos s - 1)) ;; write [27; 91; 68]
  else if (c =? 67) && (cursor_pos s <? buf_size s) then
    modify (set_line (buf_size s) (cursor_pos s + 1)) ;; write [27; 91; 67]
  else if c =? 66 then fetch_history (-1)
  else if c =? 65 then fetch_history 1
  else ret tt.

(** [for (int i = MAX_HISTORY - 1; i > 0; i--)]: entry [i] becomes a copy of entry
    [i - 1]. *)
Fixpoint shift_history (i : nat) (h : list (list Z)) : list (list Z) :=
  match i with
  | O => h
  | S i' => shift_history i' (<[i := strncpy (replicate MAX_INPUT 0) (default [] (h !! i')) MAX_INPUT]> h)
  end.

Definition save_to_history : M shell unit :=
  s <- get ;;
  if buf_size s =? 0 then ret tt else
  if (buf_size s <? 0) || (Z.of_nat MAX_INPUT <=? buf_size s) then undef "history index" else
  let h := shift_history (MAX_HISTORY - 1) (history s) in
  let h0 := <[Z.to_nat (buf_size s) := 0]> (strncpy (default [] (h !! 0%nat)) (input s) MAX_INPUT) in
  modify (set_history (<[0%nat := h0]> h)
    (if history_count s <? Z.of_nat MAX_HISTORY then history_count s + 1 else history_count s)).

Definition handle_new_line : M shell unit := save_to_history ;; write_sizeof [62; 32].

(** ** Tokens *)

(** The loop of [tokenize_input] over the rest of the line, at index [i]: the
    rest with NULs behind the tokens, and the array of their starts; [None] past
    the end of the buffer. *)
Fixpoint tokenize (rest : list Z) (i : nat) (in_token : bool) (argv : list nat) : option (list Z * list nat) :=
  match rest with
  | [] => None
  | c :: rest' =>
      if (c =? 0) || Nat.leb MAX_ARGS (length argv) then Some (rest, argv) else
      if c =? 32 then
        (fun r => ((if in_token then 0 else c) :: fst r, snd r)) <$> tokenize rest' (S i) false argv
      else
        (fun r => (c :: fst r, snd r)) <$> tokenize rest' (S i) true (if in_token then argv else argv ++ [i])
  end.

(** The tokens; [argv[argc] = NULL] is outside of the array when it is full. *)
Definition tokenize_input (input_copy : list Z) : M shell (list (list Z)) :=
  match tokenize input_copy 0 false [] with
  | None => undef "input without NUL"
  | Some (buf, argv) =>
      if Nat.leb MAX_ARGS (length argv) then undef "argv index"
      else ret ((fun p => cstring (drop p buf)) <$> argv)
  end.

(** ** Commands *)

Section Commands.
Context (K : kernel).

Definition exit_shell {A} : M shell A := fun s => Halt (add_event EExit s).

(** The loop of [list_programs] over the names. *)
Fixpoint list_names (n : nat) (names : list Z) : M shell unit :=
  match n with
  | O => ret tt
  | S n' =>
      match strlen names with
      | None => undef "name without NUL"
      | Some k => write (take k names) ;; write CRLF ;; list_names n' (drop (Z.to_nat SHELL_NAMELEN) names)
      end
  end.
Definition list_programs (num_programs : Z) : M shell unit :=
  if num_programs <=? 0 then undef "array size" else
  emit EGetProgNames ;;
  write CRLF ;;
  list_names (Z.to_nat num_programs) (prog_names K).

Definition int_bytes (v : Z) : list Z := (fun k => w8 (v / 2 ^ (8 * Z.of_nat k))) <$> seq 0 4.

Fixpoint list_pids (pids names : list Z) : M shell unit :=
  match pids with
  | [] => ret tt
  | pid :: pids' =>
      (if pid =? -1 then ret tt else
       write (int_bytes (pid + 48)) ;;
       write [32; 32; 32; 32; 32] ;;
       write (take (Z.to_nat SHELL_NAMELEN) names) ;;
       write CRLF) ;;
      list_pids pids' (drop (Z.to_nat SHELL_NAMELEN) names)
  end.
Definition list_processes : M shell unit :=
  emit EGetProcs ;;
  write CRLF ;;
  write_sizeof (chars "PID   THREAD NAME" ++ CRLF) ;;
  list_pids (take (Z.to_nat SHELL_NPROC) (proc_pids K)) (proc_names K).

Definition str_eq (a b : list Z) : bool := strcmp (Some a) (Some b) =? 0.

(** The name of a signal to its number; the function prints its messages and ends
    without returning the number it found. *)
Definition sig_num (name : list Z) : Z :=
  if str_eq name (chars "SIGTERM") then 1 else if str_eq name (chars "SIGKILL") then 2 else
  if str_eq name (chars "SIGINT") then 3 else if str_eq name (chars "SIGALRM") then 4 else
  if str_eq name (chars "SIGSTOP") then 5 else if str_eq name (chars "SIGCONT") then 6 else
  if str_eq name (chars "SIGPIPE") then 7 else if str_eq name (chars "SIGUSR1") then 8 else
  if str_eq name (chars "SIGUSR2") then 9 else -1.
Definition get_sig_num (name : list Z) : M shell Z :=
  (if sig_num name <? 0 then write_sizeof (chars "Signal does not exist") else ret tt) ;;
  write CRLF ;;
  undef "get_sig_num returns no value".

(** In the child, a successful [_exec] does not return. *)
Definition run_program (program : list Z) : M shell Z :=
  modify (fun s => set_device_counter (device_counter s + 1) s) ;;
  emit EFork ;;
  if negb (fork_ret K =? 0) then ret 0 else
  d <- gets device_counter ;;
  emit EMsgWild ;;
  emit (EDevOpen 0 (chars "ser") d) ;;
  if devopen_ret K <? 0 then emit (EMsg (chars "_devopen failed")) ;; exit_shell else
  emit (EFsOpen 2 program) ;;
  if fsopen_ret K <? 0 then emit (EMsg (chars "_fsopen failed")) ;; exit_shell else
  emit (EExec 2) ;;
  ret (-2).

Definition print_help : M shell unit :=
  write_sizeof CRLF ;;
  write_sizeof (chars "Supported commands:" ++ CRLF) ;;
  write_sizeof (chars " - list: List runnable programs" ++ CRLF) ;;
  write_sizeof (chars " - run <program>: Run a program" ++ CRLF) ;;
  write_sizeof (chars " - clear: Clear the screen" ++ CRLF) ;;
  write_sizeof (chars " - exit: Exit the shell" ++ CRLF) ;;
  write_sizeof (chars " - help: Display this help message" ++ CRLF) ;;
  write_sizeof (chars " - ps: List currently running processes" ++ CRLF).

(** [signal SIGNAL_NAME PID]; an invalid number is reported and used anyway. *)
Definition send_signal (argv : list (list Z)) : M shell unit :=
  match argv with
  | [_; name; num] =>
      match parse_int num with
      | None => undef "overflow of int"
      | Some pid =>
          (if (pid <? 0) || (SHELL_NPROC - 1 <? pid)
           then write CRLF ;; write_sizeof (chars "Invalid PID" ++ CRLF) else ret tt) ;;
          result <- get_sig_num name ;;
          if result <? 0 then ret tt else emit (ESignal pid result)
      end
  | _ =>
      write CRLF ;;
      write_sizeof (chars "Usage: signal SIGNAL_NAME PID") ;;
      write CRLF
  end.

Definition execute_command (argv : list (list Z)) : M shell unit :=
  match argv with
  | [] => write_sizeof CRLF
  | cmd :: args =>
      if strncmp cmd (chars "list") 4 =? 0 then emit EGetNumProgs ;; list_programs (num_progs K)
      else if str_eq cmd (chars "run") then
        match args with
        | [program] =>
            result <- run_program program ;;
            (if result <? 0 then write_sizeof (chars "failed to run program") else ret tt) ;;
            write CRLF
        | _ => write CRLF ;; write_sizeof (chars "usage: run <program>" ++ CRLF)
        end
      else if str_eq cmd (chars "help") then print_help
      else if str_eq cmd (chars "exit") then emit (EMsg (chars "exiting shell" ++ [10])) ;; exit_shell
      else if str_eq cmd (chars "clear") then write [27; 91; 50; 74; 27; 91; 72]
      else if str_eq cmd (chars "ps") then list_processes
      else if str_eq cmd (chars "signal") then send_signal argv
      else write_sizeof CRLF ;; write_sizeof (chars "unsupported command") ;; write_sizeof CRLF
  end.

(** ** The main loop *)

(** [for (int i = 0; i < MAX_ARGS; i++) _msgout(argv[i]);]: the entries from [argc]
    on are NULL or were never set. *)
Definition debug_args (argv : list (list Z)) : M shell unit :=
  for_upto MAX_ARGS 0 (fun i =>
    match argv !! Z.to_nat i with Some w => emit (EMsg w) | None => emit EMsgWild end).

Definition enter_line : M shell unit :=
  s <- get ;;
  argv <- tokenize_input (input s) ;;
  execute_command argv ;;
  handle_new_line ;;
  debug_args argv ;;
  modify (fun s => set_history_pos (-1) (set_line 0 0 (set_input (replicate MAX_INPUT 0) s))).

(** A character that starts no escape sequence. *)
Definition handle_char (c : Z) : M shell unit :=
  if c =? 13 then enter_line else
  if c =? 127 then
    s <- get ;;
    if (0 <? cursor_pos s) && (0 <? buf_size s) then handle_backspace_char else ret tt
  else insert_char c.

(** The loop on the characters that [_read] gives, [None] for an error; it ends
    when there are no more, waiting for the next.  After ESC it reads two more. *)
Fixpoint shell_loop (keys : list (option Z)) : M shell unit :=
  match keys with
  | [] => ret tt
  | None :: _ => emit (EMsg (chars "error encountered.")) ;; exit_shell
  | Some c :: keys' =>
      if c =? 27 then
        match keys' with
        | Some s0 :: Some s1 :: keys'' =>
            (if s0 =? 91 then handle_arrow_keys s1 else handle_char c) ;; shell_loop keys''
        | [] | [Some _] => ret tt
        | _ => undef "character that was not read"
        end
      else handle_char c ;; shell_loop keys'
  end.

(** The first character only starts the shell. *)
Definition shell_main (keys : list (option Z)) : M shell unit :=
  match keys with
  | [] => ret tt
  | _ :: keys' =>
      write_sizeof [62; 32] ;;
      modify (fun s => set_history (history s) 0 (set_history_pos (-1) (set_line 0 0 s))) ;;
      shell_loop keys'
  end.
End Commands.

(** The globals at the start of the program. *)
Definition shell_start : shell :=
  MkSh (replicate MAX_INPUT 0) 0 0 (replicate MAX_HISTORY (replicate MAX_INPUT 0)) 0 0 1 [].
