(* ===== verification/ShellProps.v ===== *)
(** * Theorems on the shell (shell.c)

    The line editor against an editor on two lists, the characters before and
    behind the cursor; the screen a terminal shows; words and commands; the
    bounds of all buffers. *)

From stdpp Require Import base list strings numbers.
From Stdlib Require Import Lia ZArith.
From S2P Require Import Prelude CString Strtok Shell.
Local Open Scope Z_scope.
Local Open Scope kern_scope.

(** ** Array loops *)

Lemma input_get_mid s l c r : input s = l ++ c :: r -> input_get (Z.of_nat (length l)) s = Done c s.
Proof.
  intros E. unfold input_get. rewrite (proj2 (Z.ltb_ge _ 0)) by lia. rewrite Nat2Z.id, E.
  by rewrite list_lookup_middle.
Qed.

Lemma input_put_mid s l c d r :
  input s = l ++ c :: r -> input_put (Z.of_nat (length l)) d s = Done tt (set_input (l ++ d :: r) s).
Proof.
  intros E. unfold input_put. rewrite (proj2 (Z.ltb_ge _ 0)) by lia. rewrite E, length_app. cbn [length].
  rewrite (proj2 (Z.leb_gt _ _)) by lia. cbn [orb]. rewrite Nat2Z.id, insert_app_r_alt, Nat.sub_diag by lia. done.
Qed.

(** Opens a gap in front of [a]: some character [z] is left in it. *)
Lemma shift_right_run l : forall a x r s,
  input s = l ++ a ++ x :: r ->
  exists z, shift_right (length a) (Z.of_nat (length l + length a)) s = Done tt (set_input (l ++ z :: a ++ r) s).
Proof.
  intros a. induction a as [|y a IH] using rev_ind; intros x r s E.
  - exists x. cbn in *. rewrite <- E. by destruct s.
  - rewrite length_app. cbn [length]. rewrite <- app_assoc in E. cbn [app] in E.
    rewrite app_assoc in E. replace (length a + 1)%nat with (S (length a)) by lia. cbn [shift_right].
    assert (E1 : input_get (Z.of_nat (length l + S (length a)) - 1) s = Done y s).
    { replace (Z.of_nat (length l + S (length a)) - 1) with (Z.of_nat (length (l ++ a))) by (rewrite length_app; lia).
      by apply (input_get_mid s (l ++ a) y (x :: r)). }
    mstep E1.
    assert (E2 : input_put (Z.of_nat (length l + S (length a))) y s =
      Done tt (set_input ((l ++ a ++ [y]) ++ y :: r) s)).
    { replace (Z.of_nat (length l + S (length a))) with (Z.of_nat (length (l ++ a ++ [y]))) by (rewrite !length_app; cbn; lia).
      apply (input_put_mid s _ x). by rewrite E, <- !app_assoc. }
    mstep E2. replace (Z.of_nat (length l + S (length a)) - 1) with (Z.of_nat (length l + length a)) by lia.
    destruct (IH y (y :: r) (set_input ((l ++ a ++ [y]) ++ y :: r) s)) as (z & E3); [cbn; by rewrite <- !app_assoc|].
    exists z. rewrite E3. by rewrite <- !app_assoc.
Qed.

Lemma last_cons_default (a : list Z) : forall b y d, List.last (b :: a) y = List.last (b :: a) d.
Proof. induction a as [|c a IH]; intros b y d; [done|]. change (List.last (c :: a) y = List.last (c :: a) d). apply IH. Qed.

(** Moves [a] over [d]; what was last stays behind. *)
Lemma shift_left_run : forall a l d r s,
  input s = l ++ d :: a ++ r ->
  shift_left (length a) (Z.of_nat (length l)) s = Done tt (set_input (l ++ a ++ List.last a d :: r) s).
Proof.
  induction a as [|y a IH]; intros l d r s E; [cbn in *; rewrite <- E; by destruct s|].
  cbn [length shift_left].
  assert (E1 : input_get (Z.of_nat (length l) + 1) s = Done y s).
  { replace (Z.of_nat (length l) + 1) with (Z.of_nat (length (l ++ [d]))) by (rewrite length_app; cbn; lia).
    apply (input_get_mid s (l ++ [d]) y (a ++ r)). rewrite E. by rewrite <- app_assoc. }
  mstep E1. mstep (input_put_mid s l d y ((y :: a) ++ r) E).
  replace (Z.of_nat (length l) + 1) with (Z.of_nat (length (l ++ [y]))) by (rewrite length_app; cbn; lia).
  rewrite (IH (l ++ [y]) y r); [|cbn; by rewrite <- app_assoc].
  rewrite <- app_assoc. cbn [app]. destruct a as [|b a]; [done|]. by rewrite (last_cons_default a b y d).
Qed.

Lemma for_write n i l s : for_upto n i (fun _ => write l) s =
  Done tt (MkSh (input s) (buf_size s) (cursor_pos s) (history s) (history_count s) (history_pos s) (device_counter s)
    (trace s ++ replicate n (EWrite l))).
Proof.
  revert i s. induction n as [|n IH]; intros i s; cbn; [rewrite app_nil_r; by destruct s|].
  unfold bind, write, emit, modify. rewrite IH. cbn. by rewrite <- app_assoc.
Qed.

Lemma write_step l s : write l s = Done tt (add_event (EWrite l) s).
Proof. done. Qed.
Lemma write_input_step i n s :
  write_input i n s = Done tt (add_event (EWrite (take (Z.to_nat n) (drop (Z.to_nat i) (input s)))) s).
Proof. done. Qed.
Lemma modify_step {St} (f : St -> St) s : modify f s = Done tt (f s).
Proof. done. Qed.
Lemma get_step {St} (s : St) : get s = Done s s.
Proof. done. Qed.

(** ** One editing step, on any buffer *)

(** The line and the events after it. *)
Definition edited (line : list Z) (size cur : Z) (ev : list event) (s : shell) : shell :=
  MkSh line size cur (history s) (history_count s) (history_pos s) (device_counter s) (trace s ++ ev).

(** The buffer holds [before] and [behind] the cursor and [rest] beyond the line. *)
Record holds (s : shell) (before behind rest : list Z) : Prop := {
  ho_input : input s = before ++ behind ++ rest;
  ho_cursor : cursor_pos s = Z.of_nat (length before);
  ho_size : buf_size s = Z.of_nat (length before + length behind);
  ho_room : (length before + length behind + length rest = MAX_INPUT)%nat
}.

Lemma insert_run s before behind x rest c :
  holds s before behind (x :: rest) -> rest <> [] ->
  insert_char c s = Done tt (edited (before ++ c :: behind ++ rest) (buf_size s + 1) (cursor_pos s + 1)
    (EWrite [c] :: EWrite behind :: replicate (length behind) (EWrite [8])) s).
Proof.
  intros [H1 H2 H3 H4] Hn. assert (Hr : (length rest <> 0)%nat) by (by destruct rest).
  unfold insert_char. unfold bind at 1, get at 1. cbn [length] in H4. unfold MAX_INPUT in *.
  rewrite (proj2 (Z.leb_gt _ _)) by lia.
  replace (Z.to_nat (buf_size s - cursor_pos s)) with (length behind) by lia.
  destruct (shift_right_run before behind x rest s H1) as (z & E1). rewrite H3. mstep E1.
  rewrite H2. mstep (input_put_mid (set_input (before ++ z :: behind ++ rest) s) before z c (behind ++ rest) eq_refl).
  mstep (modify_step (set_line (Z.of_nat (length before + length behind) + 1) (Z.of_nat (length before) + 1))
    (set_input (before ++ c :: behind ++ rest) (set_input (before ++ z :: behind ++ rest) s))).
  do 2 (rewrite (bind_Done _ _ _ _ _ (write_input_step _ _ _))). unfold write_times.
  replace (Z.to_nat (Z.of_nat (length before + length behind) + 1 - (Z.of_nat (length before) + 1)))
    with (length behind) by lia.
  rewrite for_write. cbn. unfold edited. do 2 f_equal. rewrite <- !app_assoc. cbn. do 2 f_equal.
  - do 2 f_equal. replace (Z.to_nat (Z.of_nat (length before) + 1 - 1)) with (length before) by lia.
    rewrite drop_app_length. done.
  - do 2 f_equal.
    replace (Z.to_nat (Z.of_nat (length before) + 1)) with (length (before ++ [c])) by (rewrite length_app; cbn; lia).
    replace (before ++ c :: behind ++ rest) with ((before ++ [c]) ++ behind ++ rest) by (by rewrite <- app_assoc).
    by rewrite drop_app_length, take_app_length.
Qed.

Lemma backspace_run s before d behind x rest :
  holds s (before ++ [d]) behind (x :: rest) ->
  handle_backspace_char s = Done tt (edited (before ++ behind ++ x :: x :: rest) (buf_size s - 1) (cursor_pos s - 1)
    (EWrite [8] :: EWrite behind :: EWrite [32] :: replicate (S (length behind)) (EWrite [8])) s).
Proof.
  intros [H1 H2 H3 H4]. rewrite length_app in H2, H3. cbn [length] in H2, H3. rewrite <- app_assoc in H1. cbn [app] in H1.
  unfold handle_backspace_char. mstep (get_step s). cbv zeta.
  mstep (modify_step (set_line (buf_size s - 1) (cursor_pos s - 1)) s).
  replace (Z.to_nat (buf_size s - 1 + 1 - (cursor_pos s - 1))) with (length (behind ++ [x])) by (rewrite length_app; cbn; lia).
  replace (cursor_pos s - 1) with (Z.of_nat (length before)) by lia.
  assert (E : input (set_line (buf_size s - 1) (Z.of_nat (length before)) s) = before ++ d :: (behind ++ [x]) ++ rest).
  { cbn. rewrite H1. by rewrite <- app_assoc. }
  mstep (shift_left_run (behind ++ [x]) before d rest _ E). rewrite List.last_last.
  mstep (write_step [8] (set_input (before ++ (behind ++ [x]) ++ x :: rest) (set_line (buf_size s - 1) (Z.of_nat (length before)) s))).
  rewrite (bind_Done _ _ _ _ _ (write_input_step _ _ _)). rewrite (bind_Done _ _ _ _ _ (write_step _ _)).
  unfold write_times. replace (Z.to_nat (buf_size s - 1 + 1 - Z.of_nat (length before))) with (S (length behind)) by lia.
  replace (Z.to_nat (buf_size s - 1 - Z.of_nat (length before))) with (length behind) by lia.
  rewrite for_write. cbn [input buf_size cursor_pos history history_count history_pos device_counter trace add_event set_input set_line].
  unfold edited. rewrite <- !app_assoc. cbn [app]. rewrite Nat2Z.id, drop_app_length, take_app_length. done.
Qed.

Lemma holds_edited s before behind rest size cur ev :
  size = Z.of_nat (length before + length behind) -> cur = Z.of_nat (length before) ->
  (length before + length behind + length rest = MAX_INPUT)%nat ->
  holds (edited (before ++ behind ++ rest) size cur ev s) before behind rest.
Proof. by constructor. Qed.

(** ** The reference editor *)

(** The line as the characters before and behind the cursor. *)
Abbreviation zipper := (list Z * list Z)%type.
Definition text (z : zipper) : list Z := fst z ++ snd z.

Inductive key := KChar (c : Z) | KLeft | KRight | KBack.
#[export] Instance key_eq_dec : EqDecision key.
Proof. solve_decision. Defined.

(** What the terminal sends for a key. *)
Definition sends (k : key) : list Z :=
  match k with KChar c => [c] | KLeft => [27; 91; 68] | KRight => [27; 91; 67] | KBack => [127] end.
Definition sends_all (ks : list key) : list (option Z) := Some <$> (ks ≫= sends).

(** Keys that are plain text: printable characters. *)
Definition plain (k : key) : Prop := match k with KChar c => 32 <= c < 127 \/ 127 < c < 256 | _ => True end.

Definition edit (z : zipper) (k : key) : zipper :=
  match k with
  | KChar c => if Nat.ltb (length (text z)) (MAX_INPUT - 1) then (fst z ++ [c], snd z) else z
  | KLeft => match rev (fst z) with [] => z | c :: l => (rev l, c :: snd z) end
  | KRight => match snd z with [] => z | c :: r => (fst z ++ [c], r) end
  | KBack => match rev (fst z) with [] => z | _ :: l => (rev l, snd z) end
  end.

(** ** The screen *)

(** One row of a terminal, its column, and the position in an escape sequence. *)
Record term := MkTerm { row : Z -> Z; col : Z; esc : nat }.
Definition blank : term := MkTerm (fun _ => 32) 0 0.

Definition term_byte (t : term) (c : Z) : term :=
  match esc t with
  | 1%nat => MkTerm (row t) (col t) (if c =? 91 then 2 else 0)
  | 2%nat => MkTerm (row t) (if c =? 68 then col t - 1 else if c =? 67 then col t + 1 else col t) 0
  | _ =>
      if c =? 27 then MkTerm (row t) (col t) 1 else
      if c =? 8 then MkTerm (row t) (col t - 1) 0 else
      if c =? 13 then MkTerm (row t) 0 0 else
      if c =? 10 then MkTerm (fun _ => 32) (col t) 0 else
      if c <? 32 then t else
      MkTerm (fun i => if i =? col t then c else row t i) (col t + 1) 0
  end.
Definition term_event (t : term) (e : event) : term :=
  match e with EWrite l => foldl term_byte t l | _ => t end.
Definition screen (tr : list event) : term := foldl term_event blank tr.

(** The row shows the prompt's two columns, the line, and blanks; the cursor is
    where it is in the line. *)
Definition displays (t : term) (z : zipper) : Prop :=
  esc t = 0%nat /\ col t = 2 + Z.of_nat (length (fst z)) /\
  forall i, 0 <= i -> row t (2 + i) = default 32 (text z !! Z.to_nat i).

Lemma screen_app tr ev : screen (tr ++ ev) = foldl term_event (screen tr) ev.
Proof. apply foldl_app. Qed.

(** Text overwrites the row. *)
Lemma term_text l : forall t, esc t = 0%nat -> Forall (fun c => 32 <= c) l ->
  let t' := foldl term_byte t l in
  esc t' = 0%nat /\ col t' = col t + Z.of_nat (length l) /\
  forall i, row t' i = if decide (col t <= i < col t + Z.of_nat (length l)) then default 0 (l !! Z.to_nat (i - col t)) else row t i.
Proof.
  induction l as [|c l IH]; intros t He Hl; cbn [foldl].
  { split; [done|]. split; [cbn; lia|]. intros i. cbn. rewrite decide_False; [done|lia]. }
  apply Forall_cons_1 in Hl as [Hc Hl].
  assert (Eb : term_byte t c = MkTerm (fun i => if i =? col t then c else row t i) (col t + 1) 0).
  { unfold term_byte. rewrite He. repeat (rewrite (proj2 (Z.eqb_neq c _)) by lia). by rewrite (proj2 (Z.ltb_ge c 32)) by lia. }
  rewrite Eb. destruct (IH (MkTerm (fun i => if i =? col t then c else row t i) (col t + 1) 0) eq_refl Hl) as (I1 & I2 & I3).
  cbn [col row esc] in *.
  split; [done|]. split; [cbn; lia|]. intros i. rewrite I3. cbn [length].
  destruct (Z.eqb_spec i (col t)) as [-> |Hi]; repeat case_decide; try lia; try done.
  - by rewrite Z.sub_diag.
  - replace (Z.to_nat (i - col t)) with (S (Z.to_nat (i - (col t + 1)))) by lia. done.
Qed.

Lemma term_backs n : forall t, esc t = 0%nat ->
  foldl term_event t (replicate n (EWrite [8])) = MkTerm (row t) (col t - Z.of_nat n) 0.
Proof.
  induction n as [|n IH]; intros t He; cbn [replicate foldl].
  - destruct t as [r c e]. cbn in *. subst. by rewrite Z.sub_0_r.
  - assert (E : term_event t (EWrite [8]) = MkTerm (row t) (col t - 1) 0) by (cbn; unfold term_byte; by rewrite He).
    rewrite E, IH by done. cbn [row col]. f_equal. lia.
Qed.

Lemma lookup_text (l1 l2 : list Z) i :
  0 <= i -> (l1 ++ l2) !! Z.to_nat i = if decide (i < Z.of_nat (length l1)) then l1 !! Z.to_nat i else l2 !! Z.to_nat (i - Z.of_nat (length l1)).
Proof.
  intros Hi. case_decide; [by rewrite lookup_app_l by lia|]. rewrite lookup_app_r by lia. f_equal. lia.
Qed.

(** Rewriting the line from the cursor on with [l] and going back leaves the row
    with [l] there, and the cursor [k] columns on. *)
Lemma redraw t before l n :
  esc t = 0%nat -> Forall (fun c => 32 <= c) l -> col t = 2 + Z.of_nat (length before) ->
  (forall i, 0 <= i < Z.of_nat (length before) -> row t (2 + i) = default 32 (before !! Z.to_nat i)) ->
  (forall i, Z.of_nat (length before + length l) <= i -> row t (2 + i) = 32) ->
  let t' := foldl term_event (foldl term_byte t l) (replicate n (EWrite [8])) in
  esc t' = 0%nat /\ col t' = 2 + Z.of_nat (length before + length l) - Z.of_nat n /\
  forall i, 0 <= i -> row t' (2 + i) = default 32 ((before ++ l) !! Z.to_nat i).
Proof.
  intros He Hl Hc H1 H2. destruct (term_text l t He Hl) as (A1 & A2 & A3). cbv zeta.
  rewrite term_backs by done. cbn [esc col row]. split; [done|]. split; [lia|]. intros i Hi. rewrite A3, lookup_text by done.
  rewrite Hc. repeat case_decide; try lia.
  - replace (2 + i - (2 + Z.of_nat (length before))) with (i - Z.of_nat (length before)) by lia.
    destruct (lookup_lt_is_Some_2 l (Z.to_nat (i - Z.of_nat (length before)))) as [x Ex]; [lia|]. by rewrite Ex.
  - apply H1. lia.
  - rewrite lookup_ge_None_2 by lia. apply H2. lia.
Qed.

(** ** Simulation *)

(** The shell state that stands for [z]: the buffer holds the text and zeros, the
    screen displays it. *)
Record represents (s : shell) (z : zipper) : Prop := {
  re_holds : holds s (fst z) (snd z) (replicate (MAX_INPUT - length (text z)) 0);
  re_room : (length (text z) < MAX_INPUT)%nat;
  re_plain : Forall (fun c => 32 <= c) (text z);
  re_screen : displays (screen (trace s)) z
}.

(** What editing does not change. *)
Definition same_session (s s' : shell) : Prop :=
  history s' = history s /\ history_count s' = history_count s /\ history_pos s' = history_pos s /\
  device_counter s' = device_counter s.

Lemma insert_simulates s z c :
  represents s z -> 32 <= c ->
  exists s', insert_char c s = Done tt s' /\ represents s' (edit z (KChar c)) /\ same_session s s'.
Proof.
  intros [H1 H2 H3 (D1 & D2 & D3)] Hc. destruct z as [before behind]. unfold text in *. cbn [fst snd] in *.
  rewrite length_app in *. cbn [edit fst snd]. unfold text. cbn [fst snd]. rewrite length_app.
  destruct (Nat.ltb_spec (length before + length behind) (MAX_INPUT - 1)) as [Hr|Hr].
  - destruct (MAX_INPUT - (length before + length behind))%nat as [|[|m]] eqn:En; [unfold MAX_INPUT in *; lia|unfold MAX_INPUT in *; lia|].
    rewrite (insert_run s before behind 0 (replicate (S m) 0) c H1 ltac:(done)). eexists. split; [done|].
    split; [|done]. destruct H1 as [E1 E2 E3 E4]. rewrite length_replicate in E4.
    constructor; unfold text; cbn [fst snd]; rewrite ?length_app; cbn [length].
    + replace (before ++ c :: behind ++ replicate (S m) 0) with ((before ++ [c]) ++ behind ++ replicate (S m) 0) by (by rewrite <- app_assoc).
      replace (MAX_INPUT - (length before + 1 + length behind))%nat with (S m) by lia.
      apply holds_edited; rewrite ?length_app, ?length_replicate; cbn [length]; lia.
    + unfold MAX_INPUT in *; lia.
    + apply Forall_app in H3 as [H3a H3b]. repeat apply Forall_app_2; auto using Forall_nil_2, Forall_cons_2.
    + cbn [trace edited]. rewrite screen_app.
      change (displays (foldl term_event (foldl term_byte (screen (trace s)) (c :: behind))
        (replicate (length behind) (EWrite [8]))) (before ++ [c], behind)).
      destruct (redraw (screen (trace s)) before (c :: behind) (length behind)) as (R1 & R2 & R3); auto.
      * apply Forall_app in H3 as [_ H3]. by apply Forall_cons_2.
      * intros i Hi. rewrite D3 by lia. by rewrite lookup_app_l by lia.
      * intros i Hi. cbn [length] in Hi. rewrite D3 by lia. by rewrite lookup_ge_None_2 by (rewrite length_app; lia).
      * split; [done|]. split; [rewrite R2; cbn [fst]; rewrite length_app; cbn [length]; lia|].
        intros i Hi. rewrite R3 by done. unfold text. cbn [fst snd]. by rewrite <- app_assoc.
  - exists s. split; [|split; [|done]].
    + unfold insert_char. mstep (get_step s). destruct H1 as [E1 E2 E3 E4]. rewrite (proj2 (Z.leb_le _ _)); [done|].
      rewrite E3. unfold MAX_INPUT in *. lia.
    + constructor; unfold text; cbn [fst snd]; rewrite ?length_app; done.
Qed.

Lemma backspace_simulates s z :
  represents s z -> fst z <> [] ->
  exists s', handle_backspace_char s = Done tt s' /\ represents s' (edit z KBack) /\ same_session s s'.
Proof.
  intros [H1 H2 H3 (D1 & D2 & D3)] Hn. destruct z as [before behind]. unfold text in *. cbn [fst snd] in *.
  destruct before as [|d before _] using rev_ind; [done|]. cbn [edit fst snd]. rewrite rev_app_distr. cbn [rev app].
  rewrite rev_involutive. rewrite !length_app in *. cbn [length] in *.
  destruct (MAX_INPUT - (length before + 1 + length behind))%nat as [|m] eqn:En; [lia|]. cbn [replicate] in H1.
  rewrite (backspace_run s before d behind 0 (replicate m 0) H1). eexists. split; [done|]. split; [|done].
  destruct H1 as [E1 E2 E3 E4]. rewrite length_app in *. cbn [length] in *. rewrite length_replicate in E4.
  constructor; unfold text; cbn [fst snd]; rewrite ?length_app; cbn [length].
  - replace (MAX_INPUT - (length before + length behind))%nat with (S (S m)) by lia.
    apply holds_edited; rewrite ?length_app, ?length_replicate; cbn [length]; lia.
  - lia.
  - rewrite <- app_assoc in H3. apply Forall_app in H3 as [H3a H3b]. apply Forall_cons_1 in H3b as [_ H3b]. by apply Forall_app_2.
  - cbn [trace edited]. rewrite screen_app.
    assert (Et : foldl term_event (screen (trace s)) [EWrite [8]] =
      MkTerm (row (screen (trace s))) (2 + Z.of_nat (length before)) 0).
    { change [EWrite [8]] with (replicate 1 (EWrite [8])). rewrite term_backs by done. f_equal. lia. }
    change (displays (foldl term_event (foldl term_byte (foldl term_event (screen (trace s)) [EWrite [8]]) behind)
      (EWrite [32] :: replicate (S (length behind)) (EWrite [8]))) (before, behind)). rewrite Et.
    change (foldl term_event (foldl term_byte (MkTerm (row (screen (trace s))) (2 + Z.of_nat (length before)) 0) behind)
      (EWrite [32] :: replicate (S (length behind)) (EWrite [8])))
      with (foldl term_event (foldl term_byte (foldl term_byte (MkTerm (row (screen (trace s))) (2 + Z.of_nat (length before)) 0) behind) [32])
        (replicate (S (length behind)) (EWrite [8]))).
    rewrite <- foldl_app.
    destruct (redraw (MkTerm (row (screen (trace s))) (2 + Z.of_nat (length before)) 0) before (behind ++ [32]) (S (length behind)))
      as (R1 & R2 & R3); cbn [esc col row]; auto.
    + rewrite <- app_assoc in H3. apply Forall_app in H3 as [_ H3]. apply Forall_cons_1 in H3 as [_ H3].
      apply Forall_app_2; [done|]. by apply Forall_cons_2; [|apply Forall_nil_2].
    + intros i Hi. rewrite D3 by lia. rewrite !lookup_app_l by (rewrite ?length_app; lia). done.
    + intros i Hi. rewrite length_app in Hi. cbn [length] in Hi. rewrite D3 by lia.
      by rewrite lookup_ge_None_2 by (rewrite !length_app; cbn; lia).
    + split; [done|]. split; [rewrite R2; cbn [fst]; rewrite !length_app; cbn [length]; lia|].
      intros i Hi. rewrite R3 by done. unfold text. cbn [fst snd]. rewrite app_assoc, lookup_text by done.
      case_decide; [done|]. rewrite (lookup_ge_None_2 (before ++ behind)) by lia.
      destruct (Z.to_nat (i - _)) as [|[|?]]; done.
Qed.

(** Moving the cursor within the text. *)
Lemma move_simulates s z z' ev :
  represents s z -> text z' = text z ->
  foldl term_event (screen (trace s)) ev = MkTerm (row (screen (trace s))) (2 + Z.of_nat (length (fst z'))) 0 ->
  represents (edited (input s) (buf_size s) (Z.of_nat (length (fst z'))) ev s) z'.
Proof.
  intros [H1 H2 H3 (D1 & D2 & D3)] Ht Ev. destruct H1 as [E1 E2 E3 E4].
  assert (Hl : (length (fst z') + length (snd z') = length (text z))%nat) by (rewrite <- Ht; unfold text; rewrite length_app; lia).
  assert (Hl2 : (length (fst z) + length (snd z) = length (text z))%nat) by (unfold text; rewrite length_app; lia).
  constructor; rewrite ?Ht; auto.
  - constructor; cbn [input cursor_pos buf_size edited]; [|done|lia|rewrite length_replicate; lia].
    rewrite E1, !app_assoc. f_equal. symmetry. exact Ht.
  - cbn [trace edited]. rewrite screen_app, Ev. split; [done|]. split; [done|]. intros i Hi. cbn [row]. rewrite Ht. by apply D3.
Qed.

Lemma arrow_bytes t c : esc t = 0%nat -> c = 68 \/ c = 67 ->
  foldl term_event t [EWrite [27; 91; c]] = MkTerm (row t) (if c =? 68 then col t - 1 else col t + 1) 0.
Proof. intros He [-> | ->]; cbn; unfold term_byte; rewrite He; done. Qed.

Lemma arrow_simulates s z k :
  represents s z -> k = KLeft \/ k = KRight ->
  exists s', handle_arrow_keys (if decide (k = KLeft) then 68 else 67) s = Done tt s' /\
    represents s' (edit z k) /\ same_session s s'.
Proof.
  intros HR Hk. pose proof HR as [[E1 E2 E3 E4] H2 H3 (D1 & D2 & D3)]. destruct z as [before behind]. cbn [fst snd] in *.
  unfold handle_arrow_keys. destruct Hk as [-> | ->].
  - rewrite decide_True by done. mstep (get_step s). change (68 =? 68) with true. cbn [andb].
    destruct before as [|d before _] using rev_ind.
    + rewrite E2. exists s. by split_and!.
    + rewrite length_app in E2, D2. cbn [length] in E2, D2. rewrite (proj2 (Z.ltb_lt 0 _)) by lia. cbn [edit fst snd].
      rewrite rev_app_distr. cbn [rev app]. rewrite rev_involutive. eexists. split; [done|]. split; [|done].
      replace (cursor_pos s - 1) with (Z.of_nat (length before)) by lia.
      apply (move_simulates s (before ++ [d], behind) (before, d :: behind) [EWrite [27; 91; 68]] HR).
      * unfold text. cbn [fst snd]. by rewrite <- app_assoc.
      * rewrite arrow_bytes by auto. cbn [fst]. f_equal. cbn. lia.
  - rewrite decide_False by done. mstep (get_step s). change (67 =? 68) with false. change (67 =? 67) with true. cbn [andb].
    destruct behind as [|c behind].
    + cbn [length] in E3. rewrite (proj2 (Z.ltb_ge _ _)) by lia. exists s. by split_and!.
    + cbn [length] in E3. rewrite (proj2 (Z.ltb_lt _ _)) by lia. cbn [edit fst snd]. eexists. split; [done|]. split; [|done].
      replace (cursor_pos s + 1) with (Z.of_nat (length (before ++ [c]))) by (rewrite length_app; cbn; lia).
      apply (move_simulates s (before, c :: behind) (before ++ [c], behind) [EWrite [27; 91; 67]] HR).
      * unfold text. cbn [fst snd]. by rewrite <- app_assoc.
      * rewrite arrow_bytes by auto. cbn [fst]. f_equal. rewrite length_app. cbn. lia.
Qed.

(** ** Sequences of keys *)

Section Loop.
Context (K : kernel).

Lemma key_simulates s z k :
  represents s z -> plain k ->
  exists s', (forall rest, shell_loop K ((Some <$> sends k) ++ rest) s = shell_loop K rest s') /\
    represents s' (edit z k) /\ same_session s s'.
Proof.
  intros HR Hk. destruct k as [c| | |].
  - cbn [plain] in Hk. destruct (insert_simulates s z c HR ltac:(lia)) as (s' & E & H). exists s'. split; [|done].
    intros rest. cbn. rewrite (proj2 (Z.eqb_neq c 27)) by lia. unfold handle_char.
    rewrite (proj2 (Z.eqb_neq c 13)), (proj2 (Z.eqb_neq c 127)) by lia. by mstep E.
  - destruct (arrow_simulates s z KLeft HR (or_introl eq_refl)) as (s' & E & H). exists s'. split; [|done].
    rewrite decide_True in E by done. intros rest.
    change ((handle_arrow_keys 68 ;; shell_loop K rest) s = shell_loop K rest s'). by mstep E.
  - destruct (arrow_simulates s z KRight HR (or_intror eq_refl)) as (s' & E & H). exists s'. split; [|done].
    rewrite decide_False in E by done. intros rest.
    change ((handle_arrow_keys 67 ;; shell_loop K rest) s = shell_loop K rest s'). by mstep E.
  - pose proof HR as [[E1 E2 E3 E4] H2 H3 _]. destruct (decide (fst z = [])) as [Hn|Hn].
    + exists s. rewrite Hn in E2. split; [|cbn [edit]; rewrite Hn; by split_and!].
      intros rest. change ((handle_char K 127 ;; shell_loop K rest) s = shell_loop K rest s).
      assert (E : handle_char K 127 s = Done tt s) by (unfold handle_char; cbn; unfold bind, get; by rewrite E2).
      by mstep E.
    + destruct (backspace_simulates s z HR Hn) as (s' & E & H). exists s'. split; [|done].
      assert (length (fst z) <> 0)%nat by (by destruct (fst z)).
      intros rest. change ((handle_char K 127 ;; shell_loop K rest) s = shell_loop K rest s').
      assert (E' : handle_char K 127 s = Done tt s').
      { unfold handle_char. cbn [Z.eqb Pos.eqb]. mstep (get_step s).
        by rewrite (proj2 (Z.ltb_lt 0 (cursor_pos s))), (proj2 (Z.ltb_lt 0 (buf_size s))) by lia. }
      by mstep E'.
Qed.

Lemma keys_simulate ks : forall s z, represents s z -> Forall plain ks ->
  exists s', (forall rest, shell_loop K (sends_all ks ++ rest) s = shell_loop K rest s') /\
    represents s' (foldl edit z ks) /\ same_session s s'.
Proof.
  induction ks as [|k ks IH]; intros s z HR Hk; [exists s; by split_and!|].
  apply Forall_cons_1 in Hk as [Hk Hks]. destruct (key_simulates s z k HR Hk) as (s1 & E1 & HR1 & S1).
  destruct (IH s1 (edit z k) HR1 Hks) as (s2 & E2 & HR2 & S2). exists s2. split; [|split; [done|]].
  - intros rest. unfold sends_all. cbn [mbind list_bind]. rewrite fmap_app, <- app_assoc, E1. apply E2.
  - destruct S1 as (A1 & A2 & A3 & A4), S2 as (B1 & B2 & B3 & B4). repeat split; congruence.
Qed.

(** C20: The line editor refines an editor on two lists.  From a line the buffer
    and the screen agree on, any sequence of printable characters, left and right
    arrows and backspaces (sent as the terminal sends them, escape sequences
    included) leaves the buffer with exactly the text that the reference editor
    computes, zeros behind it, the cursor and the length of that text; characters
    that do not fit in 63 are ignored; and a terminal that executes the output shows
    exactly this line with the cursor at the same place.  The history is not
    touched. *)
Theorem shell_edits ks s z :
  represents s z -> Forall plain ks ->
  exists s', shell_loop K (sends_all ks) s = Done tt s' /\ represents s' (foldl edit z ks) /\ same_session s s'.
Proof.
  intros HR Hk. destruct (keys_simulate ks s z HR Hk) as (s' & E & H). exists s'. split; [|done].
  specialize (E []). by rewrite app_nil_r in E.
Qed.
End Loop.

Lemma start_represents : represents (add_event (EWrite [62; 32; 0]) shell_start) ([], []).
Proof.
  constructor; [by constructor|cbn; unfold MAX_INPUT; lia|apply Forall_nil_2|].
  split; [done|]. split; [done|]. intros i Hi. unfold screen, text. cbn [fst snd app]. rewrite lookup_nil.
  change (row (foldl term_event blank _) (2 + i))
    with (if 2 + i =? 1 then 32 else if 2 + i =? 0 then 62 else 32).
  zbool; done || lia.
Qed.

(** "ps" typed as "p", "x", left, "s", right, backspace. *)
Lemma shell_edits_witness :
  exists K s', shell_loop K (sends_all [KChar 112; KChar 120; KLeft; KChar 115; KRight; KBack])
      (add_event (EWrite [62; 32; 0]) shell_start) = Done tt s' /\
    represents s' ([112; 115], []).
Proof.
  exists (MkKernel 0 [] [] [] 1 0 0).
  destruct (shell_edits (MkKernel 0 [] [] [] 1 0 0) [KChar 112; KChar 120; KLeft; KChar 115; KRight; KBack] _ _
    start_represents) as (s' & E & HR & _).
  { repeat apply Forall_cons_2; try apply Forall_nil_2; cbn; lia || exact I. }
  exists s'. split; [exact E|exact HR].
Defined.

(** ** Words *)

Definition is_space (c : Z) : bool := c =? 32.

(** Start [p] is that of the finished token [w] in the part [pre] of the buffer
    that the loop is done with. *)
Definition finished (pre : list Z) (p : nat) (w : list Z) : Prop :=
  exists mid, drop p pre = w ++ 0 :: mid /\ Forall (fun c => c <> 0) w /\ (p <= length pre)%nat.

Lemma finished_app pre p w l : finished pre p w -> finished (pre ++ l) p w.
Proof.
  intros (mid & E & Hw & Hp). exists (mid ++ l). rewrite drop_app_le, E by done.
  rewrite <- app_assoc, length_app. split; [done|]. split; [done|lia].
Qed.

Lemma finished_read pre p w l : finished pre p w -> cstring (drop p (pre ++ l)) = w.
Proof. intros (mid & E & Hw & Hp). rewrite drop_app_le, E, <- app_assoc by done. by apply cstring_stop. Qed.

Lemma finished_all pre starts ws l :
  Forall2 (finished pre) starts ws -> ((fun p => cstring (drop p (pre ++ l))) <$> starts) = ws.
Proof.
  induction 1 as [|p w starts ws H1 _ IH]; [done|]. cbn. rewrite IH. by rewrite (finished_read pre p w l H1).
Qed.

Lemma tokenize_words line : forall pre cur starts ws post,
  Forall (fun c => c <> 0) (cur ++ line) -> Forall2 (finished pre) starts ws ->
  (length ws + length (words_aux is_space cur line) < MAX_ARGS)%nat ->
  exists rest argv,
    tokenize (line ++ 0 :: post) (length (pre ++ cur)) (match cur with [] => false | _ => true end)
      (starts ++ match cur with [] => [] | _ => [length pre] end) = Some (rest, argv) /\
    ((fun p => cstring (drop p ((pre ++ cur) ++ rest))) <$> argv) = ws ++ words_aux is_space cur line.
Proof.
  induction line as [|c line IH]; intros pre cur starts ws post Hz Hf Hlen.
  - eexists _, _. split; [reflexivity|]. rewrite app_nil_r in Hz. rewrite fmap_app. f_equal.
    + rewrite <- app_assoc. by apply finished_all.
    + destruct cur as [|y cur]; [done|]. cbn [words_aux flush fmap list_fmap].
      rewrite <- app_assoc, drop_app_length, cstring_stop; done.
  - apply Forall_app in Hz as [Hz1 Hz2]. apply Forall_cons_1 in Hz2 as [Hc Hz2].
    assert (Hl2 : length starts = length ws) by (by eapply Forall2_length).
    assert (Hroom : (length (starts ++ match cur with [] => [] | _ => [length pre] end) < MAX_ARGS)%nat).
    { assert (length (words_aux is_space cur (c :: line)) >= length (flush cur))%nat.
      { clear. revert cur. induction (c :: line) as [|x l IH]; intros cur; cbn; [lia|].
        destruct (is_space x); [rewrite length_app; lia|]. specialize (IH (cur ++ [x])). destruct cur; cbn in *; lia. }
      rewrite length_app. destruct cur; cbn [length flush] in *; lia. }
    cbn [app tokenize]. rewrite (proj2 (Z.eqb_neq c 0) Hc). cbn [orb].
    rewrite (proj2 (Nat.leb_gt _ _) Hroom). cbn [words_aux] in *. unfold is_space in Hlen |- *. fold is_space in *.
    destruct (Z.eqb_spec c 32) as [-> |Hsp].
    + destruct cur as [|y cur].
      * destruct (IH (pre ++ [32]) [] starts ws post) as (rest & argv & E & R); [done| |done|].
        { eapply Forall2_impl; [|exact Hf]. intros p w. apply finished_app. }
        rewrite !app_nil_r in *. rewrite length_app in E. cbn [length] in E. rewrite Nat.add_1_r in E.
        rewrite E. eexists _, _. split; [reflexivity|]. cbn [fst snd flush app]. rewrite <- app_assoc in R. exact R.
      * cbn [flush app length] in Hlen.
        destruct (IH ((pre ++ y :: cur) ++ [0]) [] (starts ++ [length pre]) (ws ++ [y :: cur]) post) as (rest & argv & E & R);
          [done| |rewrite length_app; cbn; lia|].
        { apply Forall2_app; [eapply Forall2_impl; [|exact Hf]; intros p w; rewrite <- app_assoc; apply finished_app|].
          constructor; [|constructor]. exists []. rewrite <- app_assoc, drop_app_length.
          split; [done|]. split; [done|rewrite length_app; lia]. }
        rewrite !app_nil_r in *. rewrite length_app in E. cbn [length] in E. rewrite Nat.add_1_r in E.
        rewrite E. eexists _, _. split; [reflexivity|]. cbn [fst snd flush]. rewrite <- !app_assoc in R. rewrite <- !app_assoc. exact R.
    + destruct (IH pre (cur ++ [c]) starts ws post) as (rest & argv & E & R); [|done|done|].
      { rewrite <- app_assoc. apply Forall_app_2; [done|]. by apply Forall_cons_2. }
      exists (c :: rest), argv. split.
      * destruct cur as [|y cur]; cbn [app] in E |- *.
        -- rewrite !app_nil_r. rewrite length_app in E. cbn [length] in E. rewrite Nat.add_1_r in E. by rewrite E.
        -- rewrite app_comm_cons, app_assoc, length_app in E. cbn [length] in E. rewrite Nat.add_1_r in E. by rewrite E.
      * rewrite <- R. apply list_fmap_ext. intros j p _. by rewrite <- !app_assoc.
Qed.

Lemma tokenize_full line : forall cur i argv post,
  Forall (fun c => c <> 0) line -> (length argv <= MAX_ARGS)%nat ->
  (MAX_ARGS + length (flush cur) <= length argv + length (words_aux is_space cur line))%nat ->
  exists r, tokenize (line ++ 0 :: post) i (match cur with [] => false | _ => true end) argv = Some r /\
    length (snd r) = MAX_ARGS.
Proof.
  unfold MAX_ARGS. induction line as [|c line IH]; intros cur i argv post Hz Ha Hn; cbn [app tokenize]; unfold MAX_ARGS.
  - eexists. split; [reflexivity|]. cbn [words_aux snd] in *. lia.
  - apply Forall_cons_1 in Hz as [Hc Hz]. rewrite (proj2 (Z.eqb_neq c 0) Hc). cbn [orb].
    destruct (Nat.leb_spec 10 (length argv)) as [Hm|Hm]; [eexists; split; [reflexivity|]; cbn [snd]; lia|].
    cbn [words_aux] in Hn. unfold is_space in Hn at 1. destruct (c =? 32).
    + rewrite length_app in Hn. destruct (IH [] (S i) argv post Hz Ha ltac:(cbn; lia)) as (r & E & L).
      rewrite E. eexists. split; [reflexivity|done].
    + destruct (IH (cur ++ [c]) (S i) (if match cur with [] => false | _ => true end then argv else argv ++ [i]) post Hz)
        as (r & E & L).
      * destruct cur; cbn; rewrite ?length_app; cbn; lia.
      * destruct cur; cbn in *; rewrite ?length_app; cbn; lia.
      * replace (match cur ++ [c] with [] => false | _ => true end) with true in E by (by destruct cur).
        rewrite E. eexists. split; [reflexivity|done].
Qed.

(** C29: Splitting the command line.  A line of fewer than ten words is split into
    exactly its words, the runs of characters between blanks.  With ten or more the
    terminating NULL is stored behind the end of the array of arguments. *)
Theorem tokenize_input_correct line post s :
  Forall (fun c => c <> 0) line ->
  tokenize_input (line ++ 0 :: post) s =
    if Nat.ltb (length (words is_space line)) MAX_ARGS then Done (words is_space line) s
    else Undef "argv index" s.
Proof.
  intros Hz. unfold tokenize_input. destruct (Nat.ltb_spec (length (words is_space line)) MAX_ARGS) as [Hl|Hl].
  - destruct (tokenize_words line [] [] [] [] post) as (rest & argv & E & R); [done|constructor|done|].
    cbn in E. rewrite E. apply (f_equal length) in R as R'. rewrite length_fmap in R'. cbn in R'. fold (words is_space line) in R'.
    rewrite (proj2 (Nat.leb_gt _ _)) by lia. unfold ret. f_equal. exact R.
  - destruct (tokenize_full line [] 0 [] post Hz) as ([buf argv] & E & L); [cbn; lia|exact Hl|].
    rewrite E. cbn in L. by rewrite L.
Qed.

Lemma tokenize_input_correct_witness :
  tokenize_input (chars "run  trek " ++ 0 :: [1; 2]) shell_start = Done [chars "run"; chars "trek"] shell_start /\
  tokenize_input (chars "a b c d e f g h i j" ++ 0 :: []) shell_start = Undef "argv index" shell_start.
Proof.
  split; (etransitivity; [apply tokenize_input_correct; apply (bool_decide_eq_true_1 (Forall (fun c => c <> 0) _)); by vm_compute|]);
    reflexivity.
Defined.

(** ** Strings in buffers *)

Lemma strlen_split buf k : strlen buf = Some k ->
  exists rest, buf = cstring buf ++ 0 :: rest /\ length (cstring buf) = k /\ Forall (fun c => c <> 0) (cstring buf).
Proof.
  revert k. induction buf as [|c buf IH]; intros k H; cbn in *; [done|].
  destruct (Z.eqb_spec c 0) as [-> |Hc]; [injection H as <-; exists buf; auto|].
  destruct (strlen buf) as [m|]; [|done]. injection H as <-. destruct (IH m eq_refl) as (rest & E & L & F).
  exists rest. split; [cbn; by f_equal|]. split; [cbn; by rewrite L|]. by apply Forall_cons_2.
Qed.

Lemma strlen_app l rest : Forall (fun c => c <> 0) l -> strlen (l ++ 0 :: rest) = Some (length l).
Proof.
  induction l as [|c l IH]; intros H; [done|]. apply Forall_cons_1 in H as [Hc Hl]. cbn.
  by rewrite (proj2 (Z.eqb_neq c 0) Hc), IH.
Qed.

Lemma strncpy_run l : forall rest dst n,
  Forall (fun c => c <> 0) l -> (length l < n)%nat ->
  strncpy dst (l ++ 0 :: rest) n = l ++ 0 :: drop (S (length l)) dst.
Proof.
  induction l as [|c l IH]; intros rest dst n Hl Hn; (destruct n as [|n]; [cbn in Hn; lia|]); cbn [app strncpy chr hd tl].
  - cbn. by destruct dst.
  - apply Forall_cons_1 in Hl as [Hc Hl]. rewrite (proj2 (Z.eqb_neq c 0) Hc). cbn [length] in *.
    rewrite IH by (done || lia). do 3 f_equal. destruct dst as [|d dst]; [by rewrite !drop_nil|done].
Qed.

(** A buffer of the size of a line that holds a string. *)
Definition line_buf (buf : list Z) : Prop :=
  length buf = MAX_INPUT /\ exists k, strlen buf = Some k.

Lemma line_buf_split buf : line_buf buf ->
  exists rest, buf = cstring buf ++ 0 :: rest /\ (length (cstring buf) + S (length rest) = MAX_INPUT)%nat /\
    Forall (fun c => c <> 0) (cstring buf).
Proof.
  intros (Hl & k & Hk). destruct (strlen_split buf k Hk) as (rest & E & L & F). exists rest. split; [done|]. split; [|done].
  rewrite E, length_app in Hl. cbn in Hl. lia.
Qed.

Lemma strncpy_line dst src : length dst = MAX_INPUT -> line_buf src ->
  strncpy dst src MAX_INPUT = cstring src ++ 0 :: drop (S (length (cstring src))) dst.
Proof.
  intros Hd Hs. destruct (line_buf_split src Hs) as (rest & E & L & F). rewrite E at 1. apply strncpy_run; [done|lia].
Qed.

Lemma strncpy_line_buf dst src : length dst = MAX_INPUT -> line_buf src ->
  line_buf (strncpy dst src MAX_INPUT) /\ cstring (strncpy dst src MAX_INPUT) = cstring src.
Proof.
  intros Hd Hs. destruct (line_buf_split src Hs) as (rest & E & L & F). rewrite (strncpy_line dst src Hd Hs).
  split; [split|].
  - rewrite length_app. cbn [length]. rewrite length_drop. lia.
  - eexists. by apply strlen_app.
  - by apply cstring_stop.
Qed.

(** ** History *)

Definition copy_line (src : list Z) : list Z := strncpy (replicate MAX_INPUT 0) src MAX_INPUT.

Lemma shift_history_lookup n : forall h j, (n < length h)%nat ->
  shift_history n h !! j =
    match j with
    | O => h !! O
    | S j' => if Nat.leb (S j') n then Some (copy_line (default [] (h !! j'))) else h !! S j'
    end.
Proof.
  induction n as [|n IH]; intros h j Hn; cbn [shift_history]; [destruct j as [|j]; [done|by destruct j]|].
  rewrite IH by (rewrite length_insert; lia). fold (copy_line (default [] (h !! n))).
  destruct j as [|j]; [by rewrite list_lookup_insert_ne|].
  destruct (Nat.leb_spec (S j) n), (Nat.leb_spec (S j) (S n)); try lia.
  - by rewrite list_lookup_insert_ne by lia.
  - assert (j = n) as -> by lia. by rewrite list_lookup_insert_eq by lia.
  - by rewrite list_lookup_insert_ne by lia.
Qed.

Lemma shift_history_length n : forall h, length (shift_history n h) = length h.
Proof. induction n as [|n IH]; intros h; [done|]. cbn [shift_history]. rewrite IH. apply length_insert. Qed.

(** The history holds the commands [cmds], the latest first. *)
Record remembers (s : shell) (cmds : list (list Z)) : Prop := {
  rm_length : length (history s) = MAX_HISTORY;
  rm_lines : Forall line_buf (history s);
  rm_count : history_count s = Z.of_nat (length cmds) /\ (length cmds <= MAX_HISTORY)%nat;
  rm_cmds : forall j c, cmds !! j = Some c -> cstring <$> history s !! j = Some c
}.

Lemma line_buf_zero : line_buf (replicate MAX_INPUT 0).
Proof. split; [done|]. by exists 0%nat. Qed.

(** The buffer as [save_to_history] copies it. *)
Lemma saved_line dst line rest :
  length dst = MAX_INPUT -> (length line + S (length rest) = MAX_INPUT)%nat -> Forall (fun c => c <> 0) line ->
  let h0 := <[length line := 0]> (strncpy dst (line ++ 0 :: rest) MAX_INPUT) in
  line_buf h0 /\ cstring h0 = line.
Proof.
  intros Hd Hl Hz h0. assert (E : h0 = line ++ 0 :: drop (S (length line)) dst).
  { unfold h0. rewrite strncpy_run by (done || lia). by rewrite insert_app_r_alt, Nat.sub_diag by lia. }
  rewrite E. split; [split; [rewrite length_app; cbn; rewrite length_drop; lia|]|by apply cstring_stop].
  eexists. by apply strlen_app.
Qed.

Lemma save_run s cmds line rest :
  remembers s cmds -> input s = line ++ 0 :: rest -> buf_size s = Z.of_nat (length line) ->
  (length line + S (length rest) = MAX_INPUT)%nat -> Forall (fun c => c <> 0) line -> line <> [] ->
  exists h n, save_to_history s = Done tt (set_history h n s) /\
    remembers (set_history h n s) (take MAX_HISTORY (line :: cmds)).
Proof.
  intros [R1 R2 [R3 R3'] R4] Hi Hs Hl Hz Hn. unfold save_to_history. mstep (get_step s).
  assert (length line <> 0)%nat by (by destruct line).
  rewrite (proj2 (Z.eqb_neq _ 0)), (proj2 (Z.ltb_ge _ 0)), (proj2 (Z.leb_gt _ _)) by (unfold MAX_INPUT in *; lia). cbn [orb].
  set (h := shift_history (MAX_HISTORY - 1) (history s)).
  pose proof (shift_history_lookup (MAX_HISTORY - 1) (history s)) as Hh. fold h in Hh. rewrite R1 in Hh.
  assert (Hlen : length h = MAX_HISTORY) by (unfold h; by rewrite shift_history_length).
  destruct (history s) as [|hd tl] eqn:Eh; [done|].
  assert (Hhd : line_buf hd) by (by apply Forall_cons_1 in R2 as [? _]).
  assert (H0 : h !! 0%nat = Some hd) by (rewrite Hh; [done|unfold MAX_HISTORY; lia]). rewrite H0. cbn [from_option id default].
  rewrite Hi, Hs, Nat2Z.id. destruct (saved_line hd line rest (proj1 Hhd) Hl Hz) as [S1 S2].
  set (h0 := <[length line := 0]> (strncpy hd (line ++ 0 :: rest) MAX_INPUT)) in *.
  assert (Hcopy : forall j src, (hd :: tl) !! j = Some src -> (S j < MAX_HISTORY)%nat -> h !! S j = Some (copy_line src)).
  { intros j src Hj Hjm. rewrite Hh by (unfold MAX_HISTORY; lia). rewrite (proj2 (Nat.leb_le _ _)) by lia. by rewrite Hj. }
  assert (Hsrc : forall j src, (hd :: tl) !! j = Some src -> line_buf (copy_line src) /\ cstring (copy_line src) = cstring src).
  { intros j src Hj. apply strncpy_line_buf; [done|]. by eapply Forall_lookup_1. }
  eexists _, _. split; [reflexivity|]. constructor; cbn [history history_count set_history].
  - by rewrite length_insert.
  - apply Forall_lookup_2. intros j b Hb. destruct j as [|j].
    + rewrite list_lookup_insert_eq in Hb by (rewrite Hlen; unfold MAX_HISTORY; lia). by injection Hb as <-.
    + rewrite list_lookup_insert_ne in Hb by done.
      assert (Hjm : (S j < MAX_HISTORY)%nat) by (rewrite <- Hlen; by eapply lookup_lt_Some).
      destruct (lookup_lt_is_Some_2 (hd :: tl) j) as [src Hj]; [rewrite R1; lia|].
      rewrite (Hcopy j src Hj Hjm) in Hb. injection Hb as <-. by apply (Hsrc j).
  - rewrite R3, length_take. cbn [length]. destruct (Z.ltb_spec (Z.of_nat (length cmds)) (Z.of_nat MAX_HISTORY)); lia.
  - intros j c Hc. apply lookup_take_Some in Hc as [Hc Hjm]. destruct j as [|j].
    + rewrite list_lookup_insert_eq by (rewrite Hlen; unfold MAX_HISTORY; lia). cbn. cbn in Hc. injection Hc as <-. by f_equal.
    + rewrite list_lookup_insert_ne by done. cbn in Hc. pose proof (R4 j c Hc) as H4.
      destruct ((hd :: tl) !! j) as [src|] eqn:Hj; [|done]. cbn in H4. injection H4 as <-.
      rewrite (Hcopy j src Hj Hjm). cbn. f_equal. by apply (Hsrc j).
Qed.

(** Nothing on the row right of the place for a line. *)
Definition row_end (t : term) : Prop := esc t = 0%nat /\ forall i, Z.of_nat MAX_INPUT <= i -> row t (2 + i) = 32.

Lemma term_blanks n : forall t, foldl term_event t (replicate n (EWrite [32])) = foldl term_byte t (replicate n 32).
Proof. induction n as [|n IH]; intros t; [done|]. cbn [replicate foldl]. apply IH. Qed.

(** The events that draw a line over whatever is on the row. *)
Definition draw_line (line : list Z) : list event :=
  EWrite [13; 62; 32] :: EWrite line ::
  replicate (MAX_INPUT - length line) (EWrite [32]) ++ replicate (MAX_INPUT - length line) (EWrite [8]).

Lemma draw_line_displays t line :
  row_end t -> Forall (fun c => 32 <= c) line -> (length line <= MAX_INPUT)%nat ->
  displays (foldl term_event t (draw_line line)) (line, []) /\ row_end (foldl term_event t (draw_line line)).
Proof.
  intros [He Hr] Hp Hl. set (m := (MAX_INPUT - length line)%nat). set (t0 := MkTerm (row t) 0 0).
  assert (E : foldl term_event t (draw_line line) =
    foldl term_event (foldl term_byte t0 (62 :: 32 :: line ++ replicate m 32)) (replicate m (EWrite [8]))).
  { unfold draw_line. fold m. cbn [foldl]. rewrite foldl_app, term_blanks. f_equal.
    rewrite (foldl_app _ line). f_equal. cbn [term_event]. f_equal. cbn [foldl]. do 2 f_equal.
    unfold term_byte. by rewrite He. }
  rewrite E. destruct (term_text (62 :: 32 :: line ++ replicate m 32) t0 eq_refl) as (A1 & A2 & A3).
  { repeat apply Forall_cons_2; [lia|lia|]. apply Forall_app_2; [done|]. apply Forall_replicate. lia. }
  rewrite term_backs by done. unfold displays, row_end. cbn [esc col row fst].
  cbn [length] in A2, A3. rewrite length_app, length_replicate in A2, A3. cbn [col row t0] in A2, A3.
  assert (Hm : (length line + m = MAX_INPUT)%nat) by lia.
  split; [split; [done|split; [lia|]]|split; [done|]].
  - intros i Hi. rewrite A3, Z.sub_0_r. unfold text. cbn [fst snd]. rewrite app_nil_r.
    replace (Z.to_nat (2 + i)) with (S (S (Z.to_nat i))) by lia. cbn [lookup list_lookup]. fold (lookup (Z.to_nat i) (line ++ replicate m 32)).
    case_decide.
    + rewrite lookup_text by done. case_decide.
      * destruct (lookup_lt_is_Some_2 line (Z.to_nat i)) as [x Ex]; [lia|]. by rewrite Ex.
      * rewrite lookup_replicate_2 by lia. by rewrite lookup_ge_None_2 by lia.
    + rewrite Hr by lia. by rewrite lookup_ge_None_2 by lia.
  - intros i Hi. rewrite A3, decide_False by lia. by apply Hr.
Qed.

Lemma empty_write t e ev : foldl term_event t (e :: EWrite [] :: ev) = foldl term_event t (e :: ev).
Proof. done. Qed.

(** The buffer starts with the string [c], the cursor behind it, and the screen
    displays it. *)
Record showing (s : shell) (c : list Z) : Prop := {
  sw_string : cstring (input s) = c;
  sw_size : buf_size s = Z.of_nat (length c) /\ cursor_pos s = Z.of_nat (length c);
  sw_screen : displays (screen (trace s)) (c, []) /\ row_end (screen (trace s));
  sw_line : line_buf (input s)
}.

Lemma show_history_run s cmds p c :
  remembers s cmds -> length (input s) = MAX_INPUT -> row_end (screen (trace s)) ->
  history_pos s = Z.of_nat p -> cmds !! p = Some c -> Forall (fun x => 32 <= x) c ->
  exists s', show_history s = Done tt s' /\ showing s' c /\ remembers s' cmds /\ history_pos s' = Z.of_nat p /\
    length (input s') = MAX_INPUT.
Proof.
  intros [R1 R2 [R3 R3'] R4] Hi Hr Hp Hc Hpl. assert (Hlt := lookup_lt_Some _ _ _ Hc). pose proof (R4 p c Hc) as Hh.
  unfold show_history. mstep (get_step s). rewrite Hp, R3, (proj2 (Z.leb_le 0 _)), (proj2 (Z.ltb_lt _ _)) by lia.
  cbn [andb]. rewrite Nat2Z.id. destruct (history s !! p) as [h|] eqn:Eh; [|done]. cbn in Hh. injection Hh as Hh.
  assert (Hb : line_buf h) by (by eapply Forall_lookup_1).
  destruct (line_buf_split h Hb) as (rest & _ & Hlen & Hz). rewrite Hh in *.
  destruct (strncpy_line_buf (input s) h Hi Hb) as [Hb' Hs']. rewrite Hh in Hs'.
  pose proof (strncpy_line (input s) h Hi Hb) as Ecopy. rewrite Hh in Ecopy.
  set (line := strncpy (input s) h MAX_INPUT) in *.
  assert (El : strlen line = Some (length c)) by (rewrite Ecopy; by apply strlen_app). rewrite El.
  set (s1 := set_line (Z.of_nat (length c)) (Z.of_nat (length c)) (set_input line s)).
  set (s' := MkSh line (Z.of_nat (length c)) (Z.of_nat (length c)) (history s) (history_count s) (history_pos s)
    (device_counter s) (trace s ++ draw_line c)).
  exists s'. split.
  { mstep (modify_step (fun s => set_line (Z.of_nat (length c)) (Z.of_nat (length c)) (set_input line s)) s). fold s1.
    mstep (write_step [13; 62; 32] s1). rewrite (bind_Done _ _ _ _ _ (write_input_step _ _ _)). unfold write_times.
    rewrite (bind_Done _ _ _ _ _ (for_write _ _ _ _)). rewrite for_write.
    cbn [input buf_size cursor_pos history history_count history_pos device_counter trace add_event s1 set_line set_input].
    unfold s', draw_line. do 2 f_equal. rewrite <- !app_assoc. cbn [app]. do 3 f_equal.
    { change (Z.to_nat 0) with 0%nat. f_equal. rewrite drop_0, Nat2Z.id, Ecopy. apply take_app_length. }
    by replace (Z.to_nat (Z.of_nat MAX_INPUT - Z.of_nat (length c))) with (MAX_INPUT - length c)%nat by lia. }
  destruct (draw_line_displays (screen (trace s)) c Hr Hpl ltac:(lia)) as [D1 D2].
  split; [|split; [by constructor|split; [done|apply Hb']]].
  constructor; [done|done| |done]. cbn [trace s']. by rewrite screen_app.
Qed.

(** The history.  Up and down arrows walk through the last ten commands: up
    shows the next older command and stays at the oldest, down shows the next newer
    one, and below the newest an empty line; below that it does nothing.  The line
    shown is the command that was entered, the buffer starts with it, the cursor is
    at its end, and the screen displays it and nothing else whatever was displayed
    before. *)
Theorem fetch_history_correct s cmds p :
  remembers s cmds -> length (input s) = MAX_INPUT -> row_end (screen (trace s)) ->
  Forall (Forall (fun x => 32 <= x)) cmds -> history_pos s = p -> -1 <= p < Z.of_nat (length cmds) ->
  (forall c, cmds !! Z.to_nat (p + 1) = Some c -> exists s', fetch_history 1 s = Done tt s' /\
     showing s' c /\ history_pos s' = p + 1 /\ remembers s' cmds) /\
  (p + 1 = Z.of_nat (length cmds) -> fetch_history 1 s = Done tt s) /\
  (forall c, 1 <= p -> cmds !! Z.to_nat (p - 1) = Some c -> exists s', fetch_history (-1) s = Done tt s' /\
     showing s' c /\ history_pos s' = p - 1 /\ remembers s' cmds) /\
  (p = 0 -> exists s', fetch_history (-1) s = Done tt s' /\ displays (screen (trace s')) ([], []) /\
     buf_size s' = 0 /\ cursor_pos s' = 0 /\ history_pos s' = -1 /\ remembers s' cmds) /\
  (p = -1 -> fetch_history (-1) s = Done tt s).
Proof.
  intros HR Hi Hr Hpl Hp Hrange. pose proof HR as [R1 R2 [R3 R3'] R4].
  assert (Hshow : forall q c, 0 <= q -> cmds !! Z.to_nat q = Some c -> exists s',
    (modify (set_history_pos q) ;; show_history) s = Done tt s' /\ showing s' c /\ history_pos s' = q /\ remembers s' cmds).
  { intros q c Hq Hc. destruct (show_history_run (set_history_pos q s) cmds (Z.to_nat q) c) as (s' & E & S & R & P & _); auto.
    - by constructor.
    - cbn. lia.
    - by eapply Forall_lookup_1.
    - exists s'. split; [exact E|]. split; [done|]. split; [lia|done]. }
  unfold fetch_history. split; [|split; [|split; [|split]]].
  - intros c Hc. assert (Hlt := lookup_lt_Some _ _ _ Hc). unfold bind at 1, get at 1. cbn [Z.eqb Pos.eqb].
    rewrite Hp, (proj2 (Z.eqb_neq p _)) by lia. apply Hshow; [lia|done].
  - intros He. unfold bind at 1, get at 1. cbn [Z.eqb Pos.eqb]. by rewrite Hp, (proj2 (Z.eqb_eq p _)) by lia.
  - intros c H1 Hc. unfold bind at 1, get at 1. cbn [Z.eqb Pos.eqb].
    rewrite Hp, (proj2 (Z.eqb_neq p 0)), (proj2 (Z.eqb_neq p (-1))) by lia. apply Hshow; [lia|done].
  - intros ->. unfold bind at 1, get at 1. cbn [Z.eqb Pos.eqb]. rewrite Hp. cbn [Z.eqb]. unfold clear_line.
    mstep (modify_step (fun s => set_history_pos (-1) (set_line 0 0 s)) s). rewrite (bind_Done _ _ _ _ _ (write_step _ _)).
    unfold write_times. rewrite (bind_Done _ _ _ _ _ (for_write _ _ _ _)). rewrite for_write.
    eexists. split; [reflexivity|]. cbn [trace history_pos buf_size cursor_pos add_event set_history_pos set_line].
    split; [|split; [done|split; [done|split; [done|by constructor]]]].
    rewrite <- !app_assoc, screen_app. cbn [app].
    pose proof (proj1 (draw_line_displays (screen (trace s)) [] Hr (Forall_nil_2 _) (Nat.le_0_l _))) as D.
    unfold draw_line in D. rewrite empty_write in D. rewrite Nat2Z.id. exact D.
  - intros ->. unfold bind at 1, get at 1. cbn [Z.eqb Pos.eqb]. by rewrite Hp.
Qed.

(** Two commands in the history. *)
Definition demo_shell : shell :=
  MkSh (replicate MAX_INPUT 0) 0 0 (copy_line (chars "ps" ++ [0]) :: copy_line (chars "help" ++ [0]) ::
    replicate 8 (replicate MAX_INPUT 0)) 2 (-1) 1 [EWrite [62; 32; 0]].

Lemma demo_remembers : remembers demo_shell [chars "ps"; chars "help"].
Proof.
  constructor; [done| |split; [done|cbn; unfold MAX_HISTORY; lia]|].
  - repeat apply Forall_cons_2; try apply Forall_nil_2; (split; [reflexivity|eexists; reflexivity]).
  - intros j c Hc. destruct j as [|[|j]]; cbn in Hc; [by injection Hc as <-|by injection Hc as <-|done].
Qed.

Lemma demo_row_end : row_end (screen (trace demo_shell)).
Proof.
  split; [done|]. intros i Hi. change (row (screen (trace demo_shell)) (2 + i))
    with (if 2 + i =? 1 then 32 else if 2 + i =? 0 then 62 else 32). zbool; done || (unfold MAX_INPUT in *; lia).
Qed.

Lemma fetch_history_correct_witness :
  exists s', fetch_history 1 demo_shell = Done tt s' /\ showing s' (chars "ps") /\ history_pos s' = 0 /\
    fetch_history (-1) demo_shell = Done tt demo_shell.
Proof.
  destruct (fetch_history_correct demo_shell [chars "ps"; chars "help"] (-1) demo_remembers eq_refl demo_row_end)
    as (H1 & _ & _ & _ & H5); [|reflexivity|cbn; lia|].
  { apply (bool_decide_eq_true_1 (Forall (Forall (fun x => 32 <= x)) _)). by vm_compute. }
  destruct (H1 (chars "ps") eq_refl) as (s' & E & S & P & _). exists s'.
  split; [exact E|]. split; [exact S|]. split; [exact P|]. apply H5. reflexivity.
Defined.

(** ** Entering a line *)

Section Enter.
Context (K : kernel).

(** The line and the history. *)
Definition session (s : shell) := (input s, buf_size s, cursor_pos s, history s, history_count s, history_pos s).

Lemma keeps_event e : keeps session (emit e).
Proof. by apply keeps_modify. Qed.
Lemma keeps_exit {A} : keeps session (exit_shell (A := A)).
Proof. by intros s a s' [=]. Qed.

Ltac keep_session :=
  repeat first
    [ apply keeps_event | apply keeps_exit | apply keeps_ret | apply keeps_gets | apply keeps_undef
    | apply keeps_bind; [|intros ?] | apply keeps_if
    | match goal with |- keeps _ (match ?x with _ => _ end) => destruct x end ].

Lemma list_names_keeps n : forall names, keeps session (list_names n names).
Proof. induction n as [|n IH]; intros names; cbn [list_names]; unfold write; keep_session; apply IH. Qed.
Lemma list_pids_keeps pids : forall names, keeps session (list_pids pids names).
Proof. induction pids as [|p pids IH]; intros names; cbn [list_pids]; unfold write; keep_session; apply IH. Qed.

(** No command touches the line or the history. *)
Lemma execute_command_keeps argv : keeps session (execute_command K argv).
Proof.
  unfold execute_command, list_programs, list_processes, run_program, send_signal, get_sig_num, print_help,
    write_sizeof, write.
  keep_session; first [apply list_names_keeps | apply list_pids_keeps | by apply keeps_modify].
Qed.

(** The messages of the loop over [argv] behind a command. *)
Definition debug_events (argv : list (list Z)) : list event :=
  (fun i => match argv !! i with Some w => EMsg w | None => EMsgWild end) <$> seq 0 MAX_ARGS.

Lemma debug_loop (argv : list (list Z)) n : forall k s, for_upto n (Z.of_nat k) (fun i : Z =>
    match argv !! Z.to_nat i with Some w => emit (EMsg w) | None => emit EMsgWild end) s =
  Done tt (edited (input s) (buf_size s) (cursor_pos s)
    ((fun i => match argv !! i with Some w => EMsg w | None => EMsgWild end) <$> seq k n) s).
Proof.
  induction n as [|n IH]; intros k s; [unfold edited; cbn; rewrite app_nil_r; by destruct s|].
  cbn [for_upto seq fmap list_fmap]. replace (Z.of_nat k + 1) with (Z.of_nat (S k)) by lia. unfold bind. rewrite Nat2Z.id.
  destruct (argv !! k); unfold emit, modify; rewrite IH; unfold edited; cbn; by rewrite <- app_assoc.
Qed.

Lemma debug_run argv s :
  debug_args argv s = Done tt (edited (input s) (buf_size s) (cursor_pos s) (debug_events argv) s).
Proof. exact (debug_loop argv MAX_ARGS 0 s). Qed.

Lemma session_fields s s' : session s' = session s ->
  input s' = input s /\ buf_size s' = buf_size s /\ cursor_pos s' = cursor_pos s /\ history s' = history s /\
  history_count s' = history_count s /\ history_pos s' = history_pos s.
Proof. unfold session. by intros [= -> -> -> -> -> ->]. Qed.

Lemma remembers_session s s' cmds : session s' = session s -> remembers s cmds -> remembers s' cmds.
Proof. intros (_ & _ & _ & E1 & E2 & _)%session_fields [R1 R2 R3 R4]. constructor; rewrite ?E1, ?E2; auto. Qed.

(** The last [MAX_HISTORY] commands once [line] is entered; empty lines do not
    count. *)
Definition enter_history (line : list Z) (cmds : list (list Z)) : list (list Z) :=
  match line with [] => cmds | _ => take MAX_HISTORY (line :: cmds) end.

Lemma new_line_run s line rest cmds :
  input s = line ++ 0 :: rest -> buf_size s = Z.of_nat (length line) -> (length line + S (length rest) = MAX_INPUT)%nat ->
  Forall (fun c => c <> 0) line -> remembers s cmds ->
  exists s', handle_new_line s = Done tt s' /\ remembers s' (enter_history line cmds) /\
    trace s' = trace s ++ [EWrite [62; 32; 0]] /\ device_counter s' = device_counter s.
Proof.
  intros Hin Hs Hl Hz HR. unfold handle_new_line. destruct line as [|c line].
  - assert (Es : save_to_history s = Done tt s).
    { unfold save_to_history. mstep (get_step s). by rewrite Hs. }
    mstep Es. eexists. split; [reflexivity|]. split; [by apply (remembers_session s)|done].
  - destruct (save_run s cmds (c :: line) rest HR Hin Hs Hl Hz) as (h & n & Es & HR'); [done|].
    mstep Es. eexists. split; [reflexivity|]. split; [by apply (remembers_session (set_history h n s))|done].
Qed.

(** The string in the buffer is [line], of the length the shell counts. *)
Definition line_in (s : shell) (line : list Z) : Prop :=
  exists rest, input s = line ++ 0 :: rest /\ buf_size s = Z.of_nat (length line) /\
    (length line + S (length rest) = MAX_INPUT)%nat /\ Forall (fun c => c <> 0) line.

Lemma represents_line s z : represents s z -> line_in s (text z).
Proof.
  intros [[I1 I2 I3 I4] J2 J3 _]. destruct (MAX_INPUT - length (text z))%nat as [|m] eqn:Em; [lia|].
  exists (replicate m 0). split; [rewrite I1; unfold text; by rewrite <- app_assoc|].
  split; [rewrite I3; unfold text; by rewrite length_app|]. split; [rewrite length_replicate; lia|].
  eapply Forall_impl; [|exact J3]. intros x Hx. cbn in Hx. lia.
Qed.

Lemma showing_line s c : showing s c -> line_in s c.
Proof.
  intros [E [Hb _] _ Hl]. destruct (line_buf_split _ Hl) as (rest & E' & L & F). rewrite E in *. by exists rest.
Qed.

(** The run [r] of the loop is what Enter does with the words of [line] in state [s]
    and [rest] does then: the command runs on [s]; what it did is kept, whether it
    returns, exits the shell or leaves defined behaviour; when it returns, the prompt
    and the messages follow, the line becomes the newest in the history, and the loop
    goes on with an empty line. *)
Definition runs_line (s : shell) (line : list Z) (cmds : list (list Z)) (rest : list (option Z)) (r : outcome shell unit) : Prop :=
  match execute_command K (words is_space line) s with
  | Done _ s2 => exists s3, r = shell_loop K rest s3 /\
      trace s3 = trace s2 ++ EWrite [62; 32; 0] :: debug_events (words is_space line) /\
      device_counter s3 = device_counter s2 /\ remembers s3 (enter_history line cmds) /\
      input s3 = replicate MAX_INPUT 0 /\ buf_size s3 = 0 /\ cursor_pos s3 = 0 /\ history_pos s3 = -1
  | other => r = other
  end.

Lemma enter_run s line cmds rest :
  line_in s line -> remembers s cmds -> (length (words is_space line) < MAX_ARGS)%nat ->
  runs_line s line cmds rest ((enter_line K ;; shell_loop K rest) s).
Proof.
  intros (post & Hin & Hb & Hl & Hz) HM Hw.
  assert (Htok : tokenize_input (input s) s = Done (words is_space line) s).
  { rewrite Hin. destruct (tokenize_words line [] [] [] [] post) as (r & argv & E & R); [done|constructor|done|].
    unfold tokenize_input. cbn in E. rewrite E. apply (f_equal length) in R as R'. rewrite length_fmap in R'. cbn in R'.
    fold (words is_space line) in R'. rewrite (proj2 (Nat.leb_gt _ _)) by lia. unfold ret. f_equal. exact R. }
  unfold runs_line, enter_line. rewrite bind_assoc. mstep (get_step s). rewrite bind_assoc. mstep Htok. rewrite bind_assoc.
  destruct (execute_command K (words is_space line) s) as [[] s2| | | | |] eqn:Ex;
    try (unfold bind at 1; by rewrite Ex).
  assert (Es : session s2 = session s) by (by rewrite (execute_command_keeps _ _ _ _ Ex)).
  destruct (session_fields _ _ Es) as (F1 & F2 & _).
  destruct (new_line_run s2 line post cmds) as (s3 & En & HM3 & Et & Ec);
    [congruence|congruence|done|done|by apply (remembers_session s)|].
  mstep Ex. rewrite bind_assoc. mstep En. rewrite bind_assoc. mstep (debug_run (words is_space line) s3).
  eexists. split; [reflexivity|]. cbn [trace device_counter set_history_pos set_line set_input edited].
  split; [by rewrite Et, <- app_assoc|]. split; [done|]. split; [|done].
  destruct HM3 as [Q1 Q2 Q3 Q4]. by constructor.
Qed.

(** C28: From keys to commands.  After any editing of the line (as in the editor
    theorem), Enter executes, in the state the editing left, the command whose words
    are exactly the words of the text that the reference editor computes and the
    screen displays, when these are fewer than ten; the same holds of a command shown
    from the history.  Everything the command did is kept: the output and system
    calls of the shell are those of the command, followed by the prompt and the
    debugging messages, and the shell ends or fails exactly when the command does.
    When the command returns, the shell is ready for the next line, with an empty
    buffer, and the text is the newest of the last ten commands in its history; an
    empty line is not remembered.  A line cleared with the down arrow is neither
    typed nor shown from the history: its old characters are still in the buffer, and
    Enter executes those too ([shell_stale_line]). *)
Theorem shell_enters s cmds rest :
  remembers s cmds ->
  (forall ks z, represents s z -> Forall plain ks ->
     (length (words is_space (text (foldl edit z ks))) < MAX_ARGS)%nat ->
     exists s1, shell_loop K (sends_all ks) s = Done tt s1 /\ represents s1 (foldl edit z ks) /\
       runs_line s1 (text (foldl edit z ks)) cmds rest (shell_loop K (sends_all ks ++ Some 13 :: rest) s)) /\
  (forall c, showing s c -> (length (words is_space c) < MAX_ARGS)%nat ->
     runs_line s c cmds rest (shell_loop K (Some 13 :: rest) s)).
Proof.
  intros HM. split.
  - intros ks z HR Hk Hw. destruct (keys_simulate K ks s z HR Hk) as (s1 & E1 & HR1 & A1 & A2 & _). exists s1.
    split; [specialize (E1 []); by rewrite app_nil_r in E1|]. split; [done|]. rewrite E1.
    apply (enter_run s1); [by apply represents_line| |done]. destruct HM as [R1 R2 R3 R4]. constructor; rewrite ?A1, ?A2; auto.
  - intros c Hc Hw. apply (enter_run s c cmds rest); [by apply showing_line|done|done].
Qed.
End Enter.

Lemma start_remembers : remembers (add_event (EWrite [62; 32; 0]) shell_start) [].
Proof.
  constructor; [done| |split; [done|cbn; unfold MAX_HISTORY; lia]|done].
  apply Forall_replicate. exact line_buf_zero.
Qed.

(** "exit" is typed and entered: the shell exits. *)
Lemma shell_enters_witness :
  exists s1 s2, shell_loop (MkKernel 0 [] [] [] 1 0 0) (sends_all (KChar <$> chars "exit")) (add_event (EWrite [62; 32; 0]) shell_start)
      = Done tt s1 /\
    shell_loop (MkKernel 0 [] [] [] 1 0 0) (sends_all (KChar <$> chars "exit") ++ [Some 13])
      (add_event (EWrite [62; 32; 0]) shell_start) = Halt s2 /\
    trace s2 = trace s1 ++ [EMsg (chars "exiting shell" ++ [10]); EExit].
Proof.
  destruct (shell_enters (MkKernel 0 [] [] [] 1 0 0) _ _ [] start_remembers) as [H _].
  destruct (H (KChar <$> chars "exit") _ start_represents) as (s1 & E1 & _ & R).
  - repeat apply Forall_cons_2; try apply Forall_nil_2; cbn; lia.
  - apply Nat.ltb_lt. by vm_compute.
  - exists s1. eexists. split; [exact E1|]. split; [exact R|]. cbn. by rewrite <- app_assoc.
Defined.

(** ** Bounds of all buffers *)

(** The globals of the shell are well formed. *)
Record wf (s : shell) : Prop := {
  wf_input : exists l, input s = l ++ [0] /\ length l = 63%nat;
  wf_line : 0 <= cursor_pos s <= buf_size s /\ buf_size s <= 63;
  wf_history : length (history s) = MAX_HISTORY /\ Forall line_buf (history s);
  wf_pos : -1 <= history_pos s < history_count s \/ history_pos s = -1;
  wf_count : 0 <= history_count s <= 10
}.

(** The only ways in which the shell can leave defined behaviour: ten or more
    words, the missing return value, numbers and tables of the kernel that do not
    fit, and a read error inside of an escape sequence. *)
Definition known_faults : list string :=
  ["argv index"; "get_sig_num returns no value"; "overflow of int"; "array size"; "name without NUL";
   "character that was not read"].

Definition typed {A} (c : M shell A) : Prop := forall s, wf s ->
  match c s with
  | Done _ s' | Halt s' => wf s'
  | Undef why _ => why ∈ known_faults
  | _ => False
  end.

Lemma typed_ret {A} (a : A) : typed (ret a).
Proof. by intros s Hs. Qed.
Lemma typed_bind {A B} (c : M shell A) (k : A -> M shell B) : typed c -> (forall a, typed (k a)) -> typed (bind c k).
Proof. intros Hc Hk s Hs. specialize (Hc s Hs). unfold bind. destruct (c s); try done. by apply Hk. Qed.
Lemma typed_undef {A} why : why ∈ known_faults -> typed (undef (A := A) why).
Proof. by intros H s Hs. Qed.
Lemma typed_session {A} (c : M shell A) :
  (forall s, exists a s', c s = Done a s' /\ session s' = session s) -> typed c.
Proof.
  intros H s [W1 W2 W3 W4 W5]. destruct (H s) as (a & s' & -> & E).
  pose proof (session_fields _ _ E) as (F1 & F2 & F3 & F4 & F5 & F6). constructor; rewrite ?F1, ?F2, ?F3, ?F4, ?F5, ?F6; auto.
Qed.
Lemma typed_emit e : typed (emit e).
Proof. apply typed_session. intros s. by eexists _, _. Qed.
Lemma typed_exit {A} : typed (exit_shell (A := A)).
Proof. intros s [W1 W2 W3 W4 W5]. by constructor. Qed.
Lemma typed_if {A} (b : bool) (c d : M shell A) : typed c -> typed d -> typed (if b then c else d).
Proof. by destruct b. Qed.
Lemma typed_get {A} (k : shell -> M shell A) :
  (forall s, wf s -> match k s s with Done _ s' | Halt s' => wf s' | Undef why _ => why ∈ known_faults | _ => False end) ->
  typed (bind get k).
Proof. intros H s Hs. by apply H. Qed.

Ltac in_faults := unfold known_faults; rewrite !elem_of_cons; tauto.

Ltac typing :=
  repeat first
    [ apply typed_emit | apply typed_exit | apply typed_ret | (apply typed_undef; in_faults)
    | apply typed_bind; [|intros ?] | apply typed_if
    | match goal with |- typed (match ?x with _ => _ end) => destruct x end ].

Lemma list_names_typed n : forall names, typed (list_names n names).
Proof. induction n as [|n IH]; intros names; cbn [list_names]; unfold write; typing; apply IH. Qed.
Lemma list_pids_typed pids : forall names, typed (list_pids pids names).
Proof. induction pids as [|p pids IH]; intros names; cbn [list_pids]; unfold write; typing; apply IH. Qed.

Lemma execute_command_typed K argv : typed (execute_command K argv).
Proof.
  unfold execute_command, list_programs, list_processes, run_program, send_signal, get_sig_num, print_help,
    write_sizeof, write.
  typing; first [apply list_names_typed | apply list_pids_typed | (apply typed_session; intros s; by eexists _, _) ].
Qed.

(** The parts of a well-formed buffer. *)
Lemma wf_holds s : wf s ->
  exists before behind rest, holds s before behind (rest ++ [0]).
Proof.
  intros [(l & E & Hl) [Hc1 Hc2] _ _ _]. set (c := Z.to_nat (cursor_pos s)). set (n := Z.to_nat (buf_size s)).
  exists (take c l), (drop c (take n l)), (drop n l). constructor.
  - rewrite E, !app_assoc. f_equal. replace (take c l) with (take c (take n l)) by (rewrite take_take; f_equal; lia).
    by rewrite take_drop, take_drop.
  - rewrite length_take. lia.
  - rewrite length_take, length_drop, length_take. lia.
  - rewrite !length_app, length_take, !length_drop, length_take. cbn. unfold MAX_INPUT. lia.
Qed.

Lemma wf_edited s before behind rest size cur ev :
  wf s -> (length before + length behind + length rest + 1 = MAX_INPUT)%nat ->
  size = Z.of_nat (length before + length behind) -> cur = Z.of_nat (length before) ->
  wf (edited (before ++ behind ++ rest ++ [0]) size cur ev s).
Proof.
  intros [_ _ W3 W4 W5] Hl Hs Hc. unfold MAX_INPUT in *. constructor; cbn [input buf_size cursor_pos edited]; auto; [|lia].
  exists (before ++ behind ++ rest). rewrite <- !app_assoc. split; [done|]. rewrite !length_app. lia.
Qed.

Lemma insert_typed c : typed (insert_char c).
Proof.
  intros s Hs. destruct (wf_holds s Hs) as (before & behind & rest & H). pose proof H as [H1 H2 H3 H4].
  rewrite length_app in H4. cbn [length] in H4. unfold MAX_INPUT in *. destruct rest as [|x rest].
  - unfold insert_char. rewrite (bind_Done _ _ _ _ _ (get_step s)).
    cbn [length] in H4. rewrite (proj2 (Z.leb_le _ _)); [done|unfold MAX_INPUT; lia].
  - cbn [app] in H. rewrite (insert_run s before behind x (rest ++ [0]) c H) by (by destruct rest).
    replace (before ++ c :: behind ++ rest ++ [0]) with ((before ++ [c]) ++ behind ++ rest ++ [0]) by (by rewrite <- app_assoc).
    cbn [length] in H4. apply wf_edited; auto; rewrite ?length_app; cbn [length]; unfold MAX_INPUT; lia.
Qed.

Lemma backspace_typed s : wf s -> 0 < cursor_pos s -> exists s', handle_backspace_char s = Done tt s' /\ wf s'.
Proof.
  intros Hs Hc. destruct (wf_holds s Hs) as (before & behind & rest & H). pose proof H as [H1 H2 H3 H4].
  destruct before as [|d before _] using rev_ind; [cbn in H2; lia|].
  assert (Hx : exists x r, rest ++ [0] = x :: r /\ exists r', x :: x :: r = r' ++ [0] /\ length r' = S (length rest)).
  { destruct rest as [|x rest]; [exists 0, []; split; [done|]; by exists [0]|].
    exists x, (rest ++ [0]). split; [done|]. by exists (x :: x :: rest). }
  destruct Hx as (x & r & Hr & r' & Hr' & Hl'). rewrite Hr in H. rewrite length_app in H2, H3, H4. cbn [length] in H2, H3, H4.
  rewrite length_app in H4. cbn [length] in H4. unfold MAX_INPUT in *.
  eexists. split; [by apply (backspace_run s before d behind x r)|]. rewrite Hr'.
  apply wf_edited; auto; unfold MAX_INPUT; lia.
Qed.

Lemma write_times_typed n l : typed (write_times n l).
Proof. apply typed_session. intros s. unfold write_times. rewrite for_write. by eexists _, _. Qed.

Lemma show_history_typed s : wf s -> exists s', show_history s = Done tt s' /\ wf s'.
Proof.
  intros Hs. pose proof Hs as [(l & E & Hl) W2 [W3 W3'] W4 W5]. unfold show_history. unfold bind at 1, get at 1.
  destruct ((0 <=? history_pos s) && (history_pos s <? history_count s)) eqn:Eb; [|by exists s].
  apply andb_true_iff in Eb as [Eb1%Z.leb_le Eb2%Z.ltb_lt].
  destruct (lookup_lt_is_Some_2 (history s) (Z.to_nat (history_pos s))) as [h Eh]; [rewrite W3; unfold MAX_HISTORY; lia|].
  rewrite Eh. assert (Hb : line_buf h) by (by eapply Forall_lookup_1).
  destruct (line_buf_split h Hb) as (rest & _ & Hlen & Hz). unfold MAX_INPUT in Hlen.
  assert (Hi : length (input s) = MAX_INPUT) by (rewrite E, length_app; cbn; unfold MAX_INPUT; lia).
  rewrite (strncpy_line (input s) h Hi Hb), (strlen_app _ _ Hz). set (c := cstring h) in *.
  assert (Hend : exists l', c ++ 0 :: drop (S (length c)) (input s) = l' ++ [0] /\ length l' = 63%nat).
  { destruct (decide (length c = 63%nat)) as [H63|H63].
    - exists c. rewrite drop_ge by (rewrite Hi; unfold MAX_INPUT; lia). done.
    - exists (c ++ 0 :: drop (S (length c)) l). rewrite <- app_assoc, E, drop_app_le by lia. split; [done|].
      rewrite length_app. cbn. rewrite length_drop. lia. }
  unfold write_times. rewrite (bind_Done _ _ _ _ _ (modify_step _ _)), (bind_Done _ _ _ _ _ (write_step _ _)),
    (bind_Done _ _ _ _ _ (write_input_step _ _ _)), (bind_Done _ _ _ _ _ (for_write _ _ _ _)), for_write.
  eexists. split; [reflexivity|]. constructor; cbn; auto. lia.
Qed.

Lemma set_pos_wf s p : wf s -> -1 <= p < history_count s -> wf (set_history_pos p s).
Proof. intros [W1 W2 W3 W4 W5] Hp. by constructor; auto. Qed.

Lemma fetch_history_typed d : typed (fetch_history d).
Proof.
  apply typed_get. intros s Hs. pose proof (wf_pos s Hs). pose proof (wf_count s Hs).
  assert (Hshow : forall p, -1 <= p < history_count s ->
    match (modify (set_history_pos p) ;; show_history) s with
    | Done _ s' | Halt s' => wf s' | Undef why _ => why ∈ known_faults | _ => False end).
  { intros p Hp. unfold bind at 1, modify at 1. destruct (show_history_typed _ (set_pos_wf s p Hs Hp)) as (s' & -> & ?). done. }
  destruct (Z.eqb_spec d 1).
  { destruct (Z.eqb_spec (history_pos s) (history_count s - 1)); [done|]. apply Hshow. lia. }
  destruct (Z.eqb_spec d (-1)); [|destruct (show_history_typed s Hs) as (s' & -> & ?); done].
  destruct (Z.eqb_spec (history_pos s) 0).
  { unfold clear_line. assert (Hw : wf (set_history_pos (-1) (set_line 0 0 s))).
    { destruct Hs as [W1 W2 W3 W4 W5]. constructor; cbn; auto. lia. }
    assert (Ht : typed (write [13; 62; 32] ;; write_times (Z.of_nat MAX_INPUT) [32] ;; write_times (Z.of_nat MAX_INPUT) [8])).
    { apply typed_bind; [apply typed_emit|intros _]. apply typed_bind; [|intros _]; apply write_times_typed. }
    rewrite (bind_Done _ _ _ _ _ (modify_step _ _)). exact (Ht _ Hw). }
  destruct (Z.eqb_spec (history_pos s) (-1)); [done|]. apply Hshow. lia.
Qed.

Lemma arrow_typed c : typed (handle_arrow_keys c).
Proof.
  apply typed_get. intros s Hs. pose proof (wf_line s Hs) as [Hl1 Hl2].
  assert (Hmove : forall cur l, 0 <= cur <= buf_size s ->
    match (modify (set_line (buf_size s) cur) ;; write l) s with
    | Done _ s' | Halt s' => wf s' | Undef why _ => why ∈ known_faults | _ => False end).
  { intros cur l Hc. destruct Hs as [W1 W2 W3 W4 W5]. constructor; cbn; auto. }
  destruct (Z.ltb_spec 0 (cursor_pos s)), (Z.ltb_spec (cursor_pos s) (buf_size s)), (c =? 68), (c =? 67); cbn [andb];
    try (apply Hmove; lia); (destruct (c =? 66); [by apply fetch_history_typed|destruct (c =? 65); [by apply fetch_history_typed|done]]).
Qed.

Lemma strlen_insert buf k : (k < length buf)%nat -> exists n, strlen (<[k := 0]> buf) = Some n.
Proof.
  revert k. induction buf as [|c buf IH]; intros k Hk; [cbn in Hk; lia|]. destruct k as [|k]; [by exists 0%nat|].
  change (exists n, (if c =? 0 then Some 0%nat else S <$> strlen (<[k := 0]> buf)) = Some n).
  destruct (c =? 0); [by exists 0%nat|]. destruct (IH k) as [n En]; [cbn in Hk; lia|]. exists (S n). by rewrite En.
Qed.

Lemma wf_line_buf s : wf s -> line_buf (input s).
Proof.
  intros [(l & E & Hl) _ _ _ _]. rewrite E. split; [rewrite length_app; cbn; unfold MAX_INPUT; lia|].
  clear E Hl. induction l as [|c l (k & Hk)]; [by exists 0%nat|]. cbn. destruct (c =? 0); [by exists 0%nat|].
  rewrite Hk. by exists (S k).
Qed.

Lemma shift_history_lines n : forall h, Forall line_buf h -> (n < length h)%nat -> Forall line_buf (shift_history n h).
Proof.
  induction n as [|n IH]; intros h Hh Hn; [done|]. cbn [shift_history]. apply IH; [|rewrite length_insert; lia].
  apply Forall_insert; [done|]. destruct (lookup_lt_is_Some_2 h n) as [src Hs]; [lia|]. rewrite Hs.
  apply (strncpy_line_buf (replicate MAX_INPUT 0)); [done|]. by eapply Forall_lookup_1.
Qed.

Lemma save_typed : typed save_to_history.
Proof.
  apply typed_get. intros s Hs. pose proof (wf_line s Hs) as [Hl1 Hl2]. pose proof (wf_line_buf s Hs) as Hin.
  destruct (Z.eqb_spec (buf_size s) 0); [done|].
  rewrite (proj2 (Z.ltb_ge _ 0)), (proj2 (Z.leb_gt _ _)) by (unfold MAX_INPUT; lia). cbn [orb].
  pose proof Hs as [W1 W2 [W3 W3'] W4 W5].
  assert (Hlines : Forall line_buf (shift_history (MAX_HISTORY - 1) (history s))).
  { apply shift_history_lines; [done|]. rewrite W3. unfold MAX_HISTORY. lia. }
  pose proof (shift_history_length (MAX_HISTORY - 1) (history s)) as Hlen. rewrite W3 in Hlen.
  set (h := shift_history (MAX_HISTORY - 1) (history s)) in *.
  destruct (lookup_lt_is_Some_2 h 0) as [h0 H0]; [rewrite Hlen; unfold MAX_HISTORY; lia|]. rewrite H0.
  assert (Hb0 : line_buf h0) by (by eapply Forall_lookup_1).
  destruct (strncpy_line_buf h0 (input s) (proj1 Hb0) Hin) as [[Hc1 _] _].
  constructor; cbn [input buf_size cursor_pos history history_count history_pos set_history modify]; auto.
  - split; [by rewrite length_insert|]. apply Forall_insert; [done|]. cbn [from_option id default].
    split; [by rewrite length_insert|]. apply strlen_insert. rewrite Hc1. unfold MAX_INPUT. lia.
  - destruct (Z.ltb_spec (history_count s) (Z.of_nat MAX_HISTORY)); [|done]. destruct W4; lia.
  - unfold MAX_HISTORY. destruct (Z.ltb_spec (history_count s) (Z.of_nat 10)); lia.
Qed.

Lemma tokenize_total l post : forall i b argv, exists r, tokenize (l ++ 0 :: post) i b argv = Some r.
Proof.
  induction l as [|c l IH]; intros i b argv; cbn [app tokenize]; [by eexists|].
  destruct (_ || _); [by eexists|]. destruct (c =? 32).
  - destruct (IH (S i) false argv) as [r E]. rewrite E. by eexists.
  - destruct (IH (S i) true (if b then argv else argv ++ [i])) as [r E]. rewrite E. by eexists.
Qed.

Lemma enter_typed K : typed (enter_line K).
Proof.
  unfold enter_line. apply typed_get. intros s Hs. pose proof (wf_input s Hs) as (l & El & _).
  assert (Ht : typed (tokenize_input (input s))).
  { rewrite El. unfold tokenize_input. destruct (tokenize_total l [] 0 false []) as [[buf argv] Et]. rewrite Et.
    destruct (Nat.leb _ _); [apply typed_undef; in_faults|apply typed_ret]. }
  revert s Hs El Ht. intros s Hs El Ht.
  assert (typed (argv <- tokenize_input (input s) ;; execute_command K argv ;; handle_new_line ;; debug_args argv ;;
    modify (fun s => set_history_pos (-1) (set_line 0 0 (set_input (replicate MAX_INPUT 0) s))))) as H; [|exact (H s Hs)].
  apply typed_bind; [exact Ht|intros argv]. apply typed_bind; [apply execute_command_typed|intros _].
  apply typed_bind; [apply typed_bind; [apply save_typed|intros _; apply typed_emit]|intros _].
  apply typed_bind; [|intros _].
  { apply typed_session. intros s1. rewrite (debug_run argv s1). by eexists _, _. }
  intros s1 [W1 W2 W3 W4 W5]. constructor; cbn; auto; [|lia]. by exists (replicate 63 0).
Qed.

Lemma handle_char_typed K c : typed (handle_char K c).
Proof.
  unfold handle_char. apply typed_if; [apply enter_typed|]. apply typed_if; [|apply insert_typed].
  apply typed_get. intros s Hs. destruct (Z.ltb_spec 0 (cursor_pos s)); [|done]. cbn [andb].
  destruct (0 <? buf_size s); [|done]. destruct (backspace_typed s Hs) as (s' & -> & ?); done.
Qed.

Lemma loop_typed K n : forall keys, (length keys <= n)%nat -> typed (shell_loop K keys).
Proof.
  induction n as [|n IH]; intros keys Hn; (destruct keys as [|k keys]; [apply typed_ret|]); [cbn in Hn; lia|].
  cbn in Hn. cbn [shell_loop]. destruct k as [c|]; [|apply typed_bind; [apply typed_emit|intros _; apply typed_exit]].
  apply typed_if; [|apply typed_bind; [apply handle_char_typed|intros _; apply IH; lia]].
  destruct keys as [|[s0|] [|[s1|] keys]]; try apply typed_ret; try (apply typed_undef; in_faults).
  apply typed_bind; [apply typed_if; [apply arrow_typed|apply handle_char_typed]|intros _]. apply IH. cbn in Hn. lia.
Qed.

(** C21: All buffers of the shell stay in their bounds.  Whatever is typed, in any
    order and of any length, with read errors and with any answers of the kernel, the
    shell keeps the cursor inside the line and the line inside its 64 bytes with a
    NUL at the end, keeps ten NUL-terminated lines of 64 bytes as history and its
    position among the commands saved, never accesses these arrays out of bounds and
    never runs out of steps; the only departures from defined behaviour are the
    [known_faults], none of which is an access to the line or the history. *)
Theorem shell_well_formed K k keys :
  match shell_main K (k :: keys) shell_start with
  | Done _ s' | Halt s' => wf s'
  | Undef why _ => why ∈ known_faults
  | _ => False
  end.
Proof.
  unfold shell_main, write_sizeof. rewrite (bind_Done _ _ _ _ _ (write_step _ _)), (bind_Done _ _ _ _ _ (modify_step _ _)).
  apply (loop_typed K (length keys)); [done|].
  constructor; [by exists (replicate 63 0)|cbn; lia|split; [done|apply Forall_replicate; exact line_buf_zero]|right; done|cbn; lia].
Qed.

(** ** What recalling a command leaves behind

    [memset] in the code that clears the line comes after its size was set to
    zero, and [strncpy] writes only one NUL, so characters of an older line stay
    in the buffer and come back when the NUL in front of them is overwritten. *)

(** The words of the commands executed: those logged by the loop behind each
    command. *)
Definition logged (tr : list event) : list (list Z) := omap (fun e => match e with EMsg w => Some w | _ => None end) tr.

(** "list" is entered, recalled with the up arrow and cleared with the down arrow;
    then "ps" is typed.  The screen displays "ps" and the line is two characters
    long, but Enter executes "psst". *)
Theorem shell_stale_line :
  let K := MkKernel 1 (chars "a" ++ [0]) [] [] 1 0 0 in
  let typed := Some <$> (0 :: chars "list" ++ [13; 27; 91; 65; 27; 91; 66] ++ chars "ps") in
  exists s1 s2, shell_main K typed shell_start = Done tt s1 /\
    buf_size s1 = 2 /\ take 3 (row (screen (trace s1)) <$> [2; 3; 4]) = chars "ps " /\
    shell_main K (typed ++ [Some 13]) shell_start = Done tt s2 /\
    logged (trace s2) = [chars "list"; chars "psst"].
Proof.
  eexists _, _. split; [vm_compute; reflexivity|]. split; [reflexivity|]. split; [vm_compute; reflexivity|].
  split; [vm_compute; reflexivity|vm_compute; reflexivity].
Qed.
