(* ===== verification/Console.v ===== *)
(** * The console (console.c, and the polled port functions of uart.c)

    The kernel's own output and input: the port registers are polled, so the
    console works before interrupts and threads do.  The port is a parameter:
    [UartRegs] are the register accesses and [Uart16550] what the 16550 data sheet
    says of the registers the code uses.  Every loop waits for the port;
    [fuel] bounds the polls of one character. *)

From stdpp Require Import base gmap list strings numbers.
From Stdlib Require Import Lia ZArith.
From S2P Require Import Prelude ThreadList Thread Uart CString.
Local Open Scope Z_scope.
Local Open Scope kern_scope.

(** Byte accesses to registers. *)
Class UartRegs (D : Type) := { rd8 : Z -> M D Z; wr8 : Z -> Z -> M D unit }.

(** [UART0.rbr] (also [thr] and [dll]), [ier] (also [dlm]), [lcr], [lsr] *)
Definition UART0_RBR : Z := UART0_IOBASE + 0.
Definition UART0_IER : Z := UART0_IOBASE + 1.
Definition UART0_LCR : Z := UART0_IOBASE + 3.
Definition UART0_LSR : Z := UART0_IOBASE + 5.
Definition LCR_DLAB : Z := Z.shiftl 1 7.

Section Console.
Context {D : Type} {UR : UartRegs D}.

(** ** Polled input and output (uart.c) *)

Definition com0_init : M D unit :=
  wr8 UART0_IER 0 ;;
  wr8 UART0_LCR LCR_DLAB ;;
  wr8 UART0_RBR 1 ;;
  wr8 UART0_IER 0 ;;
  wr8 UART0_LCR 0.

(** [while (!(UART0.lsr & mask)) continue;] *)
Fixpoint spin (fuel : nat) (mask : Z) : M D unit :=
  match fuel with
  | O => fun _ => NoFuel
  | S fuel' =>
      lsr <- rd8 UART0_LSR ;;
      if Z.land lsr mask =? 0 then spin fuel' mask else ret tt
  end.

Definition com0_putc (fuel : nat) (c : Z) : M D unit :=
  spin fuel LSR_THRE ;; wr8 UART0_RBR c.

Definition com0_getc (fuel : nat) : M D Z :=
  spin fuel LSR_DR ;; c <- rd8 UART0_RBR ;; ret (w8 c).

(** ** console.c *)

Record cstate := MkCons {
  com0 : D;
  putchar_prev : Z;              (* static cprev of console_putchar *)
  getchar_prev : Z;              (* static cprev of console_getchar *)
  console_initialized : bool;
  con_intr_initialized : bool;   (* intr_initialized of intr.c *)
  con_ts : tstate                (* for the interrupt enable bit *)
}.

Definition set_com0 (d : D) (s : cstate) : cstate :=
  MkCons d (putchar_prev s) (getchar_prev s) (console_initialized s) (con_intr_initialized s) (con_ts s).
Definition set_putchar_prev (c : Z) (s : cstate) : cstate :=
  MkCons (com0 s) c (getchar_prev s) (console_initialized s) (con_intr_initialized s) (con_ts s).
Definition set_getchar_prev (c : Z) (s : cstate) : cstate :=
  MkCons (com0 s) (putchar_prev s) c (console_initialized s) (con_intr_initialized s) (con_ts s).
Definition set_con_ts (t : tstate) (s : cstate) : cstate :=
  MkCons (com0 s) (putchar_prev s) (getchar_prev s) (console_initialized s) (con_intr_initialized s) t.

Definition on_com0 {A} (c : M D A) : M cstate A := lift com0 set_com0 c.
Definition on_con_ts {A} (c : M tstate A) : M cstate A := lift con_ts set_con_ts c.

Definition console_init : M cstate unit :=
  on_com0 com0_init ;;
  modify (fun s => MkCons (com0 s) (putchar_prev s) (getchar_prev s) true (con_intr_initialized s) (con_ts s)).

Definition CR : Z := 13.
Definition NL : Z := 10.

Definition console_putchar (fuel : nat) (c : Z) : M cstate unit :=
  (if c =? CR then
     on_com0 (com0_putc fuel c) ;; on_com0 (com0_putc fuel NL)
   else if c =? NL then
     cprev <- gets putchar_prev ;;
     (if negb (cprev =? CR) then on_com0 (com0_putc fuel CR) else ret tt) ;;
     on_com0 (com0_putc fuel c)
   else on_com0 (com0_putc fuel c)) ;;
  modify (set_putchar_prev c).

(** The loop of [console_getchar]. *)
Fixpoint getchar_loop (turns fuel : nat) : M cstate Z :=
  match turns with
  | O => fun _ => NoFuel
  | S turns' =>
      c <- on_com0 (com0_getc fuel) ;;
      cprev <- gets getchar_prev ;;
      if (c =? NL) && (cprev =? CR) then getchar_loop turns' fuel else ret c
  end.

Definition console_getchar (turns fuel : nat) : M cstate Z :=
  c <- getchar_loop turns fuel ;;
  modify (set_getchar_prev c) ;;
  ret (if c =? CR then NL else c).

(** Each character of a list. *)
Fixpoint putchars (fuel : nat) (str : list Z) : M cstate unit :=
  match str with
  | [] => ret tt
  | c :: str' => console_putchar fuel c ;; putchars fuel str'
  end.

(** [str] are the characters before the terminator. *)
Definition console_puts (fuel : nat) (str : list Z) : M cstate unit :=
  putchars fuel str ;; console_putchar fuel NL.

(** [console_getsn]: [line] are the characters in the buffer (last first) and [n]
    the space left; the build does not define CONSOLE_RAW. *)
Fixpoint console_getsn (turns fuel : nat) (line : list Z) (n : Z) : M cstate (list Z) :=
  match turns with
  | O => fun _ => NoFuel
  | S turns' =>
      c <- console_getchar turns fuel ;;
      if c =? CR then console_getsn turns' fuel line n
      else if c =? NL then ret (rev line)
      else if (c =? 8) || (c =? 127) then
        match line with
        | _ :: line' => console_getsn turns' fuel line' (w64 (n + 1))
        | [] => console_getsn turns' fuel line n
        end
      else if 1 <? n then console_getsn turns' fuel (c :: line) (n - 1)
      else console_getsn turns' fuel line n
  end.

(** [if (intr_initialized) saved_intr_state = intr_disable();] around [body] and
    the matching [intr_restore]. *)
Definition intr_guard {A} (body : M cstate A) : M cstate A :=
  i <- gets con_intr_initialized ;;
  saved <- (if (i : bool) then on_con_ts intr_disable else ret false) ;;
  r <- body ;;
  i' <- gets con_intr_initialized ;;
  (if (i' : bool) then on_con_ts (intr_restore saved) else ret tt) ;;
  ret r.

(** [console_vprintf], [console_printf] and its alias [kprintf]. *)
Definition console_vprintf (fuel : nat) (fmt : list Z) (args : list arg) : M cstate Z :=
  intr_guard
    match vgprintf fmt args with
    | None => undef "vgprintf"
    | Some o => putchars fuel o ;; ret (Z.of_nat (length o))
    end.

(** "%s: %s:%d: " *)
Definition label_fmt : list Z := chars "%s: %s:%d: ".

Definition console_labeled_printf (fuel : nat) (label src_flname : list Z) (src_lineno : Z)
    (fmt : list Z) (args : list arg) : M cstate unit :=
  intr_guard
    (console_vprintf fuel label_fmt [AStr (Some label); AStr (Some src_flname); AInt src_lineno] ;;
     console_vprintf fuel fmt args ;;
     console_putchar fuel NL).
End Console.
Arguments cstate D : clear implicits.

(** ** The port *)

(** [dlab] is the divisor latch access bit, [tx_wait] and [rx_wait] how many more
    reads of the status register find the transmitter busy and the receiver
    empty, [line_out] the characters sent and [line_in] the characters still to be
    delivered (a character lost in an overrun is not one of them).  The port takes
    at most [patience] polls for a character. *)
Class Uart16550 (D : Type) {UR : UartRegs D} := {
  dlab : D -> bool;
  ier : D -> Z;
  line_in : D -> list Z;
  line_out : D -> list Z;
  tx_wait : D -> nat;
  rx_wait : D -> nat;
  patience : nat;
  tx_patience d : (tx_wait d <= patience)%nat;
  rx_patience d : line_in d <> [] -> (rx_wait d <= patience)%nat;
  line_bytes d : Forall (fun c => 0 <= c < 256) (line_in d);
  rd_lsr d : exists v d', rd8 UART0_LSR d = Done v d' /\
    Z.testbit v 5 = bool_decide (tx_wait d = O) /\
    Z.testbit v 0 = bool_decide (rx_wait d = O /\ line_in d <> []) /\
    (tx_wait d' <= pred (tx_wait d))%nat /\ (rx_wait d' <= pred (rx_wait d))%nat /\
    dlab d' = dlab d /\ ier d' = ier d /\ line_in d' = line_in d /\ line_out d' = line_out d;
  rd_rbr d c l : dlab d = false -> rx_wait d = O -> line_in d = c :: l ->
    exists d', rd8 UART0_RBR d = Done c d' /\
      dlab d' = false /\ ier d' = ier d /\ line_in d' = l /\ line_out d' = line_out d;
  wr_thr d c : dlab d = false -> tx_wait d = O ->
    exists d', wr8 UART0_RBR c d = Done tt d' /\
      dlab d' = false /\ ier d' = ier d /\ line_in d' = line_in d /\ line_out d' = line_out d ++ [c];
  wr_dll d v : dlab d = true ->
    exists d', wr8 UART0_RBR v d = Done tt d' /\
      dlab d' = true /\ ier d' = ier d /\ line_in d' = line_in d /\ line_out d' = line_out d;
  wr_ier d v :
    exists d', wr8 UART0_IER v d = Done tt d' /\
      dlab d' = dlab d /\ ier d' = (if dlab d then ier d else v) /\
      line_in d' = line_in d /\ line_out d' = line_out d;
  wr_lcr d v :
    exists d', wr8 UART0_LCR v d = Done tt d' /\
      dlab d' = Z.testbit v 7 /\ ier d' = ier d /\ line_in d' = line_in d /\ line_out d' = line_out d
}.

Section Props.
Context {D : Type} {UR : UartRegs D} {U : Uart16550 D}.

(** The port sent [o] and consumed [i]. *)
Record port_io (o i : list Z) (d d' : D) : Prop := {
  pi_dlab : dlab d' = dlab d;
  pi_ier : ier d' = ier d;
  pi_in : line_in d = i ++ line_in d';
  pi_out : line_out d' = line_out d ++ o
}.

Lemma port_io_refl d : port_io [] [] d d.
Proof. split; try done. by rewrite app_nil_r. Qed.

Lemma port_io_trans o1 i1 o2 i2 d1 d2 d3 :
  port_io o1 i1 d1 d2 -> port_io o2 i2 d2 d3 -> port_io (o1 ++ o2) (i1 ++ i2) d1 d3.
Proof.
  intros [] []. split; try congruence.
  - rewrite <- app_assoc. congruence.
  - rewrite app_assoc. congruence.
Qed.

(** Polling ends after the number of polls the port needs. *)
Lemma spin_tx fuel d : (tx_wait d < fuel)%nat ->
  exists d', spin fuel LSR_THRE d = Done tt d' /\ port_io [] [] d d' /\ tx_wait d' = O.
Proof.
  revert d. induction fuel as [|fuel IH]; intros d Hf; [lia|]. cbn [spin].
  destruct (rd_lsr d) as (v & d' & E & Hb & _ & Ht & _ & Hd & Hi & Hl & Ho).
  rewrite (bind_Done _ _ _ _ _ E). unfold LSR_THRE. rewrite land_bit, Hb by lia.
  assert (HP : port_io [] [] d d') by (split; rewrite ?app_nil_r; try done).
  case_bool_decide as Hz; cbn [negb].
  - exists d'. split_and!; [done|done|lia].
  - destruct (IH d') as (d2 & E2 & P2 & H2); [lia|]. exists d2. split_and!; [done| |done].
    apply (port_io_trans [] [] [] [] _ _ _ HP P2).
Qed.

Lemma spin_rx fuel d : (rx_wait d < fuel)%nat -> line_in d <> [] ->
  exists d', spin fuel LSR_DR d = Done tt d' /\ port_io [] [] d d' /\ rx_wait d' = O.
Proof.
  revert d. induction fuel as [|fuel IH]; intros d Hf Hne; [lia|]. cbn [spin].
  destruct (rd_lsr d) as (v & d' & E & _ & Hb & _ & Ht & Hd & Hi & Hl & Ho).
  rewrite (bind_Done _ _ _ _ _ E). unfold LSR_DR. rewrite land_bit, Hb by lia.
  assert (HP : port_io [] [] d d') by (split; rewrite ?app_nil_r; try done).
  case_bool_decide as Hz; cbn [negb].
  - exists d'. split_and!; [done|done|lia].
  - destruct (IH d') as (d2 & E2 & P2 & H2); [|by rewrite Hl|].
    + destruct (rx_wait d) eqn:Hr; [|cbn in Ht; lia]. by destruct Hz.
    + exists d2. split_and!; [done| |done]. apply (port_io_trans [] [] [] [] _ _ _ HP P2).
Qed.

(** ** Output *)

(** What the port sends for a character after [prev]. *)
Definition con_step (prev c : Z) : list Z :=
  if c =? CR then [CR; NL] else if (c =? NL) && negb (prev =? CR) then [CR; NL] else [c].

Fixpoint con_text (prev : Z) (l : list Z) : list Z :=
  match l with [] => [] | c :: l' => con_step prev c ++ con_text c l' end.

Definition last_char (prev : Z) (l : list Z) : Z := fold_left (fun _ c => c) l prev.

Lemma con_text_app prev l1 l2 : con_text prev (l1 ++ l2) = con_text prev l1 ++ con_text (last_char prev l1) l2.
Proof. revert prev. induction l1 as [|c l1 IH]; intros prev; [done|]. cbn. by rewrite IH, app_assoc. Qed.

Lemma last_char_app prev l1 l2 : last_char prev (l1 ++ l2) = last_char (last_char prev l1) l2.
Proof. apply fold_left_app. Qed.

(** A console whose port is set up, and what output changes of it. *)
Definition port_ready (s : cstate D) : Prop := dlab (com0 s) = false.

Record prints (o : list Z) (prev : Z) (s s' : cstate D) : Prop := {
  pr_port : port_io o [] (com0 s) (com0 s');
  pr_prev : putchar_prev s' = prev;
  pr_get : getchar_prev s' = getchar_prev s;
  pr_init : console_initialized s' = console_initialized s;
  pr_intr : con_intr_initialized s' = con_intr_initialized s;
  pr_ts : con_ts s' = con_ts s
}.

Lemma prints_refl s : prints [] (putchar_prev s) s s.
Proof. split; try done. apply port_io_refl. Qed.

Lemma prints_trans o1 p1 o2 p2 s1 s2 s3 :
  prints o1 p1 s1 s2 -> prints o2 p2 s2 s3 -> prints (o1 ++ o2) p2 s1 s3.
Proof. intros [] []. split; try congruence. by apply (port_io_trans _ [] _ [] _ (com0 s2)). Qed.

Lemma prints_ready o p s s' : prints o p s s' -> port_ready s -> port_ready s'.
Proof. intros [[] ] H. unfold port_ready in *. congruence. Qed.

Lemma com0_putc_sends fuel c s : (patience < fuel)%nat -> port_ready s ->
  exists s', on_com0 (com0_putc fuel c) s = Done tt s' /\ prints [c] (putchar_prev s) s s'.
Proof.
  intros Hf Hr. destruct (spin_tx fuel (com0 s)) as (d & E & P & Ht); [pose proof (tx_patience (com0 s)); lia|].
  destruct (wr_thr d c) as (d' & E2 & Hd & Hi & Hl & Ho); [by rewrite (pi_dlab _ _ _ _ P)|done|].
  exists (set_com0 d' s). split.
  - unfold on_com0, lift, com0_putc. by rewrite (bind_Done _ _ _ _ _ E), E2.
  - split; try done. apply (port_io_trans [] [] [c] [] _ _ _ P). split; cbn; try done.
    by rewrite Hd, (pi_dlab _ _ _ _ P).
Qed.

(** Steps through a sequence of characters. *)
Ltac sends s' P :=
  match goal with
  | Hf : (patience < ?fuel)%nat, Hr : port_ready ?s |- context [on_com0 (com0_putc ?fuel ?c) ?s] =>
      let E := fresh in
      destruct (com0_putc_sends fuel c s Hf Hr) as (s' & E & P); rewrite (bind_Done _ _ _ _ _ E) || rewrite E;
      assert (port_ready s') by (exact (prints_ready _ _ _ _ P Hr)); clear E
  | Hf : (patience < ?fuel)%nat, Hr : port_ready ?s |- context [bind (on_com0 (com0_putc ?fuel ?c)) _ ?s] =>
      let E := fresh in
      destruct (com0_putc_sends fuel c s Hf Hr) as (s' & E & P); rewrite (bind_Done _ _ _ _ _ E);
      assert (port_ready s') by (exact (prints_ready _ _ _ _ P Hr)); clear E
  end.

Lemma prints_prev o p c s s' : prints o p s s' -> prints o c s (set_putchar_prev c s').
Proof. intros []. by split. Qed.

Lemma console_putchar_prints fuel c s : (patience < fuel)%nat -> port_ready s ->
  exists s', console_putchar fuel c s = Done tt s' /\ prints (con_step (putchar_prev s) c) c s s'.
Proof.
  intros Hf Hr. unfold console_putchar, con_step.
  destruct (Z.eqb_spec c CR) as [->|Hcr].
  { rewrite bind_assoc. sends s1 P1. sends s2 P2. exists (set_putchar_prev CR s2). split; [done|].
    apply (prints_prev _ (putchar_prev s1)), (prints_trans _ _ _ _ _ _ _ P1 P2). }
  destruct (Z.eqb_spec c NL) as [->|Hnl]; cbn [andb].
  - rewrite bind_assoc, (bind_Done (gets _) _ _ _ _ eq_refl).
    destruct (Z.eqb_spec (putchar_prev s) CR) as [Hp|Hp]; cbn [negb].
    + rewrite bind_assoc, (bind_Done (ret tt) _ _ _ _ eq_refl). sends s1 P1. exists (set_putchar_prev NL s1). split; [done|].
      by apply (prints_prev _ (putchar_prev s)).
    + rewrite bind_assoc. sends s1 P1. sends s2 P2. exists (set_putchar_prev NL s2). split; [done|].
      apply (prints_prev _ (putchar_prev s1)), (prints_trans _ _ _ _ _ _ _ P1 P2).
  - sends s1 P1. exists (set_putchar_prev c s1). split; [done|]. by apply (prints_prev _ (putchar_prev s)).
Qed.

Lemma putchars_prints fuel l s : (patience < fuel)%nat -> port_ready s ->
  exists s', putchars fuel l s = Done tt s' /\ prints (con_text (putchar_prev s) l) (last_char (putchar_prev s) l) s s'.
Proof.
  intros Hf. revert s. induction l as [|c l IH]; intros s Hr.
  - exists s. split; [done|apply prints_refl].
  - destruct (console_putchar_prints fuel c s Hf Hr) as (s1 & E1 & P1).
    destruct (IH s1 (prints_ready _ _ _ _ P1 Hr)) as (s2 & E2 & P2).
    exists s2. split; [cbn [putchars]; by rewrite (bind_Done _ _ _ _ _ E1)|].
    rewrite (pr_prev _ _ _ _ P1) in P2. exact (prints_trans _ _ _ _ _ _ _ P1 P2).
Qed.

(** The guard gives back the interrupt state it found. *)
Lemma intr_guard_prints {A} (body : M (cstate D) A) a o p s :
  (forall s1, com0 s1 = com0 s -> putchar_prev s1 = putchar_prev s ->
     exists s2, body s1 = Done a s2 /\ prints o p s1 s2) ->
  exists s', intr_guard body s = Done a s' /\ prints o p s s'.
Proof.
  intros HB. unfold intr_guard. rewrite (bind_Done (gets _) _ _ _ _ eq_refl).
  destruct (con_intr_initialized s) eqn:Hi.
  - rewrite (bind_Done (on_con_ts intr_disable) _ s (sie (con_ts s)) (set_con_ts (set_sie false (con_ts s)) s) eq_refl).
    destruct (HB (set_con_ts (set_sie false (con_ts s)) s) eq_refl eq_refl) as (s2 & E & []).
    rewrite (bind_Done _ _ _ _ _ E), (bind_Done (gets _) _ _ _ _ eq_refl).
    replace (con_intr_initialized s2) with true by (cbn in *; congruence).
    eexists. split; [reflexivity|]. split; try done. cbn in *. rewrite pr_ts0. by destruct (con_ts s).
  - rewrite (bind_Done (ret false) _ _ _ _ eq_refl).
    destruct (HB s eq_refl eq_refl) as (s2 & E & P). exists s2. split; [|done].
    rewrite (bind_Done _ _ _ _ _ E), (bind_Done (gets _) _ _ _ _ eq_refl).
    by replace (con_intr_initialized s2) with false by (destruct P; congruence).
Qed.

Lemma console_init_ready s :
  exists s', console_init s = Done tt s' /\ port_ready s' /\ console_initialized s' = true /\
    ier (com0 s') = (if dlab (com0 s) then ier (com0 s) else 0) /\
    line_in (com0 s') = line_in (com0 s) /\ line_out (com0 s') = line_out (com0 s).
Proof.
  destruct (wr_ier (com0 s) 0) as (d1 & E1 & D1 & I1 & L1 & O1).
  destruct (wr_lcr d1 LCR_DLAB) as (d2 & E2 & D2 & I2 & L2 & O2).
  destruct (wr_dll d2 1) as (d3 & E3 & D3 & I3 & L3 & O3); [by rewrite D2|].
  destruct (wr_ier d3 0) as (d4 & E4 & D4 & I4 & L4 & O4).
  destruct (wr_lcr d4 0) as (d5 & E5 & D5 & I5 & L5 & O5).
  eexists. split.
  - unfold console_init, on_com0, lift, com0_init, bind. by rewrite E1, E2, E3, E4, E5.
  - rewrite D3 in I4. unfold port_ready. cbn in *. split_and!; congruence.
Qed.

(** [console_vprintf] sends the formatted text with every line end turned into
    carriage return and newline, whatever was printed before, in at most
    [patience] polls a character; it returns the length of the text and leaves the
    interrupt enable bit and everything else as they were, whether or not
    interrupts have been set up. *)
Theorem console_vprintf_correct (fuel : nat) (fmt : list Z) (args : list arg) (o : list Z) (s : cstate D) :
  (patience < fuel)%nat -> port_ready s -> vgprintf fmt args = Some o ->
  exists s', console_vprintf fuel fmt args s = Done (Z.of_nat (length o)) s' /\
    prints (con_text (putchar_prev s) o) (last_char (putchar_prev s) o) s s'.
Proof.
  intros Hf Hr Ho. apply intr_guard_prints. rewrite Ho. intros s1 Hc Hp.
  destruct (putchars_prints fuel o s1 Hf) as (s2 & E & P); [by unfold port_ready; rewrite Hc|].
  exists s2. rewrite (bind_Done _ _ _ _ _ E). by rewrite Hp in P.
Qed.

(** ** Input *)

Record takes (i : list Z) (prev : Z) (s s' : cstate D) : Prop := {
  ta_port : port_io [] i (com0 s) (com0 s');
  ta_prev : getchar_prev s' = prev;
  ta_put : putchar_prev s' = putchar_prev s;
  ta_init : console_initialized s' = console_initialized s;
  ta_intr : con_intr_initialized s' = con_intr_initialized s;
  ta_ts : con_ts s' = con_ts s
}.

Lemma takes_trans i1 p1 i2 p2 s1 s2 s3 :
  takes i1 p1 s1 s2 -> takes i2 p2 s2 s3 -> takes (i1 ++ i2) p2 s1 s3.
Proof. intros [] []. split; try congruence. by apply (port_io_trans [] _ [] _ _ (com0 s2)). Qed.

Lemma takes_ready i p s s' : takes i p s s' -> port_ready s -> port_ready s'.
Proof. intros [[] ] H. unfold port_ready in *. congruence. Qed.

Lemma takes_rest i p s s' l : takes i p s s' -> line_in (com0 s) = i ++ l -> line_in (com0 s') = l.
Proof. intros [[] ] H. rewrite H in pi_in0. by apply app_inv_head in pi_in0. Qed.

Lemma com0_getc_takes fuel c l s : (patience < fuel)%nat -> port_ready s -> line_in (com0 s) = c :: l ->
  exists s', on_com0 (com0_getc fuel) s = Done c s' /\ takes [c] (getchar_prev s) s s'.
Proof.
  intros Hf Hr Hl. assert (Hne : line_in (com0 s) <> []) by (by rewrite Hl).
  pose proof (rx_patience (com0 s) Hne) as Hw. destruct (spin_rx fuel (com0 s)) as (d & E & P & Ht); [lia|done|].
  assert (Hl2 : line_in d = c :: l) by (by rewrite <- Hl, (pi_in _ _ _ _ P)).
  destruct (rd_rbr d c l) as (d' & E2 & Hd & Hi & Hl' & Ho); [by rewrite (pi_dlab _ _ _ _ P)|done|done|].
  assert (Hc : w8 c = c).
  { pose proof (line_bytes d) as HB. rewrite Hl2 in HB. apply Forall_cons_1 in HB as [HB _]. by apply w8_small. }
  exists (set_com0 d' s). split.
  - unfold on_com0, lift, com0_getc. rewrite (bind_Done _ _ _ _ _ E), (bind_Done _ _ _ _ _ E2). by rewrite Hc.
  - split; try done. apply (port_io_trans [] [] [] [c] _ _ _ P). split; cbn.
    + by rewrite Hd, (pi_dlab _ _ _ _ P).
    + done.
    + by rewrite Hl2, Hl'.
    + by rewrite app_nil_r.
Qed.

(** Newlines after a carriage return are skipped. *)
Lemma getchar_loop_takes fuel k c l : forall turns s,
  (patience < fuel)%nat -> port_ready s -> (k < turns)%nat -> c <> NL ->
  (k = O \/ getchar_prev s = CR) -> line_in (com0 s) = replicate k NL ++ c :: l ->
  exists s', getchar_loop turns fuel s = Done c s' /\ takes (replicate k NL ++ [c]) (getchar_prev s) s s'.
Proof.
  induction k as [|k IH]; intros [|turns] s Hf Hr Ht Hc Hk Hl; try lia; cbn [getchar_loop].
  - destruct (com0_getc_takes fuel c l s Hf Hr Hl) as (s1 & E1 & T1). exists s1. split; [|done].
    rewrite (bind_Done _ _ _ _ _ E1), (bind_Done (gets _) _ _ _ _ eq_refl).
    by rewrite (proj2 (Z.eqb_neq _ _) Hc).
  - destruct Hk as [Hk|Hk]; [lia|].
    destruct (com0_getc_takes fuel NL (replicate k NL ++ c :: l) s Hf Hr Hl) as (s1 & E1 & T1).
    assert (Hp : getchar_prev s1 = CR) by (by rewrite (ta_prev _ _ _ _ T1)).
    destruct (IH turns s1) as (s2 & E2 & T2); [done|by apply (takes_ready _ _ _ _ T1)|lia|done|by right| |].
    { exact (takes_rest _ _ _ _ (replicate k NL ++ c :: l) T1 Hl). }
    exists s2. split.
    + rewrite (bind_Done _ _ _ _ _ E1), (bind_Done (gets _) _ _ _ _ eq_refl). by rewrite Hp.
    + rewrite Hp, <- Hk in T2. exact (takes_trans _ _ _ _ _ _ _ T1 T2).
Qed.

Lemma console_getchar_takes fuel k c l turns s :
  (patience < fuel)%nat -> port_ready s -> (k < turns)%nat -> c <> NL ->
  (k = O \/ getchar_prev s = CR) -> line_in (com0 s) = replicate k NL ++ c :: l ->
  exists s', console_getchar turns fuel s = Done (if c =? CR then NL else c) s' /\
    takes (replicate k NL ++ [c]) c s s'.
Proof.
  intros Hf Hr Ht Hc Hk Hl. destruct (getchar_loop_takes fuel k c l turns s) as (s1 & E1 & T1); try done.
  exists (set_getchar_prev c s1). split; [|by destruct T1; split].
  unfold console_getchar. by rewrite (bind_Done _ _ _ _ _ E1).
Qed.

(** The line (last character first) in a buffer of [cap] bytes after a character. *)
Definition con_edit (cap : Z) (line : list Z) (c : Z) : list Z :=
  if (c =? 8) || (c =? 127) then tl line
  else if Z.of_nat (length line) + 1 <? cap then c :: line else line.

Definition plain (c : Z) : Prop := c <> CR /\ c <> NL.

Lemma getsn_end fuel k line n turns s l :
  (patience < fuel)%nat -> port_ready s -> (k < turns)%nat -> (k = O \/ getchar_prev s = CR) ->
  line_in (com0 s) = replicate k NL ++ CR :: l ->
  exists s', console_getsn turns fuel line n s = Done (rev line) s' /\ takes (replicate k NL ++ [CR]) CR s s'.
Proof.
  intros Hf Hr Ht Hk Hl. destruct turns as [|turns]; [lia|].
  destruct (console_getchar_takes fuel k CR l (S turns) s) as (s1 & E1 & T1); try done.
  exists s1. split; [|done]. cbn [console_getsn]. by rewrite (bind_Done _ _ _ _ _ E1).
Qed.

Lemma getsn_char fuel k c line cap turns s l :
  (patience < fuel)%nat -> port_ready s -> (k <= turns)%nat -> (k = O \/ getchar_prev s = CR) -> plain c ->
  Z.of_nat (length line) < cap < 2 ^ 64 ->
  line_in (com0 s) = replicate k NL ++ c :: l ->
  exists s', console_getsn (S turns) fuel line (cap - Z.of_nat (length line)) s =
      console_getsn turns fuel (con_edit cap line c) (cap - Z.of_nat (length (con_edit cap line c))) s' /\
    takes (replicate k NL ++ [c]) c s s' /\ Z.of_nat (length (con_edit cap line c)) < cap.
Proof.
  intros Hf Hr Ht Hk [Hcr Hnl] Hcap Hl.
  destruct (console_getchar_takes fuel k c l (S turns) s) as (s1 & E1 & T1); [done..|lia|done|done|done|].
  exists s1. cbn [console_getsn]. rewrite (bind_Done _ _ _ _ _ E1), (proj2 (Z.eqb_neq _ _) Hcr).
  rewrite (proj2 (Z.eqb_neq _ _) Hcr), (proj2 (Z.eqb_neq _ _) Hnl). unfold con_edit.
  destruct (_ || _).
  - destruct line as [|b line]; cbn [tl length] in *; split_and!; try done; try lia.
    f_equal. rewrite w64_small; [lia|lia].
  - destruct (Z.ltb_spec (Z.of_nat (length line) + 1) cap) as [H|H].
    + rewrite (proj2 (Z.ltb_lt _ _)) by lia. cbn [length]. split_and!; [|done|lia]. f_equal. lia.
    + rewrite (proj2 (Z.ltb_ge _ _)) by lia. split_and!; [done|done|lia].
Qed.

Lemma console_getsn_line fuel body after : forall k turns cap line s,
  (patience < fuel)%nat -> port_ready s -> (k + length body < turns)%nat ->
  (k = O \/ getchar_prev s = CR) -> Forall plain body ->
  Z.of_nat (length line) < cap < 2 ^ 64 ->
  line_in (com0 s) = replicate k NL ++ body ++ CR :: after ->
  exists s', console_getsn turns fuel line (cap - Z.of_nat (length line)) s =
      Done (rev (fold_left (con_edit cap) body line)) s' /\
    takes (replicate k NL ++ body ++ [CR]) CR s s'.
Proof.
  induction body as [|c body IH]; intros k turns cap line s Hf Hr Ht Hk HB Hcap Hl; cbn [length app fold_left] in *.
  { by apply (getsn_end fuel k line _ turns s after); [..|lia| |]. }
  apply Forall_cons_1 in HB as [Hc HB]. destruct turns as [|turns]; [lia|].
  destruct (getsn_char fuel k c line cap turns s (body ++ CR :: after)) as (s1 & -> & T1 & Hlen); try done; [lia|].
  destruct (IH O turns cap (con_edit cap line c) s1) as (s2 & E2 & T2);
    [done|by apply (takes_ready _ _ _ _ T1)|lia|by left|done|lia| |].
  { apply (takes_rest _ _ _ _ _ T1). by rewrite Hl, <- app_assoc. }
  exists s2. split; [done|].
  replace (replicate k NL ++ c :: body ++ [CR]) with ((replicate k NL ++ [c]) ++ replicate 0 NL ++ body ++ [CR]).
  - exact (takes_trans _ _ _ _ _ _ _ T1 T2).
  - by rewrite <- app_assoc.
Qed.

(** ** Lines from one console to another *)

Definition typed (c : Z) : Prop := plain c /\ c <> 8 /\ c <> 127.

Lemma con_edit_typed cap l line : Forall typed l -> Z.of_nat (length line + length l) < cap ->
  fold_left (con_edit cap) l line = rev l ++ line.
Proof.
  revert line. induction l as [|c l IH]; intros line HF Hn; [done|].
  apply Forall_cons_1 in HF as [(_ & H8 & H127) HF]. cbn [fold_left rev length] in *. unfold con_edit at 2.
  rewrite (proj2 (Z.eqb_neq _ _) H8), (proj2 (Z.eqb_neq _ _) H127), (proj2 (Z.ltb_lt _ _)) by lia.
  cbn [orb]. rewrite IH; [by rewrite <- app_assoc|done|cbn [length]; lia].
Qed.

Lemma con_text_plain prev l : Forall plain l -> con_text prev l = l.
Proof.
  revert prev. induction l as [|c l IH]; intros prev HF; [done|]. apply Forall_cons_1 in HF as [[Hc Hn] HF].
  cbn [con_text]. rewrite IH by done. unfold con_step.
  by rewrite (proj2 (Z.eqb_neq _ _) Hc), (proj2 (Z.eqb_neq _ _) Hn).
Qed.

Lemma last_char_plain prev l : prev <> CR -> Forall plain l -> last_char prev l <> CR.
Proof.
  revert prev. induction l as [|c l IH]; intros prev Hp HF; [done|]. apply Forall_cons_1 in HF as [[Hc _] HF].
  by apply IH.
Qed.

Lemma console_puts_sends fuel l s : (patience < fuel)%nat -> port_ready s -> putchar_prev s <> CR -> Forall plain l ->
  exists s', console_puts fuel l s = Done tt s' /\ prints (l ++ [CR; NL]) NL s s'.
Proof.
  intros Hf Hr Hp HF. destruct (putchars_prints fuel l s Hf Hr) as (s1 & E1 & P1).
  destruct (console_putchar_prints fuel NL s1 Hf (prints_ready _ _ _ _ P1 Hr)) as (s2 & E2 & P2).
  exists s2. split; [unfold console_puts; by rewrite (bind_Done _ _ _ _ _ E1)|].
  rewrite (pr_prev _ _ _ _ P1) in P2. rewrite con_text_plain in P1 by done.
  unfold con_step in P2. rewrite (proj2 (Z.eqb_neq _ _) (last_char_plain _ l Hp HF)) in P2.
  exact (prints_trans _ _ _ _ _ _ _ P1 P2).
Qed.

(** Printing lines and reading as many. *)
Fixpoint puts_lines (fuel : nat) (ls : list (list Z)) : M (cstate D) unit :=
  match ls with [] => ret tt | l :: ls' => console_puts fuel l ;; puts_lines fuel ls' end.
Fixpoint gets_lines (turns fuel : nat) (n : Z) (k : nat) : M (cstate D) (list (list Z)) :=
  match k with
  | O => ret []
  | S k' => l <- console_getsn turns fuel [] n ;; ls <- gets_lines turns fuel n k' ;; ret (l :: ls)
  end.

Definition on_wire (ls : list (list Z)) : list Z := concat ((fun l => l ++ [CR; NL]) <$> ls).

Lemma puts_lines_sends fuel ls s : (patience < fuel)%nat -> port_ready s -> putchar_prev s <> CR ->
  Forall (Forall plain) ls ->
  exists s' p, puts_lines fuel ls s = Done tt s' /\ prints (on_wire ls) p s s'.
Proof.
  intros Hf. revert s. induction ls as [|l ls IH]; intros s Hr Hp HF.
  - exists s, (putchar_prev s). split; [done|apply prints_refl].
  - apply Forall_cons_1 in HF as [Hl HF]. destruct (console_puts_sends fuel l s) as (s1 & E1 & P1); try done.
    destruct (IH s1) as (s2 & p & E2 & P2);
      [by apply (prints_ready _ _ _ _ P1)|by rewrite (pr_prev _ _ _ _ P1)|done|].
    exists s2, p. split; [cbn [puts_lines]; by rewrite (bind_Done _ _ _ _ _ E1)|].
    exact (prints_trans _ _ _ _ _ _ _ P1 P2).
Qed.

Definition line_fits (turns : nat) (n : Z) (l : list Z) : Prop :=
  Forall typed l /\ Z.of_nat (length l) < n /\ (length l + 1 < turns)%nat.

Lemma gets_lines_takes turns fuel n after ls : (patience < fuel)%nat -> n < 2 ^ 64 -> forall k r,
  Forall (line_fits turns n) ls -> port_ready r ->
  (k = O \/ k = 1%nat /\ getchar_prev r = CR) ->
  line_in (com0 r) = replicate k NL ++ on_wire ls ++ after ->
  exists r', gets_lines turns fuel n (length ls) r = Done ls r' /\ port_ready r'.
Proof.
  intros Hf Hn. induction ls as [|l ls IH]; intros k r HF Hr Hk Hl; [by exists r|].
  apply Forall_cons_1 in HF as [(Ht & Hlen & Hturns) HF].
  destruct (console_getsn_line fuel l (NL :: on_wire ls ++ after) k turns n [] r) as (r1 & E1 & T1);
    [done|done|lia|naive_solver| |cbn; lia| |].
  { revert Ht. apply Forall_impl. by intros c []. }
  { rewrite Hl. unfold on_wire. cbn [fmap list_fmap concat]. by rewrite <- !app_assoc. }
  rewrite con_edit_typed, app_nil_r, rev_involutive in E1 by (done || cbn; lia).
  destruct (IH 1%nat r1) as (r2 & E2 & R2); [done|by apply (takes_ready _ _ _ _ T1)| | |].
  { right. split; [done|apply (ta_prev _ _ _ _ T1)]. }
  { apply (takes_rest _ _ _ _ _ T1). rewrite Hl. unfold on_wire. cbn [fmap list_fmap concat replicate].
    by rewrite <- !app_assoc. }
  exists r2. split; [|done]. cbn [length gets_lines].
  replace (n - Z.of_nat (@length Z [])) with n in E1 by (cbn; lia).
  by rewrite (bind_Done _ _ _ _ _ E1), (bind_Done _ _ _ _ _ E2).
Qed.

(** C27: Lines printed with [console_puts] on one machine are read back by
    [console_getsn] on a machine at the other end of the serial line, whatever
    follows them: the carriage returns and newlines added on output are exactly
    what input takes away, also between lines and for empty lines. *)
Theorem console_lines_roundtrip (fuel turns : nat) (n : Z) (ls : list (list Z)) (after : list Z) (s r : cstate D) :
  (patience < fuel)%nat -> n < 2 ^ 64 -> port_ready s -> port_ready r -> putchar_prev s <> CR ->
  Forall (line_fits turns n) ls ->
  exists o s', puts_lines fuel ls s = Done tt s' /\ line_out (com0 s') = line_out (com0 s) ++ o /\
    (line_in (com0 r) = o ++ after ->
     exists r', gets_lines turns fuel n (length ls) r = Done ls r').
Proof.
  intros Hf Hn Hs Hr Hp HF. destruct (puts_lines_sends fuel ls s) as (s' & p & E & P); try done.
  { revert HF. apply Forall_impl. intros l (Ht & _). revert Ht. apply Forall_impl. by intros c []. }
  exists (on_wire ls), s'. split_and!; [done|apply (pi_out _ _ _ _ (pr_port _ _ _ _ P))|].
  intros Hl. destruct (gets_lines_takes turns fuel n after ls Hf Hn O r HF Hr (or_introl eq_refl) Hl) as (r' & Er & _).
  by exists r'.
Qed.
End Props.

(** ** A concrete port *)

(** Busy for one poll after each character in either direction. *)
Record toy_uart := MkToy { t_dlab : bool; t_ier : Z; t_in : list Z; t_out : list Z; t_tx : bool; t_rx : bool }.

#[export] Instance toy_regs : UartRegs toy_uart := {
  rd8 a := fun d =>
    if a =? UART0_LSR then
      Done (Z.lor (if t_tx d then 0 else 32) (if t_rx d || bool_decide (t_in d = []) then 0 else 1))
           (MkToy (t_dlab d) (t_ier d) (t_in d) (t_out d) false false)
    else Done (w8 (hd 0 (t_in d))) (MkToy (t_dlab d) (t_ier d) (tl (t_in d)) (t_out d) (t_tx d) true);
  wr8 a v := fun d =>
    if a =? UART0_LCR then Done tt (MkToy (Z.testbit v 7) (t_ier d) (t_in d) (t_out d) (t_tx d) (t_rx d))
    else if a =? UART0_IER then
      Done tt (MkToy (t_dlab d) (if t_dlab d then t_ier d else v) (t_in d) (t_out d) (t_tx d) (t_rx d))
    else if t_dlab d then Done tt d
    else Done tt (MkToy (t_dlab d) (t_ier d) (t_in d) (t_out d ++ [v]) true (t_rx d))
}.

#[export] Instance toy_16550 : Uart16550 toy_uart.
Proof.
  refine (Build_Uart16550 _ _ t_dlab t_ier (fun d => w8 <$> t_in d) t_out
    (fun d => if t_tx d then 1%nat else O) (fun d => if t_rx d then 1%nat else O) 1 _ _ _ _ _ _ _ _ _).
  - intros d. destruct (t_tx d); lia.
  - intros d _. destruct (t_rx d); lia.
  - intros d. apply Forall_fmap, Forall_true. intros c. apply w8_range.
  - intros [dl ie [|c i] o tx rx]; cbn; eexists _, _; (split; [reflexivity|]); destruct tx, rx; cbn; split_and!; done || lia.
  - intros [dl ie [|c i] o tx rx] c' l Hd Hrx Hl; cbn in *; [done|]. injection Hl as <- <-.
    eexists. split; [reflexivity|]. by subst.
  - intros [dl ie i o tx rx] c Hd Ht; cbn in *. subst. eexists. by split; [reflexivity|].
  - intros [dl ie i o tx rx] v Hd; cbn in *. subst. eexists. by split; [reflexivity|].
  - intros d v. eexists. by split; [reflexivity|].
  - intros d v. eexists. by split; [reflexivity|].
Defined.

Definition toy_console (i : list Z) (intr : bool) : cstate toy_uart :=
  MkCons (MkToy false 0 i [] false true) 0 0 true intr (thread_init 4096 8192).

Lemma console_vprintf_correct_witness :
  exists s', console_vprintf 2 (chars "%d" ++ [10]) [AInt 42] (toy_console [] true) = Done 3 s' /\
    prints [52; 50; 13; 10] 10 (toy_console [] true) s'.
Proof.
  apply (console_vprintf_correct 2 (chars "%d" ++ [10]) [AInt 42] [52; 50; 10]); [cbn; lia|done|vm_compute; reflexivity].
Defined.

Lemma console_lines_roundtrip_witness :
  exists o s', puts_lines 2 [[104; 105]; []; [33]] (toy_console [] false) = Done tt s' /\
    line_out (com0 s') = line_out (com0 (toy_console [] false)) ++ o /\
    (line_in (com0 (toy_console [104; 105; 13; 10; 13; 10; 33; 13; 10; 7] false)) = o ++ [7] ->
     exists r', gets_lines 5 2 8 3 (toy_console [104; 105; 13; 10; 13; 10; 33; 13; 10; 7] false) = Done [[104; 105]; []; [33]] r').
Proof.
  apply (console_lines_roundtrip 2 5 8 [[104; 105]; []; [33]] [7]); try done; [cbn; lia|].
  repeat constructor; cbn; lia || done.
Defined.

(** A carriage return is already sent as a line end, and the newline after it is
    sent once more. *)
Lemma console_crlf_doubled :
  exists s', putchars 2 [CR; NL] (toy_console [] false) = Done tt s' /\ line_out (com0 s') = [CR; NL; NL].
Proof. eexists. split; vm_compute; reflexivity. Qed.
