(* ===== verification/Mkfs.v ===== *)
(** * The file system image builder (util/mkfs.c)

    [mkfs] lays out an image: the boot block with the directory, one block per
    inode, then the data blocks of the files in order.  The program writes the
    structures in the byte order of the machine it runs on, little-endian here.
    [junk] are the bytes of the inode array before it is filled: the array is not
    initialised. *)

From stdpp Require Import base list strings numbers.
From Stdlib Require Import Lia ZArith.
From S2P Require Import Prelude CString BlockIo Kfs.
Local Open Scope Z_scope.

(** A path given on the command line and the bytes of the file. *)
Record host_file := MkHost { path : list Z; bytes : list Z }.

(** "../user/bin/" and "user/bin/". *)
Definition up_user_bin : list Z := [46; 46; 47; 117; 115; 101; 114; 47; 98; 105; 110; 47].
Definition user_bin : list Z := [117; 115; 101; 114; 47; 98; 105; 110; 47].

Definition shortname (arg : list Z) : list Z :=
  if strncmp arg up_user_bin 12 =? 0 then drop 12 arg
  else if strncmp arg user_bin 9 =? 0 then drop 9 arg
  else arg.

(** A 32-bit member as it is stored. *)
Definition enc32 (x : Z) : list Z := [w8 x; w8 (x / 256); w8 (x / 65536); w8 (x / 16777216)].

(** [dentry_t], in a zeroed boot block, where the padding of the library's
    [strncpy] makes no difference. *)
Definition mk_dentry (name : list Z) (ino : Z) : list Z :=
  strncpy (replicate FS_NAMELEN 0) name FS_NAMELEN ++ enc32 ino ++ replicate 28 0.

(** The directory loop: entries [i], [i+1], ... *)
Fixpoint dentries (i : Z) (fs : list host_file) : string + list (list Z) :=
  match fs with
  | [] => inr []
  | f :: fs' =>
      let name := shortname (path f) in
      if bool_decide (47 ∈ name) then inl "assert: index(shortname, '/') == 0"%string else
      if MAX_DENTRY <=? i then inl "dir_entries index out of range"%string else
      match dentries (i + 1) fs' with
      | inl e => inl e
      | inr ds => inr (mk_dentry name i :: ds)
      end
  end.

Definition file_blocks (num_bytes : Z) : Z := num_bytes / FS_BLKSZ + 1.

(** The inode over the bytes [junk] of the array. *)
Definition mk_inode (junk : list Z) (num_bytes data_block_idx : Z) : list Z :=
  overlay (enc32 num_bytes ++
           concat ((fun j => enc32 (data_block_idx + Z.of_nat j)) <$> seq 0 (Z.to_nat (file_blocks num_bytes)))) junk.

(** The inode loop: the inodes and the final [data_block_idx]. *)
Fixpoint inodes (junk : nat -> list Z) (inode_idx : nat) (data_block_idx : Z) (fs : list host_file)
    : string + list (list Z) * Z :=
  match fs with
  | [] => inr ([], data_block_idx)
  | f :: fs' =>
      let num_bytes := Z.of_nat (length (bytes f)) in
      if MAX_BLOCKS <? file_blocks num_bytes then inl "data_block_num index out of range"%string else
      match inodes junk (S inode_idx) (data_block_idx + file_blocks num_bytes) fs' with
      | inl e => inl e
      | inr (l, n) => inr (mk_inode (junk inode_idx) num_bytes data_block_idx :: l, n)
      end
  end.

(** [while (read(fd, buf, sizeof(buf)) > 0) write(fsfd, buf, FS_BLKSZ)]: a short
    read leaves the rest of the buffer as it was. *)
Fixpoint data_blocks (fuel : nat) (buf rest : list Z) : list (list Z) :=
  match rest, fuel with
  | [], _ | _, O => []
  | _, S fuel' =>
      let buf' := overlay (take 4096 rest) buf in
      buf' :: data_blocks fuel' buf' (drop 4096 rest)
  end.

(** Every turn reads at least one byte. *)
Definition file_data (f : host_file) : list (list Z) :=
  data_blocks (length (bytes f)) (replicate 4096 0) (bytes f).

Definition mk_boot (n num_data : Z) (ds : list (list Z)) : list Z :=
  let entries := concat ds in
  enc32 n ++ enc32 n ++ enc32 num_data ++ replicate 52 0 ++ entries ++ replicate (4032 - length entries) 0.

(** [main]: the blocks written to the image, in order. *)
Definition mkfs (junk : nat -> list Z) (fs : list host_file) : string + list (list Z) :=
  match dentries 0 fs with
  | inl e => inl e
  | inr ds =>
      match inodes junk 0 0 fs with
      | inl e => inl e
      | inr (inos, num_data) =>
          inr (mk_boot (Z.of_nat (length fs)) num_data ds :: inos ++ concat (file_data <$> fs))
      end
  end.
