(* ===== verification/MkfsProps.v ===== *)
(** * The image of mkfs read through the file system

    The image built by mkfs.c, on any device, mounted and read by kfs.c. *)

From stdpp Require Import base list strings numbers.
From Stdlib Require Import Lia ZArith.
From S2P Require Import Prelude CString BlockIo Kfs KfsProps Io IoProps Mkfs.
Local Open Scope Z_scope.

(** ** Words and blocks *)

Lemma enc32_length x : length (enc32 x) = 4%nat.
Proof. done. Qed.

Lemma le32_enc l1 x l2 : 0 <= x < 2 ^ 32 -> le32 (l1 ++ enc32 x ++ l2) (Z.of_nat (length l1)) = x.
Proof.
  intros Hx. unfold le32.
  assert (H : forall k, 0 <= k < 4 ->
    (l1 ++ enc32 x ++ l2) !! Z.to_nat (Z.of_nat (length l1) + k) = enc32 x !! Z.to_nat k).
  { intros k Hk. rewrite lookup_app_r by lia. rewrite lookup_app_l by (rewrite enc32_length; lia). f_equal. lia. }
  rewrite !H by lia. 
  change (enc32 x !! Z.to_nat 0) with (Some (w8 x)). change (enc32 x !! Z.to_nat 1) with (Some (w8 (x / 256))).
  change (enc32 x !! Z.to_nat 2) with (Some (w8 (x / 65536))). change (enc32 x !! Z.to_nat 3) with (Some (w8 (x / 16777216))).
  cbn [default from_option id]. unfold w8, id. change (2 ^ 32) with 4294967296 in Hx.
  replace (x / 65536) with (x / 256 / 256) by (by rewrite Z.div_div).
  replace (x / 16777216) with (x / 256 / 256 / 256) by (by rewrite !Z.div_div).
  clear H. Z.div_mod_to_equations. lia.
Qed.

Lemma enc32_bytes x : Forall (fun c => 0 <= c < 256) (enc32 x).
Proof. repeat constructor; apply w8_range. Qed.

(** Block [k] of a list of blocks of [b] bytes. *)
Lemma lookup_blocks (ls : list (list Z)) b k r l :
  Forall (fun l => length l = b) ls -> ls !! k = Some l -> (r < b)%nat ->
  concat ls !! (k * b + r)%nat = l !! r.
Proof.
  intros Hb. revert k. induction Hb as [|x ls Hx _ IH]; intros k Hk Hr; [done|].
  destruct k as [|k]; cbn in Hk.
  - injection Hk as ->. cbn. by rewrite lookup_app_l by lia.
  - cbn. rewrite lookup_app_r by lia. rewrite <- (IH k) by done. f_equal. lia.
Qed.

Lemma length_blocks (ls : list (list Z)) b :
  Forall (fun l => length l = b) ls -> length (concat ls) = (length ls * b)%nat.
Proof. induction 1 as [|x ls Hx _ IH]; [done|]. cbn. rewrite length_app, IH. lia. Qed.

(** ** The parts of the image *)

Lemma strncpy_zero n : forall name,
  cstr name -> length (strncpy (replicate n 0) name n) = n /\ cstring (strncpy (replicate n 0) name n) = take n name.
Proof.
  induction n as [|n IH]; intros name Hn; [done|]. cbn [strncpy replicate tl].
  destruct name as [|c name]; cbn [chr hd].
  - split; [cbn; by rewrite length_replicate|done].
  - inversion_clear Hn as [|? ? Hc Hn']. rewrite (proj2 (Z.eqb_neq c 0)) by lia. cbn [tl length cstring take].
    destruct (IH name Hn') as [-> E]. rewrite (proj2 (Z.eqb_neq c 0)) by lia. by rewrite E.
Qed.

Lemma strncpy_bytes n : forall name, cstr name -> Forall (fun c => 0 <= c < 256) (strncpy (replicate n 0) name n).
Proof.
  induction n as [|n IH]; intros name Hn; [constructor|]. cbn [strncpy replicate tl].
  destruct name as [|c name]; cbn [chr hd].
  - constructor; [lia|]. apply Forall_replicate. lia.
  - inversion_clear Hn as [|? ? Hc Hn']. rewrite (proj2 (Z.eqb_neq c 0)) by lia. constructor; [lia|by apply IH].
Qed.

Lemma mk_dentry_length name i : cstr name -> length (mk_dentry name i) = 64%nat.
Proof.
  intros H. unfold mk_dentry. rewrite !length_app. unfold FS_NAMELEN. rewrite (proj1 (strncpy_zero 32 name H)). done.
Qed.

Lemma data_blocks_spec fuel : forall buf rest,
  (length rest <= fuel)%nat -> length buf = 4096%nat ->
  Forall (fun l => length l = 4096%nat) (data_blocks fuel buf rest) /\
  Z.of_nat (length (data_blocks fuel buf rest)) = (Z.of_nat (length rest) + 4095) / 4096 /\
  forall k, (k < length rest)%nat -> concat (data_blocks fuel buf rest) !! k = rest !! k.
Proof.
  induction fuel as [|fuel IH]; intros buf [|c rest] Hf Hb; cbn [length] in Hf; try lia;
    try (cbn [data_blocks length]; split_and!; [constructor|done|intros; lia]).
  cbn [data_blocks]. set (r := c :: rest). set (buf' := overlay (take 4096 r) buf).
  assert (Hb' : length buf' = 4096%nat) by (unfold buf', overlay; rewrite length_app, length_drop, length_take; lia).
  destruct (IH buf' (drop 4096 r)) as (H1 & H2 & H3); [rewrite length_drop; cbn [r length]; lia|done|].
  split_and!.
  - by constructor.
  - cbn [length]. rewrite Nat2Z.inj_succ, H2, length_drop.
    assert (Hr : (1 <= length r)%nat) by (cbn; lia). rewrite Nat2Z.inj_sub_max. revert Hr.
    generalize (length r). intros m Hm. Z.div_mod_to_equations. lia.
  - intros k Hk. cbn [concat]. destruct (decide (k < 4096)%nat) as [Hk4|Hk4].
    + rewrite lookup_app_l by lia. unfold buf', overlay. rewrite lookup_app_l by (rewrite length_take; lia).
      by rewrite lookup_take_lt.
    + rewrite lookup_app_r by lia. rewrite Hb', H3 by (rewrite length_drop; lia). rewrite lookup_drop. f_equal. lia.
Qed.

Lemma file_data_spec f :
  Forall (fun l => length l = 4096%nat) (file_data f) /\
  Z.of_nat (length (file_data f)) = (Z.of_nat (length (bytes f)) + 4095) / 4096 /\
  forall k, (k < length (bytes f))%nat -> concat (file_data f) !! k = bytes f !! k.
Proof. apply data_blocks_spec; [lia|by rewrite length_replicate]. Qed.

(** ** Splitting a list of blocks at one of them *)

Lemma split_blocks (ls : list (list Z)) b k l :
  Forall (fun l => length l = b) ls -> ls !! k = Some l ->
  exists l1 l2, concat ls = l1 ++ l ++ l2 /\ length l1 = (k * b)%nat.
Proof.
  intros Hb Hk. exists (concat (take k ls)), (concat (drop (S k) ls)).
  split.
  - rewrite <- (take_drop_middle ls k l Hk) at 1. by rewrite concat_app.
  - rewrite (length_blocks _ b) by (by apply Forall_take). rewrite length_take.
    apply lookup_lt_Some in Hk. by rewrite Nat.min_l by lia.
Qed.

(** A block of a device that holds a list of blocks. *)
Definition holds (d : Z -> Z) (ls : list (list Z)) : Prop :=
  forall i, 0 <= i < Z.of_nat (length (concat ls)) -> concat ls !! Z.to_nat i = Some (d i).

Lemma holds_block d ls k l :
  Forall (fun l => length l = 4096%nat) ls -> holds d ls -> ls !! k = Some l ->
  bytes_at d (Z.of_nat k * 4096) 4096 = l.
Proof.
  intros Hb Hd Hk. pose proof (lookup_lt_Some _ _ _ Hk) as Hlt.
  assert (Hl : length l = 4096%nat) by (by apply (Forall_lookup_1 _ _ k l Hb)).
  apply list_eq. intros r. destruct (decide (r < 4096)%nat) as [Hr|Hr].
  - rewrite bytes_at_lookup by done. rewrite <- (lookup_blocks ls 4096 k r l Hb Hk Hr). symmetry.
    replace (k * 4096 + r)%nat with (Z.to_nat (Z.of_nat k * 4096 + Z.of_nat r)) by lia.
    apply Hd. rewrite (length_blocks ls 4096 Hb). nia.
  - rewrite !lookup_ge_None_2 by (rewrite ?length_bytes_at; lia). done.
Qed.

(** ** The boot block *)

Definition name_of (f : host_file) : list Z := shortname (path f).

(** The file names mkfs accepts. *)
Definition good_name (f : host_file) : Prop := cstr (name_of f) /\ 47 ∉ name_of f.

Lemma dentries_spec fs : forall i,
  Forall good_name fs -> 0 <= i -> i + Z.of_nat (length fs) <= MAX_DENTRY ->
  exists ds, dentries i fs = inr ds /\ length ds = length fs /\
    forall k f, fs !! k = Some f -> ds !! k = Some (mk_dentry (name_of f) (i + Z.of_nat k)).
Proof.
  induction fs as [|f fs IH]; intros i Hg Hi Hmax; [by exists []|].
  inversion_clear Hg as [|? ? [Hc Hs] Hg']. cbn [length] in Hmax. cbn [dentries].
  rewrite bool_decide_eq_false_2 by done. rewrite (proj2 (Z.leb_gt _ _)) by lia.
  destruct (IH (i + 1)) as (ds & -> & Hl & Hk); [done|lia|lia|].
  exists (mk_dentry (name_of f) i :: ds). split; [done|]. split; [cbn; by rewrite Hl|].
  intros [|k] g Hkg.
  - injection Hkg as ->. by rewrite Z.add_0_r.
  - change (ds !! k = Some (mk_dentry (name_of g) (i + Z.of_nat (S k)))). rewrite (Hk k g Hkg). do 2 f_equal. lia.
Qed.

Section Boot.
Context (fs : list host_file) (ds : list (list Z)) (nd : Z).
Hypothesis (Hgood : Forall good_name fs) (Hn : Z.of_nat (length fs) <= MAX_DENTRY).
Hypothesis (Hds : length ds = length fs).
Hypothesis (Hdk : forall k f, fs !! k = Some f -> ds !! k = Some (mk_dentry (name_of f) (Z.of_nat k))).

Let bb : list Z := mk_boot (Z.of_nat (length fs)) nd ds.

Lemma dentry_lengths : Forall (fun l => length l = 64%nat) ds.
Proof.
  apply Forall_lookup_2. intros k d Hk. destruct (lookup_lt_is_Some_2 fs k) as [f Hf].
  { rewrite <- Hds. by eapply lookup_lt_Some. }
  rewrite (Hdk k f Hf) in Hk. injection Hk as <-. apply mk_dentry_length.
  by destruct (Forall_lookup_1 _ _ k f Hgood Hf).
Qed.

Lemma boot_length : length bb = 4096%nat.
Proof.
  unfold bb, mk_boot. rewrite !length_app, !length_replicate. cbn [length enc32].
  rewrite (length_blocks ds 64 dentry_lengths), Hds. unfold MAX_DENTRY in Hn. lia.
Qed.

Lemma boot_counts : num_dentry bb = Z.of_nat (length fs) /\ num_inodes bb = Z.of_nat (length fs).
Proof.
  unfold MAX_DENTRY in Hn. split.
  - apply (le32_enc [] (Z.of_nat (length fs))). lia.
  - apply (le32_enc (enc32 (Z.of_nat (length fs))) (Z.of_nat (length fs))). lia.
Qed.

Lemma boot_split k f :
  fs !! k = Some f ->
  exists l1 l2, bb = l1 ++ mk_dentry (name_of f) (Z.of_nat k) ++ l2 /\ length l1 = (64 + 64 * k)%nat.
Proof.
  intros Hk. destruct (split_blocks ds 64 k _ dentry_lengths (Hdk k f Hk)) as (l1 & l2 & E & Hl).
  exists (enc32 (Z.of_nat (length fs)) ++ enc32 (Z.of_nat (length fs)) ++ enc32 nd ++ replicate 52 0 ++ l1).
  eexists. split.
  - unfold bb, mk_boot. rewrite E. rewrite <- !app_assoc. reflexivity.
  - rewrite !length_app, length_replicate, Hl. cbn [length enc32]. lia.
Qed.

Lemma boot_entry k f :
  fs !! k = Some f ->
  dir_name bb (Z.of_nat k) = take FS_NAMELEN (name_of f) /\ dentry_inode bb (Z.of_nat k) = Z.of_nat k.
Proof.
  intros Hk. destruct (Forall_lookup_1 _ _ k f Hgood Hk) as [Hc _].
  destruct (strncpy_zero FS_NAMELEN (name_of f) Hc) as [Hs1 Hs2].
  destruct (boot_split k f Hk) as (l1 & l2 & -> & Hl).
  pose proof (lookup_lt_Some _ _ _ Hk). unfold MAX_DENTRY in Hn. split.
  - unfold dir_name, file_name, dentry_off, mk_dentry. rewrite (drop_app_length' l1) by (rewrite Hl; lia).
    rewrite <- !app_assoc, take_app_length' by done. exact Hs2.
  - unfold dentry_inode, mk_dentry, dentry_off. rewrite <- !app_assoc.
    rewrite (app_assoc l1). etransitivity; [|apply (le32_enc (l1 ++ strncpy (replicate FS_NAMELEN 0) (name_of f) FS_NAMELEN)
      (Z.of_nat k) (replicate 28 0 ++ l2)); lia].
    f_equal. rewrite length_app, Hs1, Hl. unfold FS_NAMELEN. lia.
Qed.

Lemma boot_bytes : Forall (fun c => 0 <= c < 256) bb.
Proof.
  assert (H0 : forall n, Forall (fun c => 0 <= c < 256) (replicate n 0)) by (intros; apply Forall_replicate; lia).
  unfold bb, mk_boot. repeat (apply Forall_app_2); try apply enc32_bytes; try apply H0.
  apply Forall_lookup_2. intros i c Hi. apply list_elem_of_lookup_2 in Hi. apply list_elem_of_In, in_concat in Hi as (d & Hd & Hc).
  apply list_elem_of_In, list_elem_of_lookup in Hd as [k Hk]. destruct (lookup_lt_is_Some_2 fs k) as [f Hf].
  { rewrite <- Hds. by eapply lookup_lt_Some. }
  rewrite (Hdk k f Hf) in Hk. injection Hk as <-. destruct (Forall_lookup_1 _ _ k f Hgood Hf) as [Hn' _].
  assert (Hall : Forall (fun c => 0 <= c < 256) (mk_dentry (name_of f) (Z.of_nat k))).
  { unfold mk_dentry. repeat apply Forall_app_2; [by apply strncpy_bytes|apply enc32_bytes|apply H0]. }
  apply list_elem_of_In, list_elem_of_lookup in Hc as [j Hj]. by apply (Forall_lookup_1 _ _ j c Hall).
Qed.
End Boot.

(** ** The inodes *)

Definition fsize (f : host_file) : Z := Z.of_nat (length (bytes f)).

(** The blocks mkfs counts for the files of a list. *)
Fixpoint counted (fs : list host_file) : Z :=
  match fs with [] => 0 | f :: fs' => file_blocks (fsize f) + counted fs' end.

Lemma file_blocks_pos f : 1 <= file_blocks (fsize f).
Proof. unfold file_blocks, fsize, FS_BLKSZ. pose proof (Z.div_pos (Z.of_nat (length (bytes f))) 4096). lia. Qed.

Lemma counted_nonneg fs : 0 <= counted fs.
Proof. induction fs as [|f fs IH]; cbn; [lia|]. pose proof (file_blocks_pos f). lia. Qed.

Lemma inodes_spec junk fs : forall j d,
  Forall (fun f => file_blocks (fsize f) <= MAX_BLOCKS) fs ->
  exists inos, inodes junk j d fs = inr (inos, d + counted fs) /\ length inos = length fs /\
    forall k f, fs !! k = Some f ->
      inos !! k = Some (mk_inode (junk (j + k)%nat) (fsize f) (d + counted (take k fs))).
Proof.
  induction fs as [|f fs IH]; intros j d Hs; [exists []; cbn; by rewrite Z.add_0_r|].
  inversion_clear Hs as [|? ? Hf Hs']. cbn [inodes]. fold (fsize f). rewrite (proj2 (Z.ltb_ge _ _)) by lia.
  destruct (IH (S j) (d + file_blocks (fsize f)) Hs') as (inos & -> & Hl & Hk).
  eexists. split; [cbn [counted]; do 2 f_equal; lia|]. split; [cbn; by rewrite Hl|].
  intros [|k] g Hkg.
  - injection Hkg as ->. cbn [take counted]. by rewrite Nat.add_0_r, Z.add_0_r.
  - change (inos !! k = Some (mk_inode (junk (j + S k)%nat) (fsize g) (d + counted (f :: take k fs)))).
    rewrite (Hk k g Hkg). cbn [counted]. do 2 f_equal; [f_equal; lia|lia].
Qed.

Section Inode.
Context (junk : list Z) (size first : Z).
Hypothesis (Hjunk : length junk = 4096%nat) (Hsize : 0 <= size) (Hmax : file_blocks size <= MAX_BLOCKS).
Hypothesis (Hfirst : 0 <= first /\ first + file_blocks size < 2 ^ 32).

Let nums : list (list Z) := (fun j => enc32 (first + Z.of_nat j)) <$> seq 0 (Z.to_nat (file_blocks size)).

Lemma nums_lengths : Forall (fun l => length l = 4%nat) nums.
Proof. apply Forall_fmap, Forall_true. done. Qed.

Lemma nums_length : length (concat nums) = (4 * Z.to_nat (file_blocks size))%nat.
Proof. rewrite (length_blocks nums 4 nums_lengths). unfold nums. rewrite length_fmap, length_seq. lia. Qed.

Lemma mk_inode_length : length (mk_inode junk size first) = 4096%nat.
Proof.
  unfold mk_inode, overlay. fold nums. rewrite length_app, length_drop, length_app, nums_length.
  rewrite enc32_length. unfold MAX_BLOCKS in Hmax. lia.
Qed.

Lemma mk_inode_len : byte_len (mk_inode junk size first) = size.
Proof.
  unfold mk_inode, overlay. rewrite <- app_assoc. apply (le32_enc []).
  unfold file_blocks, MAX_BLOCKS, FS_BLKSZ in *. Z.div_mod_to_equations. lia.
Qed.

Lemma mk_inode_num k : 0 <= k < file_blocks size -> data_block_num (mk_inode junk size first) k = first + k.
Proof.
  intros Hk. assert (Hl : nums !! Z.to_nat k = Some (enc32 (first + k))).
  { unfold nums. rewrite list_lookup_fmap, lookup_seq_lt by lia. cbn. do 2 f_equal. lia. }
  destruct (split_blocks nums 4 _ _ nums_lengths Hl) as (l1 & l2 & E & Hl1).
  unfold mk_inode, overlay, data_block_num. fold nums. rewrite E.
  rewrite <- !app_assoc, (app_assoc (enc32 size) l1).
  etransitivity; [|apply (le32_enc (enc32 size ++ l1)); lia].
  f_equal. rewrite length_app, Hl1, enc32_length. lia.
Qed.
End Inode.

(** ** The data blocks *)

(** A file whose length is a multiple of the block size has one data block less
    than mkfs counts for it. *)
Definition unaligned (f : host_file) : Prop := fsize f mod FS_BLKSZ <> 0.

Lemma file_data_counted f : unaligned f -> Z.of_nat (length (file_data f)) = file_blocks (fsize f).
Proof.
  unfold unaligned, file_blocks, fsize, FS_BLKSZ. intros H. rewrite (proj1 (proj2 (file_data_spec f))).
  Z.div_mod_to_equations. lia.
Qed.

Lemma all_data_lengths fs : Forall (fun l => length l = 4096%nat) (concat (file_data <$> fs)).
Proof. induction fs as [|f fs IH]; [constructor|]. cbn. apply Forall_app_2; [apply file_data_spec|exact IH]. Qed.

(** The data of file [k] starts at the block its inode names. *)
Lemma data_position fs : forall k f j l,
  Forall unaligned (take k fs) -> fs !! k = Some f -> file_data f !! j = Some l ->
  concat (file_data <$> fs) !! (Z.to_nat (counted (take k fs)) + j)%nat = Some l.
Proof.
  induction fs as [|g fs IH]; intros k f j l Hu Hk Hj; [done|].
  change (concat (file_data <$> g :: fs)) with (file_data g ++ concat (file_data <$> fs)).
  destruct k as [|k].
  - injection Hk as ->. cbn [take counted Z.to_nat]. rewrite lookup_app_l; [done|]. by eapply lookup_lt_Some.
  - change (take (S k) (g :: fs)) with (g :: take k fs) in *. inversion_clear Hu as [|? ? Hg Hu'].
    pose proof (file_data_counted g Hg). pose proof (counted_nonneg (take k fs)). cbn [counted].
    rewrite lookup_app_r by lia. rewrite <- (IH k f j l Hu' Hk Hj). f_equal. lia.
Qed.

Lemma counted_bound fs :
  Forall (fun f => file_blocks (fsize f) <= MAX_BLOCKS) fs -> counted fs <= MAX_BLOCKS * Z.of_nat (length fs).
Proof. induction 1 as [|f fs Hf _ IH]; cbn [counted length]; unfold MAX_BLOCKS in *; lia. Qed.

(** ** Mounting *)

Section Mount.
Context {B : Type} {BI : BlockIo B} {BIO : BlockIoSpec B}.

Lemma mount_ok (b : B) s0 :
  bio_ok b -> 4096 <= bio_size b -> fs_initialized s0 = false -> length (boot_block s0) = 4096%nat ->
  exists s1, fs_mount b s0 = Done 0 s1 /\ fs_initialized s1 = true /\ fs_lock s1 = false /\
    same_disk b (vioblk_io s1) /\ boot_block s1 = bytes_at (bio_data b) 0 4096 /\
    file_structs s1 = replicate FS_MAXOPEN no_file /\ inode s1 = inode s0 /\ data_block s1 = data_block s0.
Proof.
  intros Hok Hsz Hini Hbb. unfold fs_mount. unfold bind at 1, modify at 1. unfold bind at 1, modify at 1.
  unfold bind at 1, gets at 1. cbn [fs_initialized set_dev set_lock]. rewrite Hini.
  set (s := set_dev b (set_lock false s0)).
  destruct (dev_fetch s 0 FS_BLKSZ) as (b1 & b2 & E1 & E2 & Hs); [done|lia|done|done|].
  mstep E1. cbn [Z.eqb negb]. mstep E2. unfold bind at 1, modify at 1. cbn [fst snd].
  change (FS_BLKSZ <? 0) with false. eexists. split; [reflexivity|]. split_and!; try done; try apply Hs.
  cbn. by rewrite overlay_full by (rewrite length_bytes_at; done).
Qed.

(** The arguments for which mkfs builds an image: acceptable and distinct names,
    at most 63 files, at most 1023 blocks for each. *)
Record mkfs_args (junk : nat -> list Z) (fs : list host_file) : Prop := {
  ma_names : Forall good_name fs;
  ma_distinct : NoDup ((fun f => take FS_NAMELEN (name_of f)) <$> fs);
  ma_count : Z.of_nat (length fs) <= MAX_DENTRY;
  ma_sizes : Forall (fun f => file_blocks (fsize f) <= MAX_BLOCKS) fs;
  ma_junk : forall k, length (junk k) = 4096%nat
}.

(** The blocks of the image. *)
Lemma mkfs_blocks junk fs :
  mkfs_args junk fs ->
  exists bb inos, mkfs junk fs = inr (bb :: inos ++ concat (file_data <$> fs)) /\
    Forall (fun l => length l = 4096%nat) (bb :: inos ++ concat (file_data <$> fs)) /\
    Forall (fun c => 0 <= c < 256) bb /\
    num_dentry bb = Z.of_nat (length fs) /\ num_inodes bb = Z.of_nat (length fs) /\ length inos = length fs /\
    forall k f, fs !! k = Some f ->
      dir_name bb (Z.of_nat k) = take FS_NAMELEN (name_of f) /\ dentry_inode bb (Z.of_nat k) = Z.of_nat k /\
      inos !! k = Some (mk_inode (junk k) (fsize f) (counted (take k fs))).
Proof.
  intros [H1 H2 H3 H4 H5]. destruct (dentries_spec fs 0 H1) as (ds & Ed & Hdl & Hdk); [lia|done|].
  destruct (inodes_spec junk fs 0 0 H4) as (inos & Ei & Hil & Hik).
  setoid_rewrite Z.add_0_l in Hdk. setoid_rewrite Z.add_0_l in Hik.
  exists (mk_boot (Z.of_nat (length fs)) (0 + counted fs) ds), inos.
  destruct (boot_counts fs ds (0 + counted fs) H3 Hdl) as [Hc1 Hc2].
  refine (conj _ (conj _ (conj _ (conj Hc1 (conj Hc2 (conj Hil _))))));
    [by unfold mkfs; rewrite Ed, Ei| |by apply (boot_bytes fs ds _ H1 Hdl Hdk)|].
  - constructor; [by apply boot_length|]. apply Forall_app_2; [|apply all_data_lengths].
    apply Forall_lookup_2. intros k l Hk. destruct (lookup_lt_is_Some_2 fs k) as [f Hf].
    { rewrite <- Hil. by eapply lookup_lt_Some. }
    rewrite (Hik k f Hf) in Hk. injection Hk as <-. pose proof (Forall_lookup_1 _ _ k f H4 Hf).
    by apply mk_inode_length.
  - intros k f Hf. destruct (boot_entry fs ds (0 + counted fs) H1 H3 Hdl Hdk k f Hf) as [Hb1 Hb2].
    split_and!; [done|done|]. apply (Hik k f Hf).
Qed.

(** Byte [i] of file [k] in the image. *)
Lemma image_byte fs k f bb inos i :
  Forall unaligned (take k fs) -> fs !! k = Some f -> length inos = length fs -> 0 <= i < fsize f ->
  exists l, (bb :: inos ++ concat (file_data <$> fs)) !!
      Z.to_nat (1 + Z.of_nat (length fs) + counted (take k fs) + i / 4096) = Some l /\
    l !! Z.to_nat (i mod 4096) = bytes f !! Z.to_nat i.
Proof.
  intros Hu Hk Hil Hi. destruct (file_data_spec f) as (Hl & Hn & Hb). unfold fsize in *.
  pose proof (Z.mod_pos_bound i 4096 ltac:(lia)). pose proof (Z.div_mod i 4096 ltac:(lia)).
  destruct (lookup_lt_is_Some_2 (file_data f) (Z.to_nat (i / 4096))) as [l Hfl].
  { apply Nat2Z.inj_lt. rewrite Hn. Z.div_mod_to_equations. lia. }
  exists l. split.
  - pose proof (data_position fs k f _ l Hu Hk Hfl) as Hp. pose proof (counted_nonneg (take k fs)).
    assert (0 <= i / 4096) by (apply Z.div_pos; lia).
    replace (Z.to_nat (1 + Z.of_nat (length fs) + counted (take k fs) + i / 4096))
      with (S (length inos + (Z.to_nat (counted (take k fs)) + Z.to_nat (i / 4096)))) by lia.
    change ((inos ++ concat (file_data <$> fs)) !! (length inos + (Z.to_nat (counted (take k fs)) + Z.to_nat (i / 4096)))%nat = Some l).
    rewrite lookup_app_r by lia. rewrite <- Hp. f_equal. lia.
  - rewrite <- (lookup_blocks _ 4096 _ (Z.to_nat (i mod 4096)) l Hl Hfl) by lia.
    rewrite <- Hb by lia. f_equal. lia.
Qed.

(** The image of mkfs on a device. *)
Section Image.
Context (junk : nat -> list Z) (fs : list host_file) (bb : list Z) (inos : list (list Z)) (d : Z -> Z).
Let image : list (list Z) := bb :: inos ++ concat (file_data <$> fs).
Hypothesis (Hargs : mkfs_args junk fs).
Hypothesis (Hlen : Forall (fun l => length l = 4096%nat) image).
Hypothesis (Hin : num_inodes bb = Z.of_nat (length fs)) (Hil : length inos = length fs).
Hypothesis (Hik : forall k f, fs !! k = Some f -> inos !! k = Some (mk_inode (junk k) (fsize f) (counted (take k fs)))).
Hypothesis (Hd : holds d image).

Lemma image_inode k f : fs !! k = Some f ->
  inode_at d (Z.of_nat k) = mk_inode (junk k) (fsize f) (counted (take k fs)).
Proof.
  intros Hk. unfold inode_at. replace (FS_BLKSZ + Z.of_nat k * FS_BLKSZ) with (Z.of_nat (S k) * 4096) by (unfold FS_BLKSZ; lia).
  apply (holds_block d image); [done|done|]. change ((inos ++ concat (file_data <$> fs)) !! k = Some (mk_inode (junk k) (fsize f) (counted (take k fs)))).
  rewrite lookup_app_l; [by apply Hik|]. rewrite Hil. by eapply lookup_lt_Some.
Qed.

(** What the inode of file [k] says. *)
Lemma image_inode_fields k f : fs !! k = Some f ->
  byte_len (inode_at d (Z.of_nat k)) = fsize f /\
  forall j, 0 <= j < file_blocks (fsize f) -> data_block_num (inode_at d (Z.of_nat k)) j = counted (take k fs) + j.
Proof.
  intros Hk. rewrite (image_inode k f Hk). pose proof (ma_count _ _ Hargs) as Hc.
  pose proof (Forall_lookup_1 _ _ k f (ma_sizes _ _ Hargs) Hk) as Hmax.
  pose proof (counted_bound (take k fs) (Forall_take _ _ _ (ma_sizes _ _ Hargs))) as Hb.
  pose proof (counted_nonneg (take k fs)). rewrite length_take in Hb. unfold MAX_DENTRY, MAX_BLOCKS in *. split.
  - apply mk_inode_len; [apply (ma_junk _ _ Hargs)|unfold fsize; lia|done].
  - intros j Hj. apply mk_inode_num; try apply (ma_junk _ _ Hargs); try done; unfold fsize in *; lia.
Qed.

Lemma image_layout k f dsize : fs !! k = Some f -> Forall unaligned (take k fs) ->
  Z.of_nat (length (concat image)) <= dsize <= 2 ^ 32 ->
  file_layout bb (inode_at d (Z.of_nat k)) (fsize f) dsize.
Proof.
  intros Hk Hu Hsz. destruct (image_inode_fields k f Hk) as [_ Hnum].
  pose proof (Forall_lookup_1 _ _ k f (ma_sizes _ _ Hargs) Hk) as Hmax. pose proof (counted_nonneg (take k fs)).
  constructor; [lia|lia| |].
  - unfold file_blocks, MAX_BLOCKS, FS_BLKSZ, fsize in *. Z.div_mod_to_equations. lia.
  - intros j Hj. assert (Hjb : 0 <= j < file_blocks (fsize f)).
    { unfold file_blocks, FS_BLKSZ in *. Z.div_mod_to_equations. lia. }
    unfold block_addr. rewrite (Hnum j Hjb), Hin. split; [lia|].
    destruct (image_byte fs k f bb inos (j * FS_BLKSZ) Hu Hk Hil) as (l & Hl & _); [unfold fsize in *; lia|].
    fold image in Hl. apply lookup_lt_Some in Hl. rewrite (length_blocks image 4096 Hlen) in Hsz.
    unfold FS_BLKSZ in *. rewrite Z.div_mul in Hl by lia. lia.
Qed.

Lemma image_contents k f n : fs !! k = Some f -> Forall unaligned (take k fs) -> (n <= length (bytes f))%nat ->
  file_bytes d bb (inode_at d (Z.of_nat k)) 0 n = take n (bytes f).
Proof.
  intros Hk Hu Hn. destruct (image_inode_fields k f Hk) as [_ Hnum]. pose proof (counted_nonneg (take k fs)).
  apply list_eq. intros i. destruct (decide (i < n)%nat) as [Hi|Hi].
  2: { unfold file_bytes. rewrite !lookup_ge_None_2; [done|rewrite length_take; lia|rewrite length_bytes_at; lia]. }
  unfold file_bytes. rewrite bytes_at_lookup, lookup_take_lt by done. rewrite Z.add_0_l.
  assert (Hir : 0 <= Z.of_nat i < fsize f) by (unfold fsize; lia).
  destruct (image_byte fs k f bb inos (Z.of_nat i) Hu Hk Hil Hir) as (l & Hl & Hb). fold image in Hl.
  rewrite Nat2Z.id in Hb. rewrite <- Hb.
  pose proof (Z.mod_pos_bound (Z.of_nat i) 4096 ltac:(lia)). pose proof (Z.div_pos (Z.of_nat i) 4096 ltac:(lia)).
  rewrite <- (lookup_blocks image 4096 _ (Z.to_nat (Z.of_nat i mod 4096)) l Hlen Hl) by lia.
  unfold faddr, block_addr. rewrite Hnum, Hin.
  2: { unfold file_blocks, FS_BLKSZ in *. Z.div_mod_to_equations. lia. }
  unfold FS_BLKSZ. rewrite <- Hd.
  - f_equal. lia.
  - rewrite (length_blocks image 4096 Hlen). apply lookup_lt_Some in Hl. lia.
Qed.
End Image.

Lemma names_unique junk fs bb k f j :
  mkfs_args junk fs -> fs !! k = Some f ->
  (forall k f, fs !! k = Some f -> dir_name bb (Z.of_nat k) = take FS_NAMELEN (name_of f)) ->
  0 <= j < Z.of_nat (length fs) -> names bb (name_of f) j -> j = Z.of_nat k.
Proof.
  intros Ha Hk Hdn Hj Hnm. destruct (lookup_lt_is_Some_2 fs (Z.to_nat j)) as [g Hg]; [lia|].
  unfold names in Hnm. rewrite <- (Z2Nat.id j) in Hnm by lia. rewrite (Hdn _ g Hg) in Hnm.
  enough (Z.to_nat j = k) by lia.
  apply (NoDup_lookup _ _ _ (take FS_NAMELEN (name_of f)) (ma_distinct _ _ Ha)); rewrite list_lookup_fmap.
  - rewrite Hg. change (Some (take FS_NAMELEN (name_of g)) = Some (take FS_NAMELEN (name_of f))). by rewrite Hnm.
  - by rewrite Hk.
Qed.

(** What [mkfs_blocks] says of an image, and the device that holds it. *)
Record imaged (junk : nat -> list Z) (fs : list host_file) (bb : list Z) (inos : list (list Z)) (b : B) : Prop := {
  im_args : mkfs_args junk fs;
  im_len : Forall (fun l => length l = 4096%nat) (bb :: inos ++ concat (file_data <$> fs));
  im_bytes : Forall (fun c => 0 <= c < 256) bb;
  im_dentry : num_dentry bb = Z.of_nat (length fs);
  im_inodes : num_inodes bb = Z.of_nat (length fs);
  im_inos : length inos = length fs;
  im_entry k f : fs !! k = Some f ->
    dir_name bb (Z.of_nat k) = take FS_NAMELEN (name_of f) /\ dentry_inode bb (Z.of_nat k) = Z.of_nat k /\
    inos !! k = Some (mk_inode (junk k) (fsize f) (counted (take k fs)));
  im_dev : bio_ok b;
  im_holds : holds (bio_data b) (bb :: inos ++ concat (file_data <$> fs));
  im_size : Z.of_nat (length (concat (bb :: inos ++ concat (file_data <$> fs)))) <= bio_size b <= 2 ^ 32
}.

Section Imaged.
Context (junk : nat -> list Z) (fs : list host_file) (bb : list Z) (inos : list (list Z)) (b : B).
Hypothesis (I : imaged junk fs bb inos b).

Lemma imaged_entry_ino j : 0 <= j < Z.of_nat (length fs) -> dentry_inode bb j = j.
Proof.
  intros Hj. destruct (lookup_lt_is_Some_2 fs (Z.to_nat j)) as [g Hg]; [lia|].
  destruct (im_entry _ _ _ _ _ I _ g Hg) as (_ & E & _). by rewrite Z2Nat.id in E by lia.
Qed.

Lemma imaged_room : (1 + Z.of_nat (length fs)) * 4096 <= bio_size b <= 2 ^ 32.
Proof.
  pose proof (im_size _ _ _ _ _ I) as Hs. rewrite (length_blocks _ 4096 (im_len _ _ _ _ _ I)) in Hs. cbn [length] in Hs.
  rewrite length_app, (im_inos _ _ _ _ _ I) in Hs. lia.
Qed.

Lemma imaged_layout k f : fs !! k = Some f -> Forall unaligned (take k fs) ->
  file_layout bb (inode_at (bio_data b) (Z.of_nat k)) (fsize f) (bio_size b).
Proof.
  intros Hk Hu. destruct I. apply (image_layout junk fs bb inos (bio_data b)); try assumption.
  intros; by apply im_entry0.
Qed.

(** Mounting the image and opening a file of it. *)
Lemma imaged_mount_open k f s0 :
  fs !! k = Some f -> fs_initialized s0 = false -> length (boot_block s0) = 4096%nat -> length (inode s0) = 4096%nat ->
  exists s1 s2, fs_mount b s0 = Done 0 s1 /\ fs_open (name_of f) s1 = Done (inr 0%nat) s2 /\
    file_structs s2 !! 0%nat = Some (MkFile 1 0 (fsize f) (Z.of_nat k) 1) /\
    fs_initialized s2 = true /\ fs_lock s2 = false /\ same_disk b (vioblk_io s2) /\ boot_block s2 = bb /\
    length (inode s2) = 4096%nat /\ data_block s2 = data_block s0.
Proof.
  intros Hk Hi0 Hb0 Hin0. pose proof (lookup_lt_Some _ _ _ Hk) as Hklt. pose proof imaged_room as Hroom.
  pose proof (ma_count _ _ (im_args _ _ _ _ _ I)) as Hcnt. pose proof (im_dentry _ _ _ _ _ I) as Hnd.
  destruct (mount_ok b s0 (im_dev _ _ _ _ _ I)) as (s1 & E1 & S1 & S2 & S3 & S4 & S5 & S6 & S7); [lia|done|done|].
  rewrite (holds_block _ _ 0 bb (im_len _ _ _ _ _ I) (im_holds _ _ _ _ _ I) eq_refl : bytes_at _ 0 4096 = bb) in S4.
  pose proof S3 as (T1 & T2 & T3).
  destruct (open_found s1 (name_of f) 0 (Z.of_nat k)) as (s2 & E2 & U1 & _ & U3 & U4 & U5 & U6 & U7 & U8).
  { constructor; rewrite ?S4; try done; [apply (im_bytes _ _ _ _ _ I)|lia|by rewrite S6]. }
  { by destruct (Forall_lookup_1 _ _ k f (ma_names _ _ (im_args _ _ _ _ _ I)) Hk). }
  { rewrite S4, Hnd. intros j Hj. rewrite (imaged_entry_ino j Hj), T2. unfold FS_BLKSZ, SIZEOF_INODE. lia. }
  { by rewrite S5. }
  { rewrite S4. lia. }
  { rewrite S4. unfold names. symmetry. by apply (im_entry _ _ _ _ _ I). }
  { rewrite S4. intros j Hj Hnm. apply (names_unique junk fs bb k f) in Hnm; [lia|apply (im_args _ _ _ _ _ I)|done| |lia].
    intros; by apply (im_entry _ _ _ _ _ I). }
  rewrite S4, (imaged_entry_ino (Z.of_nat k)) in U1 by lia. rewrite (same_disk_inode b) in U1 by (done || lia).
  destruct I. destruct (image_inode_fields junk fs bb inos (bio_data b)) with (k := k) (f := f) as [Hbl _]; try assumption.
  { intros; by apply im_entry0. }
  rewrite Hbl in U1. exists s1, s2. rewrite U5, U7, S7. split_and!; try done; by eapply same_disk_trans.
Qed.

(** The open file shows the bytes of the file given to mkfs. *)
Lemma imaged_open_file k f s0 :
  fs !! k = Some f -> Forall unaligned (take k fs) -> fs_initialized s0 = false ->
  length (boot_block s0) = 4096%nat -> length (inode s0) = 4096%nat -> length (data_block s0) = 4096%nat ->
  exists s1 s2, fs_mount b s0 = Done 0 s1 /\ fs_open (name_of f) s1 = Done (inr 0%nat) s2 /\
    open_file s2 0 (MkFile 1 0 (fsize f) (Z.of_nat k) 1) /\
    forall n, (n <= length (bytes f))%nat ->
      file_bytes (bio_data (vioblk_io s2)) (boot_block s2) (inode_at (bio_data (vioblk_io s2)) (Z.of_nat k)) 0 n = take n (bytes f).
Proof.
  intros Hk Hu Hi0 Hb0 Hin0 Hdb0. pose proof (imaged_layout k f Hk Hu) as HL. pose proof imaged_room as Hroom.
  destruct (imaged_mount_open k f s0) as (s1 & s2 & E1 & E2 & F & U1 & U2 & U3 & U4 & U5 & U6); [done..|].
  pose proof U3 as (V1 & V2 & V3). pose proof (lookup_lt_Some _ _ _ Hk) as Hklt.
  assert (Hf2 : inode_at (bio_data (vioblk_io s2)) (Z.of_nat k) = inode_at (bio_data b) (Z.of_nat k)) by (apply same_disk_inode; [done|lia]).
  exists s1, s2. split; [done|]. split; [done|]. split.
  - constructor; cbn [file_position inode_number file_size f_flags]; rewrite ?Hf2, ?U4, ?V2, ?U6; try assumption;
      unfold FS_BLKSZ, SIZEOF_INODE; lia.
  - intros n Hn. rewrite Hf2, U4.
    transitivity (file_bytes (bio_data b) bb (inode_at (bio_data b) (Z.of_nat k)) 0 n).
    { apply bytes_at_ext. intros i Hi. apply V3. apply (faddr_nonneg bb _ (fsize f) (bio_size b)); [exact HL|unfold fsize; lia]. }
    apply (image_contents junk fs bb inos (bio_data b)); try apply I; try done.
Qed.
End Imaged.

(** C13: An image built by [mkfs] and put on any device is a file system in
    which every file can be read back: after [fs_mount], opening the name of a
    file and reading [n] bytes returns the first [n] bytes of the file that was
    given to [mkfs].  This holds when no earlier file's length is a multiple of
    the block size. *)
Theorem mkfs_mount_read junk fs k f n (b : B) s0 :
  mkfs_args junk fs -> fs !! k = Some f -> Forall unaligned (take k fs) -> 0 <= n < 2 ^ 63 ->
  fs_initialized s0 = false -> length (boot_block s0) = 4096%nat -> length (inode s0) = 4096%nat ->
  length (data_block s0) = 4096%nat ->
  exists image, mkfs junk fs = inr image /\
    (bio_ok b -> holds (bio_data b) image -> Z.of_nat (length (concat image)) <= bio_size b <= 2 ^ 32 ->
     exists s1 s2 s3, fs_mount b s0 = Done 0 s1 /\ fs_open (name_of f) s1 = Done (inr 0%nat) s2 /\
       fs_read (Some 0%nat) true n s2 = Done (Z.min n (fsize f), take (Z.to_nat n) (bytes f)) s3).
Proof.
  intros Ha Hk Hu Hn Hi0 Hb0 Hin0 Hdb0.
  destruct (mkfs_blocks junk fs Ha) as (bb & inos & Em & Hlen & Hbytes & Hnd & Hni & Hil & Hfk).
  eexists. split; [exact Em|]. intros Hok Hd Hsz.
  assert (I : imaged junk fs bb inos b) by (constructor; assumption).
  destruct (imaged_open_file junk fs bb inos b I k f s0) as (s1 & s2 & E1 & E2 & HO & Hc); [done..|].
  destruct (read_any s2 0 _ n HO) as (s3 & E3 & _); [lia|cbn; lia|].
  exists s1, s2, s3. split; [done|]. split; [done|]. rewrite E3. unfold moved, contents_at, the_inode. cbn [file_size file_position inode_number].
  rewrite Z.sub_0_r, (Z.max_r 0 (fsize f)) by (unfold fsize; lia). do 2 f_equal. rewrite Hc by (unfold fsize; lia).
  destruct (Z.min_spec n (fsize f)) as [[? ->]|[? ->]]; [done|].
  rewrite !take_ge; [done|unfold fsize in *; lia|unfold fsize; lia].
Qed.
End Mount.

(** ** Concrete images in memory *)

Definition zeros : list Z := replicate 4096 0.
Definition image_of (fs : list host_file) : list (list Z) :=
  match mkfs (fun _ => zeros) fs with inr l => l | inl _ => [] end.
Definition image_dev (fs : list host_file) : io_lit :=
  let l := concat (image_of fs) in iolit_init l (Z.of_nat (length l)).
Definition boot_state (dev : io_lit) : fstate io_lit := MkFs dev false zeros [] zeros zeros false.

Lemma image_dev_holds fs : holds (bio_data (image_dev fs)) (image_of fs).
Proof.
  intros i Hi. cbn. unfold lit_data, image_dev. cbn [lit_buf iolit_init].
  destruct (lookup_lt_is_Some_2 (concat (image_of fs)) (Z.to_nat i)) as [c ->]; [lia|done].
Qed.

(** "../user/bin/a" with three bytes and "b" with two. *)
Definition two_files : list host_file := [MkHost (up_user_bin ++ [97]) [1; 2; 3]; MkHost [98] [7; 8]].

Lemma two_files_args : mkfs_args (fun _ => zeros) two_files.
Proof.
  constructor.
  - repeat constructor; try lia; vm_compute; intros H; repeat (inversion_clear H as [? ?|? ? ? H']; rename H' into H).
  - apply (bool_decide_unpack _). by vm_compute.
  - by vm_compute.
  - repeat constructor; by vm_compute.
  - intros k. unfold zeros. apply length_replicate.
Qed.

Lemma mkfs_mount_read_witness :
  exists s1 s2 s3, fs_mount (image_dev two_files) (boot_state (image_dev two_files)) = Done 0 s1 /\
    fs_open [98] s1 = Done (inr 0%nat) s2 /\ fs_read (Some 0%nat) true 100 s2 = Done (2, [7; 8]) s3.
Proof.
  destruct (mkfs_mount_read (fun _ => zeros) two_files 1 (MkHost [98] [7; 8]) 100 (image_dev two_files)
    (boot_state (image_dev two_files)) two_files_args eq_refl) as (image & Em & H).
  - repeat constructor. by vm_compute.
  - lia.
  - done.
  - apply length_replicate.
  - apply length_replicate.
  - apply length_replicate.
  - assert (Ei : image = image_of two_files) by (unfold image_of; by rewrite Em). rewrite Ei in H.
    apply H; [done|apply image_dev_holds|].
    split; [cbn; lia|]. apply Z.leb_le. by vm_compute.
Defined.

(** An image whose first file fills one block exactly: "a" of 4096 bytes, then
    "b" and "c" of one byte each. *)
Definition aligned_first : list host_file := [MkHost [97] zeros; MkHost [98] [7]; MkHost [99] [9]].

(** A file whose length is a multiple of the block size is counted with one
    block more than is written for it, so the files after it are shifted: in
    such an image, reading the file "b" returns the content of "c". *)
Theorem mkfs_aligned_file_shifts :
  match fs_mount (image_dev aligned_first) (boot_state (image_dev aligned_first)) with
  | Done 0 s1 =>
      match fs_open [98] s1 with
      | Done (inr i) s2 => match fs_read (Some i) true 1 s2 with Done (1, [c]) _ => c =? 9 | _ => false end
      | _ => false
      end
  | _ => false
  end = true.
Proof. by vm_compute. Qed.
