(* ===== verification/Device.v ===== *)
(** * The device manager (device.c)

    The table of registered devices.  A driver's open function is a computation
    on the state [St] of the drivers that returns its result and the object
    stored through [ioptr]. *)

From stdpp Require Import base list strings numbers.
From Stdlib Require Import Lia ZArith.
From S2P Require Import Prelude CString.
Local Open Scope Z_scope.
Local Open Scope kern_scope.

Definition NDEV : nat := 16.

Lemma strcmp_refl n : strcmp (Some n) (Some n) = 0.
Proof. cbn. induction n as [|c n IH]; cbn; [done|]. rewrite Z.eqb_refl, Z.ltb_irrefl. by destruct (c =? 0). Qed.

Section Device.
Context {St Io : Type}.

(** An entry of [devtab]; a NULL name (and a NULL function) is [None]. *)
Record device := MkDev { dev_name : list Z; openfn : Z -> M St (Z * option Io); aux : Z }.

Record dstate := MkDs { devmgr_initialized : bool; devtab : list (option device); drivers : St }.

Definition devmgr_init : M dstate unit := modify (fun s => MkDs true (devtab s) (drivers s)).

(** The search for an empty slot: its number and the instances seen so far. *)
Fixpoint find_empty (tab : list (option device)) (name : list Z) (devno : nat) (instno : Z) : option (nat * Z) :=
  match tab with
  | [] => None
  | None :: _ => Some (devno, instno)
  | Some d :: tab' =>
      find_empty tab' name (S devno) (if strcmp (Some (dev_name d)) (Some name) =? 0 then instno + 1 else instno)
  end.

(** [None] stands for a NULL argument. *)
Definition device_register (name : option (list Z)) (fn : option (Z -> M St (Z * option Io))) (ax : Z) : M dstate Z :=
  match name, fn with
  | Some n, Some f =>
      tab <- gets devtab ;;
      match find_empty tab n 0 0 with
      | None => panic "Too many devices (increase NDEV)"
      | Some (devno, instno) =>
          modify (fun s => MkDs (devmgr_initialized s) (<[devno := Some (MkDev n f ax)]> (devtab s)) (drivers s)) ;;
          ret instno
      end
  | None, _ => panic "name != NULL"
  | _, None => panic "openfn != NULL"
  end.

(** The search for the [instno]-th device of a name. *)
Fixpoint find_instance (tab : list (option device)) (name : list Z) (instno k : Z) : option device :=
  match tab with
  | [] => None
  | None :: tab' => find_instance tab' name instno k
  | Some d :: tab' =>
      if strcmp (Some (dev_name d)) (Some name) =? 0 then
        if k =? instno then Some d else find_instance tab' name instno (k + 1)
      else find_instance tab' name instno k
  end.

Definition device_open (name : list Z) (instno : Z) : M dstate (Z * option Io) :=
  tab <- gets devtab ;;
  match find_instance tab name instno 0 with
  | None => ret (- ENODEV, None)
  | Some d => lift drivers (fun st s => MkDs (devmgr_initialized s) (devtab s) st) (openfn d (aux d))
  end.

(** ** The table as a list of registrations *)

Definition empty_devices (st : St) : dstate := MkDs false (replicate NDEV None) st.

(** The table after registering [ds] in order. *)
Definition table_of (ds : list device) : list (option device) := (Some <$> ds) ++ replicate (NDEV - length ds) None.

(** The devices of [ds] called [name]. *)
Definition named (name : list Z) (ds : list device) : list device := filter (fun d => strcmp (Some (dev_name d)) (Some name) = 0) ds.

Lemma find_empty_table (ds : list device) m name devno instno :
  find_empty ((Some <$> ds) ++ replicate m None) name devno instno =
  match m with O => None | S _ => Some ((devno + length ds)%nat, instno + Z.of_nat (length (named name ds))) end.
Proof.
  revert devno instno. induction ds as [|d ds IH]; intros devno instno.
  - destruct m; [done|]. cbn. by rewrite Nat.add_0_r, Z.add_0_r.
  - change ((Some <$> d :: ds) ++ replicate m None) with (Some d :: (Some <$> ds) ++ replicate m None).
    cbn [find_empty]. rewrite IH. destruct m; [done|]. unfold named. rewrite filter_cons.
    destruct (Z.eqb_spec (strcmp (Some (dev_name d)) (Some name)) 0); [rewrite decide_True by done|rewrite decide_False by done];
      cbn [length]; do 2 f_equal; lia.
Qed.

Lemma find_instance_table (ds : list device) m name instno k :
  0 <= instno - k ->
  find_instance ((Some <$> ds) ++ replicate m None) name instno k = named name ds !! Z.to_nat (instno - k).
Proof.
  revert k. induction ds as [|d ds IH]; intros k Hk.
  - cbn. induction m as [|m IHm]; [done|]. exact IHm.
  - change ((Some <$> d :: ds) ++ replicate m None) with (Some d :: (Some <$> ds) ++ replicate m None).
    cbn [find_instance]. unfold named. rewrite filter_cons.
    destruct (Z.eqb_spec (strcmp (Some (dev_name d)) (Some name)) 0); [rewrite decide_True by done|rewrite decide_False by done].
    + destruct (Z.eqb_spec k instno) as [-> |]; [by rewrite Z.sub_diag|].
      rewrite IH by lia. replace (Z.to_nat (instno - k)) with (S (Z.to_nat (instno - (k + 1)))) by lia. done.
    + by apply IH.
Qed.

Lemma register_table (s : dstate) ds n f ax :
  devtab s = table_of ds -> (length ds < NDEV)%nat ->
  device_register (Some n) (Some f) ax s =
  Done (Z.of_nat (length (named n ds))) (MkDs (devmgr_initialized s) (table_of (ds ++ [MkDev n f ax])) (drivers s)).
Proof.
  intros Ht Hl. unfold device_register. unfold bind at 1, gets. rewrite Ht. unfold table_of at 1. rewrite find_empty_table.
  destruct (NDEV - length ds)%nat as [|m] eqn:Em; [lia|]. unfold bind, modify, ret. rewrite Z.add_0_l. do 2 f_equal.
  rewrite Ht. unfold table_of. rewrite insert_app_r_alt by (rewrite length_fmap; lia).
  rewrite length_fmap, Nat.add_0_l, Nat.sub_diag, Em, fmap_app, <- app_assoc, length_app. cbn [length].
  replace (NDEV - (length ds + 1))%nat with m by lia. done.
Qed.

(** A sequence of registrations and the instance numbers they return. *)
Fixpoint register_all (ds : list device) : M dstate (list Z) :=
  match ds with
  | [] => ret []
  | d :: ds' =>
      n <- device_register (Some (dev_name d)) (Some (openfn d)) (aux d) ;;
      ns <- register_all ds' ;;
      ret (n :: ns)
  end.

(** The instance number of device [k]: the devices of its name before it. *)
Definition instance_no (ds : list device) (k : nat) (d : device) : Z := Z.of_nat (length (named (dev_name d) (take k ds))).

Lemma register_all_table ds : forall ds0 s,
  devtab s = table_of ds0 -> (length ds0 + length ds <= NDEV)%nat ->
  exists ns, register_all ds s = Done ns (MkDs (devmgr_initialized s) (table_of (ds0 ++ ds)) (drivers s)) /\
    forall k d, ds !! k = Some d -> ns !! k = Some (instance_no (ds0 ++ ds) (length ds0 + k) d).
Proof.
  induction ds as [|d ds IH]; intros ds0 s Ht Hl.
  - exists []. rewrite app_nil_r, <- Ht. destruct s. done.
  - cbn [length] in Hl. cbn [register_all]. mstep (register_table s ds0 (dev_name d) (openfn d) (aux d) Ht ltac:(lia)).
    destruct (IH (ds0 ++ [d]) (MkDs (devmgr_initialized s) (table_of (ds0 ++ [d])) (drivers s))) as (ns & E & Hn);
      [done|rewrite length_app; cbn; lia|].
    assert (Ed : MkDev (dev_name d) (openfn d) (aux d) = d) by (by destruct d). rewrite Ed. mstep E.
    eexists. split; [unfold ret; by rewrite <- app_assoc|]. intros [|k] g Hk.
    + injection Hk as ->. unfold instance_no. by rewrite Nat.add_0_r, take_app_length.
    + change (ns !! k = Some (instance_no (ds0 ++ d :: ds) (length ds0 + S k) g)). rewrite (Hn k g Hk), <- app_assoc.
      do 2 f_equal. rewrite length_app. cbn. lia.
Qed.

Lemma named_instance ds k d :
  ds !! k = Some d ->
  named (dev_name d) ds !! length (named (dev_name d) (take k ds)) = Some d.
Proof.
  intros Hk. pose proof (strcmp_refl (dev_name d)) as Hs. set (n := dev_name d) in *.
  assert (E : named n ds = named n (take k ds) ++ d :: named n (drop (S k) ds)).
  { transitivity (named n (take k ds ++ d :: drop (S k) ds)); [by rewrite (take_drop_middle ds k d Hk)|].
    unfold named. rewrite list.filter_app, filter_cons_True by done. done. }
  rewrite E. by apply list_lookup_middle.
Qed.

(** C36: The device table.  Up to 16 registrations succeed and return the number
    of earlier devices of the same name; afterwards opening a name and that
    number runs the open function of that device with its argument, opening an
    instance that does not exist returns -ENODEV, and a further registration of a
    full table panics. *)
Theorem device_register_open (ds : list device) (st : St) :
  (length ds <= NDEV)%nat ->
  exists ns s, register_all ds (empty_devices st) = Done ns s /\ drivers s = st /\
    (forall k d, ds !! k = Some d ->
       ns !! k = Some (instance_no ds k d) /\
       device_open (dev_name d) (instance_no ds k d) s =
         lift drivers (fun st s => MkDs (devmgr_initialized s) (devtab s) st) (openfn d (aux d)) s) /\
    (forall name instno, 0 <= instno -> named name ds !! Z.to_nat instno = None ->
       device_open name instno s = Done (- ENODEV, None) s) /\
    (length ds = NDEV -> forall n f ax,
       device_register (Some n) (Some f) ax s = Panic "Too many devices (increase NDEV)" s).
Proof.
  intros Hl. destruct (register_all_table ds [] (empty_devices st) eq_refl Hl) as (ns & E & Hn).
  exists ns. eexists. split; [exact E|]. split; [done|]. cbn [app length] in *.
  assert (Hopen : forall name instno, 0 <= instno ->
    find_instance (table_of ds) name instno 0 = named name ds !! Z.to_nat instno).
  { intros name instno Hi. unfold table_of. rewrite find_instance_table by lia. by rewrite Z.sub_0_r. }
  split_and!.
  - intros k d Hk. split; [by apply Hn|]. unfold device_open. unfold bind, gets. cbn [devtab].
    rewrite Hopen by (unfold instance_no; lia). unfold instance_no. by rewrite Nat2Z.id, named_instance.
  - intros name instno Hi Hnone. unfold device_open. unfold bind, gets. cbn [devtab]. by rewrite Hopen, Hnone.
  - intros Hfull n f ax. unfold device_register. unfold bind at 1, gets. cbn [devtab]. unfold table_of.
    rewrite find_empty_table, Hfull. by rewrite Nat.sub_diag.
Qed.
End Device.

Arguments device St Io : clear implicits.
Arguments dstate St Io : clear implicits.

(** Two serial ports and a disk. *)
Definition demo_open (a : Z) : M Z (Z * option Z) := fun st => Done (0, Some (a + st)) st.
Definition ser : list Z := [115; 101; 114].
Definition demo_devices : list (device Z Z) := [MkDev ser demo_open 10; MkDev [98; 108; 107] demo_open 20; MkDev ser demo_open 30].

Lemma device_register_open_witness :
  exists ns s, register_all demo_devices (empty_devices 5) = Done ns s /\ ns !! 2%nat = Some 1 /\
    device_open ser 1 s = Done (0, Some 35) s /\ device_open ser 2 s = Done (- ENODEV, None) s.
Proof.
  destruct (device_register_open demo_devices 5 ltac:(cbv; lia)) as (ns & s & E & Hd & H1 & H2 & _).
  exists ns, s. split; [done|]. destruct (H1 2%nat (MkDev ser demo_open 30) eq_refl) as [Hn Ho].
  split; [done|]. split.
  - etransitivity; [exact Ho|]. unfold lift. rewrite Hd. cbn. destruct s; cbn in *; by subst.
  - by apply H2.
Defined.
