(* ===== verification/Plic.v ===== *)
(** * The platform interrupt controller (plic.c)

    The driver computes register addresses and reads and writes 32-bit words
    there.  The controller itself is a parameter: [Mmio] are the accesses, and
    [PlicSpec] is what the RISC-V platform specification says of the registers
    (source 0 does not exist, and its bits read as the hardware likes). *)

From stdpp Require Import base list strings numbers.
From Stdlib Require Import Lia ZArith.
From S2P Require Import Prelude.
Local Open Scope Z_scope.
Local Open Scope kern_scope.

Class Mmio (D : Type) := { rd32 : Z -> M D Z; wr32 : Z -> Z -> M D unit }.

Definition PLIC_IOBASE : Z := 0x0C000000.
Definition PLIC_SRCCNT : nat := 0x400.

Section Plic.
Context {D : Type} {MM : Mmio D}.

(** [1 << (srcno % 32)] as a 32-bit word. *)
Definition srcbit (srcno : Z) : Z := w32 (Z.shiftl 1 (srcno mod 32)).

Definition plic_set_source_priority (srcno level : Z) : M D unit :=
  wr32 (PLIC_IOBASE + w32 srcno * 4) (w32 level).

Definition plic_source_pending (srcno : Z) : M D bool :=
  v <- rd32 (PLIC_IOBASE + 0x1000 + w32 srcno / 32 * 4) ;;
  ret (negb (Z.land v (srcbit (w32 srcno)) =? 0)).

(** The address sum before the last term is 32 bits wide. *)
Definition enable_reg (ctxno srcno : Z) : Z := w32 (PLIC_IOBASE + 0x2000 + w32 ctxno * 0x80) + w32 srcno / 32 * 4.

Definition plic_enable_source_for_context (ctxno srcno : Z) : M D unit :=
  v <- rd32 (enable_reg ctxno srcno) ;;
  wr32 (enable_reg ctxno srcno) (Z.lor v (srcbit (w32 srcno))).

Definition plic_disable_source_for_context (ctxno srcid : Z) : M D unit :=
  v <- rd32 (enable_reg ctxno srcid) ;;
  wr32 (enable_reg ctxno srcid) (Z.land v (w32 (Z.lnot (srcbit (w32 srcid))))).

Definition plic_set_context_threshold (ctxno level : Z) : M D unit :=
  wr32 (PLIC_IOBASE + 0x200000 + w32 (ctxno * 0x1000)) (w32 level).

Definition claim_reg (ctxno : Z) : Z := PLIC_IOBASE + 0x200004 + w32 (ctxno * 0x1000).

Definition plic_claim_context_interrupt (ctxno : Z) : M D Z := rd32 (claim_reg ctxno).
Definition plic_complete_context_interrupt (ctxno srcno : Z) : M D unit := wr32 (claim_reg ctxno) (w32 srcno).

Definition plic_init : M D unit :=
  for_upto PLIC_SRCCNT 0 (fun i =>
    plic_set_source_priority i 0 ;;
    plic_enable_source_for_context 1 i).

Definition plic_enable_irq (irqno prio : Z) : M D unit := plic_set_source_priority irqno prio.
Definition plic_disable_irq (irqno : Z) : M D unit :=
  if 0 <? irqno then plic_set_source_priority irqno 0 else ret tt.
(** The register value as an [int]. *)
Definition plic_claim_irq : M D Z := v <- plic_claim_context_interrupt 1 ;; ret (s32 v).
Definition plic_close_irq (irqno : Z) : M D unit := plic_complete_context_interrupt 1 irqno.
End Plic.

(** ** The controller *)

(** [prio] is the priority of a source, [enabled] its enable bit for a context,
    [in_service] the sources claimed by context 1 and not completed.  [max_prio]
    is the highest priority the controller implements. *)
Class PlicSpec (D : Type) {MM : Mmio D} := {
  prio : D -> Z -> Z;
  enabled : D -> Z -> Z -> bool;
  in_service : D -> list Z;
  max_prio : Z;
  max_prio_range : 1 <= max_prio < 2 ^ 32;
  wr_prio d src v :
    0 <= src < 1024 -> 0 <= v <= max_prio ->
    exists d', wr32 (PLIC_IOBASE + src * 4) v d = Done tt d' /\
      (1 <= src -> prio d' src = v) /\ (forall s, s <> src -> prio d' s = prio d s) /\
      enabled d' = enabled d /\ in_service d' = in_service d;
  rd_enable d ctx w :
    0 <= ctx < 15872 -> 0 <= w < 32 ->
    exists v, rd32 (PLIC_IOBASE + 0x2000 + ctx * 0x80 + w * 4) d = Done v d /\ 0 <= v < 2 ^ 32 /\
      forall k, 0 <= k < 32 -> 32 * w + k <> 0 -> Z.testbit v k = enabled d ctx (32 * w + k);
  wr_enable d ctx w v :
    0 <= ctx < 15872 -> 0 <= w < 32 -> 0 <= v < 2 ^ 32 ->
    exists d', wr32 (PLIC_IOBASE + 0x2000 + ctx * 0x80 + w * 4) v d = Done tt d' /\
      (forall k, 0 <= k < 32 -> 32 * w + k <> 0 -> enabled d' ctx (32 * w + k) = Z.testbit v k) /\
      (forall c s, c <> ctx \/ s / 32 <> w -> enabled d' c s = enabled d c s) /\
      prio d' = prio d /\ in_service d' = in_service d;
  rd_claim d :
    exists n d', rd32 (claim_reg 1) d = Done n d' /\ 0 <= n < 1024 /\
      prio d' = prio d /\ enabled d' = enabled d /\ in_service d' = (if n =? 0 then [] else [n]) ++ in_service d;
  wr_complete d n l :
    1 <= n < 1024 -> in_service d = n :: l ->
    exists d', wr32 (claim_reg 1) n d = Done tt d' /\
      prio d' = prio d /\ enabled d' = enabled d /\ in_service d' = l
}.

(** ** Bits *)

Lemma srcbit_testbit src k : 0 <= k < 32 -> Z.testbit (srcbit src) k = (k =? src mod 32).
Proof.
  intros Hk. pose proof (Z.mod_pos_bound src 32 ltac:(lia)) as Hm. unfold srcbit, w32.
  change 4294967296 with (2 ^ 32). rewrite Z.mod_pow2_bits_low by lia.
  rewrite Z.shiftl_1_l, Z.pow2_bits_eqb by lia. by rewrite Z.eqb_sym.
Qed.

Lemma srcbit_range src : 0 <= srcbit src < 2 ^ 32.
Proof. apply w32_range. Qed.

Lemma lor_range32 a b : 0 <= a < 2 ^ 32 -> 0 <= b < 2 ^ 32 -> 0 <= Z.lor a b < 2 ^ 32.
Proof.
  intros Ha Hb. split; [apply Z.lor_nonneg; lia|]. destruct (Z.eq_dec (Z.lor a b) 0) as [-> |Hn]; [lia|].
  assert (0 <= Z.lor a b) by (apply Z.lor_nonneg; lia).
  apply Z.log2_lt_pow2; [lia|]. rewrite Z.log2_lor by lia.
  apply Z.max_lub_lt; [destruct (Z.eq_dec a 0) as [-> |]; [done|]|destruct (Z.eq_dec b 0) as [-> |]; [done|]]; apply Z.log2_lt_pow2; lia.
Qed.

Lemma land_range32 a b : 0 <= a < 2 ^ 32 -> 0 <= b -> 0 <= Z.land a b < 2 ^ 32.
Proof.
  intros Ha Hb. split; [apply Z.land_nonneg; lia|]. destruct (Z.eq_dec (Z.land a b) 0) as [-> |Hn]; [lia|].
  assert (0 <= Z.land a b) by (apply Z.land_nonneg; lia).
  apply Z.log2_lt_pow2; [lia|]. eapply Z.le_lt_trans; [apply Z.log2_land; lia|].
  apply Z.min_lt_iff. left. destruct (Z.eq_dec a 0) as [-> |]; [done|]. apply Z.log2_lt_pow2; lia.
Qed.

Section PlicProps.
Context {D : Type} {MM : Mmio D} {PS : PlicSpec D}.

Lemma enable_reg_eq ctx src :
  0 <= ctx < 15872 -> 0 <= src < 1024 -> enable_reg ctx src = PLIC_IOBASE + 0x2000 + ctx * 0x80 + src / 32 * 4.
Proof.
  intros Hc Hs. unfold enable_reg, PLIC_IOBASE. rewrite (w32_small ctx), (w32_small src), w32_small by lia. done.
Qed.

(** The word operation shared by enabling and disabling: only the bit of [src]
    of context [ctx] changes. *)
Lemma set_enable_bit d ctx src (f : Z -> Z) b :
  0 <= ctx < 15872 -> 0 <= src < 1024 ->
  (forall v, 0 <= v < 2 ^ 32 -> 0 <= f v < 2 ^ 32 /\
     forall k, 0 <= k < 32 -> Z.testbit (f v) k = if k =? src mod 32 then b else Z.testbit v k) ->
  exists d', (v <- rd32 (enable_reg ctx src) ;; wr32 (enable_reg ctx src) (f v)) d = Done tt d' /\
    (1 <= src -> enabled d' ctx src = b) /\
    (forall c s, 1 <= s -> c <> ctx \/ s <> src -> enabled d' c s = enabled d c s) /\
    prio d' = prio d /\ in_service d' = in_service d.
Proof.
  intros Hc Hs Hf. rewrite enable_reg_eq by lia.
  pose proof (Z.div_mod src 32 ltac:(lia)) as Hdm. pose proof (Z.mod_pos_bound src 32 ltac:(lia)) as Hm.
  assert (Hw : 0 <= src / 32 < 32) by (split; [apply Z.div_pos; lia|apply Z.div_lt_upper_bound; lia]).
  destruct (rd_enable d ctx (src / 32) Hc Hw) as (v & Er & Hv & Hbits).
  destruct (Hf v Hv) as [Hfr Hfb].
  destruct (wr_enable d ctx (src / 32) (f v) Hc Hw Hfr) as (d' & Ew & Hb' & Ho & Hp & Hi).
  exists d'. split; [by mstep Er|]. split_and!; [| |done|done].
  - intros Hs1. rewrite Hdm at 1. rewrite Hb', Hfb by lia. by rewrite Z.eqb_refl.
  - intros c s Hs1 Hne. destruct (decide (c = ctx /\ s / 32 = src / 32)) as [[-> E]|Hn].
    + destruct Hne as [?|Hne]; [done|]. pose proof (Z.div_mod s 32 ltac:(lia)) as Hds. pose proof (Z.mod_pos_bound s 32 ltac:(lia)).
      rewrite E in Hds. rewrite Hds. rewrite Hb', Hfb, Hbits by lia. by rewrite (proj2 (Z.eqb_neq _ _)) by lia.
    + apply Ho. destruct (Z.eq_dec c ctx); [right; intros ?; by apply Hn|by left].
Qed.

Lemma enable_source_ok d ctx src :
  0 <= ctx < 15872 -> 0 <= src < 1024 ->
  exists d', plic_enable_source_for_context ctx src d = Done tt d' /\ (1 <= src -> enabled d' ctx src = true) /\
    (forall c s, 1 <= s -> c <> ctx \/ s <> src -> enabled d' c s = enabled d c s) /\
    prio d' = prio d /\ in_service d' = in_service d.
Proof.
  intros Hc Hs. apply (set_enable_bit d ctx src (fun v => Z.lor v (srcbit (w32 src))) true Hc Hs).
  intros v Hv. rewrite w32_small by lia. split; [apply lor_range32; [done|apply srcbit_range]|].
  intros k Hk. rewrite Z.lor_spec, srcbit_testbit by done. destruct (k =? src mod 32); [apply orb_true_r|apply orb_false_r].
Qed.

Lemma disable_source_ok d ctx src :
  0 <= ctx < 15872 -> 0 <= src < 1024 ->
  exists d', plic_disable_source_for_context ctx src d = Done tt d' /\ (1 <= src -> enabled d' ctx src = false) /\
    (forall c s, 1 <= s -> c <> ctx \/ s <> src -> enabled d' c s = enabled d c s) /\
    prio d' = prio d /\ in_service d' = in_service d.
Proof.
  intros Hc Hs. apply (set_enable_bit d ctx src (fun v => Z.land v (w32 (Z.lnot (srcbit (w32 src))))) false Hc Hs).
  intros v Hv. rewrite (w32_small src) by lia. split; [apply land_range32; [done|apply w32_range]|].
  intros k Hk. rewrite Z.land_spec. unfold w32 at 1. change 4294967296 with (2 ^ 32).
  rewrite Z.mod_pow2_bits_low, Z.lnot_spec, srcbit_testbit by lia.
  destruct (k =? src mod 32); [apply andb_false_r|apply andb_true_r].
Qed.

Lemma plic_init_run (d : D) :
  exists d1, plic_init d = Done tt d1 /\ in_service d1 = in_service d /\
    forall s, 1 <= s < 1024 -> prio d1 s = 0 /\ enabled d1 1 s = true.
Proof.
  pose proof max_prio_range as Hmax.
  destruct (for_upto_inv (fun i d' => in_service d' = in_service d /\
      forall s, 1 <= s < i -> prio d' s = 0 /\ enabled d' 1 s = true)
    (fun i => plic_set_source_priority i 0 ;; plic_enable_source_for_context 1 i) PLIC_SRCCNT 0 d) as (d1 & E1 & S1 & H1).
  { split; [done|lia]. }
  { intros j e Hj [Sj IH]. change (Z.of_nat PLIC_SRCCNT) with 1024 in Hj.
    destruct (wr_prio e j 0) as (e1 & W1 & P1 & P2 & P3 & P4); [lia|lia|].
    destruct (enable_source_ok e1 1 j) as (e2 & W2 & Q1 & Q2 & Q3 & Q4); [lia|lia|].
    exists e2. split.
    - unfold plic_set_source_priority. rewrite (w32_small j), (w32_small 0) by lia. by mstep W1.
    - split; [congruence|]. intros s Hs. rewrite Q3. destruct (Z.eq_dec s j) as [-> |Hne].
      + split; [apply P1; lia|apply Q1; lia].
      + rewrite P2, Q2, P3 by (lia || (right; lia)). apply IH. lia. }
  change (0 + Z.of_nat PLIC_SRCCNT) with 1024 in H1. by exists d1.
Qed.

(** [plic_init] leaves every interrupt source with priority 0, so that none
    is delivered, and enabled for the supervisor context of hart 0; enabling an
    interrupt then gives exactly that source its priority, and disabling it takes
    the priority away again, without a change to any other source. *)
Theorem plic_priorities (d : D) (irqno p : Z) :
  1 <= irqno < 1024 -> 1 <= p <= max_prio ->
  exists d1 d2 d3, plic_init d = Done tt d1 /\ plic_enable_irq irqno p d1 = Done tt d2 /\
    plic_disable_irq irqno d2 = Done tt d3 /\
    (forall s, 1 <= s < 1024 -> prio d1 s = 0 /\ enabled d1 1 s = true) /\
    (forall s, 1 <= s < 1024 -> prio d2 s = (if s =? irqno then p else 0) /\ enabled d2 1 s = true) /\
    (forall s, 1 <= s < 1024 -> prio d3 s = 0 /\ enabled d3 1 s = true) /\
    in_service d3 = in_service d.
Proof.
  intros Hi Hp. pose proof max_prio_range as Hmax. destruct (plic_init_run d) as (d1 & E1 & S1 & H1).
  destruct (wr_prio d1 irqno p) as (d2 & W2 & P1 & P2 & P3 & P4); [lia|lia|].
  destruct (wr_prio d2 irqno 0) as (d3 & W3 & R1 & R2 & R3 & R4); [lia|lia|].
  exists d1, d2, d3. unfold plic_enable_irq, plic_disable_irq, plic_set_source_priority.
  rewrite (proj2 (Z.ltb_lt 0 irqno)), (w32_small irqno), (w32_small p), (w32_small 0) by lia.
  split; [exact E1|]. split; [exact W2|]. split; [exact W3|]. split; [exact H1|].
  assert (H2 : forall s, 1 <= s < 1024 -> prio d2 s = (if s =? irqno then p else 0) /\ enabled d2 1 s = true).
  { intros s Hs. rewrite P3. destruct (H1 s Hs) as [Hz He]. split; [|done].
    destruct (Z.eqb_spec s irqno) as [-> |Hne]; [apply P1; lia|by rewrite P2]. }
  split; [exact H2|]. split; [|congruence].
  intros s Hs. rewrite R3. destruct (H2 s Hs) as [Hz He]. split; [|done].
  destruct (Z.eqb_spec s irqno) as [-> |Hne]; [apply R1; lia|by rewrite R2].
Qed.
End PlicProps.

(** ** A concrete controller *)

(** Priorities by source, enable words by context and word, the sources pending
    in the order they are claimed, and those in service. *)
Record plic := MkPlic { pl_prio : Z -> Z; pl_enable : Z -> Z -> Z; pl_pending : list Z; pl_service : list Z }.

Definition fupd (f : Z -> Z) (a v : Z) : Z -> Z := fun x => if x =? a then v else f x.

Definition plic_rd (a : Z) : M plic Z := fun d =>
  if a =? claim_reg 1 then
    match pl_pending d with
    | [] => Done 0 d
    | n :: l =>
        let n' := n mod 1024 in
        Done n' (MkPlic (pl_prio d) (pl_enable d) l ((if n' =? 0 then [] else [n']) ++ pl_service d))
    end
  else if (PLIC_IOBASE + 0x2000 <=? a) && (a <? PLIC_IOBASE + 0x200000) then
    let o := a - (PLIC_IOBASE + 0x2000) in Done (w32 (pl_enable d (o / 128) (o mod 128 / 4))) d
  else Done 0 d.

Definition plic_wr (a v : Z) : M plic unit := fun d =>
  if a =? claim_reg 1 then
    Done tt (MkPlic (pl_prio d) (pl_enable d) (pl_pending d)
      (match pl_service d with n :: l => if n =? v then l else pl_service d | [] => [] end))
  else if (PLIC_IOBASE + 0x2000 <=? a) && (a <? PLIC_IOBASE + 0x200000) then
    let o := a - (PLIC_IOBASE + 0x2000) in
    let c := o / 128 in
    Done tt (MkPlic (pl_prio d) (fun c' => if c' =? c then fupd (pl_enable d c) (o mod 128 / 4) v else pl_enable d c')
      (pl_pending d) (pl_service d))
  else Done tt (MkPlic (fupd (pl_prio d) ((a - PLIC_IOBASE) / 4) v) (pl_enable d) (pl_pending d) (pl_service d)).

#[export] Instance plic_mmio : Mmio plic := { rd32 := plic_rd; wr32 := plic_wr }.

Definition pl_enabled (d : plic) (c s : Z) : bool := Z.testbit (pl_enable d c (s / 32)) (s mod 32).

Lemma enable_addr ctx w :
  0 <= ctx < 15872 -> 0 <= w < 32 ->
  let a := PLIC_IOBASE + 0x2000 + ctx * 0x80 + w * 4 in
  (a =? claim_reg 1) = false /\ ((PLIC_IOBASE + 0x2000 <=? a) && (a <? PLIC_IOBASE + 0x200000)) = true /\
  (a - (PLIC_IOBASE + 0x2000)) / 128 = ctx /\ (a - (PLIC_IOBASE + 0x2000)) mod 128 / 4 = w.
Proof.
  intros Hc Hw a. unfold a, claim_reg, PLIC_IOBASE. rewrite (w32_small (1 * 4096)) by lia.
  rewrite (proj2 (Z.eqb_neq _ _)), (proj2 (Z.leb_le _ _)), (proj2 (Z.ltb_lt _ _)) by lia.
  split_and!; [done|done| |]; Z.div_mod_to_equations; lia.
Qed.

Lemma word_bit w k : 0 <= w -> 0 <= k < 32 -> (32 * w + k) / 32 = w /\ (32 * w + k) mod 32 = k.
Proof. intros Hw Hk. Z.div_mod_to_equations. lia. Qed.

#[export] Program Instance plic_spec : PlicSpec plic :=
  {| prio := pl_prio; enabled := pl_enabled; in_service := pl_service; max_prio := 7 |}.
Next Obligation. lia. Qed.
Next Obligation.
  intros d src v Hs Hv. cbn. unfold plic_wr, claim_reg, PLIC_IOBASE. rewrite (w32_small (1 * 4096)) by lia.
  rewrite (proj2 (Z.eqb_neq _ _)), (proj2 (Z.leb_gt _ _)) by lia. cbn [andb]. eexists. split; [done|].
  replace ((0x0C000000 + src * 4 - 0x0C000000) / 4) with src by (Z.div_mod_to_equations; lia). cbn. unfold fupd.
  split_and!; [by rewrite Z.eqb_refl| |done|done]. intros s Hne. by rewrite (proj2 (Z.eqb_neq _ _)).
Qed.
Next Obligation.
  intros d ctx w Hc Hw. destruct (enable_addr ctx w Hc Hw) as (E1 & E2 & E3 & E4). cbn. unfold plic_rd.
  rewrite E1, E2. cbv zeta. rewrite E3, E4. eexists. split; [done|]. split; [apply w32_range|].
  intros k Hk _. unfold pl_enabled. destruct (word_bit w k) as [-> ->]; [lia|lia|].
  unfold w32. change 4294967296 with (2 ^ 32). by rewrite Z.mod_pow2_bits_low by lia.
Qed.
Next Obligation.
  intros d ctx w v Hc Hw Hv. destruct (enable_addr ctx w Hc Hw) as (E1 & E2 & E3 & E4). cbn. unfold plic_wr.
  rewrite E1, E2. cbv zeta. rewrite E3, E4. eexists. split; [done|]. cbn. unfold pl_enabled, fupd. cbn. split_and!; [| |done|done].
  - intros k Hk _. destruct (word_bit w k) as [-> ->]; [lia|lia|]. by rewrite !Z.eqb_refl.
  - intros c s Hne. destruct (Z.eqb_spec c ctx) as [-> |]; [|done]. destruct Hne as [?|Hne]; [done|]. by rewrite (proj2 (Z.eqb_neq _ _)).
Qed.
Next Obligation.
  intros d. cbn. unfold plic_rd. rewrite Z.eqb_refl. destruct (pl_pending d) as [|n l].
  - exists 0, d. split; [done|]. split; [lia|done].
  - eexists _, _. split; [done|]. split; [apply Z.mod_pos_bound; lia|done].
Qed.
Next Obligation.
  intros d n l Hn Hs. cbn. unfold plic_wr. rewrite Z.eqb_refl. eexists. split; [done|]. cbn. by rewrite Hs, Z.eqb_refl.
Qed.

Definition demo_plic : plic := MkPlic (fun _ => 3) (fun _ _ => 0) [10] [].

Lemma plic_priorities_witness :
  exists d1 d2 d3, plic_init demo_plic = Done tt d1 /\ plic_enable_irq 10 1 d1 = Done tt d2 /\
    plic_disable_irq 10 d2 = Done tt d3 /\
    (forall s, 1 <= s < 1024 -> pl_prio d1 s = 0 /\ pl_enabled d1 1 s = true) /\
    (forall s, 1 <= s < 1024 -> pl_prio d2 s = (if s =? 10 then 1 else 0) /\ pl_enabled d2 1 s = true) /\
    (forall s, 1 <= s < 1024 -> pl_prio d3 s = 0 /\ pl_enabled d3 1 s = true) /\
    pl_service d3 = [].
Proof. refine (plic_priorities demo_plic 10 1 _ _); [lia|cbn; lia]. Defined.
