(* ===== verification/Virtio.v ===== *)
(** * Attaching virtio devices (virtio.c, virtio.h)

    The register accesses with which a device is found, reset and its features
    agreed on.  The device is a parameter: [VirtioMmio] says what the virtio
    specification says of the registers of its memory-mapped transport that the
    code uses.  Feature negotiation through the registers is shown to compute the
    function on feature words that [Vioblk] is built on. *)

From stdpp Require Import base list strings numbers.
From Stdlib Require Import Lia ZArith.
From S2P Require Import Prelude BlockIo Vioblk Plic.
Local Open Scope Z_scope.
Local Open Scope kern_scope.

Class Mmio64 (D : Type) := { rd64 : Z -> M D Z; wr64 : Z -> Z -> M D unit }.

Definition VIRTIO_MAGIC : Z := 0x74726976.
Definition VIRTIO_ID_NONE : Z := 0.
Definition VIRTIO_ID_CONSOLE : Z := 3.
Definition VIRTIO_STAT_ACKNOWLEDGE : Z := 1.
Definition VIRTIO_STAT_FEATURES_OK : Z := 8.

(** Offsets in [struct virtio_mmio_regs]. *)
Definition MAGIC_VALUE : Z := 0x00.
Definition VERSION : Z := 0x04.
Definition DEVICE_ID : Z := 0x08.
Definition DEVICE_FEATURES : Z := 0x10.
Definition DEVICE_FEATURES_SEL : Z := 0x14.
Definition DRIVER_FEATURES : Z := 0x20.
Definition DRIVER_FEATURES_SEL : Z := 0x24.
Definition QUEUE_SEL : Z := 0x30.
Definition QUEUE_NUM : Z := 0x38.
Definition QUEUE_READY : Z := 0x44.
Definition QUEUE_NOTIFY : Z := 0x50.
Definition STATUS : Z := 0x70.
Definition QUEUE_DESC : Z := 0x80.
Definition QUEUE_DRIVER : Z := 0x90.
Definition QUEUE_DEVICE : Z := 0xa0.
Definition QUEUE_RESET : Z := 0xc0.

Section Virtio.
Context {D : Type} {MM : Mmio D} {M8 : Mmio64 D}.

(** The weak definition: no console driver is linked in. *)
Definition viocons_attach (regs irqno : Z) : M D unit := panic "viocons not included!".

(** [blk_attach] is [vioblk_attach]. *)
Definition virtio_attach (blk_attach : Z -> Z -> M D unit) (regs irqno : Z) : M D unit :=
  magic <- rd32 (regs + MAGIC_VALUE) ;;
  if negb (magic =? VIRTIO_MAGIC) then ret tt else
  version <- rd32 (regs + VERSION) ;;
  if negb (version =? 2) then ret tt else
  id <- rd32 (regs + DEVICE_ID) ;;
  if id =? VIRTIO_ID_NONE then ret tt else
  wr32 (regs + STATUS) 0 ;;
  wr32 (regs + STATUS) VIRTIO_STAT_ACKNOWLEDGE ;;
  id' <- rd32 (regs + DEVICE_ID) ;;
  if id' =? VIRTIO_ID_CONSOLE then viocons_attach regs irqno
  else if id' =? VIRTIO_ID_BLOCK then blk_attach regs irqno
  else ret tt.

Definition virtio_check_feature (regs k : Z) : M D Z :=
  wr32 (regs + DEVICE_FEATURES_SEL) (k / 32) ;;
  v <- rd32 (regs + DEVICE_FEATURES) ;;
  ret (Z.land (Z.shiftr v (k mod 32)) 1).

Definition virtio_notify_avail (regs qid : Z) : M D unit := wr32 (regs + QUEUE_NOTIFY) (w32 qid).
Definition virtio_enable_virtq (regs qid : Z) : M D unit :=
  wr32 (regs + QUEUE_SEL) (w32 qid) ;; wr32 (regs + QUEUE_READY) 1.
Definition virtio_reset_virtq (regs qid : Z) : M D unit :=
  wr32 (regs + QUEUE_SEL) (w32 qid) ;; wr32 (regs + QUEUE_RESET) 1.

Definition virtio_attach_virtq (regs qid len desc_addr used_addr avail_addr : Z) : M D unit :=
  wr32 (regs + QUEUE_SEL) (w32 qid) ;;
  wr64 (regs + QUEUE_DESC) desc_addr ;;
  wr64 (regs + QUEUE_DEVICE) used_addr ;;
  wr64 (regs + QUEUE_DRIVER) avail_addr ;;
  wr32 (regs + QUEUE_NUM) (w32 len).

(** The two loops of [virtio_negotiate_features], from word [i] on. *)
Fixpoint check_needed (regs : Z) (needed : list Z) (n i : nat) : M D bool :=
  match n with
  | O => ret true
  | S n' =>
      let w := default 0 (needed !! i) in
      if w =? 0 then check_needed regs needed n' (S i) else
      wr32 (regs + DEVICE_FEATURES_SEL) (Z.of_nat i) ;;
      v <- rd32 (regs + DEVICE_FEATURES) ;;
      if negb (Z.land v w =? w) then ret false else check_needed regs needed n' (S i)
  end.

Fixpoint request_wanted (regs : Z) (enabled wanted : list Z) (n i : nat) : M D (list Z) :=
  match n with
  | O => ret enabled
  | S n' =>
      let w := default 0 (wanted !! i) in
      if w =? 0 then request_wanted regs enabled wanted n' (S i) else
      wr32 (regs + DEVICE_FEATURES_SEL) (Z.of_nat i) ;;
      wr32 (regs + DRIVER_FEATURES_SEL) (Z.of_nat i) ;;
      v <- rd32 (regs + DEVICE_FEATURES) ;;
      wr32 (regs + DRIVER_FEATURES) (Z.land v w) ;;
      request_wanted regs (<[i := Z.land v w]> enabled) wanted n' (S i)
  end.

Definition negotiate_regs (regs : Z) (enabled wanted needed : list Z) : M D (Z * list Z) :=
  ok <- check_needed regs needed VIRTIO_FEATLEN 0 ;;
  if negb ok then ret (- ENOTSUP, enabled) else
  enabled' <- request_wanted regs enabled wanted VIRTIO_FEATLEN 0 ;;
  st <- rd32 (regs + STATUS) ;;
  wr32 (regs + STATUS) (Z.lor st VIRTIO_STAT_FEATURES_OK) ;;
  st' <- rd32 (regs + STATUS) ;;
  assert (negb (Z.land st' VIRTIO_STAT_FEATURES_OK =? 0)) "regs->status & VIRTIO_STAT_FEATURES_OK" ;;
  ret (0, enabled').
End Virtio.

(** ** The device *)

(** The device at [base]: what it is, the feature words it offers, the words the
    driver has accepted, the two selectors, and the status, where FEATURES_OK
    sticks when only offered features were accepted. *)
Class VirtioMmio (D : Type) {MM : Mmio D} (base : Z) := {
  v_ident : D -> Z * Z * Z;       (* magic, version, device id *)
  v_offered : D -> Z -> Z;
  v_accepted : D -> Z -> Z;
  v_devsel : D -> Z;
  v_drvsel : D -> Z;
  v_status : D -> Z;
  rd_magic d : rd32 (base + MAGIC_VALUE) d = Done (v_ident d).1.1 d;
  rd_version d : rd32 (base + VERSION) d = Done (v_ident d).1.2 d;
  rd_id d : rd32 (base + DEVICE_ID) d = Done (v_ident d).2 d;
  rd_features d : rd32 (base + DEVICE_FEATURES) d = Done (v_offered d (v_devsel d)) d;
  rd_status d : rd32 (base + STATUS) d = Done (v_status d) d;
  wr_devsel d v : exists d', wr32 (base + DEVICE_FEATURES_SEL) v d = Done tt d' /\ v_devsel d' = v /\
    v_ident d' = v_ident d /\ v_offered d' = v_offered d /\ v_accepted d' = v_accepted d /\
    v_drvsel d' = v_drvsel d /\ v_status d' = v_status d;
  wr_drvsel d v : exists d', wr32 (base + DRIVER_FEATURES_SEL) v d = Done tt d' /\ v_drvsel d' = v /\
    v_ident d' = v_ident d /\ v_offered d' = v_offered d /\ v_accepted d' = v_accepted d /\
    v_devsel d' = v_devsel d /\ v_status d' = v_status d;
  wr_features d v : exists d', wr32 (base + DRIVER_FEATURES) v d = Done tt d' /\
    (forall i, v_accepted d' i = if decide (i = v_drvsel d) then v else v_accepted d i) /\
    v_ident d' = v_ident d /\ v_offered d' = v_offered d /\ v_devsel d' = v_devsel d /\
    v_drvsel d' = v_drvsel d /\ v_status d' = v_status d;
  wr_status d v :
    Z.land v VIRTIO_STAT_FEATURES_OK = 0 \/ (forall i, Z.land (v_offered d i) (v_accepted d i) = v_accepted d i) ->
    exists d', wr32 (base + STATUS) v d = Done tt d' /\ v_status d' = v /\
      v_ident d' = v_ident d /\ v_offered d' = v_offered d /\
      (forall i, v_accepted d' i = if v =? 0 then 0 else v_accepted d i)
}.

Section Props.
Context {D : Type} {MM : Mmio D} {M8 : Mmio64 D} (base : Z) {VM : VirtioMmio D base}.

(** The four words the device offers. *)
Definition offered_words (d : D) : list Z := (fun i => v_offered d (Z.of_nat i)) <$> seq 0 VIRTIO_FEATLEN.

Lemma offered_word d i : (i < VIRTIO_FEATLEN)%nat -> default 0 (offered_words d !! i) = v_offered d (Z.of_nat i).
Proof. intros Hi. unfold offered_words. rewrite list_lookup_fmap, lookup_seq_lt by done. done. Qed.

Definition needed_ok (offered needed : list Z) (i : nat) : bool :=
  let n := default 0 (needed !! i) in (n =? 0) || (Z.land (default 0 (offered !! i)) n =? n).

Lemma check_needed_run needed n : forall i d, (i + n <= VIRTIO_FEATLEN)%nat ->
  exists d', check_needed base needed n i d = Done (forallb (needed_ok (offered_words d) needed) (seq i n)) d' /\
    v_ident d' = v_ident d /\ v_offered d' = v_offered d /\ v_accepted d' = v_accepted d /\ v_status d' = v_status d.
Proof.
  induction n as [|n IH]; intros i d Hi; [by exists d|].
  cbn [check_needed seq forallb]. unfold needed_ok at 1. cbv zeta. rewrite offered_word by lia.
  destruct (_ =? 0) eqn:H0; cbn [orb andb]; [apply IH; lia|].
  destruct (wr_devsel d (Z.of_nat i)) as (d1 & E1 & S1 & I1 & O1 & A1 & _ & T1). mstep E1. mstep (rd_features d1).
  rewrite S1, O1. destruct (Z.land (v_offered d (Z.of_nat i)) _ =? _); cbn [negb andb]; [|by exists d1].
  destruct (IH (S i) d1 ltac:(lia)) as (d2 & E2 & I2 & O2 & A2 & T2). exists d2.
  rewrite E2. unfold offered_words. rewrite O1. split_and!; congruence.
Qed.

Definition request (offered wanted en : list Z) (i : nat) : list Z :=
  let w := default 0 (wanted !! i) in if w =? 0 then en else <[i := Z.land (default 0 (offered !! i)) w]> en.

Lemma request_wanted_run wanted n : forall i en d, (i + n <= VIRTIO_FEATLEN)%nat ->
  exists d', request_wanted base en wanted n i d = Done (foldl (request (offered_words d) wanted) en (seq i n)) d' /\
    v_ident d' = v_ident d /\ v_offered d' = v_offered d /\ v_status d' = v_status d /\
    (forall k, v_accepted d' k =
       if decide (Z.of_nat i <= k < Z.of_nat (i + n) /\ default 0 (wanted !! Z.to_nat k) <> 0)
       then Z.land (v_offered d k) (default 0 (wanted !! Z.to_nat k)) else v_accepted d k).
Proof.
  induction n as [|n IH]; intros i en d Hi.
  { exists d. split_and!; try done. intros k. rewrite decide_False by lia. done. }
  cbn [request_wanted seq foldl]. unfold request at 2. cbv zeta. rewrite offered_word by lia.
  destruct (Z.eqb_spec (default 0 (wanted !! i)) 0) as [H0|H0].
  - destruct (IH (S i) en d ltac:(lia)) as (d' & E & I' & O' & T' & A'). exists d'. split_and!; try done.
    intros k. rewrite A'. destruct (decide (k = Z.of_nat i)) as [->|Hk].
    + rewrite !decide_False; [done|rewrite Nat2Z.id; tauto|lia].
    + apply decide_ext. lia.
  - destruct (wr_devsel d (Z.of_nat i)) as (d1 & E1 & S1 & I1 & O1 & A1 & _ & T1). mstep E1.
    destruct (wr_drvsel d1 (Z.of_nat i)) as (d2 & E2 & S2 & I2 & O2 & A2 & V2 & T2). mstep E2.
    mstep (rd_features d2). rewrite V2, S1, O2, O1.
    destruct (wr_features d2 (Z.land (v_offered d (Z.of_nat i)) (default 0 (wanted !! i))))
      as (d3 & E3 & A3 & I3 & O3 & _ & _ & T3). mstep E3.
    destruct (IH (S i) (<[i := Z.land (v_offered d (Z.of_nat i)) (default 0 (wanted !! i))]> en) d3 ltac:(lia))
      as (d' & E & I' & O' & T' & A'). exists d'. rewrite E.
    assert (Ho : v_offered d3 = v_offered d) by congruence.
    unfold offered_words. rewrite Ho. split_and!; try congruence. intros k. rewrite A', A3, S2, Ho.
    destruct (decide (k = Z.of_nat i)) as [->|Hk].
    + rewrite decide_False, decide_True by (rewrite ?Nat2Z.id; lia). by rewrite Nat2Z.id.
    + rewrite A2, A1. apply decide_ext. lia.
Qed.

Lemma features_ok_set x : (Z.land (Z.lor x VIRTIO_STAT_FEATURES_OK) VIRTIO_STAT_FEATURES_OK =? 0) = false.
Proof.
  change VIRTIO_STAT_FEATURES_OK with (Z.shiftl 1 3) at 2. rewrite land_bit by lia.
  rewrite Z.lor_spec. by rewrite orb_true_r.
Qed.

(** Only offered features are accepted. *)
Definition within (d : D) : Prop := forall i, Z.land (v_offered d i) (v_accepted d i) = v_accepted d i.

Lemma negotiate_regs_run (en wanted needed : list Z) (d : D) :
  within d ->
  exists d', negotiate_regs base en wanted needed d =
      Done (virtio_negotiate_features (offered_words d) en wanted needed) d' /\ within d' /\
    (fst (virtio_negotiate_features (offered_words d) en wanted needed) = 0 ->
       v_status d' = Z.lor (v_status d) VIRTIO_STAT_FEATURES_OK /\
       forall k, v_accepted d' k =
         if decide (0 <= k < 4 /\ default 0 (wanted !! Z.to_nat k) <> 0)
         then Z.land (v_offered d k) (default 0 (wanted !! Z.to_nat k)) else v_accepted d k) /\
    (fst (virtio_negotiate_features (offered_words d) en wanted needed) <> 0 ->
       v_status d' = v_status d /\ v_accepted d' = v_accepted d).
Proof.
  intros HW. unfold negotiate_regs, virtio_negotiate_features.
  destruct (check_needed_run needed VIRTIO_FEATLEN 0 d) as (d1 & E1 & I1 & O1 & A1 & T1); [lia|].
  rewrite (bind_Done _ _ _ _ _ E1). unfold needed_ok. destruct (forallb _ _); cbn [negb fst].
  2:{ exists d1. split_and!; try done. intros i. by rewrite O1, A1. }
  destruct (request_wanted_run wanted VIRTIO_FEATLEN 0 en d1) as (d2 & E2 & I2 & O2 & T2 & A2); [lia|].
  rewrite (bind_Done _ _ _ _ _ E2), (bind_Done _ _ _ _ _ (rd_status d2)).
  assert (W2 : within d2).
  { intros i. rewrite A2, O2. case_decide; [|by rewrite O1, A1]. by rewrite Z.land_assoc, Z.land_diag. }
  destruct (wr_status d2 (Z.lor (v_status d2) VIRTIO_STAT_FEATURES_OK)) as (d3 & E3 & T3 & I3 & O3 & A3); [by right|].
  rewrite (bind_Done _ _ _ _ _ E3), (bind_Done _ _ _ _ _ (rd_status d3)), T3, features_ok_set. cbn [negb].
  assert (A3' : forall i, v_accepted d3 i = v_accepted d2 i).
  { intros i. rewrite A3, (proj2 (Z.eqb_neq _ _)); [done|]. intros H0.
    pose proof (features_ok_set (v_status d2)) as H. by rewrite H0 in H. }
  exists d3. split_and!.
  - unfold offered_words. rewrite O1. done.
  - intros i. rewrite A3', O3. apply W2.
  - intros _. split; [congruence|]. intros k. rewrite A3', A2, O1, A1. apply decide_ext. unfold VIRTIO_FEATLEN. lia.
  - done.
Qed.

(** C24: Feature negotiation through the registers of a device computes the
    function on feature words [virtio_negotiate_features], whatever the device
    offers.  When it succeeds the device has accepted, in each word in which
    something is wanted, exactly the wanted features that it offers, and carries
    FEATURES_OK; when a needed feature is missing, nothing has been accepted and
    the status is untouched. *)
Theorem virtio_negotiate_refines (en wanted needed : list Z) (d : D) :
  within d ->
  exists d', negotiate_regs base en wanted needed d =
      Done (virtio_negotiate_features (offered_words d) en wanted needed) d' /\ within d' /\
    (fst (virtio_negotiate_features (offered_words d) en wanted needed) = 0 ->
       v_status d' = Z.lor (v_status d) VIRTIO_STAT_FEATURES_OK /\
       forall k, v_accepted d' k =
         if decide (0 <= k < 4 /\ default 0 (wanted !! Z.to_nat k) <> 0)
         then Z.land (v_offered d k) (default 0 (wanted !! Z.to_nat k)) else v_accepted d k) /\
    (fst (virtio_negotiate_features (offered_words d) en wanted needed) <> 0 ->
       v_status d' = v_status d /\ v_accepted d' = v_accepted d).
Proof. exact (negotiate_regs_run en wanted needed d). Qed.

(** [virtio_attach] does not write to a slot without a device it knows how to
    talk to (wrong magic number or version, or no device); otherwise it resets the
    device, which forgets the features accepted before, and acknowledges it, and
    then calls the block driver for a block device, panics for a console, and leaves
    any other device acknowledged. *)
Theorem virtio_attach_correct (blk_attach : Z -> Z -> M D unit) (irqno : Z) (d : D) :
  let '(magic, version, id) := v_ident d in
  (magic <> VIRTIO_MAGIC \/ version <> 2 \/ id = VIRTIO_ID_NONE ->
     virtio_attach blk_attach base irqno d = Done tt d) /\
  (magic = VIRTIO_MAGIC -> version = 2 -> id <> VIRTIO_ID_NONE ->
     exists d', v_status d' = VIRTIO_STAT_ACKNOWLEDGE /\ (forall i, v_accepted d' i = 0) /\
       v_ident d' = v_ident d /\ v_offered d' = v_offered d /\
       virtio_attach blk_attach base irqno d =
         (if id =? VIRTIO_ID_CONSOLE then Panic "viocons not included!" d'
          else if id =? VIRTIO_ID_BLOCK then blk_attach base irqno d' else Done tt d')).
Proof.
  destruct (v_ident d) as [[magic version] id] eqn:Hid.
  pose proof (rd_magic d) as Em. pose proof (rd_version d) as Ev. pose proof (rd_id d) as Ei. rewrite Hid in Em, Ev, Ei.
  cbn [fst snd] in *. unfold virtio_attach. rewrite (bind_Done _ _ _ _ _ Em). split.
  - intros H. destruct (Z.eqb_spec magic VIRTIO_MAGIC) as [H1|H1]; cbn [negb]; [|done].
    rewrite (bind_Done _ _ _ _ _ Ev). destruct (Z.eqb_spec version 2) as [H2|H2]; cbn [negb]; [|done].
    rewrite (bind_Done _ _ _ _ _ Ei). destruct H as [?|[?| ->]]; done.
  - intros -> -> Hne. rewrite Z.eqb_refl. cbn [negb]. rewrite (bind_Done _ _ _ _ _ Ev). cbn [Z.eqb Pos.eqb negb].
    rewrite (bind_Done _ _ _ _ _ Ei), (proj2 (Z.eqb_neq _ _) Hne).
    destruct (wr_status d 0) as (d1 & E1 & T1 & I1 & O1 & A1); [by left|].
    destruct (wr_status d1 VIRTIO_STAT_ACKNOWLEDGE) as (d2 & E2 & T2 & I2 & O2 & A2); [by left|].
    rewrite (bind_Done _ _ _ _ _ E1), (bind_Done _ _ _ _ _ E2), (bind_Done _ _ _ _ _ (rd_id d2)), I2, I1, Hid.
    cbn [snd]. exists d2. split_and!; try congruence.
    + intros i. rewrite A2, A1. reflexivity.
    + by destruct (id =? VIRTIO_ID_CONSOLE), (id =? VIRTIO_ID_BLOCK).
Qed.
End Props.

(** ** A concrete device *)

Record toy_virtio := MkToyV {
  tv_id : Z; tv_offered : Z -> Z; tv_accepted : Z -> Z; tv_devsel : Z; tv_drvsel : Z; tv_status : Z
}.

#[export] Instance toy_virtio_mmio : Mmio toy_virtio := {
  rd32 a := fun d =>
    Done (if a =? MAGIC_VALUE then VIRTIO_MAGIC else if a =? VERSION then 2 else if a =? DEVICE_ID then tv_id d
          else if a =? DEVICE_FEATURES then tv_offered d (tv_devsel d) else if a =? STATUS then tv_status d else 0) d;
  wr32 a v := fun d =>
    Done tt
      (if a =? DEVICE_FEATURES_SEL then MkToyV (tv_id d) (tv_offered d) (tv_accepted d) v (tv_drvsel d) (tv_status d)
       else if a =? DRIVER_FEATURES_SEL then MkToyV (tv_id d) (tv_offered d) (tv_accepted d) (tv_devsel d) v (tv_status d)
       else if a =? DRIVER_FEATURES then
         MkToyV (tv_id d) (tv_offered d) (fun i => if decide (i = tv_drvsel d) then v else tv_accepted d i)
           (tv_devsel d) (tv_drvsel d) (tv_status d)
       else if a =? STATUS then
         MkToyV (tv_id d) (tv_offered d) (fun i => if v =? 0 then 0 else tv_accepted d i) (tv_devsel d) (tv_drvsel d) v
       else d)
}.

#[export] Instance toy_virtio_spec : VirtioMmio toy_virtio 0.
Proof.
  refine (Build_VirtioMmio _ _ _ (fun d => (VIRTIO_MAGIC, 2, tv_id d)) tv_offered tv_accepted tv_devsel tv_drvsel tv_status
    _ _ _ _ _ _ _ _ _); intros; try reflexivity; eexists; (split; [reflexivity|]); by split_and!.
Defined.

Definition toy_blk : toy_virtio := MkToyV 2 (fun i => if i =? 0 then 1088 else 0) (fun _ => 0) 0 0 0.

Lemma virtio_negotiate_refines_witness :
  exists d', negotiate_regs 0 [9; 9; 9; 9] [64; 0; 0; 0] [1024; 0; 0; 0] toy_blk = Done (0, [64; 9; 9; 9]) d' /\
    v_accepted d' 0 = 64 /\ v_status d' = VIRTIO_STAT_FEATURES_OK.
Proof.
  destruct (virtio_negotiate_refines 0 [9; 9; 9; 9] [64; 0; 0; 0] [1024; 0; 0; 0] toy_blk) as (d' & E & _ & H & _).
  - intros i. apply Z.land_0_r.
  - exists d'. split; [exact E|]. destruct (H eq_refl) as [Hs Ha]. split; [|exact Hs].
    rewrite Ha. vm_compute. reflexivity.
Defined.
