(* ===== verification/Intr.v ===== *)
(** * Interrupt management (intr.c)

    The table of service routines, and the handlers called from the trap code.
    A service routine acts on the timer and thread state and on the state [St]
    of the drivers; the interrupt controller is that of [Plic]. *)

From stdpp Require Import base gmap list strings numbers.
From Stdlib Require Import Lia ZArith.
From S2P Require Import Prelude Thread Timer Plic.
Local Open Scope Z_scope.
Local Open Scope kern_scope.

Definition NIRQ : Z := 32.
Definition EXCODE_STI : Z := 5.
Definition EXCODE_SEI : Z := 9.

Section Intr.
Context {D St : Type} {MM : Mmio D}.

(** An entry of [isrtab]; a NULL routine is [None]. *)
Record isr_entry := MkIsr { isr : option (Z -> Z -> M (tmstate * St) unit); isr_aux : Z; isr_prio : Z }.

Record istate := MkI {
  isrtab : list isr_entry;
  intr_initialized : bool;
  seie : bool;               (* external interrupts enabled in sie *)
  tm : tmstate;
  dev : D;
  drv : St
}.

Definition set_isrtab (l : list isr_entry) (s : istate) : istate := MkI l (intr_initialized s) (seie s) (tm s) (dev s) (drv s).
Definition set_tm (t : tmstate) (s : istate) : istate := MkI (isrtab s) (intr_initialized s) (seie s) t (dev s) (drv s).
Definition set_dev (d : D) (s : istate) : istate := MkI (isrtab s) (intr_initialized s) (seie s) (tm s) d (drv s).
Definition set_tm_drv (x : tmstate * St) (s : istate) : istate :=
  MkI (isrtab s) (intr_initialized s) (seie s) (fst x) (dev s) (snd x).

Definition on_tm {A} (c : M tmstate A) : M istate A := lift tm set_tm c.
Definition on_plic {A} (c : M D A) : M istate A := lift dev set_dev c.
Definition on_drv {A} (c : M (tmstate * St) A) : M istate A := lift (fun s => (tm s, drv s)) set_tm_drv c.

(** [csrw_sie(RISCV_SIE_SEIE)] clears the other bits of [sie]. *)
Definition csrw_sie_seie (s : istate) : istate :=
  let t := tm s in
  MkI (isrtab s) (intr_initialized s) true
    (MkTm (alarms t) (sleep_list t) (next_tick t) (mtcmp t) false (timer_initialized t) (ts t)) (dev s) (drv s).

Definition intr_init : M istate unit :=
  on_tm (on_ts intr_disable) ;;
  on_plic plic_init ;;
  modify csrw_sie_seie ;;
  modify (fun s => MkI (isrtab s) true (seie s) (tm s) (dev s) (drv s)).

Definition intr_register_isr (irqno prio : Z) (fn : option (Z -> Z -> M (tmstate * St) unit)) (aux : Z) : M istate unit :=
  if (irqno <? 0) || (NIRQ <=? irqno) then panic "irqno out of bounds" else
  let prio' := if prio <=? 0 then 1 else prio in
  modify (fun s => set_isrtab (<[Z.to_nat irqno := MkIsr fn aux prio']> (isrtab s)) s).

(** [isrtab[irqno]] *)
Definition isr_at (irqno : Z) : M istate isr_entry := fun s =>
  if (irqno <? 0) || (NIRQ <=? irqno) then Undef "isrtab index out of range" s
  else Done (default (MkIsr None 0 0) (isrtab s !! Z.to_nat irqno)) s.

Definition intr_enable_irq (irqno : Z) : M istate unit :=
  e <- isr_at irqno ;;
  match isr e with
  | None => panic "intr_enable_irq with no isr"
  | Some _ => on_plic (plic_enable_irq irqno (isr_prio e))
  end.

Definition intr_disable_irq (irqno : Z) : M istate unit := on_plic (plic_disable_irq irqno).

Definition extern_intr_handler : M istate unit :=
  irqno <- on_plic plic_claim_irq ;;
  if (irqno <? 0) || (NIRQ <=? irqno) then panic "invalid irq" else
  if irqno =? 0 then ret tt else
  e <- isr_at irqno ;;
  match isr e with
  | None => panic "unhandled irq"
  | Some fn => on_drv (fn irqno (isr_aux e)) ;; on_plic (plic_close_irq irqno)
  end.

(** [now] is the time the timer handler reads; [from_user] tells that SPP is 0.
    The timer case falls through to the external one. *)
Definition intr_handler (code now : Z) (from_user : bool) : M istate unit :=
  (if code =? EXCODE_STI then on_tm (timer_intr_handler now) ;; extern_intr_handler
   else if code =? EXCODE_SEI then extern_intr_handler
   else panic "unhandled interrupt") ;;
  if from_user then on_tm (on_ts thread_yield) else ret tt.

(** ** Dispatch *)

Context {PS : PlicSpec D}.

Lemma claim_irq_ok d :
  exists n d', plic_claim_irq d = Done n d' /\ 0 <= n < 1024 /\ prio d' = prio d /\ enabled d' = enabled d /\
    in_service d' = (if n =? 0 then [] else [n]) ++ in_service d.
Proof.
  destruct (rd_claim d) as (n & d' & E & Hn & H). exists n, d'. split; [|done].
  unfold plic_claim_irq, plic_claim_context_interrupt. mstep E. unfold ret, s32. rewrite w32_small by lia.
  by rewrite (proj2 (Z.ltb_lt _ _)) by lia.
Qed.

Lemma isr_at_ok s n : 0 <= n < NIRQ -> isr_at n s = Done (default (MkIsr None 0 0) (isrtab s !! Z.to_nat n)) s.
Proof. intros Hn. unfold isr_at. by rewrite (proj2 (Z.ltb_ge _ _)), (proj2 (Z.leb_gt _ _)) by lia. Qed.

(** C35: External interrupts.  The handler claims one interrupt from the
    controller.  With none pending it does nothing; otherwise it runs the routine
    registered for the interrupt with its argument and completes it, so that the
    controller is left with the same interrupts in service as before; an
    interrupt out of range or without a routine panics. *)
Theorem extern_intr_dispatch (s : istate) :
  exists n d', plic_claim_irq (dev s) = Done n d' /\ 0 <= n /\
    (n = 0 -> extern_intr_handler s = Done tt (set_dev d' s) /\ in_service d' = in_service (dev s)) /\
    (NIRQ <= n -> extern_intr_handler s = Panic "invalid irq" (set_dev d' s)) /\
    (forall e, 1 <= n < NIRQ -> isrtab s !! Z.to_nat n = Some e ->
       (isr e = None -> extern_intr_handler s = Panic "unhandled irq" (set_dev d' s)) /\
       (forall fn x, isr e = Some fn -> fn n (isr_aux e) (tm s, drv s) = Done tt x ->
          exists d2, extern_intr_handler s = Done tt (set_dev d2 (set_tm_drv x s)) /\
            in_service d2 = in_service (dev s) /\ prio d2 = prio (dev s) /\ enabled d2 = enabled (dev s))).
Proof.
  destruct (claim_irq_ok (dev s)) as (n & d' & E & Hn & Hp & He & Hs). exists n, d'. split; [done|]. split; [lia|].
  assert (Ec : on_plic plic_claim_irq s = Done n (set_dev d' s)) by (unfold on_plic, lift; by rewrite E).
  unfold extern_intr_handler. mstep Ec. rewrite (proj2 (Z.ltb_ge n 0)) by lia. cbn [orb]. split_and!.
  - intros ->. cbn [Z.eqb] in Hs. done.
  - intros Hge. by rewrite (proj2 (Z.leb_le NIRQ n)).
  - intros e Hr Hent. rewrite (proj2 (Z.leb_gt NIRQ n)), (proj2 (Z.eqb_neq n 0)) in * by lia.
    assert (Ei : isr_at n (set_dev d' s) = Done e (set_dev d' s)) by (rewrite isr_at_ok by lia; cbn; by rewrite Hent).
    mstep Ei. split; [by intros ->|]. intros fn x -> Hfn.
    destruct (wr_complete d' n (in_service (dev s))) as (d2 & Ew & Q1 & Q2 & Q3); [lia|done|].
    exists d2. split; [|split_and!; congruence].
    assert (Ed : on_drv (fn n (isr_aux e)) (set_dev d' s) = Done tt (set_tm_drv x (set_dev d' s))).
    { unfold on_drv, lift. cbn [tm drv set_dev]. by rewrite Hfn. }
    mstep Ed. unfold on_plic, lift. cbn [dev set_tm_drv set_dev].
    unfold plic_close_irq, plic_complete_context_interrupt. rewrite w32_small, Ew by lia. done.
Qed.
End Intr.

Arguments isr_entry St : clear implicits.
Arguments istate D St : clear implicits.

(** Interrupt 10 is pending and its routine counts. *)
Definition demo_isr : Z -> Z -> M (tmstate * Z) unit := fun irqno aux x => Done tt (fst x, snd x + irqno + aux).
Definition demo_intr : istate plic Z :=
  MkI (<[10%nat := MkIsr (Some demo_isr) 5 1]> (replicate 32 (MkIsr None 0 0))) true true demo_timer demo_plic 100.

Lemma extern_intr_dispatch_witness :
  exists d2, extern_intr_handler demo_intr = Done tt (set_dev d2 (set_tm_drv (demo_timer, 115) demo_intr)) /\
    pl_service d2 = [].
Proof.
  destruct (extern_intr_dispatch demo_intr) as (n & d' & E & _ & _ & _ & H).
  assert (n = 10) as -> by (injection E; intros _ <-; by vm_compute).
  destruct (H (MkIsr (Some demo_isr) 5 1)) as [_ H2]; [unfold NIRQ; lia|done|].
  destruct (H2 demo_isr (demo_timer, 115) eq_refl eq_refl) as (d2 & E2 & Hs & _).
  by exists d2.
Defined.
