(* ===== verification/Process.v ===== *)
(** * Processes and signals (process.c, process.h, signals.c)

    The process table over the kernel state: threads and the timer, memory, the
    file system and the device table.  A process is named by its address, which
    is what [proctab] and the threads hold.  An entry of a descriptor table is an
    I/O object: a file of [file_structs], or an object of a driver, whose
    operations are a parameter. *)

From stdpp Require Import base gmap list strings numbers.
From Stdlib Require Import Lia ZArith.
From S2P Require Import Prelude PageAlloc PageTable VmSpace Heap MemInit Clone Thread Timer BlockIo Kfs Io Elf Device.
Local Open Scope Z_scope.
Local Open Scope kern_scope.

Definition NPROC : nat := 16.
Definition PROCESS_IOMAX : nat := 16.
Definition NSIG : nat := 10.
Definition SIGTERM : Z := 1.
Definition SIGKILL : Z := 2.

(** A [struct io_intf *] that is not NULL. *)
Inductive io_obj := IoFile (i : nat) | IoDev (a : Z).
#[export] Instance io_obj_eq_dec : EqDecision io_obj.
Proof. solve_decision. Defined.

(** The objects of the drivers (uart.c, vioblk.c): their reference counts and
    operations. *)
Class Drivers (St : Type) := {
  drv_refcnt : Z -> St -> Z;
  drv_set_refcnt : Z -> Z -> St -> St;
  drv_close : Z -> M St unit;
  drv_read : Z -> Z -> M St (Z * list Z);
  drv_write : Z -> list Z -> M St Z;
  drv_ctl : Z -> Z -> option Z -> M St (Z * option Z)
}.

Record process := MkProc {
  p_id : Z;
  p_tid : Z;
  p_mtag : Z;
  iotab : list (option io_obj);
  pending_signals : Z;
  blocked_signals : Z;
  signal_handler : list Z
}.

Definition with_id (v : Z) (p : process) : process :=
  MkProc v (p_tid p) (p_mtag p) (iotab p) (pending_signals p) (blocked_signals p) (signal_handler p).
Definition with_tid (v : Z) (p : process) : process :=
  MkProc (p_id p) v (p_mtag p) (iotab p) (pending_signals p) (blocked_signals p) (signal_handler p).
Definition with_mtag (v : Z) (p : process) : process :=
  MkProc (p_id p) (p_tid p) v (iotab p) (pending_signals p) (blocked_signals p) (signal_handler p).
Definition with_iotab (v : list (option io_obj)) (p : process) : process :=
  MkProc (p_id p) (p_tid p) (p_mtag p) v (pending_signals p) (blocked_signals p) (signal_handler p).
Definition with_pending (v : Z) (p : process) : process :=
  MkProc (p_id p) (p_tid p) (p_mtag p) (iotab p) v (blocked_signals p) (signal_handler p).

Section Process.
Context {B St : Type} {BI : BlockIo B} {DR : Drivers St}.

Record kstate := MkK {
  k_tm : tmstate;
  k_heap : hstate;
  k_fs : fstate B;
  k_dev : dstate St io_obj;
  k_procs : gmap Z process;    (* the process structures, by address *)
  proctab : list Z;            (* struct process * proctab[NPROC] *)
  procmgr_initialized : bool
}.

Definition set_k_tm (v : tmstate) (s : kstate) : kstate :=
  MkK v (k_heap s) (k_fs s) (k_dev s) (k_procs s) (proctab s) (procmgr_initialized s).
Definition set_k_heap (v : hstate) (s : kstate) : kstate :=
  MkK (k_tm s) v (k_fs s) (k_dev s) (k_procs s) (proctab s) (procmgr_initialized s).
Definition set_k_fs (v : fstate B) (s : kstate) : kstate :=
  MkK (k_tm s) (k_heap s) v (k_dev s) (k_procs s) (proctab s) (procmgr_initialized s).
Definition set_k_dev (v : dstate St io_obj) (s : kstate) : kstate :=
  MkK (k_tm s) (k_heap s) (k_fs s) v (k_procs s) (proctab s) (procmgr_initialized s).
Definition set_k_procs (v : gmap Z process) (s : kstate) : kstate :=
  MkK (k_tm s) (k_heap s) (k_fs s) (k_dev s) v (proctab s) (procmgr_initialized s).
Definition set_proctab (v : list Z) (s : kstate) : kstate :=
  MkK (k_tm s) (k_heap s) (k_fs s) (k_dev s) (k_procs s) v (procmgr_initialized s).

Definition on_heap {A} (c : M hstate A) : M kstate A := lift k_heap set_k_heap c.
Definition on_kvm {A} (c : M mstate A) : M kstate A := on_heap (on_vm c).
Definition on_fs {A} (c : M (fstate B) A) : M kstate A := lift k_fs set_k_fs c.
Definition on_dev {A} (c : M (dstate St io_obj) A) : M kstate A := lift k_dev set_k_dev c.
Definition on_drivers {A} (c : M St A) : M kstate A :=
  on_dev (lift drivers (fun st d => MkDs (devmgr_initialized d) (devtab d) st) c).

(** The thread manager writes the active memory space, a register it shares with
    the memory manager, and reads the spaces of processes from their structures:
    the copies of both in [tstate] stand for these and are not kept. *)
Definition thread_view (s : kstate) : tmstate :=
  let t := k_tm s in
  set_ts (set_procs (p_mtag <$> k_procs s) (set_mtag (satp (h_vm (k_heap s))) (ts t))) t.
Definition thread_put (t : tmstate) (s : kstate) : kstate :=
  let old := ts (k_tm s) in
  set_k_heap (set_vm (set_satp (cur_mtag (ts t)) (h_vm (k_heap s))) (k_heap s))
    (set_k_tm (set_ts (set_procs (proc_mtag old) (set_mtag (cur_mtag old) (ts t))) t) s).
Definition on_ktm {A} (c : M tmstate A) : M kstate A := lift thread_view thread_put c.
Definition on_threads {A} (c : M tstate A) : M kstate A := on_ktm (on_ts c).

(** ** Processes *)

Definition current_process : M kstate Z := tid <- on_threads running_thread ;; on_threads (thread_process tid).

(** [*p] and a store to a member of it. *)
Definition proc_get (p : Z) : M kstate process := fun s =>
  match k_procs s !! p with Some x => Done x s | None => Undef "process pointer" s end.
Definition proc_upd (p : Z) (f : process -> process) : M kstate unit := fun s =>
  match k_procs s !! p with
  | Some x => Done tt (set_k_procs (<[p := f x]> (k_procs s)) s)
  | None => Undef "process pointer" s
  end.
(** [p->iotab[i] = o] *)
Definition iotab_set (p : Z) (i : nat) (o : option io_obj) : M kstate unit :=
  proc_upd p (fun x => with_iotab (<[i := o]> (iotab x)) x).

(** [main] is the address of [main_proc]. *)
Definition procmgr_init (main : Z) : M kstate unit :=
  tid <- on_threads running_thread ;;
  mtag <- on_kvm active_memory_space ;;
  proc_upd main (fun x => with_mtag mtag (with_tid tid (with_id 0 x))) ;;
  on_threads (thread_set_process tid main) ;;
  proc_upd main (with_iotab (replicate PROCESS_IOMAX None)) ;;
  modify (fun s => MkK (k_tm s) (k_heap s) (k_fs s) (k_dev s) (k_procs s) (proctab s) true).

Definition find_process_by_pid (pid : Z) : M kstate Z := fun s =>
  if (pid <? 0) || (Z.of_nat NPROC <=? pid) then Done NULL s
  else Done (default NULL (proctab s !! Z.to_nat pid)) s.

(** ** References to I/O objects *)

Definition get_refcnt (o : io_obj) (s : kstate) : Z :=
  match o with
  | IoFile i => f_refcnt (get_file i (k_fs s))
  | IoDev a => drv_refcnt a (drivers (k_dev s))
  end.
Definition file_refcnt (v : Z) (f : file_struct) : file_struct :=
  MkFile v (file_position f) (file_size f) (inode_number f) (f_flags f).
Definition set_refcnt (o : io_obj) (v : Z) (s : kstate) : kstate :=
  match o with
  | IoFile i => set_k_fs (set_file i (file_refcnt v (get_file i (k_fs s))) (k_fs s)) s
  | IoDev a =>
      let d := k_dev s in set_k_dev (MkDs (devmgr_initialized d) (devtab d) (drv_set_refcnt a v (drivers d))) s
  end.

(** [io->ops->close(io)] *)
Definition obj_close (o : io_obj) : M kstate unit :=
  match o with IoFile i => on_fs (fs_close i) | IoDev a => on_drivers (drv_close a) end.

Definition obj_ioref (o : io_obj) : M kstate Z :=
  r <- gets (get_refcnt o) ;; modify (set_refcnt o (ioref r)) ;; ret (ioref r).
Definition obj_ioclose (o : io_obj) : M kstate unit :=
  r <- gets (get_refcnt o) ;;
  if r =? 0 then ret tt else
  let '(r', close) := ioclose r true in
  modify (set_refcnt o r') ;;
  if (close : bool) then obj_close o else ret tt.

(** ** [process_exec] *)

Definition mem_of_kstate (s : kstate) : mstate := h_vm (k_heap s).
Definition put_mem_kstate (m : mstate) (s : kstate) : kstate := set_k_heap (set_vm m (k_heap s)) s.
Definition file_parts : parts kstate (fstate B) := MkParts mem_of_kstate put_mem_kstate k_fs set_k_fs.
Definition driver_parts : parts kstate St :=
  MkParts mem_of_kstate put_mem_kstate (fun s => drivers (k_dev s))
    (fun st s => let d := k_dev s in set_k_dev (MkDs (devmgr_initialized d) (devtab d) st) s).
Definition driver_ops (a : Z) : seq_ops St :=
  MkSeq (drv_read a) (fun p => r <- drv_ctl a IOCTL_SETPOS (Some p) ;; ret (fst r)).

(** [elf_load(exeio, &entry_point)] *)
Definition obj_elf_load (o : io_obj) : M kstate (Z + Z) :=
  match o with
  | IoFile i => elf_load (kfs_ops i) file_parts
  | IoDev a => elf_load (driver_ops a) driver_parts
  end.

(** The value it returns with, or the user stack pointer and the address at which
    the thread goes on in user mode. *)
Definition process_exec (exeio : io_obj) : M kstate (Z + Z * Z) :=
  on_kvm memory_unmap_and_free_user ;;
  result <- obj_elf_load exeio ;;
  match result with
  | inl _ => ret (inl (-1))
  | inr entry_point =>
      if (entry_point <? USER_START_VMA) || (USER_END_VMA <=? entry_point) then ret (inl (-1))
      else ret (inr (USER_STACK_VMA, entry_point))
  end.

(** ** [process_exit] *)

(** The loop that closes the descriptors of [p]. *)
Fixpoint close_all (n : nat) (i : nat) (p : Z) : M kstate unit :=
  match n with
  | O => ret tt
  | S n' =>
      x <- proc_get p ;;
      (match iotab x !! i with
       | Some (Some o) => obj_ioclose o ;; iotab_set p i None
       | _ => ret tt
       end) ;;
      close_all n' (S i) p
  end.

(** The state it ends in is that of the thread that runs next. *)
Definition process_exit : M kstate unit :=
  p <- current_process ;;
  if p =? NULL then panic "prcess_exit: current process doesn't exist" else
  on_kvm memory_space_reclaim ;;
  close_all PROCESS_IOMAX 0 p ;;
  on_threads thread_exit.

(** [process_terminate] does nothing for another process. *)
Definition process_terminate (pid : Z) : M kstate unit :=
  p <- find_process_by_pid pid ;;
  cur <- current_process ;;
  if p =? cur then process_exit else ret tt.

(** ** Signals *)

Definition signal_handle (sig : Z) : M kstate unit :=
  p <- current_process ;;
  x <- proc_get p ;;
  let handler := default 0 (signal_handler x !! Z.to_nat sig) in
  if handler =? NULL then if sig =? SIGTERM then process_exit else ret tt
  else ret tt.

(** The first set bit of the word from [sig] on. *)
Fixpoint first_signal (n : nat) (sig unmasked : Z) : option Z :=
  match n with
  | O => None
  | S n' =>
      if negb (Z.land unmasked (Z.shiftl 1 sig) =? 0) then Some sig else first_signal n' (sig + 1) unmasked
  end.

(** [unmasked] and [mask] are [unsigned int], so [~mask] has no upper bits. *)
Definition signal_deliver : M kstate unit :=
  p <- current_process ;;
  x <- proc_get p ;;
  let unmasked := w32 (Z.land (pending_signals x) (Z.lnot (blocked_signals x))) in
  if unmasked =? 0 then ret tt else
  match first_signal (NSIG - 1) 1 unmasked with
  | None => ret tt
  | Some sig =>
      proc_upd p (fun x => with_pending (Z.land (pending_signals x) (w32 (Z.lnot (Z.shiftl 1 sig)))) x) ;;
      signal_handle sig
  end.
End Process.

Arguments kstate B St : clear implicits.
