(* ===== verification/Drivers.v ===== *)
(** * The drivers of the kernel (uart.c, vioblk.c)

    The state of the serial ports and block devices that were attached, by the
    address of their structures, the operations the rest of the kernel calls
    through [io_ops], and the service routines of their interrupts.
    [DriversSpec] is what the process manager needs of the drivers;
    [kernel_drivers_spec] proves it of them. *)

From stdpp Require Import base gmap list strings numbers.
From Stdlib Require Import Lia ZArith.
From S2P Require Import Prelude CString Thread Timer Uart BlockIo Vioblk Device Process.
Local Open Scope Z_scope.
Local Open Scope kern_scope.

(** What the drivers promise.  [drv_ok a st]: a device is attached at [a] and the
    lock its close function takes, if it has one, is free.  The reference counts
    are independent cells, closing such a device completes and leaves them alone,
    and neither operation makes another device unusable. *)
Class DriversSpec (St : Type) {DR : Drivers St} := {
  drv_ok : Z -> St -> Prop;
  drv_get_set a v st : drv_ok a st -> drv_refcnt a (drv_set_refcnt a v st) = v;
  drv_get_set_ne a b v st : a <> b -> drv_refcnt b (drv_set_refcnt a v st) = drv_refcnt b st;
  drv_set_ok a b v st : drv_ok b st -> drv_ok b (drv_set_refcnt a v st);
  drv_close_ok a st : drv_ok a st ->
    exists st', drv_close a st = Done tt st' /\ (forall b, drv_refcnt b st' = drv_refcnt b st) /\
      (forall b, drv_ok b st -> drv_ok b st')
}.

Section Drivers.
Context {Dk : Type} {VD : VirtioDisk Dk}.

Record drvs := MkDrvs { uarts : gmap Z uart_device; blks : gmap Z (vioblk_device Dk) }.

Definition set_uart (a : Z) (d : uart_device) (s : drvs) : drvs := MkDrvs (<[a := d]> (uarts s)) (blks s).
Definition set_blk (a : Z) (v : vioblk_device Dk) (s : drvs) : drvs := MkDrvs (uarts s) (<[a := v]> (blks s)).

(** An operation of the block driver on the device at [a]. *)
Definition on_blk {A} (a : Z) (c : M (vioblk_device Dk) A) : M drvs A := fun s =>
  match blks s !! a with
  | Some v => lift (fun _ => v) (set_blk a) c s
  | None => Undef "device pointer" s
  end.

(** [uart_open] and [vioblk_open] as open functions of the device table. *)
Definition ser_open (a : Z) : M drvs (Z * option io_obj) := fun s =>
  match uarts s !! a with
  | Some d => let '(r, d') := uart_open d in Done (r, if r =? 0 then Some (IoDev a) else None) (set_uart a d' s)
  | None => Undef "device pointer" s
  end.
Definition ser_open_ebusy (a : Z) : M drvs (Z * option io_obj) := ret (uart_open_ebusy, None).
Definition blk_open (a : Z) : M drvs (Z * option io_obj) :=
  r <- on_blk a vioblk_open ;; ret (r, if r =? 0 then Some (IoDev a) else None).

(** Reading from a port without interruption: the caller waits when there is
    nothing in the buffer. *)
Fixpoint ser_read_steps (fuel : nat) (r : rstate) (d : uart_device) : option (list Z) * uart_device :=
  match fuel with
  | O => (None, d)
  | S fuel' =>
      match uart_read r d with
      | (RIdle, d', buf) => (Some buf, d')
      | (RSleep _, d', _) => (None, d')
      | (r', d', _) => ser_read_steps fuel' r' d'
      end
  end.
Definition ser_read (a n : Z) : M drvs (Z * list Z) := fun s =>
  match uarts s !! a with
  | Some d =>
      match uart_read_call n with
      | RIdle => Done (0, []) s
      | r =>
          match ser_read_steps (2 + 2 * Z.to_nat SERIAL_RBUFSZ) r d with
          | (Some buf, d') => Done (Z.of_nat (length buf), buf) (set_uart a d' s)
          | (None, d') => Block (set_uart a d' s)
          end
      end
  | None => Undef "device pointer" s
  end.

(** Writing to a port: the caller waits when the buffer is full. *)
Fixpoint ser_write_steps (fuel : nat) (w : wstate) (d : uart_device) : bool * uart_device :=
  match fuel with
  | O => (false, d)
  | S fuel' =>
      match uart_write w d with
      | (WIdle, d', _) => (true, d')
      | (WSleep _, d', _) => (false, d')
      | (w', d', _) => ser_write_steps fuel' w' d'
      end
  end.
Definition ser_write (a : Z) (buf : list Z) : M drvs Z := fun s =>
  match uarts s !! a with
  | Some d =>
      match ser_write_steps (3 + 3 * length buf) (uart_write_call buf) d with
      | (true, d') => Done (Z.of_nat (length buf)) (set_uart a d' s)
      | (false, d') => Block (set_uart a d' s)
      end
  | None => Undef "device pointer" s
  end.

Definition uart_with_refcnt (v : Z) (d : uart_device) : uart_device :=
  MkUart (irqno d) (reg_ier d) (reg_lcr d) (divisor d) (Uart.irq_enabled d) (rxovrcnt d) v (rxbuf d) (txbuf d).
Definition blk_with_refcnt (r : Z) (v : vioblk_device Dk) : vioblk_device Dk :=
  MkVio (disk v) (opened v) (readonly v) r (blksz v) (pos v) (vsize v) (blkcnt v) (blkbuf v) (avail_idx v)
    (used_idx v) (req_type v) (req_sector v) (req_status v) (irq_enabled v) (io_lock v) (waiting v) (interrupt_status v).

(** A serial port has no controls. *)
#[export] Instance kernel_drivers : Drivers drvs := {
  drv_refcnt a s :=
    match uarts s !! a, blks s !! a with
    | Some d, _ => uart_refcnt d | None, Some v => refcnt v | None, None => 0
    end;
  drv_set_refcnt a r s :=
    match uarts s !! a, blks s !! a with
    | Some d, _ => set_uart a (uart_with_refcnt r d) s
    | None, Some v => set_blk a (blk_with_refcnt r v) s
    | None, None => s
    end;
  drv_close a := fun s =>
    match uarts s !! a with Some d => Done tt (set_uart a (uart_close d) s) | None => on_blk a vioblk_close s end;
  drv_read a n := fun s => match uarts s !! a with Some _ => ser_read a n s | None => on_blk a (vioblk_read n) s end;
  drv_write a l := fun s => match uarts s !! a with Some _ => ser_write a l s | None => on_blk a (vioblk_write l) s end;
  drv_ctl a cmd arg := fun s =>
    match uarts s !! a with Some _ => Done (- ENOTSUP, arg) s | None => on_blk a (vioblk_ioctl cmd arg) s end
}.

(** ** The drivers meet their specification *)

(** The device at [a] is a serial port, or a block device whose [io_lock] is free. *)
Definition dev_ok (a : Z) (s : drvs) : Prop :=
  is_Some (uarts s !! a) \/ exists v, blks s !! a = Some v /\ io_lock v = false.

#[export, refine] Instance kernel_drivers_spec : DriversSpec drvs := { drv_ok := dev_ok }.
Proof.
  - intros a r [us bs] [[d Hd]|(v & Hv & _)]; cbn in *.
    + rewrite Hd. cbn. by rewrite lookup_insert_eq.
    + destruct (us !! a) as [d|] eqn:Hd; cbn; [by rewrite lookup_insert_eq|].
      rewrite Hv. cbn. rewrite Hd. by rewrite lookup_insert_eq.
  - intros a b r [us bs] Hne. cbn. destruct (us !! a) as [d|] eqn:Hd; cbn; [by rewrite lookup_insert_ne|].
    destruct (bs !! a); cbn; [|done]. by rewrite (lookup_insert_ne bs).
  - intros a b r [us bs] Hb. cbn. unfold dev_ok in *. cbn in Hb. destruct (us !! a) as [d|] eqn:Hd; cbn.
    + destruct Hb as [Hb|Hb]; [left|by right]. destruct (decide (a = b)) as [->|Hne]; [by rewrite lookup_insert_eq|by rewrite lookup_insert_ne].
    + destruct (bs !! a) as [v|] eqn:Hv; cbn; [|done]. destruct Hb as [Hb|(w & Hw & Hl)]; [by left|right].
      destruct (decide (a = b)) as [->|Hne]; [|exists w; by rewrite lookup_insert_ne].
      exists (blk_with_refcnt r v). rewrite lookup_insert_eq. split; [done|]. cbn. congruence.
  - intros a [us bs] Ha. unfold dev_ok in *. cbn in *. destruct (us !! a) as [d|] eqn:Hd.
    + eexists. split; [reflexivity|]. cbn. split.
      * intros b. destruct (decide (a = b)) as [<-|Hne]; [by rewrite lookup_insert_eq, Hd|by rewrite lookup_insert_ne].
      * intros b [Hb|Hb]; [left|by right]. destruct (decide (a = b)) as [->|Hne]; [by rewrite lookup_insert_eq|by rewrite lookup_insert_ne].
    + destruct Ha as [[d Ha]|(v & Hv & Hl)]; [congruence|]. unfold on_blk, lift. cbn. rewrite Hv.
      unfold vioblk_close, bind, io_lock_acquire. rewrite Hl. eexists. split; [reflexivity|]. cbn. split.
      * intros b. destruct (us !! b); [done|]. destruct (decide (a = b)) as [<-|Hne]; [by rewrite lookup_insert_eq, Hv|by rewrite lookup_insert_ne].
      * intros b [Hb|(w & Hw & Hlw)]; [by left|right]. destruct (decide (a = b)) as [->|Hne];
          [rewrite lookup_insert_eq; by eexists|exists w; by rewrite lookup_insert_ne].
Defined.

(** ** Service routines

    What [vioblk_isr] and [uart_isr] do as entries of the interrupt table, which
    calls them with the address of the device.  The conditions they broadcast are
    inside the device structures.  [line_status] and [rbr] are what the port's
    registers read as. *)
Definition VQ_USED_UPDATED : Z := 64.
Definition RXBNOTEMPTY : Z := 32.
Definition TXBNOTFULL : Z := 56.

Definition on_drvs {A} (c : M drvs A) : M (tmstate * drvs) A := lift snd (fun d s => (fst s, d)) c.
Definition broadcast (wake : bool) (cond : Z) : M (tmstate * drvs) unit :=
  if wake then lift fst (fun t s => (t, snd s)) (on_ts (condition_broadcast cond)) else ret tt.

Definition blk_isr (irqno a : Z) : M (tmstate * drvs) unit :=
  status <- on_drvs (on_blk a (gets interrupt_status)) ;;
  on_drvs (on_blk a vioblk_isr) ;;
  broadcast (negb (Z.land status 1 =? 0)) (a + VQ_USED_UPDATED).

Definition ser_isr (line_status rbr : Z -> Z) (irqno a : Z) : M (tmstate * drvs) unit := fun s =>
  match uarts (snd s) !! a with
  | Some d =>
      let '(d', _, wake_rx, wake_tx) := uart_isr (line_status a) (rbr a) d in
      (on_drvs (modify (set_uart a d')) ;;
       broadcast wake_rx (a + RXBNOTEMPTY) ;;
       broadcast wake_tx (a + TXBNOTFULL)) s
  | None => Undef "device pointer" s
  end.
End Drivers.

Arguments drvs Dk : clear implicits.
