(* ===== verification/Syscall.v ===== *)
(** * System calls (syscall.c, excp.c)

    The handlers over the kernel state of [Process], the dispatcher, and the
    exception handler of user mode.  User memory is reached through the
    processor's translation with the supervisor's rights: an access it does not
    allow is a page fault in supervisor mode, which panics. *)

From stdpp Require Import base gmap list strings numbers.
From Stdlib Require Import Lia ZArith.
From S2P Require Import Prelude CMem PageAlloc PageTable VmSpace UserMem Heap MemInit Clone ThreadList Thread Timer CString BlockIo Kfs Io Elf Device Process.
Local Open Scope Z_scope.
Local Open Scope kern_scope.

Section Syscall.
Context {B St : Type} {BI : BlockIo B} {DR : Drivers St}.
(** Bounds the loops over user strings; [junk] is the content of a freshly
    allocated process structure, [stale] that of the [child_exit] wait list in a
    freshly allocated thread structure. *)
Context (str_fuel : nat) (junk : process) (stale : thread_list).
(** What the uninitialised [num_written] of [sysrunningprocs] holds; the address
    of [main_pt2]; the alarm of a [sysusleep] and the clock. *)
Context (num_written0 main al now : Z).

Abbreviation kst := (kstate B St).

Definition vptr_fuel (len : Z) : nat := Z.to_nat (len / PAGE_SIZE + 2).
Definition validate_vptr (vp len flags : Z) : M kst Z := on_kvm (memory_validate_vptr_len (vptr_fuel len) vp len flags).
Definition validate_vstr (vs flags : Z) : M kst Z := on_kvm (memory_validate_vstr str_fuel vs flags).

(** [fd < 0 || fd >= PROCESS_IOMAX || proc->iotab[fd] == NULL]; otherwise the
    process and the object. *)
Definition fd_lookup (fd : Z) : M kst (option (Z * io_obj)) :=
  p <- current_process ;;
  if (fd <? 0) || (Z.of_nat PROCESS_IOMAX <=? fd) then ret None else
  x <- proc_get p ;;
  ret (match iotab x !! Z.to_nat fd with Some (Some o) => Some (p, o) | _ => None end).

Definition sysexit : M kst Z := process_exit ;; ret 0.

Definition sysmsgout (msg : Z) : M kst Z :=
  result <- validate_vstr msg PTE_U ;;
  if negb (result =? 0) then ret result else ret 0.

Definition fd_in_range (fd : Z) : bool := negb ((fd <? 0) || (Z.of_nat PROCESS_IOMAX <=? fd)).

Definition sysdevopen (fd name instno : Z) : M kst Z :=
  if negb (fd_in_range fd) then ret (- EMFILE) else
  v <- validate_vstr name PTE_U ;;
  if negb (v =? 0) then ret (- EINVAL) else
  str <- on_kvm (load_string str_fuel name) ;;
  r <- on_dev (device_open str instno) ;;
  if fst r <? 0 then ret (fst r) else
  p <- current_process ;;
  iotab_set p (Z.to_nat fd) (snd r) ;;
  ret (fst r).

Definition sysfsopen (fd name : Z) : M kst Z :=
  if negb (fd_in_range fd) then ret (- EMFILE) else
  v <- validate_vstr name (Z.lor PTE_U PTE_A) ;;
  if negb (v =? 0) then ret (- EINVAL) else
  str <- on_kvm (load_string str_fuel name) ;;
  r <- on_fs (fs_open str) ;;
  match r with
  | inl e => ret e
  | inr i =>
      p <- current_process ;;
      iotab_set p (Z.to_nat fd) (Some (IoFile i)) ;;
      ret 0
  end.

Definition sysclose (fd : Z) : M kst Z :=
  e <- fd_lookup fd ;;
  match e with
  | None => ret (- EBADFD)
  | Some (p, o) => obj_ioclose o ;; iotab_set p (Z.to_nat fd) None ;; ret 0
  end.

(** [ops->read], [ops->write] and [ops->ctl] of an object. *)
Definition obj_read (o : io_obj) (n : Z) : M kst (Z * list Z) :=
  match o with IoFile i => on_fs (fs_read (Some i) true n) | IoDev a => on_drivers (drv_read a n) end.
Definition obj_write (o : io_obj) (l : list Z) : M kst Z :=
  match o with
  | IoFile i => on_fs (fs_write (Some i) (Some l) (Z.of_nat (length l)))
  | IoDev a => on_drivers (drv_write a l)
  end.
Definition obj_ctl (o : io_obj) (cmd : Z) (arg : option Z) : M kst (Z * option Z) :=
  match o with IoFile i => on_fs (fs_ioctl i cmd arg) | IoDev a => on_drivers (drv_ctl a cmd arg) end.

Definition sysread (fd buf bufsz : Z) : M kst Z :=
  e <- fd_lookup fd ;;
  match e with
  | None => ret (- EBADFD)
  | Some (_, o) =>
      v <- validate_vptr buf bufsz (Z.lor PTE_W PTE_U) ;;
      if negb (v =? 0) then ret (- EINVAL) else
      r <- obj_read o bufsz ;;
      on_kvm (store_virt buf (snd r)) ;;
      ret (fst r)
  end.

Definition syswrite (fd buf len : Z) : M kst Z :=
  e <- fd_lookup fd ;;
  match e with
  | None => ret (- EBADFD)
  | Some (_, o) =>
      v <- validate_vptr buf len (Z.lor PTE_R PTE_U) ;;
      if negb (v =? 0) then ret (- EINVAL) else
      l <- on_kvm (load_virt buf (Z.to_nat len)) ;;
      obj_write o l
  end.

(** The control itself, once the argument is validated with [flags]. *)
Definition ioctl_with (o : io_obj) (cmd arg flags : Z) : M kst Z :=
  v <- validate_vptr arg 8 flags ;;
  if negb (v =? 0) then ret (- EINVAL) else
  w <- on_kvm (load_virt arg 8) ;;
  r <- obj_ctl o cmd (Some (le_value w)) ;;
  (match snd r with Some x => on_kvm (store_virt arg (le_bytes 8 x)) | None => ret tt end) ;;
  ret (fst r).

Definition sysioctl (fd cmd arg : Z) : M kst Z :=
  e <- fd_lookup fd ;;
  match e with
  | None => ret (- EBADFD)
  | Some (_, o) =>
      if arg =? NULL then ret (- EINVAL) else
      if (cmd =? IOCTL_GETLEN) || (cmd =? IOCTL_GETPOS) || (cmd =? IOCTL_GETBLKSZ)
      then ioctl_with o cmd arg (Z.lor PTE_W PTE_U)
      else if cmd =? IOCTL_SETPOS then ioctl_with o cmd arg (Z.lor PTE_R (Z.lor PTE_W PTE_U))
      else ret (- ENOTSUP)
  end.

(** ** [sysfork] *)

(** The first NULL slot of [proctab]. *)
Fixpoint free_proc (tab : list Z) (i : nat) : option nat :=
  match tab with
  | [] => None
  | p :: tab' => if p =? NULL then Some i else free_proc tab' (S i)
  end.
(** The first slot that holds [q]. *)
Fixpoint slot_of (tab : list Z) (q : Z) (i : Z) : option Z :=
  match tab with
  | [] => None
  | p :: tab' => if p =? q then Some i else slot_of tab' q (i + 1)
  end.

(** The loop that copies the descriptors of [cur] to [q]. *)
Fixpoint copy_iotab (n : nat) (j : nat) (cur q : Z) : M kst unit :=
  match n with
  | O => ret tt
  | S n' =>
      x <- proc_get cur ;;
      let e := default None (iotab x !! j) in
      (match e with Some o => obj_ioref o ;; ret tt | None => ret tt end) ;;
      iotab_set q j e ;;
      copy_iotab n' (S j) cur q
  end.

(** The loop of the error path. *)
Fixpoint close_copied (n : nat) (j : nat) (cur : Z) : M kst unit :=
  match n with
  | O => ret tt
  | S n' =>
      x <- proc_get cur ;;
      (match iotab x !! j with Some (Some o) => obj_ioclose o | _ => ret tt end) ;;
      close_copied n' (S j) cur
  end.

Definition SIZEOF_PROCESS : Z := 240.
Definition SIZEOF_THREAD : Z := 200.

(** [thread_fork_to_user] with its calls to the memory manager.  The address space
    identifier is that of a zero tag.  [stack_anchor] is at the top of the new
    stack page: a pointer to the thread and a reserved word. *)
Definition fork_to_user (cur q : Z) : M kst Z :=
  if q =? NULL then ret (-1) else
  x <- proc_get cur ;;
  child_mtag <- on_kvm (memory_space_clone main (p_mtag x) 0) ;;
  if child_mtag =? 0 then ret (-2) else
  proc_upd q (with_mtag child_mtag) ;;
  tab <- gets (fun s => thrtab (ts (k_tm s))) ;;
  if find_slot tab =? NTHR then panic "Too many threads" else
  child <- on_heap (kmalloc SIZEOF_THREAD) ;;
  stack_page <- on_kvm memory_alloc_page ;;
  let stack_anchor := stack_page + PAGE_SIZE - 16 in
  on_kvm (modify (fun m => set_mem (store64 (ms_mem m) stack_anchor child) m)) ;;
  on_kvm (modify (fun m => set_mem (store64 (ms_mem m) (stack_anchor + 8) 0) m)) ;;
  tid <- on_threads (thread_fork_to_user child q child_mtag stale) ;;
  proc_upd q (with_tid tid) ;;
  ret 0.

(** The value is the one the parent returns with when it runs again; the state
    is that of the child, which runs first. *)
Definition sysfork : M kst Z :=
  tab <- gets proctab ;;
  match free_proc tab 0 with
  | None => undef "child_proc is used uninitialised"
  | Some i =>
      q <- on_heap (kmalloc SIZEOF_PROCESS) ;;
      modify (fun s => set_proctab (<[i := q]> (proctab s)) (set_k_procs (<[q := junk]> (k_procs s)) s)) ;;
      if q =? NULL then ret (-1) else
      cur <- current_process ;;
      tab' <- gets proctab ;;
      (match slot_of tab' q 0 with Some id => proc_upd q (with_id id) | None => ret tt end) ;;
      proc_upd q (fun x => with_mtag 0 (with_tid (-1) x)) ;;
      copy_iotab PROCESS_IOMAX 0 cur q ;;
      result <- fork_to_user cur q ;;
      if result <? 0 then
        proc_upd q (fun _ => MkProc 0 0 0 (replicate PROCESS_IOMAX None) 0 0 (replicate NSIG 0)) ;;
        modify (fun s => set_proctab (<[0%nat := NULL]> (proctab s)) s) ;;
        close_copied PROCESS_IOMAX 0 cur ;;
        ret result
      else x <- proc_get q ;; ret (p_id x)
  end.

(** ** The other calls *)

(** [None]: the caller waits and the call completes when it runs again. *)
Definition syswait (tid : Z) : M kst (option Z) :=
  if tid =? 0 then on_threads thread_join_any else on_threads (thread_join tid).

Definition sysusleep (us : Z) : M kst Z :=
  if us =? 0 then ret (- EINVAL) else
  on_ktm (alarm_init al now) ;;
  on_ktm (alarm_sleep al (w64 (us * TIMER_FREQ) / 1000000) now) ;;
  ret 0.

(** The mask is an [int] shift, converted to 64 bits. *)
Definition syssignal (pid sig : Z) : M kst Z :=
  p <- find_process_by_pid pid ;;
  if p =? NULL then ret (- EINVAL) else
  if sig =? SIGKILL then process_terminate pid ;; undef "return without a value" else
  if (sig <? 0) || (31 <=? sig) then undef "shift out of range" else
  proc_upd p (fun x => with_pending (Z.lor (pending_signals x) (Z.shiftl 1 sig)) x) ;;
  ret 0.

Definition sysnumprograms (arg : Z) : M kst Z :=
  if arg =? NULL then ret (- EINVAL) else
  n <- gets (fun s => num_inodes (boot_block (k_fs s))) ;;
  on_kvm (store_virt arg (le_bytes 4 n)) ;;
  ret 0.

(** [strncpy(arg, name, FS_NAMELEN)]: the characters and one NUL when there is
    room. *)
Definition name_bytes (name : list Z) : list Z :=
  let c := cstring name in
  if Nat.ltb (length c) FS_NAMELEN then c ++ [0] else take FS_NAMELEN c.

Definition sysprognames (arg : Z) : M kst Z :=
  if arg =? NULL then ret (- EINVAL) else
  bb <- gets (fun s => boot_block (k_fs s)) ;;
  for_upto (Z.to_nat (num_inodes bb)) 0 (fun i =>
    if MAX_DENTRY <=? i then undef "dir_entries index out of range" else
    on_kvm (store_virt (w64 (arg + Z.of_nat FS_NAMELEN * i)) (name_bytes (file_name bb i)))) ;;
  ret 0.
(** A process in a slot: its number goes to [pids[i]], the name of its thread to the
    next place of [names]. *)
Definition report_proc (pids i names q : Z) : M kst unit :=
  x <- proc_get q ;;
  on_kvm (store_virt (w64 (pids + 4 * i)) (le_bytes 4 (p_id x))) ;;
  name <- on_threads (get_thread_name (p_tid x)) ;;
  on_kvm (store_virt8 (w64 (names + Z.of_nat FS_NAMELEN - 1)) 0) ;;
  on_kvm (store_virt names (name_bytes (chars name))).

Fixpoint report_procs (tab : list Z) (i pids names num_written : Z) : M kst Z :=
  match tab with
  | [] => ret num_written
  | q :: tab' =>
      if q =? NULL then report_procs tab' (i + 1) pids names num_written else
      report_proc pids i names q ;;
      report_procs tab' (i + 1) pids (w64 (names + Z.of_nat FS_NAMELEN)) (s32 (num_written + 1))
  end.
Definition sysrunningprocs (pids names : Z) : M kst Z :=
  tab <- gets proctab ;;
  report_procs tab 0 pids names num_written0.

(** The descriptor is cleared before [process_exec], and never restored. *)
Definition sysexec (fd : Z) : M kst (Z + Z * Z) :=
  e <- fd_lookup fd ;;
  match e with
  | None => ret (inl (- EBADFD))
  | Some (p, o) => iotab_set p (Z.to_nat fd) None ;; process_exec o
  end.

(** ** The dispatcher *)

Definition SYSCALL_EXIT : Z := 0.
Definition SYSCALL_MSGOUT : Z := 1.
Definition SYSCALL_DEVOPEN : Z := 10.
Definition SYSCALL_FSOPEN : Z := 11.
Definition SYSCALL_CLOSE : Z := 20.
Definition SYSCALL_READ : Z := 21.
Definition SYSCALL_WRITE : Z := 22.
Definition SYSCALL_IOCTL : Z := 23.
Definition SYSCALL_EXEC : Z := 30.
Definition SYSCALL_FORK : Z := 31.
Definition SYSCALL_USLEEP : Z := 40.
Definition SYSCALL_WAIT : Z := 41.
Definition SYSCALL_PROGNAMES : Z := 43.
Definition SYSCALL_NUMPROGS : Z := 44.
Definition SYSCALL_PROCS : Z := 45.
Definition SYSCALL_SIGNAL : Z := 46.

(** A call returns with a value, waits for a value it gets when its thread runs
    again, or leaves for user mode at a new stack and address. *)
Inductive sysret := SysValue (v : Z) | SysWaits | SysUser (sp pc : Z).

Definition value (c : M kst Z) : M kst sysret := v <- c ;; ret (SysValue v).

(** [a i] is register [a<i>] of the caller; an [int] parameter takes its low 32
    bits. *)
Definition syscall (a : nat -> Z) : M kst sysret :=
  let n := a 7%nat in
  if n =? SYSCALL_EXIT then value sysexit else
  if n =? SYSCALL_MSGOUT then value (sysmsgout (a 0%nat)) else
  if n =? SYSCALL_DEVOPEN then value (sysdevopen (s32 (a 0%nat)) (a 1%nat) (s32 (a 2%nat))) else
  if n =? SYSCALL_FSOPEN then value (sysfsopen (s32 (a 0%nat)) (a 1%nat)) else
  if n =? SYSCALL_CLOSE then value (sysclose (s32 (a 0%nat))) else
  if n =? SYSCALL_READ then value (sysread (s32 (a 0%nat)) (a 1%nat) (a 2%nat)) else
  if n =? SYSCALL_WRITE then value (syswrite (s32 (a 0%nat)) (a 1%nat) (a 2%nat)) else
  if n =? SYSCALL_IOCTL then value (sysioctl (s32 (a 0%nat)) (s32 (a 1%nat)) (a 2%nat)) else
  if n =? SYSCALL_EXEC then
    r <- sysexec (s32 (a 0%nat)) ;;
    ret (match r with inl v => SysValue v | inr (sp, pc) => SysUser sp pc end) else
  if n =? SYSCALL_WAIT then
    r <- syswait (s32 (a 0%nat)) ;;
    ret (match r with Some v => SysValue v | None => SysWaits end) else
  if n =? SYSCALL_USLEEP then value (sysusleep (a 0%nat)) else
  if n =? SYSCALL_FORK then value sysfork else
  if n =? SYSCALL_SIGNAL then value (syssignal (s32 (a 0%nat)) (s32 (a 1%nat))) else
  if n =? SYSCALL_NUMPROGS then value (sysnumprograms (a 0%nat)) else
  if n =? SYSCALL_PROGNAMES then value (sysprognames (a 0%nat)) else
  if n =? SYSCALL_PROCS then value (sysrunningprocs (a 0%nat) (a 1%nat)) else
  ret (SysValue (- EINVAL)).

(** ** The trap frame *)

Record trap_frame := MkFrame { tf_x : list Z; tf_sstatus : Z; tf_sepc : Z }.
Definition TFR_A0 : nat := 10.

(** How a handler ends: back to the interrupted program with this frame; with
    another thread running, the frame kept for later; or in user mode elsewhere. *)
Inductive trap_end := Back (tfr : trap_frame) | Away (tfr : trap_frame) | Enter (sp pc : Z).

Definition cur_thread (s : kst) : Z := curthr (ts (k_tm s)).
Definition set_sepc (v : Z) (tfr : trap_frame) : trap_frame := MkFrame (tf_x tfr) (tf_sstatus tfr) v.
Definition set_a0 (v : Z) (tfr : trap_frame) : trap_frame :=
  MkFrame (<[TFR_A0 := w64 v]> (tf_x tfr)) (tf_sstatus tfr) (tf_sepc tfr).

(** Whether thread [cur], in which the handler started, still runs. *)
Definition trap_return (cur : Z) (tfr : trap_frame) : M kst trap_end :=
  cur' <- gets cur_thread ;; ret (if cur' =? cur then Back tfr else Away tfr).

Definition syscall_handler (tfr : trap_frame) : M kst trap_end :=
  let tfr := set_sepc (w64 (tf_sepc tfr + 4)) tfr in
  cur <- gets cur_thread ;;
  r <- syscall (fun i => default 0 (tf_x tfr !! (TFR_A0 + i)%nat)) ;;
  match r with
  | SysValue v => trap_return cur (set_a0 v tfr)
  | SysWaits => ret (Away tfr)
  | SysUser sp pc => ret (Enter sp pc)
  end.

(** ** Exceptions (excp.c) *)

Definition RISCV_SCAUSE_ECALL_FROM_UMODE : Z := 8.
Definition RISCV_SCAUSE_INSTR_PAGE_FAULT : Z := 12.
Definition RISCV_SCAUSE_LOAD_PAGE_FAULT : Z := 13.
Definition RISCV_SCAUSE_STORE_PAGE_FAULT : Z := 15.

Definition default_excp_handler {A} (code : Z) (tfr : trap_frame) : M kst A := panic "exception".
Definition smode_excp_handler (code : Z) (tfr : trap_frame) : M kst trap_end := default_excp_handler code tfr.

(** [stval] is the register of that name.  Signals are delivered when the handler
    is done, by the thread it runs in. *)
Definition umode_excp_handler (code stval : Z) (tfr : trap_frame) : M kst trap_end :=
  cur <- gets cur_thread ;;
  r <- (if (code =? RISCV_SCAUSE_INSTR_PAGE_FAULT) || (code =? RISCV_SCAUSE_LOAD_PAGE_FAULT) ||
           (code =? RISCV_SCAUSE_STORE_PAGE_FAULT)
        then on_kvm (memory_handle_page_fault stval) ;; ret (Back tfr)
        else if code =? RISCV_SCAUSE_ECALL_FROM_UMODE then syscall_handler tfr
        else default_excp_handler code tfr) ;;
  match r with
  | Back tfr' => signal_deliver ;; trap_return cur tfr'
  | _ => ret r
  end.
End Syscall.
