(* ===== verification/ProcProps.v ===== *)
(** * Descriptors and signals: theorems (process.c, syscall.c, signals.c)

    The invariant of descriptor tables: the reference count of an object is at
    least the number of descriptors that refer to it, so an object is not closed
    while a descriptor is left.  The theorems are proved against [DriversSpec],
    which the kernel's drivers meet, for devices whose locks are free. *)

From stdpp Require Import base gmap list strings numbers.
From Stdlib Require Import Lia ZArith.
From S2P Require Import Prelude PageAlloc Heap ThreadList Thread Timer Uart BlockIo Vioblk Kfs Io Device Process Drivers Syscall.
Local Open Scope Z_scope.
Local Open Scope kern_scope.

(** ** Counting references *)

Definition count_obj (o : io_obj) (tab : list (option io_obj)) : Z := Z.of_nat (length (filter (fun e => e = Some o) tab)).

Lemma count_nonneg o tab : 0 <= count_obj o tab.
Proof. unfold count_obj. lia. Qed.

Lemma count_app o t1 t2 : count_obj o (t1 ++ t2) = count_obj o t1 + count_obj o t2.
Proof. unfold count_obj. rewrite list.filter_app, length_app. lia. Qed.

Definition is_obj (o : io_obj) (e : option io_obj) : Z := if decide (e = Some o) then 1 else 0.

Lemma count_cons o e t : count_obj o (e :: t) = is_obj o e + count_obj o t.
Proof. unfold count_obj, is_obj. rewrite filter_cons. case_decide; cbn [length]; lia. Qed.

Lemma count_insert o tab i e e' :
  tab !! i = Some e -> count_obj o (<[i := e']> tab) = count_obj o tab - is_obj o e + is_obj o e'.
Proof.
  intros Hi. pose proof (lookup_lt_Some _ _ _ Hi) as Hlt.
  rewrite (insert_take_drop tab i e') by done.
  assert (E : count_obj o tab = count_obj o (take i tab ++ e :: drop (S i) tab)) by (by rewrite take_drop_middle).
  rewrite E, !count_app, !count_cons. lia.
Qed.

Section Descriptors.
Context {B St : Type} {BI : BlockIo B} {DR : Drivers St} {DS : DriversSpec St}.
Abbreviation kst := (kstate B St).

Definition tab_of (s : kst) (p : Z) : list (option io_obj) :=
  match k_procs s !! p with Some x => iotab x | None => [] end.

(** The references to [o] in the tables of the processes [L]. *)
Fixpoint refs (s : kst) (L : list Z) (o : io_obj) : Z :=
  match L with [] => 0 | p :: L' => count_obj o (tab_of s p) + refs s L' o end.

Lemma refs_ext s s' L o : (forall p, p ∈ L -> tab_of s' p = tab_of s p) -> refs s' L o = refs s L o.
Proof.
  induction L as [|p L IH]; intros H; [done|]. cbn. rewrite (H p) by set_solver. rewrite IH; [done|]. intros q Hq. apply H. set_solver.
Qed.

Lemma refs_nonneg s L o : 0 <= refs s L o.
Proof. induction L as [|p L IH]; cbn; [lia|]. pose proof (count_nonneg o (tab_of s p)). lia. Qed.

(** One table changes. *)
Lemma refs_update s s' L o p :
  NoDup L -> p ∈ L -> (forall q, q <> p -> tab_of s' q = tab_of s q) ->
  refs s' L o = refs s L o - count_obj o (tab_of s p) + count_obj o (tab_of s' p).
Proof.
  intros Hnd Hp Hq. induction Hnd as [|q L Hnq Hnd IH]; [set_solver|]. cbn.
  destruct (decide (q = p)) as [-> |Hne].
  - rewrite (refs_ext s s' L o); [lia|]. intros r Hr. apply Hq. set_solver.
  - rewrite (Hq q Hne), IH by set_solver. lia.
Qed.

(** ** The invariant *)

Definition file_open (s : kst) (i : nat) : Prop :=
  (i < length (file_structs (k_fs s)))%nat /\ f_flags (get_file i (k_fs s)) <> 0.

(** A file is open; the device behind a descriptor is attached and its lock free. *)
Definition obj_open (s : kst) (o : io_obj) : Prop :=
  match o with IoFile i => file_open s i | IoDev a => drv_ok a (drivers (k_dev s)) end.

Record dinv (s : kst) (L : list Z) : Prop := {
  di_nodup : NoDup L;
  di_procs p : p ∈ L -> exists x, k_procs s !! p = Some x /\ length (iotab x) = PROCESS_IOMAX;
  di_refs o : refs s L o <= get_refcnt o s;
  di_open o : 0 < refs s L o -> obj_open s o
}.

(** [s'] is [s] apart from the objects. *)
Definition same_but_objects (s s' : kst) : Prop :=
  k_tm s' = k_tm s /\ k_heap s' = k_heap s /\ k_procs s' = k_procs s /\ proctab s' = proctab s.

(** [o] names a file slot of the table, or a device as above. *)
Definition in_table (s : kst) (o : io_obj) : Prop :=
  match o with IoFile i => (i < length (file_structs (k_fs s)))%nat | IoDev a => drv_ok a (drivers (k_dev s)) end.

(** Devices that were usable still are. *)
Definition keeps_devices (s s' : kst) : Prop :=
  forall a, drv_ok a (drivers (k_dev s)) -> drv_ok a (drivers (k_dev s')).

Lemma get_file_set i j f (s : fstate B) :
  (i < length (file_structs s))%nat -> get_file j (set_file i f s) = if decide (j = i) then f else get_file j s.
Proof.
  intros Hi. unfold get_file, set_file. cbn. case_decide as E.
  - subst j. by rewrite list_lookup_insert_eq.
  - by rewrite list_lookup_insert_ne.
Qed.

Lemma set_refcnt_spec o v s :
  in_table s o -> same_but_objects s (set_refcnt o v s) /\ get_refcnt o (set_refcnt o v s) = v /\
  (forall o', o' <> o -> get_refcnt o' (set_refcnt o v s) = get_refcnt o' s) /\
  length (file_structs (k_fs (set_refcnt o v s))) = length (file_structs (k_fs s)) /\
  (forall i, f_flags (get_file i (k_fs (set_refcnt o v s))) = f_flags (get_file i (k_fs s))) /\
  keeps_devices s (set_refcnt o v s).
Proof.
  intros Hin. destruct o as [i|a]; cbn [set_refcnt get_refcnt in_table] in *.
  - split; [done|]. split; [cbn; rewrite get_file_set by done; by rewrite decide_True|]. split; [|split; [|split]].
    + intros [j|b] Hne; [|done]. cbn. rewrite get_file_set by done. rewrite decide_False by congruence. done.
    + cbn. by rewrite length_insert.
    + intros j. cbn. rewrite get_file_set by done. case_decide as E; [by subst|done].
    + by intros a.
  - split; [done|]. split; [cbn; by apply drv_get_set|]. split; [|split; [done|split; [done|intros b; cbn; apply drv_set_ok]]].
    intros [j|b] Hne; [done|]. cbn. apply drv_get_set_ne. congruence.
Qed.

(** Closing one reference. *)
Lemma obj_ioclose_spec o s :
  in_table s o -> 0 < get_refcnt o s ->
  exists s', obj_ioclose o s = Done tt s' /\ same_but_objects s s' /\
    get_refcnt o s' = get_refcnt o s - 1 /\ (forall o', o' <> o -> get_refcnt o' s' = get_refcnt o' s) /\
    length (file_structs (k_fs s')) = length (file_structs (k_fs s)) /\
    (forall i, f_flags (get_file i (k_fs s')) =
       if decide (o = IoFile i /\ get_refcnt o s = 1) then 0 else f_flags (get_file i (k_fs s))) /\
    keeps_devices s s'.
Proof.
  intros Hin Hr. destruct (set_refcnt_spec o (get_refcnt o s - 1) s Hin) as (H1 & H2 & H3 & H4 & H5 & H6).
  unfold obj_ioclose. unfold bind at 1, gets. rewrite (proj2 (Z.eqb_neq _ _)) by lia.
  unfold ioclose. rewrite (proj2 (Z.eqb_neq _ _)) by lia. unfold bind, modify. rewrite andb_true_r.
  set (s1 := set_refcnt o (get_refcnt o s - 1) s) in *.
  destruct (Z.eqb_spec (get_refcnt o s - 1) 0) as [E0|E0].
  2: { exists s1. split; [done|]. split_and!; try done. intros i. rewrite H5. rewrite decide_False by lia. done. }
  destruct o as [i|a].
  - cbn [obj_close]. unfold on_fs, lift, fs_close, modify. eexists. split; [reflexivity|].
    assert (Hl : (i < length (file_structs (k_fs s1)))%nat) by (rewrite H4; exact Hin). destruct H1 as (K1 & K2 & K3 & K4).
    split; [done|]. cbn [get_refcnt k_fs set_k_fs]. split; [|split; [|split; [|split; [|exact H6]]]].
    + rewrite get_file_set by done. rewrite decide_True by done. exact H2.
    + intros [j|b] Hne; [|by apply (H3 (IoDev b))]. cbn. rewrite get_file_set by done. rewrite decide_False by congruence. by apply (H3 (IoFile j)).
    + cbn. by rewrite length_insert.
    + intros j. rewrite get_file_set by done. destruct (decide (j = i)) as [-> |Hne].
      * rewrite decide_True by (split; [done|cbn in *; lia]). done.
      * rewrite decide_False by (intros [? _]; congruence). apply H5.
  - destruct (drv_close_ok a (drivers (k_dev s1)) (H6 a Hin)) as (st' & Ec & Hc & Hk).
    cbn [obj_close]. unfold on_drivers, on_dev, lift. rewrite Ec. eexists. split; [reflexivity|].
    destruct H1 as (K1 & K2 & K3 & K4). split; [done|]. cbn [get_refcnt k_fs k_dev drivers set_k_dev]. split_and!.
    + rewrite Hc. exact H2.
    + intros [j|b] Hne; [by apply (H3 (IoFile j))|]. cbn. rewrite Hc. by apply (H3 (IoDev b)).
    + exact H4.
    + intros j. rewrite decide_False by (intros [? _]; congruence). apply H5.
    + intros b Hb. cbn. by apply Hk, H6.
Qed.

(** ** Updating one table *)

Lemma iotab_set_spec p x i e (s : kst) :
  k_procs s !! p = Some x ->
  iotab_set p i e s = Done tt (set_k_procs (<[p := with_iotab (<[i := e]> (iotab x)) x]> (k_procs s)) s).
Proof. intros Hp. unfold iotab_set, proc_upd. by rewrite Hp. Qed.

Lemma tab_of_set p x (s : kst) q :
  tab_of (set_k_procs (<[p := x]> (k_procs s)) s) q = if decide (q = p) then iotab x else tab_of s q.
Proof.
  unfold tab_of. cbn. case_decide as E; [subst; by rewrite lookup_insert_eq|by rewrite lookup_insert_ne].
Qed.

Lemma tab_of_same s s' p : same_but_objects s s' -> tab_of s' p = tab_of s p.
Proof. intros (_ & _ & H & _). unfold tab_of. by rewrite H. Qed.

Lemma refs_same s s' L o : same_but_objects s s' -> refs s' L o = refs s L o.
Proof. intros H. apply refs_ext. intros p _. by apply tab_of_same. Qed.

Lemma refs_pos s L o p i :
  p ∈ L -> tab_of s p !! i = Some (Some o) -> 0 < refs s L o.
Proof.
  intros Hp Hi. induction L as [|q L IH]; [set_solver|]. cbn.
  pose proof (count_nonneg o (tab_of s q)). pose proof (refs_nonneg s L o).
  apply elem_of_cons in Hp as [-> |Hp]; [|specialize (IH Hp); lia].
  pose proof (count_insert o (tab_of s q) i (Some o) None Hi) as Hc.
  pose proof (count_nonneg o (<[i := None]> (tab_of s q))). unfold is_obj in Hc.
  rewrite decide_True, decide_False in Hc by done. lia.
Qed.

Lemma dinv_in_table s L o : dinv s L -> 0 < refs s L o -> in_table s o.
Proof. intros D H. pose proof (di_open _ _ D o H) as Ho. destruct o as [i|a]; [apply Ho|exact Ho]. Qed.

(** [s'] is [s] with the table of [p] replaced, apart from the objects. *)
Definition retabled (p : Z) (t : list (option io_obj)) (s s' : kst) : Prop :=
  k_tm s' = k_tm s /\ k_heap s' = k_heap s /\ proctab s' = proctab s /\
  exists x, k_procs s !! p = Some x /\ k_procs s' = <[p := with_iotab t x]> (k_procs s).

Lemma retabled_trans p t1 t2 s1 s2 s3 : retabled p t1 s1 s2 -> retabled p t2 s2 s3 -> retabled p t2 s1 s3.
Proof.
  intros (A1 & A2 & A3 & x & A4 & A5) (C1 & C2 & C3 & y & C4 & C5). split_and!; try congruence.
  exists x. split; [done|]. rewrite A5, lookup_insert_eq in C4. injection C4 as <-.
  rewrite C5, A5, insert_insert_eq. done.
Qed.

Lemma retabled_refl p s x : k_procs s !! p = Some x -> retabled p (iotab x) s s.
Proof.
  intros H. split_and!; try done. exists x. split; [done|]. rewrite insert_id; [done|]. rewrite H. by destruct x.
Qed.

(** Closing descriptor [i] of [p]. *)
Lemma close_fd s L p i o :
  dinv s L -> p ∈ L -> tab_of s p !! i = Some (Some o) ->
  exists s', (obj_ioclose o ;; iotab_set p i None) s = Done tt s' /\ dinv s' L /\
    retabled p (<[i := None]> (tab_of s p)) s s' /\
    get_refcnt o s' = get_refcnt o s - 1 /\ (forall o', o' <> o -> get_refcnt o' s' = get_refcnt o' s).
Proof.
  intros D Hp Hi. pose proof (refs_pos s L o p i Hp Hi) as Hpos. pose proof (di_refs _ _ D o) as Hro.
  destruct (obj_ioclose_spec o s (dinv_in_table s L o D Hpos)) as (s1 & E & Hs & H1 & H2 & H3 & H4 & H5); [lia|].
  destruct (di_procs _ _ D p Hp) as (x & Hx & Hlx). pose proof Hs as (K1 & K2 & K3 & K4).
  assert (Ht : tab_of s p = iotab x) by (unfold tab_of; by rewrite Hx). rewrite Ht in *.
  mstep E. rewrite (iotab_set_spec p x) by (by rewrite K3). eexists. split; [reflexivity|].
  set (s2 := set_k_procs _ s1).
  assert (Hrefs : forall o', refs s2 L o' = refs s L o' - is_obj o' (Some o)).
  { intros o'. unfold s2. rewrite (refs_update s1 _ L o' p (di_nodup _ _ D) Hp).
    - rewrite (refs_same s s1) by done. rewrite tab_of_set, decide_True by done. cbn [iotab with_iotab].
      rewrite (tab_of_same s s1), Ht by done. rewrite (count_insert o' (iotab x) i (Some o) None Hi).
      unfold is_obj at 2. rewrite (decide_False (P := None = Some o')) by done. lia.
    - intros q Hq. rewrite tab_of_set. by rewrite decide_False. }
  split; [|split; [|done]].
  - constructor.
    + apply (di_nodup _ _ D).
    + intros q Hq. cbn. rewrite K3. destruct (decide (q = p)) as [-> |Hne].
      * rewrite lookup_insert_eq. eexists. split; [done|]. cbn. by rewrite length_insert.
      * rewrite lookup_insert_ne by done. by apply (di_procs _ _ D).
    + intros o'. rewrite Hrefs. change (get_refcnt o' s2) with (get_refcnt o' s1). pose proof (di_refs _ _ D o') as Hr.
      unfold is_obj. destruct (decide (o' = o)) as [-> |Hne]; [rewrite decide_True by done; lia|].
      rewrite decide_False by congruence. rewrite H2 by done. lia.
    + intros [j|b] Hj; rewrite Hrefs in Hj.
      2: { apply (H5 b), (di_open _ _ D (IoDev b)). unfold is_obj in Hj. case_decide; lia. }
      cbn [obj_open]. unfold file_open. change (k_fs s2) with (k_fs s1). rewrite H3, H4.
      destruct (di_open _ _ D (IoFile j)) as [Hj1 Hj2]; [unfold is_obj in Hj; case_decide; lia|]. split; [done|].
      rewrite decide_False; [done|]. intros [-> Hone]. unfold is_obj in Hj. rewrite decide_True in Hj by done. lia.
  - split_and!; try done. exists x. split; [done|]. cbn. by rewrite K3.
Qed.

(** ** Closing all descriptors *)

Lemma retabled_tab p t s s' : retabled p t s s' -> tab_of s' p = t /\ forall q, q <> p -> k_procs s' !! q = k_procs s !! q.
Proof.
  intros (_ & _ & _ & x & Hx & E). unfold tab_of. rewrite E, lookup_insert_eq. split; [done|].
  intros q Hq. by rewrite lookup_insert_ne.
Qed.

Lemma dinv_tab_length s L p : dinv s L -> p ∈ L -> length (tab_of s p) = PROCESS_IOMAX.
Proof. intros D Hp. destruct (di_procs _ _ D p Hp) as (x & Hx & Hl). unfold tab_of. by rewrite Hx. Qed.

Lemma take_insert_S (l : list (option io_obj)) i e : (i < length l)%nat -> take (S i) (<[i := e]> l) = take i l ++ [e].
Proof.
  intros Hi. rewrite (insert_take_drop l i e) by done. rewrite take_app_ge by (rewrite length_take; lia).
  rewrite length_take, Nat.min_l by lia. by replace (S i - i)%nat with 1%nat by lia.
Qed.

Lemma close_all_ok L p n : forall i s,
  (i + n = PROCESS_IOMAX)%nat -> dinv s L -> p ∈ L ->
  exists s', close_all n i p s = Done tt s' /\ dinv s' L /\
    retabled p (take i (tab_of s p) ++ replicate n None) s s' /\
    forall o, get_refcnt o s' = get_refcnt o s - count_obj o (drop i (tab_of s p)).
Proof.
  induction n as [|n IH]; intros i s Hn D Hp; pose proof (dinv_tab_length s L p D Hp) as Hl;
    destruct (di_procs _ _ D p Hp) as (x & Hx & _); assert (Ht : tab_of s p = iotab x) by (unfold tab_of; by rewrite Hx).
  - exists s. split; [done|]. split; [done|]. rewrite take_ge, drop_ge by lia. cbn [replicate]. rewrite app_nil_r.
    split; [rewrite Ht; by apply retabled_refl|]. intros o. change (count_obj o []) with 0. lia.
  - destruct (lookup_lt_is_Some_2 (tab_of s p) i) as [e He]; [lia|].
    assert (Hstep : exists s1, (match iotab x !! i with Some (Some o) => obj_ioclose o ;; iotab_set p i None | _ => ret tt end) s = Done tt s1 /\
      dinv s1 L /\ retabled p (<[i := None]> (tab_of s p)) s s1 /\ forall o, get_refcnt o s1 = get_refcnt o s - is_obj o e).
    { rewrite <- Ht, He. destruct e as [o|].
      - destruct (close_fd s L p i o D Hp He) as (s1 & E1 & D1 & R1 & G1 & G2). exists s1. split_and!; try done.
        intros o'. unfold is_obj. destruct (decide (o' = o)) as [-> |Hne]; [by rewrite decide_True|].
        rewrite decide_False by congruence. rewrite G2 by done. lia.
      - exists s. split; [done|]. split; [done|]. split.
        + rewrite list_insert_id by done. rewrite Ht. by apply retabled_refl.
        + intros o. unfold is_obj. rewrite decide_False by done. lia. }
    destruct Hstep as (s1 & E1 & D1 & R1 & G1). destruct (retabled_tab _ _ _ _ R1) as [T1 _].
    destruct (IH (S i) s1) as (s2 & E2 & D2 & R2 & G2); [lia|done|done|].
    exists s2. split; [|split; [done|split]].
    + cbn [close_all]. unfold proc_get. unfold bind at 1. rewrite Hx. mstep E1. exact E2.
    + rewrite T1, take_insert_S in R2 by lia. rewrite <- app_assoc in R2. by eapply retabled_trans.
    + intros o. rewrite G2, G1, T1, (drop_S (tab_of s p) e i He), count_cons. rewrite drop_insert_lt by lia. lia.
Qed.

(** ** Copying descriptors *)

Lemma obj_ioref_spec o s :
  in_table s o -> 0 <= get_refcnt o s -> get_refcnt o s + 1 < 2 ^ 32 ->
  exists s', (obj_ioref o ;; ret tt) s = Done tt s' /\ same_but_objects s s' /\
    (forall o', get_refcnt o' s' = get_refcnt o' s + is_obj o' (Some o)) /\
    length (file_structs (k_fs s')) = length (file_structs (k_fs s)) /\
    (forall i, f_flags (get_file i (k_fs s')) = f_flags (get_file i (k_fs s))) /\ keeps_devices s s'.
Proof.
  intros Hin H0 H1. destruct (set_refcnt_spec o (ioref (get_refcnt o s)) s Hin) as (S1 & S2 & S3 & S4 & S5).
  eexists. split; [unfold obj_ioref, bind, gets, modify, ret; reflexivity|]. split; [done|]. split; [|done].
  intros o'. unfold is_obj. destruct (decide (o' = o)) as [-> |Hne].
  - rewrite decide_True by done. rewrite S2. unfold ioref. by rewrite w32_small by lia.
  - rewrite decide_False by congruence. rewrite S3 by done. lia.
Qed.

(** While the descriptors of [cur] are copied to [q], [j] of them done. *)
Record copying (s : kst) (L : list Z) (cur q : Z) (j : nat) : Prop := {
  cp_inv : dinv s L;
  cp_cur : cur ∈ L;
  cp_new : q ∉ L;
  cp_tab : exists y, k_procs s !! q = Some y /\ length (iotab y) = PROCESS_IOMAX /\
    take j (iotab y) = take j (tab_of s cur);
  cp_refs : forall o, refs s L o + count_obj o (take j (tab_of s cur)) <= get_refcnt o s
}.

(** Only the table of [q] changes. *)
Definition retabled_at (q : Z) (s s' : kst) : Prop :=
  forall y, k_procs s !! q = Some y -> exists t, k_procs s' !! q = Some (with_iotab t y).

Lemma copying_step s L cur q j e :
  copying s L cur q j -> (forall o, get_refcnt o s + 1 < 2 ^ 32) -> tab_of s cur !! j = Some e ->
  exists s', ((match e with Some o => obj_ioref o ;; ret tt | None => ret tt end) ;; iotab_set q j e) s = Done tt s' /\
    copying s' L cur q (S j) /\ (forall o, get_refcnt o s' = get_refcnt o s + is_obj o e) /\
    k_tm s' = k_tm s /\ k_heap s' = k_heap s /\ proctab s' = proctab s /\
    (forall p, p <> q -> k_procs s' !! p = k_procs s !! p) /\ retabled_at q s s'.
Proof.
  intros [D Hcur Hnew (y & Hy & Hly & Hty) Hrefs] Hb He.
  assert (Hcq : cur <> q) by (intros ->; done).
  assert (Href : exists s1, (match e with Some o => obj_ioref o ;; ret tt | None => ret tt end) s = Done tt s1 /\
    same_but_objects s s1 /\ (forall o, get_refcnt o s1 = get_refcnt o s + is_obj o e) /\
    length (file_structs (k_fs s1)) = length (file_structs (k_fs s)) /\
    (forall i, f_flags (get_file i (k_fs s1)) = f_flags (get_file i (k_fs s))) /\ keeps_devices s s1).
  { destruct e as [o|].
    - pose proof (refs_pos s L o cur j Hcur He) as Hpos. pose proof (di_refs _ _ D o).
      apply obj_ioref_spec; [by apply (dinv_in_table s L)|lia|apply Hb].
    - exists s. split_and!; try done; [|by intros a]. intros o. unfold is_obj. rewrite decide_False by done. lia. }
  destruct Href as (s1 & E1 & Hs & G1 & Hfl & Hff & Hkd). pose proof Hs as (K1 & K2 & K3 & K4).
  mstep E1. rewrite (iotab_set_spec q y) by (by rewrite K3). eexists. split; [reflexivity|].
  set (s2 := set_k_procs _ s1). pose proof (lookup_lt_Some _ _ _ He) as Hjl.
  pose proof (dinv_tab_length s L cur D Hcur) as Hlc.
  assert (Htabs : forall p, p <> q -> tab_of s2 p = tab_of s p).
  { intros p Hp. unfold s2. rewrite tab_of_set, decide_False by done. by apply tab_of_same. }
  assert (Hr : forall o, refs s2 L o = refs s L o).
  { intros o. apply refs_ext. intros p Hp. apply Htabs. intros ->. done. }
  split_and!; try done.
  - constructor; [constructor|done|done| |].
    + apply (di_nodup _ _ D).
    + intros p Hp. cbn. rewrite K3, lookup_insert_ne by (intros <-; done). by apply (di_procs _ _ D).
    + intros o. rewrite Hr. change (get_refcnt o s2) with (get_refcnt o s1). rewrite G1. pose proof (di_refs _ _ D o).
      unfold is_obj. case_decide; lia.
    + intros [i|a] Hi; rewrite Hr in Hi; [|by apply (Hkd a), (di_open _ _ D (IoDev a))].
      cbn [obj_open]. unfold file_open. change (k_fs s2) with (k_fs s1). rewrite Hfl, Hff. by apply (di_open _ _ D (IoFile i)).
    + eexists. cbn. rewrite lookup_insert_eq. split; [done|]. cbn [iotab with_iotab]. rewrite length_insert. split; [done|].
      rewrite take_insert_S by lia. rewrite (Htabs cur Hcq), Hty. by rewrite (take_S_r _ _ _ He).
    + intros o. rewrite Hr, (Htabs cur Hcq), (take_S_r _ _ _ He), count_app, count_cons.
      change (get_refcnt o s2) with (get_refcnt o s1). rewrite G1. specialize (Hrefs o). change (count_obj o []) with 0. lia.
  - intros p Hp. cbn. by rewrite K3, lookup_insert_ne.
  - intros y' Hy'. rewrite Hy in Hy'. injection Hy' as <-. eexists. cbn. by rewrite lookup_insert_eq.
Qed.

Lemma copy_iotab_ok L cur q n : forall j s,
  (j + n = PROCESS_IOMAX)%nat -> copying s L cur q j -> (forall o, get_refcnt o s + Z.of_nat n < 2 ^ 32) ->
  exists s', copy_iotab n j cur q s = Done tt s' /\ copying s' L cur q PROCESS_IOMAX /\
    (forall o, get_refcnt o s' = get_refcnt o s + count_obj o (drop j (tab_of s cur))) /\
    k_tm s' = k_tm s /\ k_heap s' = k_heap s /\ proctab s' = proctab s /\
    (forall p, p <> q -> k_procs s' !! p = k_procs s !! p) /\ retabled_at q s s'.
Proof.
  induction n as [|n IH]; intros j s Hn C Hb; pose proof (dinv_tab_length s L cur (cp_inv _ _ _ _ _ C) (cp_cur _ _ _ _ _ C)) as Hl.
  - exists s. rewrite Nat.add_0_r in Hn. subst j. split_and!; try done.
    + intros o. rewrite drop_ge by lia. change (count_obj o []) with 0. lia.
    + intros y Hy. exists (iotab y). rewrite Hy. by destruct y.
  - destruct (lookup_lt_is_Some_2 (tab_of s cur) j) as [e He]; [lia|].
    destruct (copying_step s L cur q j e C) as (s1 & E1 & C1 & G1 & F1 & F2 & F3 & F4 & F5); [intros o; specialize (Hb o); lia|done|].
    assert (Hcq : cur <> q) by (intros <-; by apply (cp_new _ _ _ _ _ C), (cp_cur _ _ _ _ _ C)).
    assert (Ht : tab_of s1 cur = tab_of s cur) by (unfold tab_of; by rewrite F4).
    destruct (IH (S j) s1) as (s2 & E2 & C2 & G2 & F1' & F2' & F3' & F4' & F5'); [lia|done| |].
    { intros o. rewrite G1. specialize (Hb o). unfold is_obj. case_decide; lia. }
    exists s2. split; [|split; [done|split; [|split_and!; try congruence]]].
    + cbn [copy_iotab]. destruct (di_procs _ _ (cp_inv _ _ _ _ _ C) cur (cp_cur _ _ _ _ _ C)) as (x & Hx & _).
      unfold proc_get. unfold bind at 1. rewrite Hx. unfold tab_of in He. rewrite Hx in He. rewrite He. cbn [default from_option id].
      rewrite <- bind_assoc. mstep E1. exact E2.
    + intros o. rewrite G2, G1, Ht, (drop_S _ _ _ He), count_cons. lia.
    + intros p Hp. rewrite F4' by done. by apply F4.
    + intros y Hy. destruct (F5 y Hy) as [t1 H1]. destruct (F5' _ H1) as [t2 H2]. by exists t2.
Qed.

Lemma copied_dinv s L cur q : copying s L cur q PROCESS_IOMAX -> dinv s (q :: L) /\ tab_of s q = tab_of s cur.
Proof.
  intros [D Hcur Hnew (y & Hy & Hly & Hty) Hrefs].
  pose proof (dinv_tab_length s L cur D Hcur) as Hlc. rewrite !take_ge in Hty by lia.
  assert (Hq : tab_of s q = tab_of s cur) by (unfold tab_of at 1; by rewrite Hy). split; [|done].
  assert (Hc : forall o, refs s (q :: L) o <= get_refcnt o s).
  { intros o. cbn. specialize (Hrefs o). rewrite take_ge in Hrefs by lia. rewrite Hq. lia. }
  constructor; [by constructor; [|apply (di_nodup _ _ D)]| |done|].
  - intros p Hp. apply elem_of_cons in Hp as [-> |Hp]; [by exists y|by apply (di_procs _ _ D)].
  - intros o Hi. apply (di_open _ _ D). destruct (decide (0 < count_obj o (tab_of s cur))) as [Hpos|Hz].
    + destruct (filter (fun e => e = Some o) (tab_of s cur)) as [|e l] eqn:El.
      { unfold count_obj in Hpos. rewrite El in Hpos. cbn in Hpos. lia. }
      assert (He : e ∈ filter (fun e => e = Some o) (tab_of s cur)) by (rewrite El; set_solver).
      apply list_elem_of_filter in He as [-> He]. apply list_elem_of_lookup in He as [k Hk]. by apply (refs_pos s L _ cur k).
    + cbn in Hi. rewrite Hq in Hi. pose proof (count_nonneg o (tab_of s cur)). lia.
Qed.

(** The invariant reads the tables and the objects. *)
Lemma dinv_tabs s s' L :
  dinv s L -> k_fs s' = k_fs s -> k_dev s' = k_dev s ->
  (forall p, p ∈ L -> exists x, k_procs s' !! p = Some x /\ iotab x = tab_of s p) -> dinv s' L.
Proof.
  intros D Ef Ed Hp. assert (Ht : forall p, p ∈ L -> tab_of s' p = tab_of s p).
  { intros p H. destruct (Hp p H) as (x & Hx & <-). unfold tab_of. by rewrite Hx. }
  assert (Hg : forall o, get_refcnt o s' = get_refcnt o s) by (intros [i|a]; cbn; by rewrite ?Ef, ?Ed).
  constructor.
  - apply (di_nodup _ _ D).
  - intros p H. destruct (Hp p H) as (x & Hx & E). exists x. split; [done|]. rewrite E. by eapply dinv_tab_length.
  - intros o. rewrite Hg, (refs_ext s s') by done. apply (di_refs _ _ D).
  - intros o Ho. rewrite (refs_ext s s') in Ho by done. pose proof (di_open _ _ D o Ho) as Hop.
    destruct o as [i|a]; cbn [obj_open] in *; [unfold file_open; by rewrite Ef|by rewrite Ed].
Qed.

Lemma dinv_tail s p L : dinv s (p :: L) -> dinv s L.
Proof.
  intros [D1 D2 D3 D4]. inversion_clear D1 as [|? ? Hn Hnd]. constructor; [done| | |].
  - intros q Hq. apply D2. set_solver.
  - intros o. specialize (D3 o). cbn in D3. pose proof (count_nonneg o (tab_of s p)). lia.
  - intros o Hi. apply D4. cbn. pose proof (count_nonneg o (tab_of s p)). lia.
Qed.

(** ** Theorems on descriptors *)

(** C32: [sysclose].  A descriptor that is out of range or not open gives
    -EBADFD and changes nothing.  Otherwise the descriptor is cleared, its object
    loses one reference and no other object does, and the invariant is kept: no
    object is closed while a descriptor of any process refers to it.  The invariant
    includes that every open device is attached and, for a block device, that its
    [io_lock] is free; with a lock that was leaked the call does not return
    ([sysclose_leaked_lock]). *)
Theorem sysclose_correct (s : kst) (L : list Z) (p fd : Z) :
  current_process s = Done p s -> dinv s L -> p ∈ L ->
  (fd < 0 \/ Z.of_nat PROCESS_IOMAX <= fd \/ tab_of s p !! Z.to_nat fd = Some None ->
     sysclose fd s = Done (- EBADFD) s) /\
  (forall o, 0 <= fd -> tab_of s p !! Z.to_nat fd = Some (Some o) ->
     exists s', sysclose fd s = Done 0 s' /\ dinv s' L /\
       tab_of s' p = <[Z.to_nat fd := None]> (tab_of s p) /\ (forall q, q <> p -> k_procs s' !! q = k_procs s !! q) /\
       get_refcnt o s' = get_refcnt o s - 1 /\ (forall o', o' <> o -> get_refcnt o' s' = get_refcnt o' s)).
Proof.
  intros Hcur D Hp. destruct (di_procs _ _ D p Hp) as (x & Hx & Hl).
  assert (Ht : tab_of s p = iotab x) by (unfold tab_of; by rewrite Hx).
  assert (Hfd : fd_lookup fd s = Done (if (fd <? 0) || (Z.of_nat PROCESS_IOMAX <=? fd) then None else
    match tab_of s p !! Z.to_nat fd with Some (Some o) => Some (p, o) | _ => None end) s).
  { unfold fd_lookup. mstep Hcur. destruct (_ || _); [done|]. unfold proc_get, bind, ret. by rewrite Hx, Ht. }
  unfold sysclose. rewrite (bind_Done _ _ _ _ _ Hfd). split.
  - intros H. destruct (Z.ltb_spec fd 0); [done|]. destruct (Z.leb_spec (Z.of_nat PROCESS_IOMAX) fd); [done|].
    destruct H as [?|[?| ->]]; [lia|lia|done].
  - intros o H0 Ho. pose proof (lookup_lt_Some _ _ _ Ho) as Hlt. rewrite Ht, Hl in Hlt.
    rewrite (proj2 (Z.ltb_ge fd 0)), (proj2 (Z.leb_gt _ fd)) by lia. cbn [orb]. rewrite Ho.
    destruct (close_fd s L p (Z.to_nat fd) o D Hp Ho) as (s' & E & D' & R & G1 & G2).
    exists s'. rewrite <- bind_assoc. mstep E. destruct (retabled_tab _ _ _ _ R) as [T1 T2]. split_and!; done.
Qed.

(** C31: Forking and exiting.  When [sysfork] copies the descriptor table of the
    parent, the child refers to the same objects and each gains a reference per
    descriptor; when the child closes everything on exit, every reference count is
    back at its value before the fork, the parent's table is untouched, and at
    each point no object is closed while a descriptor refers to it.  As for
    [sysclose], the locks of the open block devices are free. *)
Theorem fork_exit_descriptors (s : kst) (L : list Z) (cur q : Z) (y : process) :
  dinv s L -> cur ∈ L -> q ∉ L -> k_procs s !! q = Some y -> length (iotab y) = PROCESS_IOMAX ->
  (forall o, get_refcnt o s + 16 < 2 ^ 32) ->
  exists s1 s2, copy_iotab PROCESS_IOMAX 0 cur q s = Done tt s1 /\ close_all PROCESS_IOMAX 0 q s1 = Done tt s2 /\
    dinv s1 (q :: L) /\ tab_of s1 q = tab_of s cur /\
    (forall o, get_refcnt o s1 = get_refcnt o s + count_obj o (tab_of s cur)) /\
    dinv s2 L /\ tab_of s2 cur = tab_of s cur /\ tab_of s2 q = replicate PROCESS_IOMAX None /\
    (forall o, get_refcnt o s2 = get_refcnt o s).
Proof.
  intros D Hcur Hq Hy Hly Hb. assert (Hcq : cur <> q) by (intros ->; done).
  destruct (copy_iotab_ok L cur q PROCESS_IOMAX 0 s) as (s1 & E1 & C1 & G1 & _ & _ & _ & F1 & _); [done| |done|].
  { constructor; try done; [by exists y|]. intros o. rewrite take_0. pose proof (di_refs _ _ D o). change (count_obj o []) with 0. lia. }
  destruct (copied_dinv s1 L cur q C1) as [D1 T1].
  assert (Tc : tab_of s1 cur = tab_of s cur) by (unfold tab_of; by rewrite F1).
  destruct (close_all_ok (q :: L) q PROCESS_IOMAX 0 s1) as (s2 & E2 & D2 & R2 & G2); [done|done|set_solver|].
  destruct (retabled_tab _ _ _ _ R2) as [T2 F2].
  exists s1, s2. split_and!; [done|done|done|congruence|exact G1|by eapply dinv_tail| |done|].
  - rewrite <- Tc. unfold tab_of. by rewrite F2.
  - intros o. rewrite G2, G1, T1, Tc, !drop_0. lia.
Qed.

(** ** Signals *)

Lemma shiftl_bit sig k : 0 <= sig -> 0 <= k -> Z.testbit (Z.shiftl 1 sig) k = (k =? sig).
Proof. intros. rewrite Z.shiftl_1_l, Z.pow2_bits_eqb by lia. by rewrite Z.eqb_sym. Qed.

Lemma first_signal_spec w n : forall sig, 0 <= w -> 0 <= sig ->
  match first_signal n sig w with
  | Some k => sig <= k < sig + Z.of_nat n /\ Z.testbit w k = true /\ forall j, sig <= j < k -> Z.testbit w j = false
  | None => forall j, sig <= j < sig + Z.of_nat n -> Z.testbit w j = false
  end.
Proof.
  induction n as [|n IH]; intros sig Hw Hs; cbn [first_signal]; [intros; lia|].
  rewrite land_bit, negb_involutive by done. destruct (Z.testbit w sig) eqn:Hb.
  - split; [lia|]. split; [done|]. intros. lia.
  - specialize (IH (sig + 1) Hw ltac:(lia)). destruct (first_signal n (sig + 1) w) as [k|].
    + destruct IH as (H1 & H2 & H3). split; [lia|]. split; [done|]. intros j Hj.
      destruct (Z.eq_dec j sig) as [-> |]; [done|]. apply H3. lia.
    + intros j Hj. destruct (Z.eq_dec j sig) as [-> |]; [done|]. apply IH. lia.
Qed.

(** Signal [k] is pending for [x] and not blocked. *)
Definition deliverable (x : process) (k : Z) : bool :=
  Z.testbit (pending_signals x) k && negb (Z.testbit (blocked_signals x) k).

(** C33: [signal_deliver], on the way back to user mode.  When no defined signal
    (1 to 9) is pending and unblocked the state does not change.  Otherwise the
    one with the lowest number is handled, once its pending bit is cleared; the
    other pending signals stay pending. *)
Theorem signal_deliver_correct (s : kst) (p : Z) (x : process) :
  current_process s = Done p s -> k_procs s !! p = Some x ->
  ((forall k, 1 <= k < Z.of_nat NSIG -> deliverable x k = false) -> signal_deliver s = Done tt s) /\
  (forall sig, 1 <= sig < Z.of_nat NSIG -> deliverable x sig = true -> (forall k, 1 <= k < sig -> deliverable x k = false) ->
     exists w, signal_deliver s = signal_handle sig (set_k_procs (<[p := with_pending w x]> (k_procs s)) s) /\
       forall k, 0 <= k < 32 -> Z.testbit w k = Z.testbit (pending_signals x) k && negb (k =? sig)).
Proof.
  intros Hcur Hx. set (w := w32 (Z.land (pending_signals x) (Z.lnot (blocked_signals x)))).
  assert (Hw : forall k, 0 <= k < 32 -> Z.testbit w k = deliverable x k).
  { intros k Hk. unfold w, w32. change 4294967296 with (2 ^ 32).
    rewrite Z.mod_pow2_bits_low, Z.land_spec, Z.lnot_spec by lia. done. }
  assert (Hg : proc_get p s = Done x s) by (unfold proc_get; by rewrite Hx).
  pose proof (first_signal_spec w (NSIG - 1) 1 ltac:(apply w32_range) ltac:(lia)) as Hf.
  change (1 + Z.of_nat (NSIG - 1)) with 10 in Hf. change (Z.of_nat NSIG) with 10.
  unfold signal_deliver. mstep Hcur. mstep Hg. fold w. split.
  - intros Hno. destruct (w =? 0); [done|]. destruct (first_signal (NSIG - 1) 1 w) as [k|]; [|done].
    destruct Hf as (H1 & H2 & _). rewrite Hw, Hno in H2 by lia. done.
  - intros sig Hs Hd Hlow. destruct (Z.eqb_spec w 0) as [E|_]; [rewrite <- Hw, E, Z.bits_0 in Hd by lia; done|].
    destruct (first_signal (NSIG - 1) 1 w) as [k|].
    2: { rewrite <- Hw, Hf in Hd by lia. done. }
    destruct Hf as (H1 & H2 & H3). assert (k = sig) as ->.
    { destruct (Z.lt_trichotomy k sig) as [Hlt|[Heq|Hgt]]; [|done|].
      - rewrite Hw, Hlow in H2 by lia. done.
      - rewrite <- Hw, H3 in Hd by lia. done. }
    eexists. split.
    + unfold proc_upd, bind. rewrite Hx. reflexivity.
    + intros j Hj. rewrite Z.land_spec. unfold w32. change 4294967296 with (2 ^ 32).
      rewrite Z.mod_pow2_bits_low, Z.lnot_spec, shiftl_bit by lia. done.
Qed.
End Descriptors.

(** Closing the last descriptor of a block device whose [io_lock] was leaked (by a
    write at the end of the device or an unknown control, [vioblk_lock_leaked])
    does not return: [vioblk_close] waits for the lock. *)
Theorem sysclose_leaked_lock {B Dk : Type} {BI : BlockIo B} {VD : VirtioDisk Dk}
    (s : kstate B (drvs Dk)) p x fd a v :
  current_process s = Done p s -> k_procs s !! p = Some x -> 0 <= fd < Z.of_nat PROCESS_IOMAX ->
  iotab x !! Z.to_nat fd = Some (Some (IoDev a)) -> uarts (drivers (k_dev s)) !! a = None ->
  blks (drivers (k_dev s)) !! a = Some v -> io_lock v = true -> refcnt v = 1 ->
  exists s', sysclose fd s = Block s'.
Proof.
  intros Hcur Hx Hfd Ho Hu Hv Hl Hr. unfold sysclose, fd_lookup. rewrite bind_assoc. mstep Hcur.
  replace ((fd <? 0) || (Z.of_nat PROCESS_IOMAX <=? fd)) with false by lia.
  unfold bind at 1, bind at 1, proc_get at 1. rewrite Hx, Ho. unfold ret at 1.
  set (s1 := set_refcnt (IoDev a) 0 s).
  assert (Hd : drivers (k_dev s1) = set_blk a (blk_with_refcnt 0 v) (drivers (k_dev s))) by (cbn; by rewrite Hu, Hv).
  assert (E : obj_ioclose (IoDev a) s = obj_close (IoDev a) s1).
  { unfold obj_ioclose. unfold bind at 1, gets at 1. cbn [get_refcnt]. cbn. rewrite Hu, Hv, Hr. cbn.
    unfold bind, modify. by rewrite Hu, Hv. }
  unfold bind at 1. rewrite E. cbn [obj_close]. unfold on_drivers, on_dev, lift. rewrite Hd. cbn. rewrite Hu.
  unfold on_blk, lift. cbn. rewrite lookup_insert_eq. unfold vioblk_close, bind, io_lock_acquire. cbn. rewrite Hl. by eexists.
Qed.

(** ** A concrete kernel *)

(** One thread runs the process at 500, which has a file, a serial port and a
    block device open and signals 3 and 5 pending; 600 is a new process structure. *)
Definition demo_thread : thread := MkThread "main" THREAD_RUNNING 0 500 0 0 0.
Definition demo_threads : tstate :=
  MkT {[ 100 := demo_thread ]} (100 :: replicate 15 0) tlclear ∅ 100 true ∅ 0 ∅ 100 0 [].
Definition demo_table : list (option io_obj) := Some (IoFile 0) :: Some (IoDev 7) :: Some (IoDev 9) :: replicate 13 None.
Definition demo_process : process := MkProc 0 0 0 demo_table 40 0 (replicate 10 0).
Definition new_process : process := MkProc 9 9 9 (replicate 16 (Some (IoDev 3))) 1 1 [].
Definition demo_drivers : drvs ramdisk :=
  MkDrvs {[ 7 := snd (uart_open demo_uart) ]} {[ 9 := demo_vio ]}.
Definition demo_kernel : kstate io_lit (drvs ramdisk) :=
  MkK (MkTm ∅ 0 0 0 false true demo_threads) (MkH 0 0 false (MkM ∅ 0 0 0 false false))
    (MkFs (iolit_init [] 0) true [] [MkFile 1 0 100 0 1; no_file] [] [] false)
    (MkDs true [] demo_drivers) (<[600 := new_process]> {[ 500 := demo_process ]}) (500 :: 600 :: replicate 14 0) true.

Lemma demo_current : current_process demo_kernel = Done 500 demo_kernel.
Proof. by vm_compute. Qed.

Definition demo_count (o : io_obj) : Z :=
  is_obj o (Some (IoFile 0)) + is_obj o (Some (IoDev 7)) + is_obj o (Some (IoDev 9)).

Lemma demo_refs o : refs demo_kernel [500] o = demo_count o.
Proof.
  cbn [refs]. change (tab_of demo_kernel 500) with demo_table. unfold demo_table. rewrite !count_cons.
  change (count_obj o (replicate 13 None)) with (count_obj o (replicate 13 (None : option io_obj))).
  assert (H : count_obj o (replicate 13 None) = 0) by (by destruct o). rewrite H. unfold demo_count. lia.
Qed.

Lemma demo_counts o : get_refcnt o demo_kernel = demo_count o.
Proof.
  unfold demo_count, is_obj. destruct o as [[|[|i]]|a]; [done|done|done|].
  rewrite (decide_False (P := Some (IoFile 0) = Some (IoDev a))) by done. cbn.
  destruct (decide (a = 7)) as [-> |Hne]; [done|]. rewrite lookup_singleton_ne by done.
  rewrite (decide_False (P := Some (IoDev 7) = _)) by congruence.
  destruct (decide (a = 9)) as [-> |Hne9]; [done|]. rewrite lookup_singleton_ne by done.
  by rewrite decide_False by congruence.
Qed.

Lemma demo_dinv : dinv demo_kernel [500].
Proof.
  constructor.
  - apply NoDup_singleton.
  - intros p Hp. apply list_elem_of_singleton in Hp as ->. by exists demo_process.
  - intros o. rewrite demo_refs, demo_counts. lia.
  - intros o Hi. rewrite demo_refs in Hi. unfold demo_count, is_obj in Hi.
    assert (H : o = IoFile 0 \/ o = IoDev 7 \/ o = IoDev 9) by (repeat case_decide; try congruence; [naive_solver..|lia]).
    destruct H as [-> |[-> | ->]]; [split; [cbn; lia|done]|by left; eexists|right; by exists demo_vio].
Qed.

Lemma sysclose_correct_witness :
  exists s', sysclose 1 demo_kernel = Done 0 s' /\ dinv s' [500] /\ get_refcnt (IoDev 7) s' = 0 /\
    sysclose 3 demo_kernel = Done (- EBADFD) demo_kernel.
Proof.
  assert (Hin : 500 ∈ [500]) by (by apply list_elem_of_singleton).
  destruct (sysclose_correct demo_kernel [500] 500 1 demo_current demo_dinv Hin) as [_ H].
  destruct (H (IoDev 7)) as (s' & E & D & _ & _ & G & _); [lia|done|]. exists s'. split_and!; [done|done|by rewrite G|].
  apply (sysclose_correct demo_kernel [500] 500 3 demo_current demo_dinv Hin). by right; right.
Defined.

Definition leaked_kernel : kstate io_lit (drvs ramdisk) :=
  set_k_dev (MkDs true [] (MkDrvs (uarts demo_drivers) {[ 9 := set_io_lock true demo_vio ]})) demo_kernel.

Lemma sysclose_leaked_lock_witness : exists s', sysclose 2 leaked_kernel = Block s'.
Proof.
  apply (sysclose_leaked_lock leaked_kernel 500 demo_process 2 9 (set_io_lock true demo_vio)); [|done|by vm_compute|done..].
  reflexivity.
Defined.

Lemma fork_exit_descriptors_witness :
  exists s1 s2, copy_iotab PROCESS_IOMAX 0 500 600 demo_kernel = Done tt s1 /\
    close_all PROCESS_IOMAX 0 600 s1 = Done tt s2 /\ tab_of s1 600 = demo_table /\
    get_refcnt (IoFile 0) s1 = 2 /\ get_refcnt (IoFile 0) s2 = 1.
Proof.
  destruct (fork_exit_descriptors demo_kernel [500] 500 600 new_process demo_dinv) as (s1 & s2 & E1 & E2 & _ & T & G1 & _ & _ & _ & G2);
    [by apply list_elem_of_singleton|by rewrite list_elem_of_singleton|done|done| |].
  { intros o. rewrite demo_counts. unfold demo_count, is_obj. repeat case_decide; lia. }
  exists s1, s2. split_and!; [done|done|done|by rewrite G1|by rewrite G2].
Defined.

Lemma signal_deliver_correct_witness :
  exists w, signal_deliver demo_kernel = signal_handle 3 (set_k_procs (<[500 := with_pending w demo_process]> (k_procs demo_kernel)) demo_kernel) /\
    forall k, 0 <= k < 32 -> Z.testbit w k = Z.testbit 40 k && negb (k =? 3).
Proof.
  apply (proj2 (signal_deliver_correct demo_kernel 500 demo_process demo_current eq_refl) 3); [by vm_compute|done|].
  intros k Hk. assert (k = 1 \/ k = 2) as [-> | ->] by lia; done.
Defined.
