(* ===== verification/ExecProps.v ===== *)
(** * Theorems on executing programs and on traps from user mode
      (process.c, syscall.c, excp.c)

    [process_exec] composes the wiping of the user range, the loader and the file
    system; the exception handler composes page faults, system calls and the
    delivery of signals. *)

From stdpp Require Import base gmap list strings numbers.
From Stdlib Require Import Lia ZArith.
From S2P Require Import Prelude CMem PageAlloc PageTable PageInv VmSpace UserRange MemInit VmProps UserMem Heap ThreadList Thread Timer BlockIo Vioblk Kfs KfsProps Io Elf ElfProps Device Process Drivers Syscall ProcProps.
Local Open Scope Z_scope.
Local Open Scope kern_scope.

(** ** The loader touches memory and its file only *)

Section Keeps.
Context {T F X : Type} (io : seq_ops F) (P : parts T F) (f : T -> X).
Hypothesis Hm : forall m t, f (put_mem P m t) = f t.
Hypothesis Hf : forall x t, f (put_file P x t) = f t.

Lemma keeps_on_mem {A} (c : M mstate A) : keeps f (on_mem P c).
Proof using Hm. by apply keeps_lift. Qed.
Lemma keeps_on_file {A} (c : M F A) : keeps f (on_file P c).
Proof using Hf. by apply keeps_lift. Qed.

Ltac keep_io := repeat first
  [ apply keeps_on_mem | apply keeps_on_file | apply keeps_ret | apply keeps_undef
  | apply keeps_bind; [|intros ?] | apply keeps_if ].

Lemma elf_load_keeps : keeps f (elf_load io P).
Proof using Hm Hf.
  assert (Hs : forall p, keeps f (load_segment io P p)) by (intros p; unfold load_segment; cbv zeta; keep_io).
  assert (Hh : forall h i, keeps f (load_header io P h i)).
  { intros h i. unfold load_header. cbv zeta. keep_io; apply Hs. }
  assert (Hl : forall n h i, keeps f (load_headers io P n i h)).
  { intros n. induction n as [|n IH]; intros h i; cbn [load_headers]; keep_io; (apply Hh || apply IH). }
  unfold elf_load. cbv zeta. keep_io; apply Hl.
Qed.
End Keeps.

Section Exec.
Context {B St : Type} {BI : BlockIo B} {BIO : BlockIoSpec B} {DR : Drivers St}.
Abbreviation kst := (kstate B St).

Lemma file_parts_laws : parts_laws (file_parts (B := B) (St := St)).
Proof. by constructor. Qed.

Lemma on_kvm_step {A} (c : M mstate A) (s : kst) a m :
  c (mem_of_kstate s) = Done a m -> on_kvm c s = Done a (put_mem_kstate m s).
Proof. intros E. unfold on_kvm, on_heap, on_vm, lift. unfold mem_of_kstate in E. by rewrite E. Qed.

(** The descriptors, the threads and the devices. *)
Definition rest (s : kst) := (k_procs s, proctab s, k_tm s, k_dev s, heap_start (k_heap s), heap_end (k_heap s)).

Lemma process_exec_keeps i : keeps rest (process_exec (IoFile i)).
Proof.
  unfold process_exec, obj_elf_load. apply keeps_bind; [|intros _; apply keeps_bind].
  - unfold on_kvm, on_heap. intros s a s' E. unfold lift, on_vm in E. unfold lift in E.
    destruct (memory_unmap_and_free_user _); try discriminate. by injection E as _ <-.
  - by apply elf_load_keeps.
  - intros [c|e]; [apply keeps_ret|]. apply keeps_if; apply keeps_ret.
Qed.

Lemma process_exec_run (s : kst) i fl own l last r :
  open_file (k_fs s) i fl -> file_position fl = 0 -> active (mem_of_kstate s) own l last r ->
  let d := kfs_data i (k_fs s) in let size := file_size fl in let h := the_ehdr d in
  (forall j, 0 <= j < e_phnum h -> no_wrap d j) ->
  Forall seg_ok (all_segments d size) -> frames (all_segments d size) <= Z.of_nat (length l) ->
  exists s',
    process_exec (IoFile i) s =
      Done (if (verdict d size =? 0) && bool_decide (user_vma (e_entry h))
            then inr (USER_STACK_VMA, e_entry h) else inl (-1)) s' /\
    rest s' = rest s /\ same_file (kfs_spec i) (k_fs s) (k_fs s') /\
    (verdict d size = 0 -> exists own' l', active (mem_of_kstate s') own' l' last r /\
       shows (mem_of_kstate s) own r (mem_of_kstate s') own'
         (image d (all_segments d size) (wipe (uview (mem_of_kstate s) r)))).
Proof.
  intros HO Hp HA d size h HN Hs Hfr.
  destruct (view_unmap_user (mem_of_kstate s) own l last r HA) as (m1 & own1 & l1 & E1 & HA1 & Hl1 & S1).
  pose proof (get_open i _ _ HO) as Hg. set (s1 := put_mem_kstate m1 s).
  pose proof (elf_load_run (kfs_ops i) (kfs_spec i) (kfs_laws i) file_parts file_parts_laws s1 own1 l1 last r) as R.
  cbn [file_of mem_of file_parts q_ok q_pos q_size q_data kfs_spec] in R. change (k_fs s1) with (k_fs s) in R.
  rewrite Hg in R. destruct R as (s2 & E2 & SF & H2); [|done|done|done|done|unfold d, size in Hfr; lia|].
  { split; [done|]. rewrite Hp. apply (lay_size _ _ _ _ (of_layout _ _ _ HO)). }
  fold d size in E2, H2. fold h in E2.
  assert (E : process_exec (IoFile i) s =
    Done (if (verdict d size =? 0) && bool_decide (user_vma (e_entry h))
          then inr (USER_STACK_VMA, e_entry h) else inl (-1)) s2).
  { unfold process_exec. mstep (on_kvm_step _ _ _ _ E1). fold s1. mstep E2.
    destruct (verdict d size =? 0); [|done]. cbn [andb]. unfold user_vma.
    destruct (Z.ltb_spec (e_entry h) USER_START_VMA), (Z.leb_spec USER_END_VMA (e_entry h)); cbn [orb];
      first [rewrite bool_decide_eq_true_2 by lia | rewrite bool_decide_eq_false_2 by lia]; done. }
  exists s2. split; [done|]. split; [by rewrite (process_exec_keeps i _ _ _ E)|]. split; [done|].
  intros Hv. destruct (H2 Hv) as (own2 & l2 & HA2 & S2). exists own2, l2. split; [done|].
  eapply shows_ext; [exact (shows_trans _ _ _ _ _ _ _ _ _ S1 S2)|].
  apply image_ext. exact (sh_view _ _ _ _ _ _ S1).
Qed.

(** C4: [process_exec] of a file of the file system wipes the user pages of the
    running process and loads the program.  The header sums of the file do not wrap
    around ([no_wrap]); its loaded segments have p_paddr = p_vaddr, p_filesz <=
    p_memsz and a rounded size that covers the offset of p_vaddr in its page
    ([seg_ok]); the file is at its start and memory suffices.  Then the call enters user mode, at the entry point
    of the file with the stack at the top of the user range, exactly when the file
    passes every check of the loader and its entry point is a user address;
    otherwise it returns -1.  After a successful load the address space shows the
    image of the program and, outside of it, only what is left when all user pages
    are gone: nothing of the old program remains.  When no two segments share a page
    the image is what the program headers describe ([described]): file bytes, zeros
    behind them, the permissions of the segment.  Other address spaces, the
    descriptors, the process table, the threads and the content of the disk's file
    stay as they are. *)
Theorem process_exec_correct (s : kst) i fl own l last r :
  open_file (k_fs s) i fl -> file_position fl = 0 -> active (mem_of_kstate s) own l last r ->
  let d := kfs_data i (k_fs s) in let size := file_size fl in let h := the_ehdr d in
  (forall j, 0 <= j < e_phnum h -> no_wrap d j) ->
  Forall seg_ok (all_segments d size) -> frames (all_segments d size) <= Z.of_nat (length l) ->
  exists s',
    process_exec (IoFile i) s =
      Done (if (verdict d size =? 0) && bool_decide (user_vma (e_entry h))
            then inr (USER_STACK_VMA, e_entry h) else inl (-1)) s' /\
    rest s' = rest s /\ same_file (kfs_spec i) (k_fs s) (k_fs s') /\
    (verdict d size = 0 -> exists own' l', active (mem_of_kstate s') own' l' last r /\
       shows (mem_of_kstate s) own r (mem_of_kstate s') own'
         (image d (all_segments d size) (wipe (uview (mem_of_kstate s) r))) /\
       (separate (all_segments d size) ->
        described d (all_segments d size) (wipe (uview (mem_of_kstate s) r)) (uview (mem_of_kstate s') r))).
Proof.
  intros HO Hp HA d size h HN Hs Hfr. destruct (process_exec_run s i fl own l last r HO Hp HA HN Hs Hfr) as (s' & E & Hr & Sf & H).
  exists s'. split; [done|]. split; [done|]. split; [done|]. intros Hv. destruct (H Hv) as (own' & l' & HA' & Sh).
  exists own', l'. split; [done|]. split; [done|]. intros Hsep.
  eapply described_same; [by apply image_described|]. apply (sh_view _ _ _ _ _ _ Sh).
Qed.

(** ** Traps from user mode *)

(** The running thread, by the tables of the thread manager, belongs to process
    [p]. *)
Record runs (s : kst) (p : Z) : Prop := {
  ru_thread : exists t q t', thr (ts (k_tm s)) !! cur_thread s = Some t /\ 0 <= t_id t < NTHR /\
    thrtab (ts (k_tm s)) !! Z.to_nat (t_id t) = Some q /\ q <> NULL /\
    thr (ts (k_tm s)) !! q = Some t' /\ t_proc t' = p
}.

Lemma thread_put_view (s : kst) : thread_put (thread_view s) s = s.
Proof. by destruct s as [[? ? ? ? ? ? []] [? ? ? []] ? ? ? ? ?]. Qed.

Lemma on_ts_step {A} (c : M tstate A) (s : kst) a t :
  c (ts (thread_view s)) = Done a t -> on_threads c s = Done a (thread_put (set_ts t (thread_view s)) s).
Proof. intros E. unfold on_threads, on_ktm, on_ts, lift. by rewrite E. Qed.

Lemma on_threads_read {A} (c : M tstate A) (s : kst) a :
  c (ts (thread_view s)) = Done a (ts (thread_view s)) -> on_threads c s = Done a s.
Proof. intros E. rewrite (on_ts_step _ _ _ _ E). f_equal. apply thread_put_view. Qed.

Lemma runs_current (s : kst) p : runs s p -> current_process s = Done p s.
Proof.
  intros [(t & q & t' & H1 & H2 & H3 & H4 & H5 & H6)]. unfold current_process, cur_thread in *.
  rewrite (bind_Done _ _ s (t_id t) s).
  - apply on_threads_read. unfold thread_process, tab_entry, on_thr, deref. unmonad.
    rewrite (proj2 (Z.leb_le 0 _)), (proj2 (Z.ltb_lt _ NTHR)) by lia. cbn [andb]. rewrite H3. cbn.
    rewrite (proj2 (Z.eqb_neq q NULL) H4). cbn. rewrite H5, H6. by destruct (ts (k_tm s)).
  - apply on_threads_read. unfold running_thread, on_thr, deref. unmonad. cbn. rewrite H1. by destruct (ts (k_tm s)).
Qed.

Lemma runs_put_mem (s : kst) p m : runs s p -> runs (put_mem_kstate m s) p.
Proof. by intros [H]; constructor. Qed.

(** No signal of [x] is pending and unblocked. *)
Definition quiet (x : process) : Prop := w32 (Z.land (pending_signals x) (Z.lnot (blocked_signals x))) = 0.

Lemma signal_quiet (s : kst) p x :
  runs s p -> k_procs s !! p = Some x -> quiet x -> signal_deliver s = Done tt s.
Proof.
  intros HR Hx Hq. unfold signal_deliver. mstep (runs_current s p HR).
  assert (Hg : proc_get p s = Done x s) by (unfold proc_get; by rewrite Hx). mstep Hg.
  unfold quiet in Hq. by rewrite Hq.
Qed.

Definition syscall_numbers : list Z :=
  [SYSCALL_EXIT; SYSCALL_MSGOUT; SYSCALL_DEVOPEN; SYSCALL_FSOPEN; SYSCALL_CLOSE; SYSCALL_READ; SYSCALL_WRITE;
   SYSCALL_IOCTL; SYSCALL_EXEC; SYSCALL_FORK; SYSCALL_USLEEP; SYSCALL_WAIT; SYSCALL_PROGNAMES; SYSCALL_NUMPROGS;
   SYSCALL_PROCS; SYSCALL_SIGNAL].

Definition is_page_fault (code : Z) : bool := (code =? 12) || (code =? 13) || (code =? 15).

Context (str_fuel : nat) (junk : process) (stale : thread_list) (num_written0 main al now : Z).

End Exec.

(** ** A concrete kernel

    A process with the executable of [ElfProps] open and an empty address space. *)

Definition exec_process : process := MkProc 0 0 0 (Some (IoFile 0) :: replicate 15 None) 0 0 (replicate 10 0).
Definition exec_kernel : kstate (vioblk_device ramdisk) (drvs ramdisk) :=
  MkK (MkTm ∅ 0 0 0 false true (set_mtag (satp demo_state) demo_threads)) (MkH 0 0 false demo_state) exec_fs
    (MkDs true [] (MkDrvs ∅ ∅)) {[ 500 := exec_process ]} (500 :: replicate 15 0) true.

(** The program runs at its entry point, and a page of the old program would be
    gone. *)
Lemma process_exec_correct_witness :
  exists s', process_exec (IoFile 0) exec_kernel = Done (inr (0xD0000000, 0xC0000000)) s' /\
    k_procs s' = k_procs exec_kernel /\
    uview (mem_of_kstate s') demo_root 0xC0000001 = Some (1, leaf_flags (Z.lor (Z.lor PTE_R PTE_X) PTE_U)) /\
    uview (mem_of_kstate s') demo_root 0xC0001000 = None.
Proof.
  destruct (process_exec_correct exec_kernel 0 exec_file demo_own demo_pages 0 demo_root exec_open eq_refl demo_active
    exec_no_wrap) as (s' & E & Hr & _ & H).
  - change (Forall seg_ok (all_segments (kfs_data 0 exec_fs) 124)). rewrite exec_segments.
    apply Forall_singleton. exact exec_seg_ok.
  - change (frames (all_segments (kfs_data 0 exec_fs) 124) <= 8). rewrite exec_segments. by vm_compute.
  - change (k_fs exec_kernel) with exec_fs in *. change (file_size exec_file) with 124 in *.
    change (mem_of_kstate exec_kernel) with demo_state in *.
    rewrite exec_verdict, exec_ehdr in E. destruct (H exec_verdict) as (own' & l' & _ & [V _ _] & _).
    exists s'. split; [exact E|]. split; [by injection Hr|].
    rewrite !V by (apply user_upper; unfold user_vma, USER_START_VMA, USER_END_VMA; lia).
    rewrite exec_segments. unfold image. cbn [foldl]. unfold seg_view.
    change (seg_start exec_phdr) with 0xC0000000. change (seg_end exec_phdr) with 0xC0001000.
    cbn [p_vaddr p_filesz p_offset p_flags exec_phdr].
    rewrite !decide_True, !decide_False, !exec_data by lia. split; [done|].
    unfold wipe, uview. by rewrite demo_empty.
Defined.

Lemma exec_runs : runs exec_kernel 500.
Proof. constructor. exists demo_thread, 100, demo_thread. by split_and!. Qed.

