(* ===== verification/SysProps.v ===== *)
(** * Theorems on reading and writing files from user programs (syscall.c)

    [sysread] and [syswrite] compose the descriptor table, the validation of user
    pointers, the file system and the accesses to user memory.  The theorems give
    their effect on what the program sees of its memory and on the content of the
    file, and compose the two into a copy from one file to another. *)

From stdpp Require Import base gmap list strings numbers.
From Stdlib Require Import Lia ZArith.
From S2P Require Import Prelude CMem PageAlloc PageTable PageInv VmSpace UserRange Heap MemInit VmProps UserMem Thread Timer BlockIo Vioblk Kfs KfsProps Io Elf ElfProps Device Process Drivers Syscall ProcProps ExecProps.
Local Open Scope Z_scope.
Local Open Scope kern_scope.

(** ** User buffers *)

(** Every byte from [va] on is in a page with all of [flags]. *)
Definition allows (g : Z -> option (Z * Z)) (va n flags : Z) : Prop :=
  forall v, va <= v < va + n -> exists b fl, g v = Some (b, fl) /\ Z.land fl flags = flags.

(** A buffer in the user range. *)
Definition user_buffer (va n : Z) : Prop := USER_START_VMA <= va /\ 0 < n /\ va + n <= USER_END_VMA.

Lemma allows_page s r v flags :
  page_allows (ms_mem s) r v flags = true <-> exists b fl, uview s r v = Some (b, fl) /\ Z.land fl flags = flags.
Proof.
  rewrite page_allows_lookup. unfold uview. destruct (lookup_pte _ _ _) as [e|].
  - rewrite Z.eqb_eq. split; [intros H; by eexists _, _|]. by intros (b & fl & [= <- <-] & H).
  - split; [done|]. by intros (b & fl & H & _).
Qed.

Lemma validate_run s own l last r va n flags :
  active s own l last r -> user_buffer va n ->
  memory_validate_vptr_len (vptr_fuel n) va n flags s =
    Done (if forallb (fun v => page_allows (ms_mem s) r v flags) (probes va (va + n)) then 0 else -1) s.
Proof.
  intros [_ Hs _ _] (H1 & H2 & H3). unfold memory_validate_vptr_len.
  rewrite user_wellformed by (unfold user_vma; lia). rewrite (proj2 (Z.eqb_neq n 0)) by lia. cbn [negb orb].
  unfold USER_START_VMA, USER_END_VMA in *. rewrite w64_small by lia.
  pose proof (probes_length va n H2). unfold vptr_fuel. pose proof (Z.div_pos n PAGE_SIZE).
  rewrite validate_loop_run, Hs by (unfold PAGE_SIZE in *; lia). done.
Qed.

(** A buffer that may be accessed passes, whatever its alignment. *)
Lemma validate_allows s own l last r va n flags :
  active s own l last r -> user_buffer va n -> allows (uview s r) va n flags ->
  memory_validate_vptr_len (vptr_fuel n) va n flags s = Done 0 s.
Proof.
  intros HA HB Hal. rewrite (validate_run _ _ _ _ _ _ _ _ HA HB).
  replace (forallb _ _) with true; [done|]. symmetry. apply forallb_forall. intros v Hv.
  apply allows_page, Hal. unfold probes in Hv.
  apply list_elem_of_In, list_elem_of_fmap in Hv as (k & -> & Hk%elem_of_seqZ).
  destruct HB as (_ & H2 & _). unfold pages_between, PAGE_SIZE in *. zdiv.
Qed.

(** One that may not is refused when it starts at a page boundary. *)
Lemma validate_refuses s own l last r va n flags :
  active s own l last r -> user_buffer va n -> va mod PAGE_SIZE = 0 -> ~ allows (uview s r) va n flags ->
  memory_validate_vptr_len (vptr_fuel n) va n flags s = Done (-1) s.
Proof.
  intros HA HB Ha Hno. rewrite (validate_run _ _ _ _ _ _ _ _ HA HB).
  pose proof (probes_cover va n (fun v => page_allows (ms_mem s) r v flags) Ha (proj1 (proj2 HB))
    (fun v v' => page_allows_page _ _ v v' _)) as HP.
  destruct (forallb _ _); [|done]. destruct Hno. intros v Hv. apply allows_page. by apply HP.
Qed.

(** ** Loads *)

(** The bytes the space shows from [va] on. *)
Definition view_bytes (g : Z -> option (Z * Z)) (va : Z) (n : nat) : list Z :=
  bytes_at (fun v => default 0 (fst <$> g v)) va n.

Lemma view_load n : forall s own l last r va,
  active s own l last r -> USER_START_VMA <= va -> va + Z.of_nat n <= USER_END_VMA ->
  allows (uview s r) va (Z.of_nat n) PTE_R ->
  load_virt va n s = Done (view_bytes (uview s r) va n) s.
Proof.
  induction n as [|n IH]; intros s own l last r va HA Hs He Hal; [done|].
  assert (E1 : load_virt8 va s = Done (default 0 (fst <$> uview s r va)) s).
  { destruct HA as [HI Hroot Hr Hsum]. destruct (Hal va) as (b & fl & Hv & Hfl); [lia|]. rewrite Hv. unfold uview in Hv.
    destruct (lookup_pte (ms_mem s) r va) as [e|] eqn:E; [|done]. injection Hv as <- <-.
    assert (HR : has e PTE_RWX = true).
    { unfold has. rewrite (proj2 (Z.eqb_neq _ _)); [done|]. intros H0. unfold PTE_R in Hfl.
      assert (Hz : Z.land (Z.land (pte_flags e) PTE_RWX) 2 = 0) by (by rewrite H0).
      rewrite <- Z.land_assoc in Hz. change (Z.land PTE_RWX 2) with 2 in Hz. lia. }
    unfold load_virt8. rewrite Hroot, (lookup_translate _ _ _ _ E HR), Hsum, Hfl. cbn [negb orb andb].
    by rewrite andb_false_r. }
  cbn [load_virt]. mstep E1. rewrite w64_small by (unfold USER_START_VMA, USER_END_VMA in *; lia).
  rewrite (bind_Done _ _ _ _ _ (IH s own l last r (va + 1) HA ltac:(lia) ltac:(lia) ltac:(intros v Hv; apply Hal; lia))).
  unfold ret. f_equal. unfold view_bytes. change (S n) with (1 + n)%nat. rewrite bytes_at_app.
  unfold bytes_at at 2. cbn. by rewrite Z.add_0_r.
Qed.

(** ** The calls *)

Section Sys.
Context {B St : Type} {BI : BlockIo B} {BIO : BlockIoSpec B} {DR : Drivers St}.
Abbreviation kst := (kstate B St).

Lemma fd_lookup_run (s : kst) p x fd :
  runs s p -> k_procs s !! p = Some x ->
  fd_lookup fd s = Done (if (fd <? 0) || (Z.of_nat PROCESS_IOMAX <=? fd) then None else
    match iotab x !! Z.to_nat fd with Some (Some o) => Some (p, o) | _ => None end) s.
Proof.
  intros HR Hx. unfold fd_lookup. mstep (runs_current s p HR). destruct (_ || _); [done|].
  unfold proc_get, bind, ret. by rewrite Hx.
Qed.

(** [fd] is no descriptor of [x]; it is file [i]. *)
Definition no_fd (x : process) (fd : Z) : Prop :=
  fd < 0 \/ Z.of_nat PROCESS_IOMAX <= fd \/ iotab x !! Z.to_nat fd = Some None.
Definition fd_file (x : process) (fd : Z) (i : nat) : Prop :=
  0 <= fd < Z.of_nat PROCESS_IOMAX /\ iotab x !! Z.to_nat fd = Some (Some (IoFile i)).

Lemma fd_lookup_none (s : kst) p x fd :
  runs s p -> k_procs s !! p = Some x -> no_fd x fd -> fd_lookup fd s = Done None s.
Proof.
  intros HR Hx H. rewrite (fd_lookup_run s p x fd HR Hx). destruct (Z.ltb_spec fd 0); [done|].
  destruct (Z.leb_spec (Z.of_nat PROCESS_IOMAX) fd); [done|]. destruct H as [?|[?| ->]]; [lia|lia|done].
Qed.

Lemma fd_lookup_file (s : kst) p x fd i :
  runs s p -> k_procs s !! p = Some x -> fd_file x fd i -> fd_lookup fd s = Done (Some (p, IoFile i)) s.
Proof.
  intros HR Hx [H1 H2]. rewrite (fd_lookup_run s p x fd HR Hx).
  rewrite (proj2 (Z.ltb_ge fd 0)), (proj2 (Z.leb_gt _ fd)) by lia. cbn [orb]. by rewrite H2.
Qed.

Lemma on_kvm_same {A} (c : M mstate A) (s : kst) a : c (mem_of_kstate s) = Done a (mem_of_kstate s) -> on_kvm c s = Done a s.
Proof. intros E. rewrite (on_kvm_step _ _ _ _ E). f_equal. by destruct s as [? [] ? ? ? ? ?]. Qed.

Lemma on_fs_step {A} (c : M (fstate B) A) (s : kst) a f : c (k_fs s) = Done a f -> on_fs c s = Done a (set_k_fs f s).
Proof. intros E. unfold on_fs, lift. by rewrite E. Qed.

(** The state before a call, for the theorems below. *)
Record calls (s : kst) (p : Z) (x : process) (own : gmap Z role) (l : list Z) (last r : Z) : Prop := {
  ca_runs : runs s p;
  ca_proc : k_procs s !! p = Some x;
  ca_mem : active (mem_of_kstate s) own l last r
}.

Lemma allows_flags g va n flags flags' :
  Z.land flags flags' = flags' -> allows g va n flags -> allows g va n flags'.
Proof.
  intros Hf H v Hv. destruct (H v Hv) as (b & fl & Hg & Hl). exists b, fl. split; [done|].
  rewrite <- Hf at 1. by rewrite Z.land_assoc, Hl.
Qed.

Lemma allows_writable g va n m : m <= n -> allows g va n (Z.lor PTE_W PTE_U) -> writable g va m.
Proof.
  intros Hm H v Hv. destruct (H v ltac:(lia)) as (b & fl & Hg & Hl). exists b, fl. split; [done|]. intros H0.
  assert (E : Z.land (Z.land fl PTE_W) (Z.lor PTE_W PTE_U) = PTE_W).
  { rewrite <- Z.land_assoc, (Z.land_comm PTE_W), Z.land_assoc, Hl. reflexivity. }
  rewrite H0 in E. discriminate E.
Qed.

Lemma read_run (s : kst) p x own l last r fd buf n i f :
  calls s p x own l last r -> user_buffer buf n -> fd_file x fd i -> open_file (k_fs s) i f ->
  file_position f + n < 2 ^ 64 -> allows (uview (mem_of_kstate s) r) buf n (Z.lor PTE_W PTE_U) ->
  exists s', sysread fd buf n s = Done (moved f n) s' /\
    calls s' p x own l last r /\ rest s' = rest s /\
    shows (mem_of_kstate s) own r (mem_of_kstate s') own
      (view_write (uview (mem_of_kstate s) r) buf
         (contents_at (k_fs s) f (file_position f) (Z.to_nat (moved f n)))) /\
    open_file (k_fs s') i (with_pos (file_position f + moved f n) f) /\
    same_disk (vioblk_io (k_fs s)) (vioblk_io (k_fs s')) /\ only_file i (k_fs s) (k_fs s').
Proof.
  intros [HR Hx HA] HB Hfd HO Hpos Hal. unfold sysread, validate_vptr.
  rewrite (bind_Done _ _ _ _ _ (fd_lookup_file s p x fd i HR Hx Hfd)).
  mstep (on_kvm_same _ _ _ (validate_allows _ _ _ _ _ _ _ _ HA HB Hal)).
  cbn [negb Z.eqb]. destruct HB as (H1 & H2 & H3).
  destruct (read_any (k_fs s) i f n HO) as (fs & E & HO' & HD & HF); [lia|done|].
  assert (Hm : 0 <= moved f n <= n) by (unfold moved; lia).
  set (data := contents_at (k_fs s) f (file_position f) (Z.to_nat (moved f n))) in *.
  assert (Hlen : Z.of_nat (length data) = moved f n)
    by (unfold data, contents_at, file_bytes; rewrite length_bytes_at; lia).
  destruct (view_store data (mem_of_kstate s) own l last r buf HA) as (m & E2 & HA2 & S2);
    [done|lia|by apply (allows_writable _ _ n); [lia|]|].
  assert (E1 : obj_read (IoFile i) n s = Done (moved f n, data) (set_k_fs fs s)) by exact (on_fs_step _ _ _ _ E).
  mstep E1. cbn [fst snd]. mstep (on_kvm_step _ (set_k_fs fs s) _ _ E2).
  eexists. split; [reflexivity|]. split; [|split_and!; done].
  constructor; [|done|done]. apply runs_put_mem. by destruct HR; constructor.
Qed.

(** C7: [sysread].  A descriptor that is not open gives -EBADFD; a page-aligned
    buffer that is not writable user memory throughout gives -EINVAL; both leave the
    state as it is.  Reading a file into a writable buffer of any alignment returns
    the number of bytes asked for or left in the file, the program sees exactly the
    bytes of the file from its position in the buffer and every other byte of its
    memory as before, other address spaces do not change, the position of the file
    advances by the bytes read, and the disk, other open files, descriptors, threads
    and devices stay as they are. *)
Theorem sysread_correct (s : kst) p x own l last r fd buf n :
  calls s p x own l last r -> user_buffer buf n ->
  (no_fd x fd -> sysread fd buf n s = Done (- EBADFD) s) /\
  forall i f, fd_file x fd i -> open_file (k_fs s) i f -> file_position f + n < 2 ^ 64 ->
  (buf mod PAGE_SIZE = 0 -> ~ allows (uview (mem_of_kstate s) r) buf n (Z.lor PTE_W PTE_U) ->
     sysread fd buf n s = Done (- EINVAL) s) /\
  (allows (uview (mem_of_kstate s) r) buf n (Z.lor PTE_W PTE_U) ->
     exists s', sysread fd buf n s = Done (moved f n) s' /\
       calls s' p x own l last r /\ rest s' = rest s /\
       shows (mem_of_kstate s) own r (mem_of_kstate s') own
         (view_write (uview (mem_of_kstate s) r) buf
            (contents_at (k_fs s) f (file_position f) (Z.to_nat (moved f n)))) /\
       open_file (k_fs s') i (with_pos (file_position f + moved f n) f) /\
       same_disk (vioblk_io (k_fs s)) (vioblk_io (k_fs s')) /\ only_file i (k_fs s) (k_fs s')).
Proof.
  intros [HR Hx HA] HB. split.
  { intros H. unfold sysread. by mstep (fd_lookup_none s p x fd HR Hx H). }
  intros i f Hfd HO Hpos. split; [|by apply read_run].
  intros Ha Hno. unfold sysread, validate_vptr. rewrite (bind_Done _ _ _ _ _ (fd_lookup_file s p x fd i HR Hx Hfd)).
  by mstep (on_kvm_same _ _ _ (validate_refuses _ _ _ _ _ _ _ _ HA HB Ha Hno)).
Qed.

Lemma view_bytes_range (s : mstate) r va n : Forall (fun c => 0 <= c < 256) (view_bytes (uview s r) va n).
Proof.
  unfold view_bytes, bytes_at. apply Forall_fmap, Forall_true. intros k. cbn. unfold uview.
  destruct (lookup_pte _ _ _); cbn; [apply load8_range|lia].
Qed.

Lemma write_run (s : kst) p x own l last r fd buf n i f :
  calls s p x own l last r -> user_buffer buf n -> fd_file x fd i -> open_file (k_fs s) i f ->
  distinct_blocks (the_inode (k_fs s) f) (file_size f) -> inode_number f < num_inodes (boot_block (k_fs s)) ->
  file_position f + n < 2 ^ 64 ->
  allows (uview (mem_of_kstate s) r) buf n (Z.lor PTE_R PTE_U) ->
  let data := view_bytes (uview (mem_of_kstate s) r) buf (Z.to_nat n) in
  exists fs, syswrite fd buf n s = Done (moved f n) (set_k_fs fs s) /\
    open_file fs i (with_pos (file_position f + moved f n) f) /\ the_inode fs f = the_inode (k_fs s) f /\
    written (boot_block (k_fs s)) (the_inode (k_fs s) f) (bio_data (vioblk_io (k_fs s))) (bio_data (vioblk_io fs))
      (file_position f) (take (Z.to_nat (moved f n)) data) /\
    only_file i (k_fs s) fs.
Proof.
  intros [HR Hx HA] HB Hfd HO Hdist Hino Hpos Hal data. pose proof HB as (H1 & H2 & H3).
  assert (Hlen : Z.of_nat (length data) = n) by (unfold data, view_bytes; rewrite length_bytes_at; lia).
  destruct (write_any (k_fs s) i f data HO Hdist Hino (view_bytes_range _ _ _ _)) as (fs & E & HO' & Hi & _ & HW & HF); [lia|].
  rewrite Hlen in *. exists fs. split; [|done].
  unfold syswrite, validate_vptr. rewrite (bind_Done _ _ _ _ _ (fd_lookup_file s p x fd i HR Hx Hfd)).
  mstep (on_kvm_same _ _ _ (validate_allows _ _ _ _ _ _ _ _ HA HB Hal)). cbn [negb Z.eqb].
  assert (EL : load_virt buf (Z.to_nat n) (mem_of_kstate s) = Done data (mem_of_kstate s)).
  { apply (view_load _ _ own l last r); [done|done|lia|]. rewrite Z2Nat.id by lia.
    by apply (allows_flags _ _ _ (Z.lor PTE_R PTE_U)). }
  mstep (on_kvm_same _ _ _ EL). unfold obj_write. rewrite Hlen. exact (on_fs_step _ _ _ _ E).
Qed.

(** C8: [syswrite].  A descriptor that is not open gives -EBADFD; a page-aligned
    buffer that is not readable user memory throughout gives -EINVAL; both leave the
    state as it is.  Writing to a file returns the number of bytes given or the
    number that fit before its end, stores exactly the bytes the program sees in
    its buffer at the position of the file, changes no other byte of the disk,
    advances the position, and leaves memory, other open files, descriptors, threads
    and devices as they are. *)
Theorem syswrite_correct (s : kst) p x own l last r fd buf n :
  calls s p x own l last r -> user_buffer buf n ->
  (no_fd x fd -> syswrite fd buf n s = Done (- EBADFD) s) /\
  forall i f, fd_file x fd i -> open_file (k_fs s) i f ->
  (buf mod PAGE_SIZE = 0 -> ~ allows (uview (mem_of_kstate s) r) buf n (Z.lor PTE_R PTE_U) ->
     syswrite fd buf n s = Done (- EINVAL) s) /\
  (distinct_blocks (the_inode (k_fs s) f) (file_size f) -> inode_number f < num_inodes (boot_block (k_fs s)) ->
   file_position f + n < 2 ^ 64 ->
   allows (uview (mem_of_kstate s) r) buf n (Z.lor PTE_R PTE_U) ->
     exists s', syswrite fd buf n s = Done (moved f n) s' /\
       calls s' p x own l last r /\ rest s' = rest s /\ mem_of_kstate s' = mem_of_kstate s /\
       open_file (k_fs s') i (with_pos (file_position f + moved f n) f) /\
       written (boot_block (k_fs s)) (the_inode (k_fs s) f) (bio_data (vioblk_io (k_fs s)))
         (bio_data (vioblk_io (k_fs s'))) (file_position f)
         (take (Z.to_nat (moved f n)) (view_bytes (uview (mem_of_kstate s) r) buf (Z.to_nat n))) /\
       only_file i (k_fs s) (k_fs s')).
Proof.
  intros HC HB. pose proof HC as [HR Hx HA]. split.
  { intros H. unfold syswrite. by mstep (fd_lookup_none s p x fd HR Hx H). }
  intros i f Hfd HO. split.
  - intros Ha Hno. unfold syswrite, validate_vptr.
    rewrite (bind_Done _ _ _ _ _ (fd_lookup_file s p x fd i HR Hx Hfd)).
    by mstep (on_kvm_same _ _ _ (validate_refuses _ _ _ _ _ _ _ _ HA HB Ha Hno)).
  - intros Hdist Hino Hpos Hal.
    destruct (write_run s p x own l last r fd buf n i f) as (fs & E & HO' & _ & HW & HF); try done.
    exists (set_k_fs fs s). split; [exact E|]. split; [|by split_and!].
    constructor; [|done|done]. by destruct HR; constructor.
Qed.

(** ** Copying a file *)

(** Another file stays open when the disk does not change. *)
Lemma open_file_other fs fs' i j f' g :
  open_file fs j g -> open_file fs' i f' -> j <> i -> same_disk (vioblk_io fs) (vioblk_io fs') -> only_file i fs fs' ->
  open_file fs' j g /\ the_inode fs' g = the_inode fs g.
Proof.
  intros [G1 G2 G3 G4 G5 G6 G7 G8 G9] [F1 F2 F3 F4 F5 F6 F7 F8 F9] Hne HD (Hbb & _ & Hfiles).
  pose proof (same_disk_inode _ _ (inode_number g) HD (proj1 G7)) as Hin. pose proof HD as (_ & Hsz & _).
  split; [|exact Hin]. constructor; try done.
  - by rewrite Hfiles.
  - by rewrite Hsz.
  - by rewrite Hbb, Hin, Hsz.
Qed.

Lemma allows_after_write g va n data flags g' :
  (forall v, upper v -> g' v = view_write g va data v) -> user_buffer va n -> allows g va n flags -> allows g' va n flags.
Proof.
  intros Hg HB Hal v Hv. destruct (Hal v Hv) as (b & fl & Hb & Hfl).
  rewrite Hg by (apply user_upper; unfold user_vma, user_buffer in *; lia). unfold view_write.
  case_decide; [rewrite Hb|]; cbn; by eexists _, _.
Qed.

Lemma view_bytes_write g g' va data flags :
  (forall v, upper v -> g' v = view_write g va data v) -> user_buffer va (Z.of_nat (length data)) ->
  allows g va (Z.of_nat (length data)) flags -> view_bytes g' va (length data) = w8 <$> data.
Proof.
  intros Hg HB Hal. apply list_eq. intros k. destruct (decide (k < length data)%nat) as [Hk|Hk].
  - unfold view_bytes. rewrite bytes_at_lookup, list_lookup_fmap by done.
    destruct (Hal (va + Z.of_nat k)) as (b & fl & Hb & _); [lia|].
    rewrite Hg by (apply user_upper; unfold user_vma, user_buffer in *; lia). unfold view_write.
    rewrite decide_True, Hb by lia. replace (Z.to_nat (va + Z.of_nat k - va)) with k by lia.
    destruct (lookup_lt_is_Some_2 data k Hk) as [c Hc]. by rewrite Hc.
  - rewrite !lookup_ge_None_2; [done|rewrite length_fmap; lia|unfold view_bytes; rewrite length_bytes_at; lia].
Qed.

Lemma written_contents bb ib d d' pos data n :
  written bb ib d d' pos data -> length data = n -> file_bytes d' bb ib pos n = data.
Proof.
  intros [W _] <-. apply list_eq. intros k. destruct (decide (k < length data)%nat) as [Hk|Hk].
  - destruct (lookup_lt_is_Some_2 data k Hk) as [c Hc]. unfold file_bytes. rewrite bytes_at_lookup, Hc by done.
    f_equal. by apply W.
  - unfold file_bytes. rewrite !lookup_ge_None_2; [done|lia|rewrite length_bytes_at; lia].
Qed.

(** C9: Copying.  A program that reads [n] bytes from one file into its memory with
    [sysread] and writes them to another with [syswrite] gets both calls to return
    [n], and the bytes of the second file from its position on are then the bytes
    of the first. *)
Theorem sys_copy_correct (s : kst) p x own l last r fd1 fd2 buf n i j f g :
  calls s p x own l last r -> user_buffer buf n -> allows (uview (mem_of_kstate s) r) buf n (Z.lor PTE_R (Z.lor PTE_W PTE_U)) ->
  fd_file x fd1 i -> fd_file x fd2 j -> i <> j -> open_file (k_fs s) i f -> open_file (k_fs s) j g ->
  distinct_blocks (the_inode (k_fs s) g) (file_size g) -> inode_number g < num_inodes (boot_block (k_fs s)) ->
  file_position f + n <= file_size f -> file_position g + n <= file_size g ->
  exists s1 s2, sysread fd1 buf n s = Done n s1 /\ syswrite fd2 buf n s1 = Done n s2 /\
    contents_at (k_fs s2) g (file_position g) (Z.to_nat n) =
      w8 <$> contents_at (k_fs s) f (file_position f) (Z.to_nat n).
Proof.
  intros HC HB Hal Hf Hg Hij HOf HOg Hdist Hino Hfitf Hfitg. pose proof HB as (_ & Hn & Hend).
  assert (Hbig : forall k h, open_file (k_fs s) k h -> 0 <= file_position h /\ file_size h < 2 ^ 64).
  { intros k h HO. pose proof (lay_size _ _ _ _ (of_layout _ _ _ HO)). pose proof (of_pos _ _ _ HO).
    unfold MAX_BLOCKS, FS_BLKSZ in *. lia. }
  pose proof (Hbig i f HOf). pose proof (Hbig j g HOg).
  assert (Mf : moved f n = n) by (unfold moved; lia). assert (Mg : moved g n = n) by (unfold moved; lia).
  destruct (read_run s p x own l last r fd1 buf n i f) as (s1 & E1 & C1 & _ & S1 & O1 & D1 & F1); [done..|lia| |].
  { by apply (allows_flags _ _ _ (Z.lor PTE_R (Z.lor PTE_W PTE_U))). }
  rewrite Mf in *. set (data := contents_at (k_fs s) f (file_position f) (Z.to_nat n)) in *.
  assert (Hlen : length data = Z.to_nat n) by (unfold data, contents_at, file_bytes; by rewrite length_bytes_at).
  destruct (open_file_other _ _ _ _ _ _ HOg O1 (not_eq_sym Hij) D1 F1) as [HOg1 Hin]. pose proof F1 as (Hbb & _).
  destruct (write_run s1 p x own l last r fd2 buf n j g) as (fs & E2 & _ & Hi2 & W & (Hbb2 & _)); [done..| | |lia| |].
  { by rewrite Hin. }
  { by rewrite Hbb. }
  { apply (allows_after_write (uview (mem_of_kstate s) r) _ _ data); [exact (sh_view _ _ _ _ _ _ S1)|done|].
    by apply (allows_flags _ _ _ (Z.lor PTE_R (Z.lor PTE_W PTE_U))). }
  rewrite Mg in *. exists s1, (set_k_fs fs s1). split; [done|]. split; [done|].
  assert (HV : view_bytes (uview (mem_of_kstate s1) r) buf (Z.to_nat n) = w8 <$> data).
  { rewrite <- Hlen. apply (view_bytes_write (uview (mem_of_kstate s) r) _ _ _ (Z.lor PTE_R (Z.lor PTE_W PTE_U)));
      [exact (sh_view _ _ _ _ _ _ S1)| |]; by rewrite Hlen, Z2Nat.id by lia. }
  rewrite HV, take_ge in W by (rewrite length_fmap, Hlen; lia).
  unfold contents_at at 1. cbn [k_fs set_k_fs]. rewrite Hi2, Hbb2.
  apply (written_contents _ _ _ _ _ _ _ W). by rewrite length_fmap, Hlen.
Qed.
End Sys.

(** ** A concrete kernel

    The file of [ElfProps] is open twice, at its start and at offset 100, and the
    first user page is mapped. *)

Definition two_file (pos : Z) : file_struct := MkFile 1 pos 124 0 1.
Definition two_fs : fstate (vioblk_device ramdisk) :=
  MkFs exec_dev true (bytes_at exec_image 0 4096) (two_file 0 :: two_file 100 :: replicate 30 no_file)
    (replicate 4096 0) (replicate 4096 0) false.

Lemma two_open i pos : file_structs two_fs !! i = Some (two_file pos) -> 0 <= pos -> open_file two_fs i (two_file pos).
Proof.
  intros Hi Hp. destruct exec_open as [_ _ _ _ E5 _ E7 E8 E9].
  constructor; [exact Hi|discriminate|reflexivity|reflexivity|exact E5|exact Hp|exact E7|exact E8|exact E9].
Qed.

Lemma two_distinct pos : distinct_blocks (the_inode two_fs (two_file pos)) 124.
Proof. intros k1 k2 H1 H2 _. unfold FS_BLKSZ in *. lia. Qed.

Definition two_process : process :=
  MkProc 0 0 0 (Some (IoFile 0) :: Some (IoFile 1) :: replicate 14 None) 0 0 (replicate 10 0).
Definition two_kernel : kstate (vioblk_device ramdisk) (drvs ramdisk) :=
  set_k_procs {[ 500 := two_process ]} (set_k_fs two_fs exec_kernel).

Lemma two_calls : exists m own l,
  calls (put_mem_kstate m two_kernel) 500 two_process own l 0 demo_root /\
  forall v, 0xC0000000 <= v < 0xC0001000 -> uview m demo_root v = Some (0, leaf_flags RWU).
Proof.
  destruct demo_pages as [|pp pages] eqn:Hp; [discriminate|].
  destruct (view_map_page demo_state demo_own pp pages 0 demo_root 0xC0000000 RWU) as (m & own & l & E & HA & _ & S).
  - rewrite <- Hp. exact demo_active.
  - assert (H : length demo_pages = 8%nat) by reflexivity. rewrite Hp in H. cbn in H. lia.
  - unfold user_vma, USER_START_VMA, USER_END_VMA. lia.
  - reflexivity.
  - exists m, own, l. split.
    + constructor; [|reflexivity|exact HA]. apply runs_put_mem.
      destruct exec_runs as [R]. by constructor.
    + intros v Hv. rewrite (sh_view _ _ _ _ _ _ S)
        by (apply user_upper; unfold user_vma, USER_START_VMA, USER_END_VMA; lia).
      by rewrite decide_True by (unfold PAGE_SIZE; lia).
Qed.

Lemma two_allows m own l flags :
  calls (put_mem_kstate m two_kernel) 500 two_process own l 0 demo_root ->
  (forall v, 0xC0000000 <= v < 0xC0001000 -> uview m demo_root v = Some (0, leaf_flags RWU)) ->
  Z.land (leaf_flags RWU) flags = flags -> allows (uview m demo_root) 0xC0000010 4 flags.
Proof. intros _ H Hf v Hv. exists 0, (leaf_flags RWU). split; [apply H; lia|done]. Qed.

Lemma two_buffer : user_buffer 0xC0000010 4.
Proof. unfold user_buffer, USER_START_VMA, USER_END_VMA. lia. Qed.

Lemma two_fd0 : fd_file two_process 0 0.
Proof. split; [|done]. unfold PROCESS_IOMAX. lia. Qed.
Lemma two_fd1 : fd_file two_process 1 1.
Proof. split; [|done]. unfold PROCESS_IOMAX. lia. Qed.

(** The first bytes of the file arrive in the middle of the page. *)
Lemma sysread_correct_witness : exists s s' : kstate (vioblk_device ramdisk) (drvs ramdisk),
  sysread 0 0xC0000010 4 s = Done 4 s' /\ sysread 7 0xC0000010 4 s = Done (- EBADFD) s /\
  uview (mem_of_kstate s') demo_root 0xC0000010 = Some (127, leaf_flags RWU) /\
  uview (mem_of_kstate s') demo_root 0xC0000014 = Some (0, leaf_flags RWU).
Proof.
  destruct two_calls as (m & own & l & HC & HV).
  destruct (sysread_correct _ _ _ _ _ _ _ 7 _ _ HC two_buffer) as [HN _].
  destruct (sysread_correct _ _ _ _ _ _ _ 0 _ _ HC two_buffer) as [_ HF].
  destruct (HF 0%nat (two_file 0) two_fd0 (two_open 0 0 eq_refl ltac:(lia)) ltac:(cbn; lia)) as [_ HR].
  destruct HR as (s' & E & _ & _ & S & _); [by apply (two_allows m own l)|].
  eexists _, s'. split; [exact E|]. split; [apply HN; right; right; reflexivity|].
  rewrite !(sh_view _ _ _ _ _ _ S) by (apply user_upper; unfold user_vma, USER_START_VMA, USER_END_VMA; lia).
  unfold view_write. change (mem_of_kstate (put_mem_kstate m two_kernel)) with m. rewrite !HV by lia.
  split; vm_compute; reflexivity.
Defined.

(** The zeros of the page are written at offset 100. *)
Lemma syswrite_correct_witness : exists s s' : kstate (vioblk_device ramdisk) (drvs ramdisk),
  syswrite 1 0xC0000010 4 s = Done 4 s' /\ syswrite (-1) 0xC0000010 4 s = Done (- EBADFD) s /\
  mem_of_kstate s' = mem_of_kstate s.
Proof.
  destruct two_calls as (m & own & l & HC & HV).
  destruct (syswrite_correct _ _ _ _ _ _ _ (-1) _ _ HC two_buffer) as [HN _].
  destruct (syswrite_correct _ _ _ _ _ _ _ 1 _ _ HC two_buffer) as [_ HF].
  destruct (HF 1%nat (two_file 100) two_fd1 (two_open 1 100 eq_refl ltac:(lia))) as [_ HR].
  destruct HR as (s' & E & _ & _ & Hm & _); [exact (two_distinct 100)|by vm_compute|cbn; lia|by apply (two_allows m own l)|].
  eexists _, s'. split; [exact E|]. split; [apply HN; left; lia|exact Hm].
Defined.

(** The four magic bytes are copied to offset 100 of the same file. *)
Lemma sys_copy_correct_witness : exists s s1 s2 : kstate (vioblk_device ramdisk) (drvs ramdisk),
  sysread 0 0xC0000010 4 s = Done 4 s1 /\ syswrite 1 0xC0000010 4 s1 = Done 4 s2 /\
  contents_at (k_fs s2) (two_file 100) 100 4 = [127; 69; 76; 70].
Proof.
  destruct two_calls as (m & own & l & HC & HV).
  destruct (sys_copy_correct _ _ _ _ _ _ _ 0 1 0xC0000010 4 0 1 (two_file 0) (two_file 100) HC two_buffer)
    as (s1 & s2 & E1 & E2 & H); [by apply (two_allows m own l)|exact two_fd0|exact two_fd1|done|
    by apply two_open|by apply two_open|exact (two_distinct 100)|by vm_compute|cbn; lia|cbn; lia|].
  eexists _, s1, s2. split; [exact E1|]. split; [exact E2|]. refine (eq_trans H _). vm_compute. reflexivity.
Defined.
