(* ===== verification/ForkProps.v ===== *)
(** * The fork of a process, as a whole (syscall.c, thread.c, memory.c, ezheap.c)

    [sysfork] takes memory from the heap, copies the descriptors, clones the
    address space, makes a thread and switches to it.  The invariant [kinv] joins
    those of the components; the theorem shows that a fork keeps it and gives the
    effect of the call on what both processes see; [process_exit_kinv] shows that
    the end of a process keeps it. *)

From stdpp Require Import base gmap list strings numbers.
From Stdlib Require Import Lia ZArith.
From S2P Require Import Prelude CMem PageAlloc PageTable PageInv VmSpace UserRange Heap MemInit Clone VmProps UserMem Grow ThreadList Thread Sched SchedOps SchedProps Timer BlockIo Vioblk Kfs Io Device Process Drivers Syscall ProcProps ExecProps.
Local Open Scope Z_scope.
Local Open Scope kern_scope.

(** The scheduler's invariant does not look at memory spaces. *)
Lemma sinv_same s s' rl wl :
  sinv s rl wl -> thr s' = thr s -> thrtab s' = thrtab s -> ready s' = ready s -> conds s' = conds s ->
  curthr s' = curthr s -> main_thr s' = main_thr s -> idle_thr s' = idle_thr s -> freed_stacks s' = freed_stacks s ->
  sinv s' rl wl.
Proof.
  intros [[H1 Hc] H2 H3 H4 H5 H6 H7] E1 E2 E3 E4 E5 E6 E7 E8. constructor; rewrite ?E1, ?E2, ?E5, ?E6, ?E7, ?E8; auto.
  split; [rewrite E5; by apply (sched_same s)|]. unfold cur_state. by rewrite E1, E5.
Qed.

(** The running thread is given to a process. *)
Lemma sinv_set_proc s rl wl t p :
  sinv s rl wl -> thr s !! curthr s = Some t -> sinv (set_thr (<[curthr s := set_proc p t]> (thr s)) s) rl wl.
Proof.
  intros [[HS Hc] H2 H3 H4 H5 H6 H7] Ht. destruct (status_cur_lookup _ _ Hc) as (t0 & Ht0 & Hst).
  rewrite Ht in Ht0. injection Ht0 as <-.
  assert (Hid : forall a n b c d, ident (<[curthr s := set_proc p t]> (thr s)) a = Some (n, b, c, d) ->
    exists c', ident (thr s) a = Some (n, b, c', d)).
  { intros a n b c d. unfold ident. destruct (decide (curthr s = a)) as [<-|Hne].
    - rewrite lookup_insert_eq, Ht. cbn. intros [= <- <- <- <-]. by eexists.
    - rewrite lookup_insert_ne by done. by eexists. }
  constructor; cbn [thr set_thr curthr idle_thr main_thr thrtab freed_stacks]; auto.
  - split; [|exists (t_wait t); cbn; rewrite status_insert, decide_True by done; by rewrite <- Hst].
    pose proof (sched_off s _ rl wl (curthr s) t (set_proc p t) HS Ht eq_refl) as HO.
    destruct HO as [A1 A2 A3 A4 A5 A6 A7 A8]; [by rewrite Hst|by cbn; rewrite Hst|]. constructor; auto.
    intros q w Hq. specialize (A7 q w Hq). by case_decide.
  - intros a n b c d Ha. destruct (Hid _ _ _ _ _ Ha) as [c' Ha']. by eapply H3.
  - intros i a Hi Ha. destruct (decide (curthr s = a)) as [<-|Hne]; unfold ident.
    + by rewrite lookup_insert_eq.
    + rewrite lookup_insert_ne by done. by eapply H4.
  - intros a n b c d Ha. destruct (Hid _ _ _ _ _ Ha) as [c' Ha']. by eapply H6.
Qed.

Section Fork.
Context {B St : Type} {BI : BlockIo B} {DR : Drivers St} {DS : DriversSpec St}.
Abbreviation kst := (kstate B St).
Context (junk : process) (stale : thread_list) (main : Z).

Definition threads (s : kst) : tstate := ts (k_tm s).
Definition root_of (x : process) : Z := mtag_to_root (p_mtag x).

(** The kernel at rest.  [L] are the processes, [rl] and [wl] the ready and waiting
    threads, [blocks] the memory of the kernel's objects: the static ones, the
    blocks of the heap, kernel stacks, and the zero address.  A process that has
    exited keeps its structure, its slot and its (emptied) root table, and stays in
    [L] with an empty descriptor table. *)
Record kinv (s : kst) (own : gmap Z role) (l : list Z) (last : Z) (blocks : list span)
    (L rl : list Z) (wl : Z -> list Z) : Prop := {
  ki_heap : heap_inv (k_heap s) own l last blocks;
  ki_sched : sinv (threads s) rl wl;
  ki_thrtab : length (thrtab (threads s)) = Z.to_nat NTHR;
  ki_desc : dinv s L;
  ki_null : used blocks NULL;
  ki_procs : forall p, p ∈ L -> used blocks p;
  ki_threads : forall t, is_Some (thr (threads s) !! t) -> used blocks t;
  ki_conds : forall c, wl c <> [] -> used blocks c;
  ki_slots : forall i p, proctab s !! i = Some p -> p <> NULL -> p ∈ L;
  ki_main : own !! main = Some (Root main);
  ki_globals : forall i, 3 <= i < 512 -> has (load_pte (ms_mem (mem_of_kstate s)) (slot main i)) PTE_G = false;
  ki_spaces : forall p x, p ∈ L -> k_procs s !! p = Some x -> own !! root_of x = Some (Root (root_of x));
  ki_apart : forall p q x y, p ∈ L -> q ∈ L -> k_procs s !! p = Some x -> k_procs s !! q = Some y ->
    root_of x = root_of y -> p = q
}.

(** ** Steps *)

Lemma on_heap_step {A} (c : M hstate A) (s : kst) a h : c (k_heap s) = Done a h -> on_heap c s = Done a (set_k_heap h s).
Proof. intros E. unfold on_heap, lift. by rewrite E. Qed.

Lemma proc_upd_step p x f (s : kst) :
  k_procs s !! p = Some x -> proc_upd p f s = Done tt (set_k_procs (<[p := f x]> (k_procs s)) s).
Proof. intros H. unfold proc_upd. by rewrite H. Qed.

Lemma proc_get_step p x (s : kst) : k_procs s !! p = Some x -> proc_get p s = Done x s.
Proof. intros H. unfold proc_get. by rewrite H. Qed.

Lemma on_kvm_modify f (s : kst) : on_kvm (modify f) s = Done tt (put_mem_kstate (f (mem_of_kstate s)) s).
Proof. done. Qed.

(** The thread of a forked process, over the kernel state. *)
Lemma fork_thread (s : kst) rl wl child q mtag :
  sinv (threads s) rl wl -> length (thrtab (threads s)) = Z.to_nat NTHR ->
  thr (threads s) !! child = None -> child <> NULL -> find_slot (thrtab (threads s)) <> NTHR ->
  wl (child_exit child) = [] ->
  exists t, on_threads (thread_fork_to_user child q mtag tlclear) s =
      Done (find_slot (thrtab (threads s))) (put_mem_kstate (set_satp mtag (mem_of_kstate s)) (set_k_tm (set_ts t (k_tm s)) s)) /\
    sinv t (rl ++ [curthr (threads s)]) wl /\ length (thrtab t) = Z.to_nat NTHR /\ curthr t = child /\
    (exists u, thr t !! child = Some u /\ t_id u = find_slot (thrtab (threads s)) /\ t_proc u = q) /\
    thrtab t = <[Z.to_nat (find_slot (thrtab (threads s))) := child]> (thrtab (threads s)) /\
    (forall a, a <> child -> ident (thr t) a = ident (thr (threads s)) a).
Proof.
  intros HI Hlen Hc Hn Hs Hw. set (v := ts (thread_view s)).
  assert (HV : sinv v rl wl) by (by apply (sinv_same (threads s))).
  assert (Hcl : cond_list v (child_exit child) = tlclear).
  { destruct (si_run _ _ _ HV) as [HS _]. pose proof (sc_cond _ _ _ _ HS (child_exit child)) as Hr. rewrite Hw in Hr.
    by apply tl_rep_nil in Hr. }
  destruct (sinv_fork v rl wl child q mtag tlclear HV) as (t & E & HI'); [done|].
  destruct (thread_fork_step v rl wl child q mtag (si_run _ _ _ HV) Hc Hn Hs Hw)
    as (t2 & E2 & _ & C1 & C2 & C3 & C4 & [D1 D2 D3 D4] & C5 & C6 & C7).
  rewrite E2 in E. injection E as <-. change (thrtab v) with (thrtab (threads s)) in *.
  set (old := ts (k_tm s)). exists (set_procs (proc_mtag old) (set_mtag (cur_mtag old) t2)). split_and!.
  - rewrite (on_ts_step _ _ _ _ E2). unfold thread_put, put_mem_kstate, mem_of_kstate. cbn. by rewrite C2.
  - by apply (sinv_same t2).
  - cbn. rewrite C4, length_insert. done.
  - done.
  - unfold ident in C7. cbn. destruct (thr t2 !! child) as [u|]; [|done]. cbn in C7. injection C7 as _ H1 H2 _. by exists u.
  - done.
  - done.
Qed.

(** The memory a fork takes: the clone, the thread structure and its stack. *)
Record forked_memory (h : hstate) (own : gmap Z role) (blocks : list span) (r c child : Z)
    (h' : hstate) (own' : gmap Z role) (l' : list Z) (last : Z) (blocks' : list span) : Prop := {
  fm_heap : heap_inv h' own' l' last blocks';
  fm_used : forall a, used blocks a -> used blocks' a /\ a <> child;
  fm_child : used blocks' child;
  fm_apart : forall a, used blocks a -> ~ inside (child, round16 SIZEOF_THREAD) a;
  fm_grows : grows (h_vm h) own (h_vm h') own';
  fm_fresh : own !! c = Some Free;
  fm_root : own' !! c = Some (Root c);
  fm_tag : mtag_to_root (sv39_mtag 0 c) = c;
  fm_view : forall v, user_vma v -> uview (h_vm h') c v = uview (h_vm h) r v
}.

Lemma fork_memory (h : hstate) own l last blocks parent_mtag r :
  heap_inv h own l last blocks -> mtag_to_root parent_mtag = r -> own !! r = Some (Root r) -> own !! main = Some (Root main) ->
  (forall i, 3 <= i < 512 -> has (load_pte (ms_mem (h_vm h)) (slot main i)) PTE_G = false) ->
  (3 + 3 * length (mapped (ms_mem (h_vm h)) r USER_PAGES) <= length l)%nat ->
  exists c m1 child h2 sp own' l', 
    memory_space_clone main parent_mtag 0 (h_vm h) = Done (sv39_mtag 0 c) m1 /\
    kmalloc SIZEOF_THREAD (set_vm m1 h) = Done child h2 /\
    memory_alloc_page (h_vm h2) = Done sp (alloc_state (h_vm h2)) /\
    let anchor := sp + PAGE_SIZE - 16 in
    let mem' := store64 (store64 (ms_mem (alloc_state (h_vm h2))) anchor child) (anchor + 8) 0 in
    exists blocks', forked_memory h own blocks r c child (set_vm (set_mem mem' (alloc_state (h_vm h2))) h2) own' l' last blocks'.
Proof.
  intros HI Hroot Hr Hm Hg Hl. pose proof (hi_vm _ _ _ _ _ HI) as HM.
  destruct l as [|c l]; [exfalso; cbn in Hl; lia|]. cbn [length] in Hl.
  destruct (clone_grows h own c l last blocks main r parent_mtag HI Hroot Hr Hm Hg ltac:(lia))
    as (m1 & own1 & l1 & E1 & HI1 & G1 & Hl1 & Ht & Hc1 & Hcf & V1).
  destruct (kmalloc_block (set_vm m1 h) own1 l1 last blocks SIZEOF_THREAD HI1) as
    (child & h2 & own2 & l2 & E2 & HI2 & G2 & Hl2 & U2 & F2 & A2); [unfold SIZEOF_THREAD, PAGE_SIZE; lia|lia|].
  destruct l2 as [|sp l2]; [exfalso; cbn in Hl2; lia|]. pose proof (hi_vm _ _ _ _ _ HI2) as HM2.
  assert (Hfl : free_list (h_vm h2) = sp) by apply (mi_free _ _ _ _ HM2).
  assert (Hnn : free_list (h_vm h2) <> NULL) by (eapply free_ok_head_nonnull, (mi_free _ _ _ _ HM2)).
  exists c, m1, child, h2, sp, (<[sp := Held]> own2), l2. split; [done|]. split; [done|].
  split; [rewrite (memory_alloc_page_eq _ Hnn); by rewrite Hfl|]. intros anchor mem'.
  destruct (stack_page_grows h2 own2 sp l2 last _ mem' HI2) as [HI3 G3].
  { eapply same_outside_trans; apply same_outside_store64; unfold anchor, PAGE_SIZE; lia. }
  eexists. constructor; [exact HI3| | |exact A2| |done| |done|].
  - intros a Ha. destruct (F2 a Ha) as [Ha' Hne]. split; [by apply used_cons|done].
  - by apply used_cons.
  - eapply grows_trans; [exact G1|]. eapply grows_trans; [exact G2|exact G3].
  - eapply grows_root; [exact G3|]. eapply grows_root; [exact G2|done].
  - intros v Hv. pose proof (grows_trans _ _ _ _ _ _ G2 G3) as G23. rewrite <- V1 by done.
    apply (grows_view m1 own1 l1 last _ _ c v (hi_vm _ _ _ _ _ HI1) G23 Hc1). by apply user_upper.
Qed.

(** The new thread: it runs, in process [q]; the parent is at the back of the
    ready list. *)
Record forked_thread (s : kst) (rl : list Z) (wl : Z -> list Z) (child q : Z) (t : tstate) : Prop := {
  ft_sched : sinv t (rl ++ [curthr (threads s)]) wl;
  ft_len : length (thrtab t) = Z.to_nat NTHR;
  ft_cur : curthr t = child;
  ft_thread : exists u, thr t !! child = Some u /\ t_id u = find_slot (thrtab (threads s)) /\ t_proc u = q;
  ft_tab : thrtab t = <[Z.to_nat (find_slot (thrtab (threads s))) := child]> (thrtab (threads s));
  ft_ident : forall a, a <> child -> ident (thr t) a = ident (thr (threads s)) a
}.

Definition with_space (mtag : Z) (h : hstate) : hstate := set_vm (set_satp mtag (h_vm h)) h.

Lemma fork_to_user_run (s : kst) own l last blocks rl wl cur q x y :
  heap_inv (k_heap s) own l last blocks -> sinv (threads s) rl wl -> length (thrtab (threads s)) = Z.to_nat NTHR ->
  used blocks NULL -> (forall t, is_Some (thr (threads s) !! t) -> used blocks t) ->
  (forall c, wl c <> [] -> used blocks c) -> stale = tlclear ->
  k_procs s !! cur = Some x -> k_procs s !! q = Some y -> q <> NULL ->
  own !! root_of x = Some (Root (root_of x)) -> own !! main = Some (Root main) ->
  (forall i, 3 <= i < 512 -> has (load_pte (ms_mem (mem_of_kstate s)) (slot main i)) PTE_G = false) ->
  find_slot (thrtab (threads s)) <> NTHR ->
  (3 + 3 * length (mapped (ms_mem (mem_of_kstate s)) (root_of x) USER_PAGES) <= length l)%nat ->
  exists c child h' own' l' blocks' t,
    let mtag := sv39_mtag 0 c in let tid := find_slot (thrtab (threads s)) in
    fork_to_user stale main cur q s =
      Done 0 (MkK (set_ts t (k_tm s)) (with_space mtag h') (k_fs s) (k_dev s)
        (<[q := with_tid tid (with_mtag mtag y)]> (k_procs s)) (proctab s) (procmgr_initialized s)) /\
    forked_memory (k_heap s) own blocks (root_of x) c child h' own' l' last blocks' /\
    forked_thread s rl wl child q t.
Proof.
  intros HI HS Hlen Hnull Hthr Hcond -> Hx Hy Hq Hr Hm Hg Hslot Hl.
  destruct (fork_memory (k_heap s) own l last blocks (p_mtag x) (root_of x) HI eq_refl Hr Hm Hg Hl)
    as (c & m1 & child & h2 & sp & own' & l' & E1 & E2 & E3 & blocks' & FM).
  set (mtag := sv39_mtag 0 c) in *. set (tid := find_slot (thrtab (threads s))) in *.
  set (h3 := set_vm (set_mem _ _) h2) in *. destruct (fm_used _ _ _ _ _ _ _ _ _ _ _ FM NULL Hnull) as [_ Hcn].
  assert (Hfresh : thr (threads s) !! child = None).
  { destruct (thr (threads s) !! child) as [u|] eqn:E; [|done].
    by destruct (fm_used _ _ _ _ _ _ _ _ _ _ _ FM child (Hthr child ltac:(by eexists))). }
  assert (Hwait : wl (child_exit child) = []).
  { destruct (wl (child_exit child)) eqn:Ew; [done|]. exfalso.
    apply (fm_apart _ _ _ _ _ _ _ _ _ _ _ FM (child_exit child)); [apply Hcond; congruence|].
    change (round16 SIZEOF_THREAD) with 208. unfold inside, child_exit. cbn. lia. }
  assert (Hmt : mtag <> 0).
  { intros E0. pose proof (fm_tag _ _ _ _ _ _ _ _ _ _ _ FM) as Ht. fold mtag in Ht. rewrite E0 in Ht.
    pose proof (minv_page_nonnull _ _ _ _ _ _ (hi_vm _ _ _ _ _ HI) (fm_fresh _ _ _ _ _ _ _ _ _ _ _ FM)) as Hn.
    apply Hn. rewrite <- Ht. reflexivity. }
  set (s2 := set_k_procs (<[q := with_mtag mtag y]> (k_procs s)) (put_mem_kstate m1 s)).
  set (s3 := set_k_heap h3 s2).
  destruct (fork_thread s3 rl wl child q mtag HS Hlen Hfresh (not_eq_sym Hcn) Hslot Hwait) as (t & E4 & T1 & T2 & T3 & T4 & T5 & T6).
  exists c, child, h3, own', l', blocks', t. cbv zeta. split; [|split; [done|by constructor]].
  unfold fork_to_user. rewrite (proj2 (Z.eqb_neq q NULL) Hq). mstep (proc_get_step cur x s Hx).
  mstep (on_kvm_step _ s _ _ E1). fold mtag. rewrite (proj2 (Z.eqb_neq mtag 0) Hmt).
  mstep (proc_upd_step q y (with_mtag mtag) (put_mem_kstate m1 s) Hy). fold s2.
  mstep (eq_refl : gets (fun s => thrtab (ts (k_tm s))) s2 = Done (thrtab (threads s)) s2). fold tid.
  rewrite (proj2 (Z.eqb_neq tid NTHR) Hslot). mstep (on_heap_step _ s2 _ _ E2).
  mstep (on_kvm_step _ (set_k_heap h2 s2) _ _ E3).
  do 2 erewrite (bind_Done _ _ _ _ _ (on_kvm_modify _ _)).
  rewrite (bind_Done _ _ _ _ _ E4).
  rewrite (bind_Done _ _ _ _ _ (proc_upd_step q (with_mtag mtag y) _ _ (lookup_insert_eq _ _ _))).
  unfold ret. f_equal. cbn. by rewrite insert_insert_eq.
Qed.

(** ** The process table *)

Lemma free_proc_spec tab : forall k i, free_proc tab k = Some i ->
  exists j, i = (k + j)%nat /\ (j < length tab)%nat /\ forall q, (forall n p, tab !! n = Some p -> p <> NULL -> p <> q) -> q <> NULL ->
    slot_of (<[j := q]> tab) q (Z.of_nat k) = Some (Z.of_nat i).
Proof.
  induction tab as [|p tab IH]; intros k i; cbn [free_proc]; [done|]. destruct (Z.eqb_spec p NULL) as [->|Hp].
  - intros [= <-]. exists 0%nat. split; [lia|]. split; [cbn; lia|]. intros q _ _. cbn. by rewrite Z.eqb_refl.
  - intros H. destruct (IH (S k) i H) as (j & -> & Hj & Hs). exists (S j). split; [lia|]. split; [cbn; lia|].
    intros q Hq Hn. cbn. rewrite (proj2 (Z.eqb_neq p q)) by (by apply (Hq 0%nat)).
    replace (Z.of_nat k + 1) with (Z.of_nat (S k)) by lia. apply Hs; [|done]. intros n r Hr. by apply (Hq (S n)).
Qed.

(** [sysfork] up to the copy of the descriptors, then [k]. *)
Definition fork_descriptors (i : nat) (k : Z -> Z -> M kst Z) : M kst Z :=
  q <- on_heap (kmalloc SIZEOF_PROCESS) ;;
  modify (fun s => set_proctab (<[i := q]> (proctab s)) (set_k_procs (<[q := junk]> (k_procs s)) s)) ;;
  if q =? NULL then ret (-1) else
  cur <- current_process ;;
  tab' <- gets proctab ;;
  (match slot_of tab' q 0 with Some id => proc_upd q (with_id id) | None => ret tt end) ;;
  proc_upd q (fun x => with_mtag 0 (with_tid (-1) x)) ;;
  copy_iotab PROCESS_IOMAX 0 cur q ;;
  k cur q.

Lemma runs_threads (s s' : kst) p : runs s p -> k_tm s' = k_tm s -> runs s' p.
Proof. intros [H] E. constructor. unfold cur_thread in *. by rewrite E. Qed.

(** The state in between: the child has a structure and its descriptors. *)
Record fork_ready (s : kst) (own : gmap Z role) (l : list Z) (last : Z) (blocks : list span) (L : list Z)
    (cur : Z) (i : nat) (q : Z) (s' : kst) (own' : gmap Z role) (l' : list Z) (blocks' : list span) (y : process) : Prop := {
  fr_heap : heap_inv (k_heap s') own' l' last blocks';
  fr_len : (length l <= length l' + 1)%nat;
  fr_grows : grows (mem_of_kstate s) own (mem_of_kstate s') own';
  fr_used : forall a, used blocks a -> used blocks' a /\ a <> q;
  fr_block : used blocks' q;
  fr_threads : k_tm s' = k_tm s;
  fr_tab : proctab s' = <[i := q]> (proctab s);
  fr_procs : forall p, p <> q -> k_procs s' !! p = k_procs s !! p;
  fr_new : k_procs s' !! q = Some y;
  fr_id : p_id y = Z.of_nat i;
  fr_iotab : iotab y = tab_of s cur;
  fr_desc : dinv s' (q :: L);
  fr_refs : forall o, get_refcnt o s' = get_refcnt o s + count_obj o (tab_of s cur)
}.

Lemma fork_descriptors_run (s : kst) own l last blocks L rl wl cur x i :
  kinv s own l last blocks L rl wl -> runs s cur -> cur ∈ L -> k_procs s !! cur = Some x ->
  free_proc (proctab s) 0 = Some i -> length (iotab junk) = PROCESS_IOMAX -> (forall o, get_refcnt o s + 16 < 2 ^ 32) ->
  (1 <= length l)%nat ->
  exists q s' own' l' blocks' y, (forall k, fork_descriptors i k s = k cur q s') /\ q <> NULL /\ q ∉ L /\
    fork_ready s own l last blocks L cur i q s' own' l' blocks' y.
Proof.
  intros K HR Hcur Hx Hi Hj Hb Hl.
  destruct (kmalloc_block (k_heap s) own l last blocks SIZEOF_PROCESS (ki_heap _ _ _ _ _ _ _ _ K)) as
    (q & h1 & own1 & l1 & E1 & HI1 & G1 & Hl1 & U1 & F1 & _); [unfold SIZEOF_PROCESS, PAGE_SIZE; lia|done|].
  assert (Hqn : q <> NULL) by (intros ->; by destruct (F1 NULL (ki_null _ _ _ _ _ _ _ _ K))).
  assert (HqL : q ∉ L) by (intros HL; by destruct (F1 q (ki_procs _ _ _ _ _ _ _ _ K q HL))).
  assert (Hcq : cur <> q) by (intros ->; done).
  set (s1 := set_proctab (<[i := q]> (proctab s)) (set_k_procs (<[q := junk]> (k_procs s)) (set_k_heap h1 s))).
  set (y1 := with_mtag 0 (with_tid (-1) (with_id (Z.of_nat i) junk))).
  set (s2 := set_k_procs (<[q := y1]> (k_procs s)) s1).
  assert (Hoff : forall p, p <> q -> k_procs s2 !! p = k_procs s !! p) by (intros p Hp; cbn; by rewrite lookup_insert_ne).
  assert (D2 : dinv s2 L).
  { apply (dinv_tabs s); [apply (ki_desc _ _ _ _ _ _ _ _ K)|done..|]. intros p Hp.
    rewrite Hoff by (intros ->; done). destruct (di_procs _ _ (ki_desc _ _ _ _ _ _ _ _ K) p Hp) as (z & Hz & _).
    exists z. split; [done|]. unfold tab_of. by rewrite Hz. }
  assert (Htab : tab_of s2 cur = tab_of s cur) by (unfold tab_of; by rewrite Hoff).
  destruct (copy_iotab_ok L cur q PROCESS_IOMAX 0 s2) as (s3 & E3 & C3 & R3 & A1 & A2 & A3 & A4 & A5); [done| |exact Hb|].
  { constructor; [done..| |].
    - exists y1. split; [cbn; by rewrite lookup_insert_eq|]. split; [exact Hj|by rewrite !take_0].
    - intros o. rewrite take_0. pose proof (di_refs _ _ D2 o). change (count_obj o []) with 0. lia. }
  destruct (copied_dinv s3 L cur q C3) as [D3 T3]. destruct (A5 y1) as [t Ht]; [cbn; by rewrite lookup_insert_eq|].
  assert (Htc : tab_of s3 cur = tab_of s cur) by (rewrite <- Htab; unfold tab_of; by rewrite A4).
  exists q, s3, own1, l1, ((q, round16 SIZEOF_PROCESS) :: blocks), (with_iotab t y1). split; [|split; [done|split; [done|]]].
  - intros k. unfold fork_descriptors. mstep (on_heap_step _ s _ _ E1).
    mstep (eq_refl : modify (fun s : kst => set_proctab (<[i := q]> (proctab s)) (set_k_procs (<[q := junk]> (k_procs s)) s))
      (set_k_heap h1 s) = Done tt s1). rewrite (proj2 (Z.eqb_neq q NULL) Hqn).
    mstep (runs_current s1 cur (runs_threads s s1 cur HR eq_refl)). mstep (gets_eq proctab s1).
    destruct (free_proc_spec (proctab s) 0 i Hi) as (j & -> & _ & Hsl).
    change (proctab s1) with (<[j := q]> (proctab s)). rewrite Hsl;
      [|intros n p Hp Hpn ->; by apply HqL, (ki_slots _ _ _ _ _ _ _ _ K n)|done].
    mstep (proc_upd_step q junk (with_id (Z.of_nat (0 + j))) s1 (lookup_insert_eq _ _ _)).
    rewrite (bind_Done _ _ _ _ _ (proc_upd_step q (with_id (Z.of_nat (0 + j)) junk) _ _ (lookup_insert_eq _ _ _))).
    assert (Es : set_k_procs (<[q := y1]> (<[q := with_id (Z.of_nat (0 + j)) junk]> (k_procs s1)))
      (set_k_procs (<[q := with_id (Z.of_nat (0 + j)) junk]> (k_procs s1)) s1) = s2).
    { unfold s2, s1. cbn. by rewrite !insert_insert_eq. }
    cbn [k_procs set_k_procs] in Es |- *. fold y1. rewrite Es. mstep E3. done.
  - constructor; try done.
    + by rewrite A2.
    + unfold mem_of_kstate. by rewrite A2.
    + intros p Hp. rewrite A4 by done. by apply Hoff.
    + transitivity (tab_of s3 q); [unfold tab_of; by rewrite Ht|congruence].
    + intros o. rewrite R3, drop_0, Htab. by destruct o.
Qed.

(** The child and the parent after a fork. *)
Record fork_result (s : kst) (own : gmap Z role) (L : list Z) (cur : Z) (x : process) (i : nat)
    (s' : kst) (q : Z) (y : process) : Prop := {
  fo_new : q ∉ L;
  fo_slot : proctab s' = <[i := q]> (proctab s);
  fo_proc : k_procs s' !! q = Some y;
  fo_id : p_id y = Z.of_nat i;
  fo_tid : p_tid y = find_slot (thrtab (threads s));
  fo_runs : runs s' q;
  fo_active : satp (mem_of_kstate s') = p_mtag y;
  fo_others : forall p, p <> q -> k_procs s' !! p = k_procs s !! p;
  fo_iotab : iotab y = iotab x;
  fo_refs : forall o, get_refcnt o s' = get_refcnt o s + count_obj o (iotab x);
  fo_copy : forall v, user_vma v -> uview (mem_of_kstate s') (root_of y) v = uview (mem_of_kstate s) (root_of x) v;
  fo_views : forall r v, own !! r = Some (Root r) -> upper v -> uview (mem_of_kstate s') r v = uview (mem_of_kstate s) r v
}.

Lemma ident_is_Some (m : tmap) a : is_Some (ident m a) <-> is_Some (m !! a).
Proof. unfold ident. by rewrite fmap_is_Some. Qed.

Lemma heap_inv_satp h own l last blocks v : heap_inv h own l last blocks -> heap_inv (with_space v h) own l last blocks.
Proof. intros [H1 H2 H3 H4 H5]. constructor; try done. by apply minv_set_satp. Qed.

(** The child's thread is found through the thread table. *)
Lemma forked_runs (s s' : kst) rl wl child q t :
  forked_thread s rl wl child q t -> length (thrtab (threads s)) = Z.to_nat NTHR -> child <> NULL ->
  find_slot (thrtab (threads s)) <> NTHR -> threads s' = t -> runs s' q.
Proof.
  intros [_ _ T3 (u & Hu & Hid & Hp) T5 _] Hl Hn Hs E. constructor. unfold cur_thread. fold (threads s'). rewrite E, T3.
  destruct (find_slot_spec (thrtab (threads s))) as (Hr & _). exists u, child, u. rewrite Hid, T5.
  split_and!; try done; [lia|lia|]. apply list_lookup_insert_eq. lia.
Qed.

(** The rest of [sysfork]. *)
Definition fork_rest (cur q : Z) : M kst Z :=
  result <- fork_to_user stale main cur q ;;
  if result <? 0 then
    proc_upd q (fun _ => MkProc 0 0 0 (replicate PROCESS_IOMAX None) 0 0 (replicate NSIG 0)) ;;
    modify (fun s => set_proctab (<[0%nat := NULL]> (proctab s)) s) ;;
    close_copied PROCESS_IOMAX 0 cur ;;
    ret result
  else x <- proc_get q ;; ret (p_id x).

Lemma sysfork_split (s : kst) i :
  free_proc (proctab s) 0 = Some i -> sysfork junk stale main s = fork_descriptors i fork_rest s.
Proof. intros Hi. unfold sysfork. mstep (gets_eq proctab s). by rewrite Hi. Qed.

(** ** The whole call

    The state after the call, in terms of the steps of the fork. *)
Section Forked.
Context (s : kst) (own : gmap Z role) (l : list Z) (last : Z) (blocks : list span) (L rl : list Z) (wl : Z -> list Z).
Context (cur : Z) (x : process) (i : nat).
Hypothesis K : kinv s own l last blocks L rl wl.
Hypothesis Hcur : cur ∈ L.
Hypothesis Hx : k_procs s !! cur = Some x.
Hypothesis Hslot : find_slot (thrtab (threads s)) <> NTHR.
Context (q : Z) (s1 : kst) (own1 : gmap Z role) (l1 : list Z) (blocks1 : list span) (y : process).
Hypothesis HqL : q ∉ L.
Hypothesis F : fork_ready s own l last blocks L cur i q s1 own1 l1 blocks1 y.
Context (c child : Z) (h' : hstate) (own' : gmap Z role) (l' : list Z) (blocks' : list span) (t : tstate).
Hypothesis FM : forked_memory (k_heap s1) own1 blocks1 (root_of x) c child h' own' l' last blocks'.
Hypothesis FT : forked_thread s1 rl wl child q t.
Let mtag := sv39_mtag 0 c.
Let y' := with_tid (find_slot (thrtab (threads s1))) (with_mtag mtag y).
Let s' := MkK (set_ts t (k_tm s1)) (with_space mtag h') (k_fs s1) (k_dev s1)
  (<[q := y']> (k_procs s1)) (proctab s1) (procmgr_initialized s1).

Lemma forked_threads : threads s1 = threads s.
Proof using F. unfold threads. by rewrite (fr_threads _ _ _ _ _ _ _ _ _ _ _ _ _ _ F). Qed.

Lemma forked_others p : p <> q -> k_procs s' !! p = k_procs s !! p.
Proof using F. intros Hp. cbn. rewrite lookup_insert_ne by done. by apply (fr_procs _ _ _ _ _ _ _ _ _ _ _ _ _ _ F). Qed.

Lemma forked_new : k_procs s' !! q = Some y'.
Proof. cbn. apply lookup_insert_eq. Qed.

Lemma forked_root : root_of y' = c.
Proof using FM. exact (fm_tag _ _ _ _ _ _ _ _ _ _ _ FM). Qed.

Lemma forked_grows : grows (mem_of_kstate s) own (h_vm h') own'.
Proof using F FM. eapply grows_trans; [apply F|apply FM]. Qed.

(** The space of the child is nobody else's. *)
Lemma forked_apart p z : p ∈ L -> k_procs s !! p = Some z -> root_of z <> c.
Proof using F FM K.
  intros Hp Hz E. pose proof (grows_root _ _ _ _ _ (fr_grows _ _ _ _ _ _ _ _ _ _ _ _ _ _ F) (ki_spaces _ _ _ _ _ _ _ _ K p z Hp Hz)) as H.
  by rewrite E, (fm_fresh _ _ _ _ _ _ _ _ _ _ _ FM) in H.
Qed.

(** Every process after the fork is the child or an old one. *)
Lemma forked_cases p z :
  p ∈ q :: L -> k_procs s' !! p = Some z -> p = q /\ z = y' \/ p <> q /\ p ∈ L /\ k_procs s !! p = Some z.
Proof using F HqL.
  intros Hp Hz. destruct (decide (p = q)) as [->|Hne]; [left|right].
  - rewrite forked_new in Hz. by injection Hz as <-.
  - apply elem_of_cons in Hp as [->|Hp]; [done|]. by rewrite forked_others in Hz.
Qed.

Lemma forked_dinv : dinv s' (q :: L).
Proof using DS F.
  destruct F as [F1 F2 F3 F4 F5 F6 F7 F8 F9 F10 F11 F12 F13].
  apply (dinv_tabs s1 s' (q :: L) F12); [done|done|]. intros p Hp. destruct (decide (p = q)) as [->|Hne].
  - exists y'. split; [apply forked_new|]. unfold tab_of. by rewrite F9.
  - rewrite forked_others by done. destruct (di_procs _ _ F12 p Hp) as (z & Hz & _). exists z. unfold tab_of. rewrite Hz.
    split; [|done]. by rewrite <- F8.
Qed.

Lemma forked_kinv : kinv s' own' l' last blocks' (q :: L) (rl ++ [curthr (threads s)]) wl.
Proof using DS F FM FT K HqL.
  pose proof K as [K1 K2 K3 K4 K5 K6 K7 Kc K8 K9 K10 K11 K12].
  pose proof F as [F1 F2 F3 F4 F5 F6 F7 F8 F9 F10 F11 F12 F13]. pose proof FM as [M1 M2 M3 Ma M4 M5 M6 M7 M8].
  pose proof forked_grows as G. constructor.
  - by apply heap_inv_satp.
  - rewrite <- forked_threads. apply (ft_sched _ _ _ _ _ _ FT).
  - apply (ft_len _ _ _ _ _ _ FT).
  - apply forked_dinv.
  - by apply M2, F4.
  - intros p Hp. apply M2. apply elem_of_cons in Hp as [->|Hp]; [done|]. by apply F4, K6.
  - intros a Ha. destruct (decide (a = child)) as [->|Hne]; [done|]. apply M2, F4, K7, ident_is_Some.
    rewrite <- forked_threads, <- (ft_ident _ _ _ _ _ _ FT) by done. by apply ident_is_Some.
  - intros a Ha. by apply M2, F4, Kc.
  - intros n p. cbn. rewrite F7. intros Hn Hpn. apply list_lookup_insert_Some in Hn as [(_ & <- & _)|[_ Hn]]; [by left|].
    right. by eapply K8.
  - by eapply grows_root.
  - intros j Hj. change (ms_mem (mem_of_kstate s')) with (ms_mem (h_vm h')). eapply (ex_global _ _ _ _ (gr_ext _ _ _ _ G)); eauto.
  - intros p z Hp Hz. destruct (forked_cases p z Hp Hz) as [[-> ->]|(_ & Hp1 & Hz1)]; [by rewrite forked_root|].
    eapply grows_root; eauto.
  - intros p p' z z' Hp Hp' Hz Hz' Ez.
    destruct (forked_cases p z Hp Hz) as [[-> ->]|(N1 & P1 & Z1)], (forked_cases p' z' Hp' Hz') as [[-> ->]|(N2 & P2 & Z2)]; [done|..|].
    + rewrite forked_root in Ez. by destruct (forked_apart p' z' P2 Z2).
    + rewrite forked_root in Ez. by destruct (forked_apart p z P1 Z1).
    + by eapply K12.
Qed.

Lemma forked_result : fork_result s own L cur x i s' q y'.
Proof using DS F FM FT K HqL Hcur Hx Hslot.
  pose proof (hi_vm _ _ _ _ _ (ki_heap _ _ _ _ _ _ _ _ K)) as HM.
  pose proof (ki_spaces _ _ _ _ _ _ _ _ K cur x Hcur Hx) as Hr.
  pose proof F as [F1 F2 F3 F4 F5 F6 F7 F8 F9 F10 F11 F12 F13]. pose proof FM as [M1 M2 M3 Ma M4 M5 M6 M7 M8].
  assert (Htab : tab_of s cur = iotab x) by (unfold tab_of; by rewrite Hx). rewrite Htab in F11, F13.
  constructor; try done.
  - apply forked_new.
  - cbn. by rewrite forked_threads.
  - eapply (forked_runs s1 s'); [exact FT| | | |done]; rewrite ?forked_threads; [apply K| |done].
    intros ->. by destruct (M2 NULL (proj1 (F4 NULL (ki_null _ _ _ _ _ _ _ _ K)))).
  - apply forked_others.
  - intros v Hv. rewrite forked_root. change (uview (mem_of_kstate s') c v) with (uview (h_vm h') c v). rewrite M8 by done.
    eapply grows_view; eauto. by apply user_upper.
  - intros r v Hr' Hv. change (uview (mem_of_kstate s') r v) with (uview (h_vm h') r v).
    eapply grows_view; eauto using forked_grows.
Qed.
End Forked.

(** ** The end of a process

    [process_exit] keeps the invariant: the process that exits keeps its structure,
    its slot, its root table and its number, with an empty descriptor table and no page
    of its own. *)

Lemma bytes_load_pte m m' q i :
  bytes m' q (Z.to_nat PAGE_SIZE) = bytes m q (Z.to_nat PAGE_SIZE) -> 0 <= i < 512 ->
  load_pte m' (slot q i) = load_pte m (slot q i).
Proof.
  intros E Hi. unfold load_pte. f_equal. apply load64_ext. intros b Hb.
  unfold slot in Hb. assert (Hlt : (Z.to_nat (b - q) < Z.to_nat PAGE_SIZE)%nat) by (unfold PAGE_SIZE; lia).
  pose proof (bytes_lookup m' q _ _ Hlt) as H2. rewrite E, (bytes_lookup m q _ _ Hlt) in H2. injection H2 as H3.
  by replace (q + Z.of_nat (Z.to_nat (b - q))) with b in H3 by lia.
Qed.

Lemma reclaim_run (h : hstate) own l last blocks r :
  heap_inv h own l last blocks -> mtag_to_root (satp (h_vm h)) = r -> own !! r = Some (Root r) ->
  exists m own' l', memory_space_reclaim (h_vm h) = Done tt m /\ heap_inv (set_vm m h) own' l' last blocks /\
    (forall q, own !! q = Some (Root q) -> own' !! q = Some (Root q) /\
       forall i, 0 <= i < 512 -> load_pte (ms_mem m) (slot q i) = load_pte (ms_mem (h_vm h)) (slot q i)) /\
    forall v e, user_vma v -> lookup_pte (ms_mem m) r v = Some e -> nonglobal_leaf e = false.
Proof.
  intros HI Hroot Hr. pose proof (minv_set_satp _ _ _ _ (main_mtag (h_vm h)) (hi_vm _ _ _ _ _ HI)) as HM.
  destruct (unmap_loop nonglobal_leaf reclaim_page reclaim_page_keeps reclaim_page_frees _ own l last r HM Hr) as (m & own' & E & U).
  exists m, own', (reverse (freed nonglobal_leaf (ms_mem (h_vm h)) r USER_PAGES) ++ l). split; [|split; [|split]].
  - unfold memory_space_reclaim, active_space_mtag. unfold bind at 1, gets at 1.
    unfold bind at 1, gets. unfold bind at 1, modify. rewrite Hroot. exact E.
  - eapply heap_inv_vm; [exact HI|apply (um_inv _ _ _ _ _ _ _ _ _ U)|]. intros a Ha.
    unfold heap_byte. rewrite (um_own _ _ _ _ _ _ _ _ _ U). case_decide as Hf; [|exact Ha].
    destruct (freed_data _ _ _ _ _ _ _ _ HM Hr ltac:(by rewrite USER_PAGES_eq) Hf) as (k & _ & Hk). unfold heap_byte in Ha.
    rewrite Hk in Ha. by destruct Ha.
  - intros q Hq. split; [eapply unmapped_root; [exact HM|exact Hr| |exact U|done]; by rewrite USER_PAGES_eq|].
    intros i Hi. apply bytes_load_pte; [|done]. by apply (um_roots _ _ _ _ _ _ _ _ _ U).
  - intros v e Hv Hl. rewrite (um_lookup _ _ _ _ _ _ _ _ _ U) in Hl by (done || by apply user_upper).
    change (ms_mem (set_satp (main_mtag (h_vm h)) (h_vm h))) with (ms_mem (h_vm h)) in Hl.
    destruct (lookup_pte (ms_mem (h_vm h)) r v) as [e'|]; [|done]. rewrite user_page_end in Hl.
    rewrite bool_decide_eq_true_2 in Hl by (split; [done|apply Hv]). destruct (nonglobal_leaf e') eqn:En; [done|]. by injection Hl as <-.
Qed.

Lemma process_exit_kinv (s : kst) own l last blocks L rl wl cur x :
  kinv s own l last blocks L rl wl -> runs s cur -> cur ∈ L -> cur <> NULL -> k_procs s !! cur = Some x ->
  satp (mem_of_kstate s) = p_mtag x -> allowed (threads s) OExit ->
  exists s' own' l' rl' wl', process_exit s = Done tt s' /\ kinv s' own' l' last blocks L rl' wl' /\
    tab_of s' cur = replicate PROCESS_IOMAX None /\ proctab s' = proctab s /\
    (forall p, p <> cur -> k_procs s' !! p = k_procs s !! p) /\
    forall v e, user_vma v -> lookup_pte (ms_mem (mem_of_kstate s')) (root_of x) v = Some e -> nonglobal_leaf e = false.
Proof.
  intros K HR Hcur Hn Hx Hsatp Ha. pose proof K as [K1 K2 K3 K4 K5 K6 K7 Kc K8 K9 K10 K11 K12].
  destruct (reclaim_run (k_heap s) own l last blocks (root_of x) K1) as (m & own' & l' & E1 & HI1 & R1 & N1);
    [unfold root_of; by rewrite <- Hsatp|by apply (K11 cur x)|].
  set (s1 := put_mem_kstate m s). assert (D1 : dinv s1 L).
  { apply (dinv_tabs s); [done..|]. intros p Hp. destruct (di_procs _ _ K4 p Hp) as (z & Hz & _). exists z.
    split; [done|]. unfold tab_of. by rewrite Hz. }
  destruct (close_all_ok L cur PROCESS_IOMAX 0 s1) as (s2 & E2 & D2 & R2 & _); [done|done|done|].
  destruct (retabled_tab _ _ _ _ R2) as [T2 F2]. destruct R2 as (A1 & A2 & A3 & z & Hz & A4).
  assert (z = x) as -> by (change (k_procs s1) with (k_procs s) in Hz; congruence).
  assert (Et : threads s2 = threads s) by (unfold threads; by rewrite A1).
  assert (HV : sinv (ts (thread_view s2)) rl wl) by (apply (sinv_same (threads s2)); [by rewrite Et|done..]).
  destruct (sinv_exit (ts (thread_view s2)) rl wl HV) as (t & rl' & wl' & E3 & HI3 & B1 & B2 & B3).
  { cbn. unfold threads in Et. rewrite Et. exact Ha. }
  set (s3 := thread_put (set_ts t (thread_view s2)) s2).
  assert (Hm : ms_mem (mem_of_kstate s3) = ms_mem m) by (unfold mem_of_kstate; cbn; by rewrite A2).
  assert (Hp3 : forall p, p <> cur -> k_procs s3 !! p = k_procs s !! p) by exact F2.
  assert (Hc3 : k_procs s3 !! cur = Some (with_iotab (replicate PROCESS_IOMAX None) x)) by (cbn; by rewrite A4, lookup_insert_eq).
  assert (Hroot : forall p y, k_procs s3 !! p = Some y -> exists y', k_procs s !! p = Some y' /\ root_of y' = root_of y).
  { intros p y Hy. destruct (decide (p = cur)) as [->|Hne]; [|exists y; by rewrite <- Hp3].
    rewrite Hc3 in Hy. injection Hy as <-. by exists x. }
  exists s3, own', l', rl', wl'. split; [|split; [|split; [|split; [done|split; [done|by rewrite Hm]]]]].
  - unfold process_exit. mstep (runs_current s cur HR). rewrite (proj2 (Z.eqb_neq cur NULL) Hn).
    mstep (on_kvm_step _ s _ _ E1). fold s1. mstep E2. by apply on_ts_step.
  - constructor.
    + cbn. rewrite A2. by apply heap_inv_satp.
    + by apply (sinv_same t).
    + change (threads s3) with (set_procs (proc_mtag (ts (k_tm s2))) (set_mtag (cur_mtag (ts (k_tm s2))) t)). cbn.
      rewrite B1. cbn. unfold threads in Et. by rewrite Et.
    + apply (dinv_tabs s2); [done..|]. intros p Hp. destruct (di_procs _ _ D2 p Hp) as (y & Hy & _). exists y.
      split; [done|]. unfold tab_of. by rewrite Hy.
    + done.
    + done.
    + intros q Hq. apply K7, ident_is_Some. apply ident_is_Some in Hq. cbn in Hq. rewrite B2 in Hq. cbn in Hq.
      unfold threads in Et. by rewrite Et in Hq.
    + intros c Hc. apply Kc. destruct (B3 c) as [E|E]; [done|by rewrite <- E].
    + intros i p. cbn. rewrite A3. apply K8.
    + by apply R1.
    + intros i Hi. rewrite Hm. rewrite (proj2 (R1 main K9)) by lia. by apply K10.
    + intros p y Hp Hy. destruct (Hroot p y Hy) as (y' & Hy' & <-). apply R1. by apply (K11 p).
    + intros p q y y2 Hp Hq Hy Hy2 E. destruct (Hroot p y Hy) as (y' & Hy' & Ey), (Hroot q y2 Hy2) as (y2' & Hy2' & Ey2).
      apply (K12 p q y' y2'); try done. congruence.
  - unfold tab_of. by rewrite Hc3.
Qed.

(** C5: [sysfork], from the call to the switch to the child.  With a free slot in the
    process and thread tables and enough free pages, the call completes and, when the
    parent runs again, returns the slot of the child, which is its process id.  The
    child is a new process with a structure, a thread, a kernel stack and an address
    space of its own, none of which overlaps anything in use; it has the descriptors
    of the parent, each object has gained a reference per descriptor, and at every
    user address it sees the byte and the page flags the parent sees.  It runs next,
    in its own space, with the parent at the back of the ready list.  The structures
    of other processes and what every existing space shows do not change, and the
    invariants of the heap, the address spaces, the scheduler and the descriptors
    hold again.  The drivers are those of the kernel or any with their laws
    ([kernel_drivers_spec]); the devices open in descriptors are attached and their
    locks free.  The memory the thread structure is given must read as an empty
    [child_exit] list ([stale = tlclear]), since the code does not initialise it.  The
    invariant holds when processes have exited ([process_exit_kinv]): their slots stay
    taken. *)
Theorem sysfork_correct (s : kst) own l last blocks L rl wl cur x i :
  kinv s own l last blocks L rl wl -> runs s cur -> cur ∈ L -> k_procs s !! cur = Some x ->
  length (iotab junk) = PROCESS_IOMAX -> stale = tlclear -> (forall o, get_refcnt o s + 16 < 2 ^ 32) ->
  free_proc (proctab s) 0 = Some i -> find_slot (thrtab (threads s)) <> NTHR ->
  (4 + 3 * length (mapped (ms_mem (mem_of_kstate s)) (root_of x) USER_PAGES) <= length l)%nat ->
  exists s' own' l' blocks' q y, sysfork junk stale main s = Done (Z.of_nat i) s' /\
    kinv s' own' l' last blocks' (q :: L) (rl ++ [curthr (threads s)]) wl /\
    fork_result s own L cur x i s' q y.
Proof.
  intros K HR Hcur Hx Hj Hstale Hb Hi Hslot Hl.
  destruct (fork_descriptors_run s own l last blocks L rl wl cur x i K HR Hcur Hx Hi Hj Hb ltac:(lia))
    as (q & s1 & own1 & l1 & blocks1 & y & E1 & Hqn & HqL & F). pose proof (forked_threads _ _ _ _ _ _ _ _ _ _ _ _ _ _ F) as Et.
  pose proof (ki_spaces _ _ _ _ _ _ _ _ K cur x Hcur Hx) as Hr.
  pose proof (fr_grows _ _ _ _ _ _ _ _ _ _ _ _ _ _ F) as G. pose proof (fr_used _ _ _ _ _ _ _ _ _ _ _ _ _ _ F) as U.
  destruct (fork_to_user_run s1 own1 l1 last blocks1 rl wl cur q x y) as (c & child & h' & own' & l' & blocks' & t & E2 & FM & FT);
    rewrite ?Et; try apply F; try apply K; try done.
  - intros a Ha. by apply U, (ki_threads _ _ _ _ _ _ _ _ K).
  - intros c Hc. by apply U, (ki_conds _ _ _ _ _ _ _ _ K).
  - rewrite (fr_procs _ _ _ _ _ _ _ _ _ _ _ _ _ _ F); [done|]. by intros ->.
  - intros j Hj'. eapply (ex_global _ _ _ _ (gr_ext _ _ _ _ G)); [exact (ki_main _ _ _ _ _ _ _ _ K)|done|by apply (ki_globals _ _ _ _ _ _ _ _ K)].
  - rewrite (grows_mapped _ _ _ _ _ G Hr). pose proof (fr_len _ _ _ _ _ _ _ _ _ _ _ _ _ _ F). lia.
  - eexists _, own', l', blocks', q, _. split; [|split; [by eapply forked_kinv|by eapply forked_result]].
    rewrite (sysfork_split s i Hi), E1. unfold fork_rest. mstep E2. change (0 <? 0) with false. cbv iota.
    rewrite (bind_Done _ _ _ _ _ (proc_get_step q _ _ (lookup_insert_eq _ _ _))). unfold ret. cbn.
    by rewrite (fr_id _ _ _ _ _ _ _ _ _ _ _ _ _ _ F).
Qed.
End Fork.

(** ** A concrete kernel

    The process of [demo_kernel] with an address space and a kernel heap. *)

Definition fork_process : process := MkProc 0 0 (satp demo_state) demo_table 40 0 (replicate 10 0).
Definition fork_threads : tstate :=
  let t := thread_init demo_main demo_idle in
  set_thr (<[demo_main := set_proc 500 (MkThread "main" THREAD_RUNNING MAIN_TID 0 0 0 0)]> (thr t)) t.
Definition fork_kernel : kstate io_lit (drvs ramdisk) :=
  MkK (MkTm ∅ 0 0 0 false true fork_threads) (MkH 0x80010000 0x80011000 true demo_state)
    (k_fs demo_kernel) (k_dev demo_kernel) {[ 500 := fork_process ]} (500 :: replicate 15 0) true.
Definition kmalloc_blocks : list span := [(0, 1); (500, 240); (demo_main, 200); (demo_idle, 200)].

Lemma fork_heap_inv : heap_inv (k_heap fork_kernel) demo_own demo_pages 0 kmalloc_blocks.
Proof.
  assert (Hnd : NoDup demo_pages) by apply (mi_free _ _ _ _ demo_minv).
  constructor; cbn [h_vm k_heap fork_kernel heap_start heap_end].
  - exact demo_minv.
  - lia.
  - reflexivity.
  - assert (H : forall b n, 0 <= b -> b + n <= 0x80100000 -> forall a, inside (b, n) a -> heap_byte demo_own a).
    { intros b n Hb Hn a Ha. left. unfold inside in Ha. cbn in Ha. unfold demo_own. rewrite boot_own_lookup by done.
      assert (Hp : page_of a < 0x80100000) by (unfold page_of, PAGE_SIZE; zdiv).
      rewrite !decide_False; [done| |unfold demo_root; lia]. unfold demo_pages. rewrite !not_elem_of_cons.
      repeat split; try lia. apply not_elem_of_nil. }
    repeat apply Forall_cons_2; try apply Forall_nil_2; apply H; unfold demo_main, demo_idle; lia.
  - cbn. repeat split; repeat apply Forall_cons_2; try apply Forall_nil_2; intros a; unfold inside, demo_main, demo_idle; cbn; lia.
Qed.

Lemma fork_kinv : kinv demo_root fork_kernel demo_own demo_pages 0 kmalloc_blocks [500] [demo_idle] (fun _ => []).
Proof.
  assert (Hin : forall p, p ∈ [500] -> p = 500) by (intros p; apply list_elem_of_singleton).
  constructor.
  - exact fork_heap_inv.
  - by apply (sinv_set_proc (thread_init demo_main demo_idle) [demo_idle] (fun _ => [])); [apply thread_init_sinv|].
  - reflexivity.
  - apply (dinv_tabs demo_kernel); [exact demo_dinv|done|done|]. intros p Hp. rewrite (Hin p Hp). by exists fork_process.
  - exists (0, 1). split; [by left|]. unfold inside, NULL. cbn. lia.
  - intros p Hp. rewrite (Hin p Hp). exists (500, 240). split; [right; by left|]. unfold inside. cbn. lia.
  - intros t [u Hu]. cbn in Hu. destruct (decide (t = demo_main)) as [->|Hm]; [|destruct (decide (t = demo_idle)) as [->|Hi]].
    + exists (demo_main, 200). split; [do 2 right; by left|]. unfold inside. cbn. lia.
    + exists (demo_idle, 200). split; [do 3 right; by left|]. unfold inside. cbn. lia.
    + by rewrite !lookup_insert_ne in Hu.
  - by intros c Hc.
  - intros [|i] p; cbn [proctab fork_kernel].
    + intros [= <-] _. by left.
    + intros Hi. change (replicate 15 0 !! i = Some p) in Hi. apply lookup_replicate in Hi as [-> _]. done.
  - exact demo_root_role.
  - intros i Hi. change (mem_of_kstate fork_kernel) with demo_state. rewrite demo_root_zero by lia. reflexivity.
  - intros p x Hp. rewrite (Hin p Hp). intros Hx.
    assert (Hr : root_of x = demo_root) by (rewrite <- demo_satp; injection Hx as <-; reflexivity). rewrite Hr. exact demo_root_role.
  - intros p q x y Hp Hq _ _ _. by rewrite (Hin p Hp), (Hin q Hq).
Qed.

Lemma sysfork_correct_witness :
  exists s' q y, sysfork new_process tlclear demo_root fork_kernel = Done 1 s' /\ k_procs s' !! q = Some y /\
    runs s' q /\ iotab y = demo_table /\ get_refcnt (IoFile 0) s' = 2 /\ p_tid y = 1.
Proof.
  destruct (sysfork_correct new_process tlclear demo_root fork_kernel demo_own demo_pages 0 kmalloc_blocks [500] [demo_idle] (fun _ => [])
    500 fork_process 1) as (s' & own' & l' & blocks' & q & y & E & _ & [H1 H2 H3 H4 H5 H6 H7 H8 H9 H10 H11 H12]).
  - exact fork_kinv.
  - constructor. exists (set_proc 500 (MkThread "main" THREAD_RUNNING MAIN_TID 0 0 0 0)), demo_main,
      (set_proc 500 (MkThread "main" THREAD_RUNNING MAIN_TID 0 0 0 0)). by split_and!.
  - by left.
  - reflexivity.
  - reflexivity.
  - reflexivity.
  - intros o. change (get_refcnt o fork_kernel) with (get_refcnt o demo_kernel). rewrite demo_counts. unfold demo_count, is_obj. repeat case_decide; lia.
  - reflexivity.
  - by vm_compute.
  - change (root_of fork_process) with (mtag_to_root (satp demo_state)). rewrite demo_satp.
    change (mem_of_kstate fork_kernel) with demo_state. rewrite mapped_none by exact demo_empty. simpl. lia.
  - exists s', q, y. split; [exact E|]. split; [exact H3|]. split; [exact H6|]. split; [exact H9|].
    split; [rewrite H10; reflexivity|rewrite H5; reflexivity].
Defined.
