(* ===== verification/Boot.v ===== *)
(** * Start-up (main.c, start.s) and the attachment of devices
      (uart.c, virtio.c, vioblk.c)

    [main] over the joined state of the console, the interrupt tables, the device
    registers and the kernel.  The messages of the drivers are left out. *)

From stdpp Require Import base gmap list strings numbers.
From Stdlib Require Import Lia ZArith.
From S2P Require Import Prelude CMem PageAlloc Heap MemInit CString Thread Timer Uart BlockIo Vioblk Kfs Io Device Console Plic Virtio Intr Process Drivers.
Local Open Scope Z_scope.
Local Open Scope kern_scope.

Definition UART1_IOBASE : Z := 0x10000100.
Definition UART0_IRQNO : Z := 10.
Definition VIRT0_IOBASE : Z := 0x10001000.
Definition VIRT1_IOBASE : Z := 0x10002000.
Definition VIRT0_IRQNO : Z := 1.
Definition UART_IRQ_PRIO : Z := 3.
Definition VIOBLK_IRQ_PRIO : Z := 1.
Definition VIRTIO_STAT_DRIVER : Z := 2.
Definition VIRTIO_STAT_DRIVER_OK : Z := 4.

(** Sizes of the device structures, and the offsets of the queue in one. *)
Definition SIZEOF_UART_DEVICE : Z := 216.
Definition SIZEOF_VIOBLK_DEVICE : Z := 248.
Definition VQ_AVAIL : Z := 88.
Definition VQ_USED : Z := 96.
Definition VQ_DESC : Z := 112.

(** The configuration of a block device: capacity and block size. *)
Definition CONFIG_CAPACITY : Z := 0x100.
Definition CONFIG_BLK_SIZE : Z := 0x114.

Definition INIT_PROC : list Z := chars "init_shell".

Section Boot.
Context {C : Type} {UR : UartRegs C}.                      (* the port of the console *)
Context {D : Type} {MM : Mmio D} {M8 : Mmio64 D}.          (* the other device registers *)
Context {Dk : Type} {VD : VirtioDisk Dk}.                  (* the disks behind them *)
Abbreviation kst := (kstate (vioblk_device Dk) (drvs Dk)).

Record bstate := MkBoot {
  b_con : cstate C;
  b_isrtab : list (isr_entry (drvs Dk));
  b_intr_initialized : bool;
  b_seie : bool;
  b_mmio : D;
  b_k : kst
}.

Definition set_b_mmio (d : D) (s : bstate) : bstate :=
  MkBoot (b_con s) (b_isrtab s) (b_intr_initialized s) (b_seie s) d (b_k s).
Definition set_b_k (k : kst) (s : bstate) : bstate :=
  MkBoot (b_con s) (b_isrtab s) (b_intr_initialized s) (b_seie s) (b_mmio s) k.

Definition on_kern {A} (c : M kst A) : M bstate A := lift b_k set_b_k c.

(** The console reads [intr_initialized] and the interrupt enable bit, and changes
    neither between calls. *)
Definition con_view (s : bstate) : cstate C :=
  let c := b_con s in
  MkCons (com0 c) (putchar_prev c) (getchar_prev c) (console_initialized c) (b_intr_initialized s) (ts (k_tm (b_k s))).
Definition con_put (c : cstate C) (s : bstate) : bstate :=
  MkBoot c (b_isrtab s) (b_intr_initialized s) (b_seie s) (b_mmio s) (set_k_tm (set_ts (con_ts c) (k_tm (b_k s))) (b_k s)).
Definition on_console {A} (c : M (cstate C) A) : M bstate A := lift con_view con_put c.

(** The interrupt manager works on the timer, the threads and the drivers. *)
Definition intr_view (s : bstate) : istate D (drvs Dk) :=
  MkI (b_isrtab s) (b_intr_initialized s) (b_seie s) (k_tm (b_k s)) (b_mmio s) (drivers (k_dev (b_k s))).
Definition intr_put (i : istate D (drvs Dk)) (s : bstate) : bstate :=
  let d := k_dev (b_k s) in
  MkBoot (b_con s) (isrtab i) (intr_initialized i) (seie i) (dev i)
    (set_k_tm (tm i) (set_k_dev (MkDs (devmgr_initialized d) (devtab d) (drv i)) (b_k s))).
Definition on_intr {A} (c : M (istate D (drvs Dk)) A) : M bstate A := lift intr_view intr_put c.

#[export] Instance boot_mmio : Mmio bstate := {
  rd32 a := lift b_mmio set_b_mmio (rd32 a);
  wr32 a v := lift b_mmio set_b_mmio (wr32 a v)
}.
#[export] Instance boot_mmio64 : Mmio64 bstate := {
  rd64 a := lift b_mmio set_b_mmio (rd64 a);
  wr64 a v := lift b_mmio set_b_mmio (wr64 a v)
}.

(** ** Attaching devices

    The interrupt service routines are stored in the table only; [disk_at regs] is
    the disk behind a block device, [uninit] the content of the local feature
    array of [vioblk_attach]. *)
Context (uart_isr_fn vioblk_isr_fn : Z -> Z -> M (tmstate * drvs Dk) unit).
Context (disk_at : Z -> Dk) (uninit : list Z).

Definition set_drivers (f : drvs Dk -> drvs Dk) : M bstate unit := on_kern (on_drivers (modify f)).

Definition attach_uart (mmio_base irq : Z) : M bstate unit :=
  match uart_attach mmio_base irq with
  | None => on_kern (on_dev (device_register (Some (chars "ser")) (Some ser_open_ebusy) NULL)) ;; ret tt
  | Some d =>
      dev <- on_kern (on_heap (kcalloc 1 SIZEOF_UART_DEVICE)) ;;
      set_drivers (set_uart dev d) ;;
      on_intr (intr_register_isr irq UART_IRQ_PRIO (Some uart_isr_fn) dev) ;;
      on_kern (on_dev (device_register (Some (chars "ser")) (Some ser_open) dev)) ;;
      ret tt
  end.

Definition or_status (regs bits : Z) : M bstate unit :=
  st <- rd32 (regs + STATUS) ;; wr32 (regs + STATUS) (Z.lor st bits).

Definition vioblk_attach (regs irq : Z) : M bstate unit :=
  id <- rd32 (regs + DEVICE_ID) ;;
  assert (id =? VIRTIO_ID_BLOCK) "regs->device_id == VIRTIO_ID_BLOCK" ;;
  or_status regs VIRTIO_STAT_DRIVER ;;
  x <- negotiate_regs regs uninit blk_wanted blk_needed ;;
  if negb (fst x =? 0) then ret tt else
  cfg <- (if virtio_featset_test (snd x) VIRTIO_BLK_F_BLK_SIZE then rd32 (regs + CONFIG_BLK_SIZE) else ret 512) ;;
  dev <- on_kern (on_heap (kmalloc (SIZEOF_VIOBLK_DEVICE + cfg))) ;;
  on_kern (on_kvm (modify (fun m => set_mem (memset (ms_mem m) dev 0 (Z.to_nat SIZEOF_VIOBLK_DEVICE)) m))) ;;
  capacity <- rd64 (regs + CONFIG_CAPACITY) ;;
  wr32 (regs + QUEUE_NUM) 0 ;;
  blkbuf <- on_kern (on_heap (kmalloc cfg)) ;;
  assert (negb (blkbuf =? NULL)) "dev->blkbuf != NULL" ;;
  set_drivers (set_blk dev (vioblk_new (disk_at regs) (snd x) cfg capacity)) ;;
  virtio_attach_virtq regs 0 1 (dev + VQ_DESC) (dev + VQ_USED) (dev + VQ_AVAIL) ;;
  on_intr (intr_register_isr irq VIOBLK_IRQ_PRIO (Some vioblk_isr_fn) dev) ;;
  on_kern (on_dev (device_register (Some (chars "blk")) (Some blk_open) dev)) ;;
  or_status regs VIRTIO_STAT_DRIVER_OK.

(** ** [main] *)

(** The linker's symbols and the addresses of the static objects. *)
Context (L : layout) (main_proc main_thr idle_thr : Z).

Definition boot_threads (t : tstate) : tstate := set_sie (sie t) (thread_init main_thr idle_thr).

Definition init_managers : M bstate unit :=
  on_console console_init ;;
  on_kern (on_heap (memory_init L)) ;;
  on_intr intr_init ;;
  on_kern (on_dev devmgr_init) ;;
  on_kern (modify (fun s => set_k_tm (set_ts (boot_threads (ts (k_tm s))) (k_tm s)) s)) ;;
  on_kern (procmgr_init main_proc) ;;
  on_kern (modify (fun s => set_k_tm (timer_init (k_tm s)) s)).

Definition attach_devices : M bstate unit :=
  for_upto 4 0 (fun i => attach_uart (UART0_IOBASE + (UART1_IOBASE - UART0_IOBASE) * i) (UART0_IRQNO + i)) ;;
  for_upto 8 0 (fun i => virtio_attach vioblk_attach (VIRT0_IOBASE + (VIRT1_IOBASE - VIRT0_IOBASE) * i) (VIRT0_IRQNO + i)).

(** [fs_mount] of the device at [a], whose state the file system holds from then
    on. *)
Definition mount_dev (a : Z) : M kst Z :=
  st <- on_drivers get ;;
  match blks st !! a with
  | None => undef "fs_mount: not a block device"
  | Some v => on_drivers (modify (fun s => MkDrvs (uarts s) (delete a (blks s)))) ;; on_fs (fs_mount v)
  end.

(** From the opening of the disk to the jump to user mode: the user stack pointer
    and the address the processor goes on at. *)
Definition start_init : M kst (Z * Z) :=
  x <- on_dev (device_open (chars "blk") 0) ;;
  if negb (fst x =? 0) then panic "device_open failed" else
  match snd x with
  | Some (IoDev a) =>
      result <- mount_dev a ;;
      if negb (result =? 0) then panic "fs_mount failed" else
      initio <- on_fs (fs_open INIT_PROC) ;;
      match initio with
      | inl _ => panic "init_shell: process image not found"
      | inr i =>
          r <- process_exec (IoFile i) ;;
          match r with
          | inl _ => panic "init_shell: process_exec failed"
          | inr user => ret user
          end
      end
  | _ => undef "blkio"
  end.

Definition main : M bstate (Z * Z) :=
  init_managers ;;
  attach_devices ;;
  on_kern (on_threads intr_enable) ;;
  on_kern start_init.
End Boot.

Arguments bstate C D Dk : clear implicits.
