(* ===== verification/BootProps.v ===== *)
(** * Theorems on start-up (main.c)

    From the state in which the loader leaves the kernel image, the initialisation
    functions establish the invariants of the components. *)

From stdpp Require Import base gmap list strings numbers.
From Stdlib Require Import Lia ZArith.
From S2P Require Import Prelude CMem PageAlloc PageTable PageInv VmSpace UserRange Heap MemInit Clone VmProps UserMem Grow ThreadList Thread Sched SchedOps SchedProps Timer CString Uart BlockIo Vioblk Kfs KfsProps Io Elf ElfProps Mkfs MkfsProps Device Console Plic Virtio Intr Process Drivers Syscall ProcProps ExecProps ForkProps Boot.
Local Open Scope Z_scope.
Local Open Scope kern_scope.

(** ** The registers of the virtio slots *)

(** The eight slots of the machine. *)
Definition slot_base (i : nat) : Z := VIRT0_IOBASE + (VIRT1_IOBASE - VIRT0_IOBASE) * (Z.of_nat i mod 8).

(** What does not change in a slot: magic number, version and device number, the
    feature words offered, and the configuration of a block device. *)
Record slot_info := MkSlot { si_ident : Z * Z * Z; si_offered : Z -> Z; si_capacity : Z; si_blk_size : Z }.

(** What the virtio specification says of the registers of a slot beyond
    [VirtioMmio]: no access to a register changes the [slot_info] of a slot, and
    the writes that describe the queue have no effect on negotiation. *)
Class VirtioBus (D : Type) {MM : Mmio D} {M8 : Mmio64 D} := {
  vb_slot :: forall i, VirtioMmio D (slot_base i);
  vb_info : nat -> D -> slot_info;
  vb_ident i d : v_ident (base := slot_base i) d = si_ident (vb_info i d);
  vb_offered i d : v_offered (base := slot_base i) d = si_offered (vb_info i d);
  vb_capacity i d : rd64 (slot_base i + CONFIG_CAPACITY) d = Done (si_capacity (vb_info i d)) d;
  vb_blk_size i d : rd32 (slot_base i + CONFIG_BLK_SIZE) d = Done (si_blk_size (vb_info i d)) d;
  vb_rd32 i a : keeps (vb_info i) (rd32 a);
  vb_wr32 i a v : keeps (vb_info i) (wr32 a v);
  vb_wr64 i a v : keeps (vb_info i) (wr64 a v);
  vb_queue32 i r v d : r = QUEUE_SEL \/ r = QUEUE_NUM ->
    exists d', wr32 (slot_base i + r) v d = Done tt d' /\
      v_accepted (base := slot_base i) d' = v_accepted (base := slot_base i) d;
  vb_queue64 i r v d : r = QUEUE_DESC \/ r = QUEUE_DEVICE \/ r = QUEUE_DRIVER ->
    exists d', wr64 (slot_base i + r) v d = Done tt d' /\
      v_accepted (base := slot_base i) d' = v_accepted (base := slot_base i) d
}.

(** The structure of the first process as it lies in .bss, and after [procmgr_init]. *)
Definition static_process : process := MkProc 0 0 0 (replicate PROCESS_IOMAX None) 0 0 (replicate NSIG 0).
Definition main_process (mtag : Z) : process := MkProc 0 MAIN_TID mtag (replicate PROCESS_IOMAX None) 0 0 (replicate NSIG 0).

Section Managers.
Context {C : Type} {UR : UartRegs C} {UA : Uart16550 C}.
Context {D : Type} {MM : Mmio D} {M8 : Mmio64 D} {PS : PlicSpec D} {VB : VirtioBus D}.
Context {Dk : Type} {VD : VirtioDisk Dk}.
Context (L : layout) (main_proc main_thr idle_thr : Z).
Abbreviation bst := (bstate C D Dk).
Abbreviation kst := (kstate (vioblk_device Dk) (drvs Dk)).

(** The static objects the invariant speaks of, and the address NULL. *)
Definition static_blocks : list span :=
  [(NULL, 1); (main_proc, SIZEOF_PROCESS); (main_thr, SIZEOF_THREAD); (idle_thr, SIZEOF_THREAD)].

(** The linker places them apart in the image. *)
Record statics_ok : Prop := {
  so_apart : all_apart static_blocks;
  so_image : Forall (fun b => 0 <= b.1 /\ b.1 + b.2 <= kimg_end L) static_blocks;
  so_table : Forall (fun b => apart b (main_pt2 L, PAGE_SIZE)) static_blocks
}.

(** The state in which the loader leaves the kernel: .bss is zero. *)
Record cold (s : bst) : Prop := {
  cd_bss : bss_zero L (hmem (k_heap (b_k s)));
  cd_procs : k_procs (b_k s) = {[ main_proc := static_process ]};
  cd_proctab : proctab (b_k s) = main_proc :: replicate 15 NULL;
  cd_dev : k_dev (b_k s) = empty_devices (MkDrvs ∅ ∅);
  cd_fs : fs_initialized (k_fs (b_k s)) = false;
  cd_blocks : length (boot_block (k_fs (b_k s))) = 4096%nat /\ length (inode (k_fs (b_k s))) = 4096%nat /\
    length (data_block (k_fs (b_k s))) = 4096%nat
}.

(** The threads after [procmgr_init]. *)
Definition main_thread_of (t : tstate) : tstate :=
  set_thr (<[main_thr := set_proc main_proc (MkThread "main" THREAD_RUNNING MAIN_TID 0 0 0 0)]> (thr t)) t.

(** What [init_managers] leaves behind. *)
Record managed (s s1 : bst) (h : hstate) : Prop := {
  mg_booted : booted L h;
  mg_heap : k_heap (b_k s1) = h;
  mg_threads : exists i, threads (b_k s1) = main_thread_of (set_sie i (thread_init main_thr idle_thr));
  mg_procs : k_procs (b_k s1) = {[ main_proc := main_process (satp (h_vm h)) ]};
  mg_proctab : proctab (b_k s1) = main_proc :: replicate 15 NULL;
  mg_dev : k_dev (b_k s1) = MkDs true (devtab (k_dev (b_k s))) (drivers (k_dev (b_k s)));
  mg_fs : k_fs (b_k s1) = k_fs (b_k s);
  mg_slots : forall i, vb_info i (b_mmio s1) = vb_info i (b_mmio s)
}.

Lemma plic_init_keeps i : keeps (vb_info i) plic_init.
Proof.
  unfold plic_init. apply keeps_for_upto. intros j. apply keeps_bind; [apply vb_wr32|intros _].
  unfold plic_enable_source_for_context. apply keeps_bind; [apply vb_rd32|intros v; apply vb_wr32].
Qed.

Lemma console_init_boot (s : bst) : exists c, on_console console_init s = Done tt (con_put c s) /\ con_ts c = ts (k_tm (b_k s)).
Proof.
  destruct (console_init_ready (con_view s)) as (c & E & _). exists c. unfold on_console, lift. rewrite E. split; [done|].
  revert E. unfold console_init, on_com0, lift, bind, modify. destruct (com0_init _); [|done..]. by intros [= <-].
Qed.

Lemma intr_init_boot (s : bst) : exists d,
  on_intr intr_init s = Done tt (intr_put (MkI (b_isrtab s) true true
    (let t := k_tm (b_k s) in MkTm (alarms t) (sleep_list t) (next_tick t) (mtcmp t) false (timer_initialized t) (set_sie false (ts t)))
    d (drivers (k_dev (b_k s)))) s) /\ forall i, vb_info i d = vb_info i (b_mmio s).
Proof.
  destruct (plic_init_run (b_mmio s)) as (d & E & _). exists d. split; [|intros i; exact (plic_init_keeps i _ _ _ E)].
  unfold on_intr, lift, intr_init, on_tm, on_ts, intr_disable, on_plic, lift, bind, gets, modify, ret. cbn -[plic_init].
  by rewrite E.
Qed.

Lemma procmgr_init_boot (k : kst) i :
  main_thr <> NULL -> threads k = set_sie i (thread_init main_thr idle_thr) -> k_procs k = {[ main_proc := static_process ]} ->
  procmgr_init main_proc k = Done tt
    (MkK (set_ts (main_thread_of (threads k)) (k_tm k)) (k_heap k) (k_fs k) (k_dev k)
       {[ main_proc := main_process (satp (h_vm (k_heap k))) ]} (proctab k) true).
Proof.
  intros Hm Ht Hp. unfold procmgr_init.
  assert (E1 : on_threads running_thread k = Done MAIN_TID k).
  { apply on_threads_read. unfold threads in Ht. unfold running_thread, on_thr, deref. unmonad. rewrite Ht. cbn. by rewrite lookup_insert_eq. }
  mstep E1.
  assert (E2 : on_kvm active_memory_space k = Done (satp (h_vm (k_heap k))) k) by (by destruct k as [? [] ? ? ? ? ?]). mstep E2.
  unfold proc_upd at 1. unfold bind at 1. rewrite Hp, lookup_singleton_eq.
  set (k1 := set_k_procs _ k).
  assert (E3 : on_threads (thread_set_process MAIN_TID main_proc) k1 =
    Done tt (set_k_tm (set_ts (main_thread_of (threads k)) (k_tm k)) k1)).
  { rewrite (on_ts_step _ k1 tt (ts (thread_view (set_k_tm (set_ts (main_thread_of (threads k)) (k_tm k)) k1)))).
    - f_equal. unfold thread_put. cbn. by destruct k as [[? ? ? ? ? ? []] [? ? ? []] ? ? ? ? ?].
    - change (ts (thread_view k1)) with (set_procs (p_mtag <$> k_procs k1) (set_mtag (satp (h_vm (k_heap k1))) (threads k))).
      rewrite Ht. unfold thread_set_process, tab_entry, on_thr, update, deref. unmonad.
      rewrite (proj2 (Z.eqb_neq main_thr NULL) Hm). cbn. rewrite lookup_insert_eq.
      done. }
  mstep E3. unfold proc_upd, bind, modify. cbn [k_procs set_k_tm k1 set_k_procs]. rewrite insert_singleton_eq, lookup_singleton_eq, insert_singleton_eq.
  done.
Qed.

Lemma on_kern_modify f (s : bst) : on_kern (modify f) s = Done tt (set_b_k (f (b_k s)) s).
Proof. done. Qed.

Lemma init_managers_run (s : bst) :
  layout_ok L -> main_thr <> NULL -> cold s ->
  exists s1 h, init_managers L main_proc main_thr idle_thr s = Done tt s1 /\ managed s s1 h.
Proof.
  intros HL Hm [H1 H2 H3 H4 H5 H6]. unfold init_managers.
  destruct (console_init_boot s) as (c & E1 & Hc). mstep E1. set (s1 := con_put c s).
  destruct (memory_init_run L (k_heap (b_k s)) HL H1) as (h & E2 & HB).
  assert (E2' : on_kern (on_heap (memory_init L)) s1 = Done tt (set_b_k (set_k_heap h (b_k s1)) s1)).
  { unfold on_kern, on_heap, lift. change (k_heap (b_k s1)) with (k_heap (b_k s)). by rewrite E2. }
  mstep E2'. set (s2 := set_b_k _ s1). destruct (intr_init_boot s2) as (d & E3 & Hd). mstep E3. set (s3 := intr_put _ s2).
  rewrite (bind_Done (on_kern (on_dev devmgr_init)) _ s3 tt (set_b_k (set_k_dev (MkDs true (devtab (k_dev (b_k s3))) (drivers (k_dev (b_k s3)))) (b_k s3)) s3) eq_refl).
  set (s4 := set_b_k _ s3).
  rewrite (bind_Done _ _ _ _ _ (on_kern_modify _ s4)).
  set (s5 := set_b_k _ s4).
  pose proof (procmgr_init_boot (b_k s5) _ Hm eq_refl H2) as E6.
  assert (E6' : on_kern (procmgr_init main_proc) s5 = Done tt (set_b_k (MkK (set_ts (main_thread_of (threads (b_k s5))) (k_tm (b_k s5)))
    (k_heap (b_k s5)) (k_fs (b_k s5)) (k_dev (b_k s5)) {[ main_proc := main_process (satp (h_vm (k_heap (b_k s5)))) ]} (proctab (b_k s5)) true) s5)).
  { unfold on_kern, lift. by rewrite E6. }
  mstep E6'. eexists _, h. split; [reflexivity|]. constructor; try done. by eexists.
Qed.

(** ** The invariant of the kernel *)

Hypothesis (HL : layout_ok L) (HS : statics_ok).

Lemma static_outside b a : b ∈ static_blocks -> inside b a ->
  a < kimg_end L /\ page_of a <> main_pt2 L /\ page_of a ∉ pool_pages L.
Proof using HL HS.
  intros Hb Ha. destruct HS as [_ H2 H3]. rewrite list.Forall_forall in H2, H3. specialize (H2 b Hb). specialize (H3 b Hb a Ha).
  unfold inside in Ha, H3. cbn [fst snd] in H3. split; [lia|].
  assert (page_of a <= a < page_of a + PAGE_SIZE) by (unfold page_of, PAGE_SIZE; zdiv).
  split; [intros E; apply H3; lia|]. rewrite pool_pages_elem by done. unfold pool_base, PAGE_SIZE in *. lia.
Qed.

Lemma boot_heap_inv h :
  booted L h -> heap_inv h (boot_own (main_pt2 L) (pool_pages L)) (pool_pages L) (pool_base L) static_blocks.
Proof using HL HS.
  intros HB. destruct (booted_heap_inv L h HL HB) as [H1 H2 H3 H4 H5].
  assert (Hnd : NoDup (pool_pages L)) by apply pages_down_NoDup.
  constructor; [done..| |].
  - apply Forall_cons_1 in H4 as [H4 _]. constructor; [done|]. apply list.Forall_forall. intros b Hb a Ha.
    destruct (static_outside b a Hb Ha) as (_ & Hr & Hp). left. rewrite boot_own_lookup by done. by rewrite !decide_False.
  - split; [|apply so_apart, HS]. apply list.Forall_forall. intros b Hb a Ha Hab.
    destruct (static_outside b a Hb Hab) as (Hk & _ & _). destruct (bt_heap _ _ HB) as [E1 _].
    unfold inside in Ha. cbn [fst snd] in Ha. lia.
Qed.

Lemma statics_apart : main_proc <> NULL /\ main_thr <> NULL /\ idle_thr <> NULL /\ main_thr <> idle_thr.
Proof using HS.
  pose proof (so_apart HS) as (H1 & H2 & H3 & _).
  assert (Hh : forall p q n m, 0 < n -> 0 < m -> apart (p, n) (q, m) -> p <> q).
  { intros p q n m Hn Hm Ha ->. apply (Ha q); unfold inside; cbn; lia. }
  apply Forall_cons_1 in H1 as [A1 H1]. apply Forall_cons_1 in H1 as [A2 H1]. apply Forall_cons_1 in H1 as [A3 _].
  apply Forall_cons_1 in H3 as [A4 _].
  split_and!; [apply not_eq_sym; by apply (fun a b => Hh _ _ _ _ a b A1)|apply not_eq_sym; by apply (fun a b => Hh _ _ _ _ a b A2)
    |apply not_eq_sym; by apply (fun a b => Hh _ _ _ _ a b A3)|by apply (fun a b => Hh _ _ _ _ a b A4)].
Qed.

Lemma static_used b : b ∈ static_blocks -> used static_blocks b.1.
Proof using.
  intros Hb. exists b. split; [done|]. unfold inside. unfold static_blocks in Hb.
  repeat (apply elem_of_cons in Hb as [-> |Hb]; [unfold SIZEOF_PROCESS, SIZEOF_THREAD; cbn; clear; lia|]). by apply elem_of_nil in Hb.
Qed.

(** A kernel in which the first process is the only one and has nothing open. *)
Record started (k : kst) (own : gmap Z role) (l : list Z) (blocks : list span) : Prop := {
  sd_heap : heap_inv (k_heap k) own l (pool_base L) blocks;
  sd_used : forall a, used static_blocks a -> used blocks a;
  sd_threads : exists i, threads k = main_thread_of (set_sie i (thread_init main_thr idle_thr));
  sd_procs : k_procs k = {[ main_proc := main_process (satp (h_vm (k_heap k))) ]};
  sd_proctab : proctab k = main_proc :: replicate 15 NULL;
  sd_root : own !! main_pt2 L = Some (Root (main_pt2 L));
  sd_satp : mtag_to_root (satp (h_vm (k_heap k))) = main_pt2 L;
  sd_sum : sstatus_sum (h_vm (k_heap k)) = true;
  sd_empty : forall v, upper v -> uview (h_vm (k_heap k)) (main_pt2 L) v = None;
  sd_globals : forall i, 3 <= i < 512 -> has (load_pte (ms_mem (mem_of_kstate k)) (slot (main_pt2 L) i)) PTE_G = false
}.

Lemma started_runs k own l blocks : started k own l blocks -> runs k main_proc.
Proof using HS.
  destruct statics_apart as (_ & Hm & _ & Hmi).
  intros [_ _ [i Ht] _ _ _ _ _ _ _]. constructor. unfold threads, cur_thread in *. rewrite Ht.
  exists (set_proc main_proc (MkThread "main" THREAD_RUNNING MAIN_TID 0 0 0 0)), main_thr,
    (set_proc main_proc (MkThread "main" THREAD_RUNNING MAIN_TID 0 0 0 0)).
  cbn. rewrite !lookup_insert_eq. split_and!; done.
Qed.

Lemma started_active k own l blocks :
  started k own l blocks -> active (mem_of_kstate k) own l (pool_base L) (main_pt2 L).
Proof using. intros [H1 _ _ _ _ H6 H7 H8 _ _]. constructor; try done. apply (hi_vm _ _ _ _ _ H1). Qed.

Lemma started_kinv k own l blocks :
  started k own l blocks -> (forall o, 0 <= get_refcnt o k) ->
  kinv (main_pt2 L) k own l (pool_base L) blocks [main_proc] [idle_thr] (fun _ => []).
Proof using HS.
  intros [H1 H2 [i Ht] H4 H5 H6 H7 H8 _ H9] Hc. destruct statics_apart as (Hp0 & Hm0 & Hi0 & Hmi).
  assert (Hin : forall p, p ∈ [main_proc] -> p = main_proc) by (intros p; apply list_elem_of_singleton).
  assert (Hrefs : forall o, refs k [main_proc] o = 0).
  { intros o. cbn. unfold tab_of. rewrite H4, lookup_singleton_eq. cbn. repeat case_decide; done. }
  assert (Hx : forall p x, p ∈ [main_proc] -> k_procs k !! p = Some x -> x = main_process (satp (h_vm (k_heap k)))).
  { intros p x Hp. rewrite (Hin p Hp), H4, lookup_singleton_eq. by intros [= <-]. }
  constructor; try done.
  - rewrite Ht. apply (sinv_set_proc (set_sie i (thread_init main_thr idle_thr)) _ _ (MkThread "main" THREAD_RUNNING MAIN_TID 0 0 0 0)).
    + apply (sinv_same (thread_init main_thr idle_thr)); try done. by apply thread_init_sinv.
    + cbn. by rewrite lookup_insert_eq.
  - by rewrite Ht.
  - constructor; [apply NoDup_singleton| | |].
    + intros p Hp. rewrite (Hin p Hp), H4, lookup_singleton_eq. by eexists.
    + intros o. rewrite Hrefs. apply Hc.
    + intros j. rewrite Hrefs. lia.
  - apply H2, (static_used (NULL, 1)). by left.
  - intros p Hp. rewrite (Hin p Hp). apply H2, (static_used (main_proc, SIZEOF_PROCESS)). right. by left.
  - intros t. rewrite Ht. cbn. intros [u Hu]. destruct (decide (t = main_thr)) as [->|Hm]; [|destruct (decide (t = idle_thr)) as [->|Hi]].
    + apply H2, (static_used (main_thr, SIZEOF_THREAD)). do 2 right. by left.
    + apply H2, (static_used (idle_thr, SIZEOF_THREAD)). do 3 right. by left.
    + by rewrite !lookup_insert_ne in Hu.
  - intros [|j] p; rewrite H5; cbn.
    + intros [= <-] _. by left.
    + intros Hj. change (replicate 15 NULL !! j = Some p) in Hj. by apply lookup_replicate in Hj as [-> _].
  - intros p x Hp Hpx. rewrite (Hx p x Hp Hpx). unfold root_of. cbn. by rewrite H7.
  - intros p q x y Hp Hq _ _ _. by rewrite (Hin p Hp), (Hin q Hq).
Qed.

Lemma managed_started s s1 h :
  managed s s1 h -> started (b_k s1) (boot_own (main_pt2 L) (pool_pages L)) (pool_pages L) static_blocks.
Proof using HL HS.
  intros [H1 H2 H3 H4 H5 _ _ _]. destruct (bt_satp _ _ H1) as [Hs _]. destruct (bt_flags _ _ H1) as [Hsum _].
  destruct (main_pt2_page L HL) as [Hp2 Hp2e].
  constructor; unfold mem_of_kstate; rewrite ?H2; try done.
  - by apply boot_heap_inv.
  - rewrite boot_own_lookup by apply pages_down_NoDup. by rewrite decide_True.
  - rewrite Hs. by apply sv39_mtag_root; [|lia].
  - intros v Hv. apply uview_none. change (ms_mem (h_vm h)) with (hmem h). unfold lookup_pte. rewrite lookup_from_S.
    assert (E : load64 (hmem h) (slot (main_pt2 L) (vpn v 2)) = 0).
    { apply (dm_upper _ _ (bt_map _ _ H1)). split; [apply Hv|apply (vpn_range v 2)]. }
    cbv zeta. unfold load_pte at 1. rewrite E. change (has (pte_decode 0) PTE_V) with false. by rewrite andb_false_r.
  - intros i Hi. unfold load_pte, has. change (ms_mem (h_vm h)) with (hmem h). by rewrite (dm_upper _ _ (bt_map _ _ H1)).
Qed.

(** ** Attaching devices *)

Lemma started_grow k own l blocks h' own' l' blocks' :
  started k own l blocks -> heap_inv h' own' l' (pool_base L) blocks' -> grows (h_vm (k_heap k)) own (h_vm h') own' ->
  (forall a, used blocks a -> used blocks' a) -> started (set_k_heap h' k) own' l' blocks'.
Proof using.
  intros [H1 H2 H3 H4 H5 H6 H7 H8 He H9] HI G HU. pose proof (gr_ext _ _ _ _ G) as Ex. pose proof (ex_satp _ _ _ _ Ex) as Es.
  constructor; unfold mem_of_kstate; cbn [k_heap set_k_heap k_procs proctab k_tm]; rewrite ?Es; auto.
  - by eapply grows_root.
  - by rewrite (gr_sum _ _ _ _ G).
  - intros v Hv. rewrite (grows_view _ _ _ _ _ _ _ _ (hi_vm _ _ _ _ _ H1) G H6 Hv). auto.
  - intros i Hi. eapply (ex_global _ _ _ _ Ex); [exact H6|done|by apply H9].
Qed.

Lemma started_dev k own l blocks d : started k own l blocks -> started (set_k_dev d k) own l blocks.
Proof using. intros []. by constructor. Qed.

Context (uart_isr_fn vioblk_isr_fn : Z -> Z -> M (tmstate * drvs Dk) unit).
Context (disk_at : Z -> Dk) (uninit : list Z).
Abbreviation dev_t := (device (drvs Dk) io_obj).

(** The state after some devices were attached: [ds] are registered, [bl] are the
    block devices. *)
Record attached (s0 s : bst) (own : gmap Z role) (l : list Z) (blocks : list span) (ds : list dev_t)
    (bl : gmap Z (vioblk_device Dk)) : Prop := {
  ad_started : started (b_k s) own l blocks;
  ad_tab : devtab (k_dev (b_k s)) = table_of ds;
  ad_blks : blks (drivers (k_dev (b_k s))) = bl;
  ad_counts : forall a u, uarts (drivers (k_dev (b_k s))) !! a = Some u -> uart_refcnt u = 0;
  ad_fs : k_fs (b_k s) = k_fs (b_k s0);
  ad_info : forall i, vb_info i (b_mmio s) = vb_info i (b_mmio s0)
}.

Lemma on_kern_step {A} (c : M kst A) (s : bst) a k : c (b_k s) = Done a k -> on_kern c s = Done a (set_b_k k s).
Proof using. intros E. unfold on_kern, lift. by rewrite E. Qed.

Lemma register_boot (s : bst) ds n f ax :
  devtab (k_dev (b_k s)) = table_of ds -> (length ds < NDEV)%nat ->
  on_kern (on_dev (device_register (Some n) (Some f) ax)) s =
    Done (Z.of_nat (length (named n ds)))
      (set_b_k (set_k_dev (MkDs (devmgr_initialized (k_dev (b_k s))) (table_of (ds ++ [MkDev n f ax])) (drivers (k_dev (b_k s)))) (b_k s)) s).
Proof using. intros Ht Hl. apply on_kern_step. unfold on_dev, lift. by rewrite (register_table _ ds). Qed.

(** A zeroed block for a device structure. *)
Lemma calloc_device (k : kst) own l blocks size :
  started k own l blocks -> 0 < size <= PAGE_SIZE -> (1 <= length l)%nat ->
  exists q h own' l' blocks', on_heap (kcalloc 1 size) k = Done q (set_k_heap h k) /\
    started (set_k_heap h k) own' l' blocks' /\ (length l <= length l' + 1)%nat.
Proof using.
  intros HS' Hsz Hl.
  destruct (kmalloc_block (k_heap k) own l _ blocks size (sd_heap _ _ _ _ HS') Hsz Hl) as (q & h & own' & l' & E & HI & G & Hl' & _ & HU & _).
  destruct (round16_small size) as (Hr & Hr1 & Hr2 & _); [lia|].
  set (m' := memset (ms_mem (h_vm h)) q 0 (Z.to_nat (w64 (1 * size)))).
  destruct (heap_write h own' l' _ q _ blocks m' HI) as [HI' G'].
  { intros a Ha. unfold m'. rewrite load8_memset, decide_False; [done|]. rewrite Z.mul_1_l, w64_small by (unfold PAGE_SIZE in *; lia).
    intros Hin. apply Ha. unfold inside. cbn. lia. }
  exists q, (set_vm (set_mem m' (h_vm h)) h), own', l', ((q, round16 size) :: blocks). split; [|split; [|done]].
  - unfold on_heap, lift, kcalloc. rewrite (proj2 (Z.eqb_neq size 0)) by lia.
    rewrite (proj2 (Z.ltb_ge _ _)).
    + rewrite Z.mul_1_l, (w64_small size) by (unfold PAGE_SIZE in *; lia). mstep E. unfold m'.
      by rewrite Z.mul_1_l, (w64_small size) by (unfold PAGE_SIZE in *; lia).
    + apply Z.div_le_lower_bound; [lia|]. unfold SIZE_MAX, UINT64_MAX, PAGE_SIZE in *. lia.
  - eapply started_grow; [exact HS'|exact HI'|by eapply grows_trans|]. intros a Ha. by apply HU.
Qed.

(** The serial ports. *)
Lemma attach_uart_run (s0 s : bst) own l blocks ds bl base irq :
  attached s0 s own l blocks ds bl -> (length ds < NDEV)%nat -> (1 <= length l)%nat -> 0 <= irq < NIRQ ->
  exists s' own' l' blocks' d, attach_uart uart_isr_fn base irq s = Done tt s' /\
    attached s0 s' own' l' blocks' (ds ++ [d]) bl /\ dev_name d = chars "ser" /\ (length l <= length l' + 1)%nat.
Proof using.
  intros [A1 A2 A3 A4 A5 A6] Hd Hl Hirq. unfold attach_uart. destruct (uart_attach base irq) as [u|] eqn:Eu.
  - assert (Hu : uart_refcnt u = 0) by (revert Eu; unfold uart_attach; destruct (_ =? _); [done|]; by intros [= <-]).
    destruct (calloc_device (b_k s) own l blocks SIZEOF_UART_DEVICE A1) as (q & h & own' & l' & blocks' & E1 & HS' & Hl');
      [done|done|]. mstep (on_kern_step _ s _ _ E1).
    set (s1 := set_b_k _ s). set (k2 := set_k_dev (MkDs (devmgr_initialized (k_dev (b_k s))) (devtab (k_dev (b_k s)))
      (set_uart q u (drivers (k_dev (b_k s))))) (b_k s1)).
    rewrite (bind_Done (set_drivers _) _ s1 tt (set_b_k k2 s1) eq_refl).
    assert (E3 : on_intr (intr_register_isr irq UART_IRQ_PRIO (Some uart_isr_fn) q) (set_b_k k2 s1) =
      Done tt (MkBoot (b_con s1) (<[Z.to_nat irq := MkIsr (Some uart_isr_fn) q UART_IRQ_PRIO]> (b_isrtab s1)) (b_intr_initialized s1)
        (b_seie s1) (b_mmio s1) k2)).
    { unfold on_intr, lift, intr_register_isr. by rewrite (proj2 (Z.ltb_ge irq 0)), (proj2 (Z.leb_gt NIRQ irq)) by lia. }
    mstep E3. set (s3 := MkBoot _ _ _ _ _ k2). mstep (register_boot s3 ds (chars "ser") ser_open q A2 Hd).
    eexists _, own', l', blocks', (MkDev (chars "ser") ser_open q). split; [reflexivity|]. split; [|split; done]. constructor; cbn; try done.
    + by apply started_dev, started_dev.
    + intros a v. destruct (decide (a = q)) as [->|Hne]; [rewrite lookup_insert_eq; by intros [= <-]|]. rewrite lookup_insert_ne by done. eauto.
  - mstep (register_boot s ds (chars "ser") ser_open_ebusy NULL A2 Hd). eexists _, own, l, blocks, (MkDev (chars "ser") ser_open_ebusy NULL).
    split; [reflexivity|]. split; [|split; [done|lia]]. constructor; try done. by apply started_dev.
Qed.

(** ** The registers, over the joined state *)

Lemma rd32_boot a (s : bst) v d : rd32 a (b_mmio s) = Done v d -> rd32 a s = Done v (set_b_mmio d s).
Proof using. intros E. unfold rd32, boot_mmio, lift. by rewrite E. Qed.
Lemma wr32_boot a v (s : bst) d : wr32 a v (b_mmio s) = Done tt d -> wr32 a v s = Done tt (set_b_mmio d s).
Proof using. intros E. unfold wr32, boot_mmio, lift. by rewrite E. Qed.
Lemma rd64_boot a (s : bst) v d : rd64 a (b_mmio s) = Done v d -> rd64 a s = Done v (set_b_mmio d s).
Proof using. intros E. unfold rd64, boot_mmio64, lift. by rewrite E. Qed.
Lemma wr64_boot a v (s : bst) d : wr64 a v (b_mmio s) = Done tt d -> wr64 a v s = Done tt (set_b_mmio d s).
Proof using. intros E. unfold wr64, boot_mmio64, lift. by rewrite E. Qed.

Lemma set_b_mmio_same (s : bst) : set_b_mmio (b_mmio s) s = s.
Proof using. by destruct s. Qed.

#[local] Instance boot_virtio (i : nat) : VirtioMmio bst (slot_base i).
Proof using VB.
  refine (Build_VirtioMmio bst _ (slot_base i) (fun s => v_ident (base := slot_base i) (b_mmio s))
    (fun s => v_offered (base := slot_base i) (b_mmio s)) (fun s => v_accepted (base := slot_base i) (b_mmio s))
    (fun s => v_devsel (base := slot_base i) (b_mmio s)) (fun s => v_drvsel (base := slot_base i) (b_mmio s))
    (fun s => v_status (base := slot_base i) (b_mmio s)) _ _ _ _ _ _ _ _ _).
  - intros s. by rewrite (rd32_boot _ _ _ _ (rd_magic (base := slot_base i) (b_mmio s))), set_b_mmio_same.
  - intros s. by rewrite (rd32_boot _ _ _ _ (rd_version (base := slot_base i) (b_mmio s))), set_b_mmio_same.
  - intros s. by rewrite (rd32_boot _ _ _ _ (rd_id (base := slot_base i) (b_mmio s))), set_b_mmio_same.
  - intros s. by rewrite (rd32_boot _ _ _ _ (rd_features (base := slot_base i) (b_mmio s))), set_b_mmio_same.
  - intros s. by rewrite (rd32_boot _ _ _ _ (rd_status (base := slot_base i) (b_mmio s))), set_b_mmio_same.
  - intros s v. destruct (wr_devsel (base := slot_base i) (b_mmio s) v) as (d & E & H). exists (set_b_mmio d s). by rewrite (wr32_boot _ _ _ _ E).
  - intros s v. destruct (wr_drvsel (base := slot_base i) (b_mmio s) v) as (d & E & H). exists (set_b_mmio d s). by rewrite (wr32_boot _ _ _ _ E).
  - intros s v. destruct (wr_features (base := slot_base i) (b_mmio s) v) as (d & E & H). exists (set_b_mmio d s). by rewrite (wr32_boot _ _ _ _ E).
  - intros s v Hw. destruct (wr_status (base := slot_base i) (b_mmio s) v Hw) as (d & E & H). exists (set_b_mmio d s). by rewrite (wr32_boot _ _ _ _ E).
Defined.

(** Everything but the registers. *)
Definition b_rest (s : bst) := (b_con s, b_isrtab s, b_intr_initialized s, b_seie s, b_k s).

Lemma b_rest_eq (s s' : bst) : b_rest s' = b_rest s -> s' = set_b_mmio (b_mmio s') s.
Proof using. destruct s, s'. cbn. by intros [= -> -> -> -> ->]. Qed.

(** Register accesses keep it, and the slots. *)
Definition b_fixed (i : nat) (s : bst) := (b_rest s, vb_info i (b_mmio s)).

Lemma rd32_fixed i a : keeps (b_fixed i) (rd32 a).
Proof using.
  intros s v s' E. unfold rd32, boot_mmio, lift in E. destruct (rd32 a (b_mmio s)) eqn:Ed; try discriminate.
  injection E as _ <-. unfold b_fixed. f_equal. exact (vb_rd32 i a _ _ _ Ed).
Qed.
Lemma wr32_fixed i a v : keeps (b_fixed i) (wr32 a v).
Proof using.
  intros s r s' E. unfold wr32, boot_mmio, lift in E. destruct (wr32 a v (b_mmio s)) eqn:Ed; try discriminate.
  injection E as _ <-. unfold b_fixed. f_equal. exact (vb_wr32 i a v _ _ _ Ed).
Qed.
Lemma wr64_fixed i a v : keeps (b_fixed i) (wr64 a v).
Proof using.
  intros s r s' E. unfold wr64, boot_mmio64, lift in E. destruct (wr64 a v (b_mmio s)) eqn:Ed; try discriminate.
  injection E as _ <-. unfold b_fixed. f_equal. exact (vb_wr64 i a v _ _ _ Ed).
Qed.

Ltac keep_regs := repeat first
  [ apply rd32_fixed | apply wr32_fixed | apply wr64_fixed | apply keeps_ret | apply keeps_panic
  | apply keeps_bind; [|intros ?] | apply keeps_if ].

Lemma check_needed_fixed i base needed n : forall j, keeps (b_fixed i) (check_needed base needed n j).
Proof using. induction n as [|n IH]; intros j; cbn [check_needed]; cbv zeta; keep_regs; apply IH. Qed.
Lemma request_wanted_fixed i base wanted n : forall en j, keeps (b_fixed i) (request_wanted base en wanted n j).
Proof using. induction n as [|n IH]; intros en j; cbn [request_wanted]; cbv zeta; keep_regs; apply IH. Qed.
Lemma negotiate_fixed i base en wanted needed : keeps (b_fixed i) (negotiate_regs base en wanted needed).
Proof using.
  unfold negotiate_regs, assert.
  repeat first [apply check_needed_fixed | apply request_wanted_fixed | progress keep_regs].
Qed.
Lemma attach_virtq_fixed i base qid len a b c : keeps (b_fixed i) (virtio_attach_virtq base qid len a b c).
Proof using. unfold virtio_attach_virtq. keep_regs. Qed.

Lemma fixed_eq (s s' : bst) : (forall i, b_fixed i s' = b_fixed i s) ->
  s' = set_b_mmio (b_mmio s') s /\ forall i, vb_info i (b_mmio s') = vb_info i (b_mmio s).
Proof using. intros H. split; [apply b_rest_eq; exact (f_equal fst (H 0%nat))|]. intros i. exact (f_equal snd (H i)). Qed.

(** [regs->status |= bits] *)
Lemma or_status_boot i (s : bst) bits : within (slot_base i) s ->
  exists d, or_status (slot_base i) bits s = Done tt (set_b_mmio d s) /\ (forall j, vb_info j d = vb_info j (b_mmio s)) /\
    (Z.lor (v_status (base := slot_base i) (b_mmio s)) bits <> 0 -> within (slot_base i) (set_b_mmio d s)).
Proof using.
  intros HW. destruct (wr_status (base := slot_base i) (b_mmio s) (Z.lor (v_status (base := slot_base i) (b_mmio s)) bits)) as (d & E & _ & _ & O & A); [by right|].
  exists d. split; [|split].
  - unfold or_status. mstep (rd_status (base := slot_base i) s). by apply wr32_boot.
  - intros j. exact (vb_wr32 j _ _ _ _ _ E).
  - intros Hn k. cbn. rewrite A, (proj2 (Z.eqb_neq _ _) Hn), O. apply HW.
Qed.

(** ** The disk *)

Context {VS : VirtioDiskSpec Dk}.

(** A slot with a block device that has the features the driver needs, a block
    size of 512 bytes if it has one, and the size of the disk [dk]. *)
Record disk_slot (info : slot_info) (dk : Dk) : Prop := {
  sl_ident : si_ident info = (VIRTIO_MAGIC, 2, VIRTIO_ID_BLOCK);
  sl_indirect : Z.testbit (si_offered info 0) VIRTIO_F_INDIRECT_DESC = true;
  sl_reset : Z.testbit (si_offered info 1) (VIRTIO_F_RING_RESET - 32) = true;
  sl_blk_size : Z.testbit (si_offered info 0) VIRTIO_BLK_F_BLK_SIZE = true -> si_blk_size info = 512;
  sl_capacity : si_capacity info = vd_capacity dk;
  sl_max : 0 <= vd_capacity dk <= 2 ^ 32
}.

(** The device structure before the first request. *)
Definition new_disk (dk : Dk) : vioblk_device Dk :=
  MkVio dk false false 0 512 0 (vd_capacity dk * 512) (vd_capacity dk) (replicate 512 0) 0 0 0 0 0 false false false 0.

Lemma land_pow2 x k : 0 <= k -> Z.testbit x k = true -> Z.land x (2 ^ k) = 2 ^ k.
Proof using.
  intros Hk Hb. apply Z.bits_inj'. intros j Hj. rewrite Z.land_spec, Z.pow2_bits_eqb by done.
  destruct (Z.eqb_spec k j) as [<-|]; [by rewrite Hb|by rewrite andb_false_r].
Qed.

Lemma blk_negotiated info dk (o : list Z) :
  disk_slot info dk -> o = (fun i => si_offered info (Z.of_nat i)) <$> seq 0 VIRTIO_FEATLEN ->
  virtio_negotiate_features o uninit blk_wanted blk_needed = (0, <[0%nat := Z.land (si_offered info 0) 1088]> uninit).
Proof using.
  intros [_ H1 H2 _ _ _] ->. unfold virtio_negotiate_features.
  pose proof (land_pow2 _ 28 ltac:(done) H1) as E1. pose proof (land_pow2 _ 8 ltac:(done) H2) as E2.
  change (2 ^ 28) with 268435456 in E1. change (2 ^ 8) with 256 in E2. change blk_needed with [268435456; 256; 0; 0]. change blk_wanted with [1088; 0; 0; 0].
  cbn -[Z.land]. change (Z.of_nat 0) with 0. change (Z.of_nat 1) with 1. by rewrite E1, E2.
Qed.

Lemma blk_size_enabled x : length uninit = VIRTIO_FEATLEN ->
  virtio_featset_test (<[0%nat := Z.land x 1088]> uninit) VIRTIO_BLK_F_BLK_SIZE = Z.testbit x VIRTIO_BLK_F_BLK_SIZE.
Proof using.
  intros Hu. unfold virtio_featset_test. change (Z.to_nat (VIRTIO_BLK_F_BLK_SIZE / 32)) with 0%nat.
  change (VIRTIO_BLK_F_BLK_SIZE mod 32) with 6. change VIRTIO_BLK_F_BLK_SIZE with 6. rewrite list_lookup_insert_eq by (rewrite Hu; unfold VIRTIO_FEATLEN; lia). cbn [from_option id].
  pose proof (Z.land_ones (Z.shiftr (Z.land x 1088) 6) 1 ltac:(lia)) as E. change (Z.ones 1) with 1 in E. change (2 ^ 1) with 2 in E.
  rewrite E, <- Z.bit0_mod, Z.shiftr_spec, Z.land_spec by lia. change (Z.testbit 1088 (0 + 6)) with true. rewrite andb_true_r, Z.add_0_l.
  by destruct (Z.testbit x 6).
Qed.

Lemma attach_virtq_boot i (s : bst) a b c : within (slot_base i) s ->
  exists d, virtio_attach_virtq (slot_base i) 0 1 a b c s = Done tt (set_b_mmio d s) /\
    (forall j, vb_info j d = vb_info j (b_mmio s)) /\ within (slot_base i) (set_b_mmio d s).
Proof using.
  intros HW. unfold virtio_attach_virtq.
  destruct (vb_queue32 i QUEUE_SEL (w32 0) (b_mmio s) ltac:(auto)) as (d1 & E1 & A1).
  destruct (vb_queue64 i QUEUE_DESC a d1 ltac:(auto)) as (d2 & E2 & A2).
  destruct (vb_queue64 i QUEUE_DEVICE b d2 ltac:(auto)) as (d3 & E3 & A3).
  destruct (vb_queue64 i QUEUE_DRIVER c d3 ltac:(auto)) as (d4 & E4 & A4).
  destruct (vb_queue32 i QUEUE_NUM (w32 1) d4 ltac:(auto)) as (d5 & E5 & A5).
  exists d5. assert (Hi : forall j, vb_info j d5 = vb_info j (b_mmio s)).
  { intros j. rewrite (vb_wr32 j _ _ _ _ _ E5), (vb_wr64 j _ _ _ _ _ E4), (vb_wr64 j _ _ _ _ _ E3), (vb_wr64 j _ _ _ _ _ E2).
    exact (vb_wr32 j _ _ _ _ _ E1). }
  split; [|split; [done|]].
  - mstep (wr32_boot _ _ s _ E1). mstep (wr64_boot _ _ (set_b_mmio d1 s) _ E2). mstep (wr64_boot _ _ (set_b_mmio d2 s) _ E3).
    mstep (wr64_boot _ _ (set_b_mmio d3 s) _ E4). exact (wr32_boot _ _ (set_b_mmio d4 s) _ E5).
  - intros k. cbn. rewrite vb_offered, Hi, <- vb_offered, A5, A4, A3, A2, A1. apply HW.
Qed.

(** The memory of a block device: its structure and its buffer. *)
Lemma disk_memory (k : kst) own l blocks :
  started k own l blocks -> (2 <= length l)%nat ->
  exists q h1 b h2 own' l' blocks',
    on_heap (kmalloc (SIZEOF_VIOBLK_DEVICE + 512)) k = Done q (set_k_heap h1 k) /\
    on_heap (kmalloc 512) (set_k_heap (set_vm (set_mem (memset (ms_mem (h_vm h1)) q 0 (Z.to_nat SIZEOF_VIOBLK_DEVICE)) (h_vm h1)) h1) k) =
      Done b (set_k_heap h2 k) /\ b <> NULL /\
    started (set_k_heap h2 k) own' l' blocks' /\ (length l <= length l' + 2)%nat.
Proof using.
  intros HS' Hl.
  destruct (kmalloc_block (k_heap k) own l _ blocks (SIZEOF_VIOBLK_DEVICE + 512) (sd_heap _ _ _ _ HS'))
    as (q & h1 & own1 & l1 & E1 & HI1 & G1 & Hl1 & _ & HU1); [done|lia|].
  set (m' := memset (ms_mem (h_vm h1)) q 0 (Z.to_nat SIZEOF_VIOBLK_DEVICE)).
  destruct (heap_write h1 own1 l1 _ q _ blocks m' HI1) as [HI2 G2].
  { intros a Ha. unfold m'. rewrite load8_memset, decide_False; [done|].
    change (round16 (SIZEOF_VIOBLK_DEVICE + 512)) with 768 in Ha. unfold inside, SIZEOF_VIOBLK_DEVICE in *. cbn in *. lia. }
  destruct (kmalloc_block _ own1 l1 _ _ 512 HI2) as (b & h2 & own2 & l2 & E3 & HI3 & G3 & Hl3 & _ & HU3 & _); [done|lia|].
  assert (HU : forall a, used blocks a -> used ((b, round16 512) :: (q, round16 (SIZEOF_VIOBLK_DEVICE + 512)) :: blocks) a /\ a <> b).
  { intros a Ha. apply HU3. by apply HU1. }
  exists q, h1, b, h2, own2, l2, ((b, round16 512) :: (q, round16 (SIZEOF_VIOBLK_DEVICE + 512)) :: blocks).
  split; [by apply on_heap_step|]. split; [by apply (on_heap_step _ (set_k_heap _ k))|]. split; [|split; [|lia]].
  - intros ->. destruct (HU NULL) as [_ Hn]; [|done]. apply (sd_used _ _ _ _ HS'), (static_used (NULL, 1)). by left.
  - eapply started_grow; [exact HS'|exact HI3| |intros a Ha; by apply HU].
    eapply grows_trans; [exact G1|]. eapply grows_trans; [exact G2|exact G3].
Qed.

(** Agreeing on the features: those wanted that the device offers. *)
Definition blk_enabled (info : slot_info) : list Z := <[0%nat := Z.land (si_offered info 0) 1088]> uninit.

Lemma blk_negotiate i (s : bst) :
  within (slot_base i) s -> disk_slot (vb_info i (b_mmio s)) (disk_at (slot_base i)) -> length uninit = VIRTIO_FEATLEN ->
  exists d1 d2, or_status (slot_base i) VIRTIO_STAT_DRIVER s = Done tt (set_b_mmio d1 s) /\
    negotiate_regs (slot_base i) uninit blk_wanted blk_needed (set_b_mmio d1 s) =
      Done (0, blk_enabled (vb_info i (b_mmio s))) (set_b_mmio d2 s) /\
    (forall j, vb_info j d2 = vb_info j (b_mmio s)) /\ within (slot_base i) (set_b_mmio d2 s) /\
    (if virtio_featset_test (blk_enabled (vb_info i (b_mmio s))) VIRTIO_BLK_F_BLK_SIZE
     then rd32 (slot_base i + CONFIG_BLK_SIZE) else ret 512) (set_b_mmio d2 s) = Done 512 (set_b_mmio d2 s).
Proof using.
  intros HW HD Hu. destruct (or_status_boot i s VIRTIO_STAT_DRIVER HW) as (d1 & E1 & I1 & W1).
  assert (W1' : within (slot_base i) (set_b_mmio d1 s)) by (apply W1; intros [_ E]%Z.lor_eq_0_iff; discriminate E).
  destruct (negotiate_regs_run (slot_base i) uninit blk_wanted blk_needed (set_b_mmio d1 s) W1') as (s2 & E2 & W2 & _).
  destruct (fixed_eq (set_b_mmio d1 s) s2) as [Es2 I2]; [intros j; exact (negotiate_fixed j _ _ _ _ _ _ _ E2)|].
  assert (I2' : forall j, vb_info j (b_mmio s2) = vb_info j (b_mmio s)) by (intros j; rewrite I2; apply I1).
  rewrite (blk_negotiated (vb_info i (b_mmio s)) (disk_at (slot_base i))) in E2; [|done|].
  2:{ unfold offered_words. apply list_fmap_ext. intros j x _.
      change (v_offered (base := slot_base i) (set_b_mmio d1 s)) with (v_offered (base := slot_base i) d1). by rewrite vb_offered, I1. }
  change (set_b_mmio (b_mmio s2) (set_b_mmio d1 s)) with (set_b_mmio (b_mmio s2) s) in Es2.
  exists d1, (b_mmio s2). rewrite <- Es2. split_and!; [done|done|done|done|]. unfold blk_enabled. rewrite blk_size_enabled by done.
  destruct (Z.testbit _ _) eqn:Eb; [|done]. rewrite (rd32_boot _ _ _ _ (vb_blk_size i (b_mmio s2))), set_b_mmio_same, I2'.
  by rewrite (sl_blk_size _ _ HD Eb).
Qed.

(** The end of the driver's attach function, for the structure [v] at [q]. *)
Definition blk_install (i : nat) (irq q : Z) (v : vioblk_device Dk) : M bst unit :=
  set_drivers (set_blk q v) ;;
  virtio_attach_virtq (slot_base i) 0 1 (q + VQ_DESC) (q + VQ_USED) (q + VQ_AVAIL) ;;
  on_intr (intr_register_isr irq VIOBLK_IRQ_PRIO (Some vioblk_isr_fn) q) ;;
  on_kern (on_dev (device_register (Some (chars "blk")) (Some blk_open) q)) ;;
  or_status (slot_base i) VIRTIO_STAT_DRIVER_OK.

Lemma blk_install_run (s0 s : bst) own l blocks ds bl i irq q v :
  attached s0 s own l blocks ds bl -> within (slot_base i) s -> (length ds < NDEV)%nat -> 0 <= irq < NIRQ ->
  exists s', blk_install i irq q v s = Done tt s' /\ attached s0 s' own l blocks (ds ++ [MkDev (chars "blk") blk_open q]) (<[q := v]> bl).
Proof using.
  intros [A1 A2 A3 A4 A5 A6] HW Hd Hirq. unfold blk_install. set (d := k_dev (b_k s)) in *.
  set (k6 := set_k_dev (MkDs (devmgr_initialized d) (devtab d) (set_blk q v (drivers d))) (b_k s)).
  rewrite (bind_Done (set_drivers _) _ s tt (set_b_k k6 s) eq_refl). set (s6 := set_b_k k6 s).
  destruct (attach_virtq_boot i s6 (q + VQ_DESC) (q + VQ_USED) (q + VQ_AVAIL) HW) as (d7 & E8 & I8 & W7). mstep E8.
  set (s7 := set_b_mmio d7 s6).
  assert (E9 : on_intr (intr_register_isr irq VIOBLK_IRQ_PRIO (Some vioblk_isr_fn) q) s7 =
    Done tt (MkBoot (b_con s7) (<[Z.to_nat irq := MkIsr (Some vioblk_isr_fn) q VIOBLK_IRQ_PRIO]> (b_isrtab s7)) (b_intr_initialized s7)
      (b_seie s7) (b_mmio s7) k6)).
  { unfold on_intr, lift, intr_register_isr. by rewrite (proj2 (Z.ltb_ge irq 0)), (proj2 (Z.leb_gt NIRQ irq)) by lia. }
  mstep E9. set (s8 := MkBoot _ _ _ _ _ k6). mstep (register_boot s8 ds (chars "blk") blk_open q A2 Hd). set (s9 := set_b_k _ s8).
  destruct (or_status_boot i s9 VIRTIO_STAT_DRIVER_OK W7) as (d10 & E10 & I10 & _).
  exists (set_b_mmio d10 s9). split; [exact E10|]. constructor; try done.
  - exact (started_dev _ _ _ _ _ (started_dev _ _ _ _ _ A1)).
  - cbn. by rewrite A3.
  - intros j. cbn [b_mmio set_b_mmio]. rewrite I10. cbn. by rewrite I8.
Qed.

Lemma vioblk_attach_run (s0 s : bst) own l blocks ds bl i irq :
  attached s0 s own l blocks ds bl -> within (slot_base i) s -> disk_slot (vb_info i (b_mmio s0)) (disk_at (slot_base i)) ->
  length uninit = VIRTIO_FEATLEN -> (length ds < NDEV)%nat -> (2 <= length l)%nat -> 0 <= irq < NIRQ ->
  exists s' own' l' blocks' q, vioblk_attach vioblk_isr_fn disk_at uninit (slot_base i) irq s = Done tt s' /\
    attached s0 s' own' l' blocks' (ds ++ [MkDev (chars "blk") blk_open q]) (<[q := new_disk (disk_at (slot_base i))]> bl) /\
    (length l <= length l' + 2)%nat.
Proof using VS.
  intros [A1 A2 A3 A4 A5 A6] HW HD Hu Hd Hl Hirq. rewrite <- A6 in HD.
  destruct (blk_negotiate i s HW HD Hu) as (d1 & d2 & E1 & E2 & I2 & W2 & E3).
  destruct (disk_memory (b_k s) own l blocks A1 Hl) as (q & h1 & b & h2 & own' & l' & blocks' & E4 & E5 & Hb & HS' & Hl').
  set (info := vb_info i (b_mmio s)) in *. set (s3 := set_b_k (set_k_heap h1 (b_k s)) (set_b_mmio d2 s)).
  set (h1' := set_vm (set_mem (memset (ms_mem (h_vm h1)) q 0 (Z.to_nat SIZEOF_VIOBLK_DEVICE)) (h_vm h1)) h1) in *.
  set (s4 := set_b_k (set_k_heap h1' (b_k s)) (set_b_mmio d2 s)).
  pose proof (rd64_boot _ s4 _ _ (vb_capacity i (b_mmio s4))) as E6. rewrite set_b_mmio_same in E6. cbn [b_mmio s4 set_b_k set_b_mmio] in E6.
  rewrite I2 in E6. fold info in E6.
  destruct (vb_queue32 i QUEUE_NUM 0 (b_mmio s4) ltac:(auto)) as (d5 & E7 & Q5).
  assert (Hnew : vioblk_new (disk_at (slot_base i)) (blk_enabled info) 512 (si_capacity info) = new_disk (disk_at (slot_base i))).
  { unfold vioblk_new, new_disk. rewrite (sl_capacity _ _ HD). pose proof (sl_max _ _ HD).
    rewrite w64_small by lia. destruct (virtio_featset_test _ _); rewrite Z.div_mul by lia; done. }
  destruct (blk_install_run s0 (set_b_k (set_k_heap h2 (b_k s)) (set_b_mmio d5 s4)) own' l' blocks' ds bl i irq q (new_disk (disk_at (slot_base i))))
    as (s' & E8 & HA'); [| |done|done|].
  { constructor; try done. intros j. cbn [b_mmio set_b_mmio set_b_k]. rewrite (vb_wr32 j _ _ _ _ _ E7). cbn. by rewrite I2. }
  { intros j. cbn. rewrite Q5, vb_offered, (vb_wr32 i _ _ _ _ _ E7), <- vb_offered. apply W2. }
  exists s', own', l', blocks', q. split; [|done]. unfold vioblk_attach. mstep (rd_id (base := slot_base i) s).
  change (v_ident (base := slot_base i) s) with (v_ident (base := slot_base i) (b_mmio s)). rewrite vb_ident, (sl_ident _ _ HD : si_ident (vb_info i (b_mmio s)) = _).
  unfold assert at 1. cbn [snd]. rewrite Z.eqb_refl. unfold bind at 1, ret at 1. mstep E1. mstep E2. cbn [fst snd].
  change (negb (0 =? 0)) with false. cbv iota. mstep E3. mstep (on_kern_step _ (set_b_mmio d2 s) _ _ E4). fold s3.
  mstep (on_kern_step _ s3 _ _ (on_kvm_modify (fun m => set_mem (memset (ms_mem m) q 0 (Z.to_nat SIZEOF_VIOBLK_DEVICE)) m) (b_k s3))).
  change (set_b_k (put_mem_kstate _ (b_k s3)) s3) with s4. mstep E6. mstep (wr32_boot _ _ s4 _ E7).
  mstep (on_kern_step _ (set_b_mmio d5 s4) _ _ E5). unfold assert at 1. rewrite (proj2 (Z.eqb_neq b NULL) Hb). cbn [negb].
  unfold bind at 1, ret at 1. rewrite Hnew. exact E8.
Qed.

(** A slot without a device, as the code sees it. *)
Definition idle_slot (info : slot_info) : Prop :=
  let '(magic, version, id) := si_ident info in magic <> VIRTIO_MAGIC \/ version <> 2 \/ id = VIRTIO_ID_NONE.

Lemma virtio_idle i (s : bst) blk irq : idle_slot (vb_info i (b_mmio s)) -> virtio_attach blk (slot_base i) irq s = Done tt s.
Proof using.
  unfold idle_slot. rewrite <- vb_ident. intros H. pose proof (virtio_attach_correct (slot_base i) blk irq s) as V.
  change (v_ident (base := slot_base i) s) with (v_ident (base := slot_base i) (b_mmio s)) in V.
  destruct (v_ident (b_mmio s)) as [[magic version] id]. by apply V.
Qed.

Lemma virtio_disk_attach (s0 s : bst) own l blocks ds bl i irq :
  attached s0 s own l blocks ds bl -> disk_slot (vb_info i (b_mmio s0)) (disk_at (slot_base i)) ->
  length uninit = VIRTIO_FEATLEN -> (length ds < NDEV)%nat -> (2 <= length l)%nat -> 0 <= irq < NIRQ ->
  exists s' own' l' blocks' q, virtio_attach (vioblk_attach vioblk_isr_fn disk_at uninit) (slot_base i) irq s = Done tt s' /\
    attached s0 s' own' l' blocks' (ds ++ [MkDev (chars "blk") blk_open q]) (<[q := new_disk (disk_at (slot_base i))]> bl) /\
    (length l <= length l' + 2)%nat.
Proof using VS.
  intros HA HD Hu Hd Hl Hirq. pose proof (sl_ident _ _ HD) as Hid. rewrite <- (ad_info _ _ _ _ _ _ _ HA i), <- vb_ident in Hid.
  destruct (wr_status (base := slot_base i) (b_mmio s) 0) as (d1 & E1 & _ & I1 & O1 & B1); [by left|].
  destruct (wr_status (base := slot_base i) d1 VIRTIO_STAT_ACKNOWLEDGE) as (d2 & E2 & _ & I2 & O2 & B2); [by left|].
  assert (HA2 : attached s0 (set_b_mmio d2 s) own l blocks ds bl).
  { destruct HA as [? ? ? ? ? H6]. constructor; try done. intros j. cbn [b_mmio set_b_mmio].
    by rewrite (vb_wr32 j _ _ _ _ _ E2), (vb_wr32 j _ _ _ _ _ E1). }
  destruct (vioblk_attach_run s0 (set_b_mmio d2 s) own l blocks ds bl i irq HA2) as (s' & own' & l' & blocks' & q & E & R); [|done..|].
  { intros k. cbn. rewrite B2, B1. apply Z.land_0_r. }
  exists s', own', l', blocks', q. split; [|done]. unfold virtio_attach.
  assert (Em : rd32 (slot_base i + MAGIC_VALUE) s = Done VIRTIO_MAGIC s) by (rewrite (rd_magic (base := slot_base i) s); cbn; by rewrite Hid).
  assert (Ev : rd32 (slot_base i + VERSION) s = Done 2 s) by (rewrite (rd_version (base := slot_base i) s); cbn; by rewrite Hid).
  assert (Ei : rd32 (slot_base i + DEVICE_ID) s = Done VIRTIO_ID_BLOCK s) by (rewrite (rd_id (base := slot_base i) s); cbn; by rewrite Hid).
  assert (Ei2 : rd32 (slot_base i + DEVICE_ID) (set_b_mmio d2 s) = Done VIRTIO_ID_BLOCK (set_b_mmio d2 s)).
  { rewrite (rd_id (base := slot_base i) (set_b_mmio d2 s)). cbn. by rewrite I2, I1, Hid. }
  mstep Em. rewrite Z.eqb_refl. cbn [negb]. mstep Ev. rewrite Z.eqb_refl. cbn [negb]. mstep Ei.
  change (VIRTIO_ID_BLOCK =? VIRTIO_ID_NONE) with false. cbv iota. mstep (wr32_boot _ _ s _ E1). mstep (wr32_boot _ _ (set_b_mmio d1 s) _ E2). mstep Ei2. exact E.
Qed.

(** The machine: a disk in slot [n], nothing in the other slots. *)
Record machine (s : bst) (n : nat) : Prop := {
  mc_slot : (n < 8)%nat;
  mc_disk : disk_slot (vb_info n (b_mmio s)) (disk_at (slot_base n));
  mc_idle : forall i, (i < 8)%nat -> i <> n -> idle_slot (vb_info i (b_mmio s))
}.

Lemma slot_base_at i : 0 <= i < 8 -> VIRT0_IOBASE + (VIRT1_IOBASE - VIRT0_IOBASE) * i = slot_base (Z.to_nat i).
Proof using. intros Hi. unfold slot_base. by rewrite Z2Nat.id, Z.mod_small by lia. Qed.

Abbreviation attach := (attach_devices uart_isr_fn vioblk_isr_fn disk_at uninit).

Lemma attach_uarts_run (s0 s : bst) own l blocks :
  attached s0 s own l blocks [] ∅ -> (4 <= length l)%nat ->
  exists s' own' l' blocks' ds,
    for_upto 4 0 (fun i => attach_uart uart_isr_fn (UART0_IOBASE + (UART1_IOBASE - UART0_IOBASE) * i) (UART0_IRQNO + i)) s = Done tt s' /\
    attached s0 s' own' l' blocks' ds ∅ /\ length ds = 4%nat /\ Forall (fun d => dev_name d = chars "ser") ds /\
    (length l <= length l' + 4)%nat.
Proof using.
  intros HA Hl.
  destruct (for_upto_inv (fun i s' => exists own' l' blocks' ds, attached s0 s' own' l' blocks' ds ∅ /\ length ds = Z.to_nat i /\
      Forall (fun d => dev_name d = chars "ser") ds /\ (length l <= length l' + Z.to_nat i)%nat)
    (fun i => attach_uart uart_isr_fn (UART0_IOBASE + (UART1_IOBASE - UART0_IOBASE) * i) (UART0_IRQNO + i)) 4 0 s)
    as (s' & E & own' & l' & blocks' & ds & HA' & Hd & Hs & Hl').
  - exists own, l, blocks, []. split_and!; [done|done|constructor|lia].
  - intros j s1 Hj (own1 & l1 & blocks1 & ds & HA1 & Hd & Hs & Hl1).
    destruct (attach_uart_run s0 s1 own1 l1 blocks1 ds ∅ (UART0_IOBASE + (UART1_IOBASE - UART0_IOBASE) * j) (UART0_IRQNO + j) HA1)
      as (s2 & own2 & l2 & blocks2 & d & E2 & HA2 & Hn & Hl2); [unfold NDEV; lia|lia|unfold UART0_IRQNO, NIRQ; lia|].
    exists s2. split; [done|]. exists own2, l2, blocks2, (ds ++ [d]). split; [done|]. rewrite length_app. cbn [length].
    split; [lia|]. split; [apply Forall_app; by repeat constructor|lia].
  - exists s', own', l', blocks', ds. split_and!; [exact E|exact HA'|exact Hd|exact Hs|exact Hl'].
Qed.

Lemma attach_devices_run (s0 s : bst) own l blocks n :
  attached s0 s own l blocks [] ∅ -> machine s0 n -> length uninit = VIRTIO_FEATLEN -> (6 <= length l)%nat ->
  exists s' own' l' blocks' ds q, attach s = Done tt s' /\
    attached s0 s' own' l' blocks' (ds ++ [MkDev (chars "blk") blk_open q]) {[ q := new_disk (disk_at (slot_base n)) ]} /\
    length ds = 4%nat /\ Forall (fun d => dev_name d = chars "ser") ds /\ (length l <= length l' + 6)%nat.
Proof using VS.
  intros HA [Hn HD HI] Hu Hl.
  destruct (attach_uarts_run s0 s own l blocks HA ltac:(lia)) as (s1 & own1 & l1 & blocks1 & ds & E1 & HA1 & Hd & Hs & Hl1).
  unfold attach_devices. mstep E1.
  destruct (for_upto_inv (fun i s' => if decide (i <= Z.of_nat n) then s' = s1 else
      exists own' l' blocks' q, attached s0 s' own' l' blocks' (ds ++ [MkDev (chars "blk") blk_open q]) {[ q := new_disk (disk_at (slot_base n)) ]} /\
        (length l <= length l' + 6)%nat)
    (fun i => virtio_attach (vioblk_attach vioblk_isr_fn disk_at uninit) (VIRT0_IOBASE + (VIRT1_IOBASE - VIRT0_IOBASE) * i) (VIRT0_IRQNO + i)) 8 0 s1)
    as (s' & E & H).
  - by rewrite decide_True by lia.
  - intros j s2 Hj. change (Z.of_nat 8) with 8 in Hj. rewrite slot_base_at by lia.
    destruct (decide (j = Z.of_nat n)) as [->|Hne]; [|case_decide as Hjn].
    + rewrite decide_True by lia. intros ->. rewrite Nat2Z.id.
      destruct (virtio_disk_attach s0 s1 own1 l1 blocks1 ds ∅ n (VIRT0_IRQNO + Z.of_nat n) HA1 HD Hu)
        as (s' & own' & l' & blocks' & q & E & HA' & Hl'); [unfold NDEV; lia|lia|unfold VIRT0_IRQNO, NIRQ; lia|].
      exists s'. split; [done|]. rewrite decide_False by lia. exists own', l', blocks', q. rewrite insert_empty in HA'. split; [done|lia].
    + intros ->. exists s1. rewrite decide_True by lia. split; [|done]. apply virtio_idle.
      rewrite (ad_info _ _ _ _ _ _ _ HA1). apply HI; lia.
    + intros (own' & l' & blocks' & q & HA' & Hl'). exists s2. rewrite decide_False by lia. split.
      * apply virtio_idle. rewrite (ad_info _ _ _ _ _ _ _ HA'). apply HI; lia.
      * by exists own', l', blocks', q.
  - rewrite decide_False in H by lia. destruct H as (own' & l' & blocks' & q & HA' & Hl'). exists s', own', l', blocks', ds, q. by split_and!.
Qed.
End Managers.
