(* ===== verification/Board.v ===== *)
(** * A concrete machine

    An interrupt controller and eight virtio slots behind one address decoder: the
    instance of the interfaces [PlicSpec] and [VirtioBus] on which the start-up of
    the kernel is evaluated. *)

From stdpp Require Import base gmap list strings numbers.
From Stdlib Require Import Lia ZArith.
From S2P Require Import Prelude BlockIo Vioblk Plic Virtio Boot BootProps.
Local Open Scope Z_scope.
Local Open Scope kern_scope.

(** The configuration of a slot is fixed: its capacity, and a block size of 512. *)
Record board := MkBoard { bd_plic : plic; bd_slots : Z -> toy_virtio; bd_capacity : Z -> Z }.

Definition set_plic (p : plic) (b : board) : board := MkBoard p (bd_slots b) (bd_capacity b).
Definition set_slot (i : Z) (v : toy_virtio) (b : board) : board :=
  MkBoard (bd_plic b) (fun j => if j =? i then v else bd_slots b j) (bd_capacity b).

(** Slot and register of an address. *)
Definition board_slot_no (a : Z) : Z := (a - VIRT0_IOBASE) / 0x1000.
Definition board_reg (a : Z) : Z := (a - VIRT0_IOBASE) mod 0x1000.
Definition on_slot {A} (i : Z) (c : M toy_virtio A) : M board A := lift (fun b => bd_slots b i) (set_slot i) c.

#[export] Instance board_mmio : Mmio board := {
  rd32 a := fun b =>
    if a <? VIRT0_IOBASE then lift bd_plic set_plic (rd32 a) b
    else if board_reg a =? CONFIG_BLK_SIZE then Done 512 b
    else Done (match rd32 (board_reg a) (bd_slots b (board_slot_no a)) with Done v _ => v | _ => 0 end) b;
  wr32 a v := if a <? VIRT0_IOBASE then lift bd_plic set_plic (wr32 a v) else on_slot (board_slot_no a) (wr32 (board_reg a) v)
}.
#[export] Instance board_mmio64 : Mmio64 board := {
  rd64 a := fun b => Done (bd_capacity b (board_slot_no a)) b;
  wr64 a v := ret tt
}.

(** ** The interrupt controller *)

Lemma board_rd a b v p : a < VIRT0_IOBASE -> rd32 a (bd_plic b) = Done v p -> rd32 a b = Done v (set_plic p b).
Proof. intros Ha E. cbn. rewrite (proj2 (Z.ltb_lt _ _) Ha). unfold lift. cbn in E. by rewrite E. Qed.
Lemma board_wr a v b p : a < VIRT0_IOBASE -> wr32 a v (bd_plic b) = Done tt p -> wr32 a v b = Done tt (set_plic p b).
Proof. intros Ha E. cbn. rewrite (proj2 (Z.ltb_lt _ _) Ha). unfold lift. cbn in E. by rewrite E. Qed.

Lemma set_plic_same b : set_plic (bd_plic b) b = b.
Proof. by destruct b. Qed.

#[export] Instance board_plic : PlicSpec board.
Proof.
  refine (Build_PlicSpec board _ (fun b => prio (bd_plic b)) (fun b => enabled (bd_plic b)) (fun b => in_service (bd_plic b))
    (max_prio (D := plic)) _ _ _ _ _ _).
  - exact (max_prio_range (D := plic)).
  - intros b src v Hs Hv. destruct (wr_prio (bd_plic b) src v Hs Hv) as (p & E & H). exists (set_plic p b).
    split; [|done]. apply board_wr; [unfold PLIC_IOBASE, VIRT0_IOBASE; lia|done].
  - intros b ctx w Hc Hw. destruct (rd_enable (bd_plic b) ctx w Hc Hw) as (v & E & H). exists v. split; [|done].
    etransitivity; [apply board_rd; [unfold PLIC_IOBASE, VIRT0_IOBASE; lia|exact E]|by rewrite set_plic_same].
  - intros b ctx w v Hc Hw Hv. destruct (wr_enable (bd_plic b) ctx w v Hc Hw Hv) as (p & E & H). exists (set_plic p b).
    split; [|done]. apply board_wr; [unfold PLIC_IOBASE, VIRT0_IOBASE; lia|done].
  - intros b. destruct (rd_claim (bd_plic b)) as (n & p & E & H). exists n, (set_plic p b). split; [|done]. by apply board_rd.
  - intros b n l Hn Hs. destruct (wr_complete (bd_plic b) n l Hn Hs) as (p & E & H). exists (set_plic p b). split; [|done]. by apply board_wr.
Defined.

(** ** The slots *)

Lemma slot_addr i r : 0 <= r < 0x1000 ->
  (slot_base i + r <? VIRT0_IOBASE) = false /\ board_slot_no (slot_base i + r) = Z.of_nat i mod 8 /\ board_reg (slot_base i + r) = r.
Proof.
  intros Hr. unfold board_slot_no, board_reg, slot_base. set (x := Z.of_nat i mod 8).
  assert (0 <= x < 8) by (apply Z.mod_pos_bound; lia). clearbody x.
  change (VIRT1_IOBASE - VIRT0_IOBASE) with 0x1000. rewrite (proj2 (Z.ltb_ge _ _)) by lia. split; [done|].
  replace (VIRT0_IOBASE + 0x1000 * x + r - VIRT0_IOBASE) with (r + x * 0x1000) by lia.
  rewrite Z.div_add, Z.mod_add, Z.div_small, Z.mod_small by lia. done.
Qed.

Lemma slot_rd i r b v : 0 <= r < 0x1000 -> r <> CONFIG_BLK_SIZE -> 
  rd32 r (bd_slots b (Z.of_nat i mod 8)) = Done v (bd_slots b (Z.of_nat i mod 8)) -> rd32 (slot_base i + r) b = Done v b.
Proof.
  intros Hr Hne E. destruct (slot_addr i r Hr) as (E1 & E2 & E3). cbn [rd32 board_mmio].
  rewrite E1, E2, E3, (proj2 (Z.eqb_neq _ _) Hne). by rewrite E.
Qed.
Lemma slot_wr i r b v d : 0 <= r < 0x1000 -> 
  wr32 r v (bd_slots b (Z.of_nat i mod 8)) = Done tt d -> wr32 (slot_base i + r) v b = Done tt (set_slot (Z.of_nat i mod 8) d b).
Proof.
  intros Hr E. destruct (slot_addr i r Hr) as (E1 & E2 & E3). cbn [wr32 board_mmio]. rewrite E1, E2, E3.
  unfold on_slot, lift. by rewrite E.
Qed.

Definition the_slot (i : nat) (b : board) : toy_virtio := bd_slots b (Z.of_nat i mod 8).

Lemma the_slot_set i d b : the_slot i (set_slot (Z.of_nat i mod 8) d b) = d.
Proof. unfold the_slot. cbn. by rewrite Z.eqb_refl. Qed.

#[export] Instance board_slot (i : nat) : VirtioMmio board (slot_base i).
Proof.
  refine (Build_VirtioMmio board _ (slot_base i) (fun b => v_ident (base := 0) (the_slot i b)) (fun b => v_offered (base := 0) (the_slot i b))
    (fun b => v_accepted (base := 0) (the_slot i b)) (fun b => v_devsel (base := 0) (the_slot i b))
    (fun b => v_drvsel (base := 0) (the_slot i b)) (fun b => v_status (base := 0) (the_slot i b)) _ _ _ _ _ _ _ _ _).
  1-5: intros b; apply slot_rd; [by vm_compute|done|reflexivity].
  - intros b v. destruct (wr_devsel (base := 0) (the_slot i b) v) as (d & E & H). eexists. split; [apply slot_wr; [by vm_compute|exact E]|]. by rewrite the_slot_set.
  - intros b v. destruct (wr_drvsel (base := 0) (the_slot i b) v) as (d & E & H). eexists. split; [apply slot_wr; [by vm_compute|exact E]|]. by rewrite the_slot_set.
  - intros b v. destruct (wr_features (base := 0) (the_slot i b) v) as (d & E & H). eexists. split; [apply slot_wr; [by vm_compute|exact E]|]. by rewrite the_slot_set.
  - intros b v Hw. destruct (wr_status (base := 0) (the_slot i b) v Hw) as (d & E & H). eexists. split; [apply slot_wr; [by vm_compute|exact E]|]. by rewrite the_slot_set.
Defined.

Definition board_info (i : nat) (b : board) : slot_info :=
  MkSlot (VIRTIO_MAGIC, 2, tv_id (the_slot i b)) (tv_offered (the_slot i b)) (bd_capacity b (Z.of_nat i mod 8)) 512.

Lemma toy_wr_info a v d d' : wr32 a v d = Done tt d' -> tv_id d' = tv_id d /\ tv_offered d' = tv_offered d.
Proof. cbn. intros [= <-]. by repeat destruct (_ =? _). Qed.

Lemma board_wr_info i a v : keeps (board_info i) (wr32 a v).
Proof.
  intros b u b' E. cbn [wr32 board_mmio] in E. destruct (a <? VIRT0_IOBASE).
  - unfold lift in E. destruct (wr32 a v (bd_plic b)); try discriminate. by injection E as _ <-.
  - unfold on_slot, lift in E. destruct (wr32 (board_reg a) v (bd_slots b (board_slot_no a))) as [[] d| | | | |] eqn:Ed; try discriminate. injection E as _ <-.
    unfold board_info, the_slot. cbn. destruct (Z.eqb_spec (Z.of_nat i mod 8) (board_slot_no a)) as [Es|]; [|done]. rewrite Es.
    by destruct (toy_wr_info _ _ _ _ Ed) as [-> ->].
Qed.

Lemma board_rd_info i a : keeps (board_info i) (rd32 a).
Proof.
  intros b v b' E. cbn [rd32 board_mmio] in E. destruct (a <? VIRT0_IOBASE).
  - unfold lift in E. destruct (rd32 a (bd_plic b)); try discriminate. by injection E as _ <-.
  - destruct (board_reg a =? CONFIG_BLK_SIZE); by injection E as _ <-.
Qed.

#[export] Instance board_bus : VirtioBus board.
Proof.
  refine (Build_VirtioBus board _ _ board_slot board_info _ _ _ _ board_rd_info board_wr_info _ _ _).
  - done.
  - done.
  - intros i b. cbn. destruct (slot_addr i CONFIG_CAPACITY) as (_ & -> & _); [by vm_compute|done].
  - intros i b. cbn [rd32 board_mmio]. destruct (slot_addr i CONFIG_BLK_SIZE) as (-> & _ & ->); [by vm_compute|done].
  - intros i a v. apply keeps_ret.
  - intros i r v b Hr. eexists. split; [apply slot_wr; [by destruct Hr as [-> | ->]; vm_compute|reflexivity]|].
    cbn [v_accepted board_slot]. rewrite the_slot_set. by destruct Hr as [-> | ->].
  - intros i r v b Hr. by exists b.
Defined.
