(* ===== verification/MainProps.v ===== *)
(** * From power-on to the first user program (main.c)

    [start_init] opens the disk, mounts the file system, opens the first program
    and executes it; [main] does this after the initialisation of [BootProps].  The
    theorem takes the disk from the image builder to the address space of the first
    process. *)

From stdpp Require Import base gmap list strings numbers.
From Stdlib Require Import Lia ZArith.
From S2P Require Import Prelude CMem PageAlloc PageTable PageInv VmSpace UserRange Heap MemInit UserMem Grow Thread Timer CString Uart BlockIo Vioblk Kfs KfsProps Io IoProps Elf ElfProps Mkfs MkfsProps Device Console Plic Virtio Intr Process Drivers Syscall ProcProps ExecProps ForkProps Boot BootProps Board.
Local Open Scope Z_scope.
Local Open Scope kern_scope.

(** ** Programs *)

(** The bytes of a file, as the loader reads them. *)
Definition file_fn (f : host_file) (k : Z) : Z := default 0 (bytes f !! Z.to_nat k).

(** An executable the loader accepts: it passes the checks, the sums of header
    fields do not wrap around, its segments are as [seg_ok] says (p_paddr = p_vaddr,
    the rounded size covers the offset in the page) and have no page in common. *)
Record program (f : host_file) : Prop := {
  pg_bytes : Forall (fun c => 0 <= c < 256) (bytes f);
  pg_verdict : verdict (file_fn f) (fsize f) = 0;
  pg_entry : user_vma (e_entry (the_ehdr (file_fn f)));
  pg_wrap : forall j, 0 <= j < e_phnum (the_ehdr (file_fn f)) -> no_wrap (file_fn f) j;
  pg_segs : Forall seg_ok (all_segments (file_fn f) (fsize f));
  pg_separate : separate (all_segments (file_fn f) (fsize f))
}.

Lemma file_fn_range f : program f -> forall k, 0 <= file_fn f k < 256.
Proof.
  intros HP k. unfold file_fn. destruct (bytes f !! Z.to_nat k) as [c|] eqn:E; [|done].
  exact (Forall_lookup_1 _ _ _ _ (pg_bytes _ HP) E).
Qed.

Section Main.
Context {Dk : Type} {VD : VirtioDisk Dk} {VS : VirtioDiskSpec Dk}.
Abbreviation kst := (kstate (vioblk_device Dk) (drvs Dk)).

(** ** The disk *)

Definition opened_disk (dk : Dk) : vioblk_device Dk := set_open true 1 0 0 true (new_disk dk).

Lemma opened_disk_ok dk : 0 <= vd_capacity dk <= 2 ^ 32 -> vd_slow dk -> bio_ok (opened_disk dk).
Proof. intros H Hs. split; [|done]. constructor; cbn; try done; lia || apply length_replicate. Qed.

Lemma named_blk (ds : list (device (drvs Dk) io_obj)) q :
  Forall (fun d => dev_name d = chars "ser") ds ->
  named (chars "blk") (ds ++ [MkDev (chars "blk") blk_open q]) = [MkDev (chars "blk") blk_open q].
Proof.
  intros H. unfold named. rewrite list.filter_app. replace (filter _ ds) with (@nil (device (drvs Dk) io_obj)); [done|].
  induction H as [|d ds Hd H IH]; [done|]. rewrite filter_cons_False; [exact IH|]. rewrite Hd. by vm_compute.
Qed.

Definition with_blks (bl : gmap Z (vioblk_device Dk)) (k : kst) : kst :=
  let d := k_dev k in set_k_dev (MkDs (devmgr_initialized d) (devtab d) (MkDrvs (uarts (drivers d)) bl)) k.

Lemma blk_open_new q dk (st : drvs Dk) : blks st = {[ q := new_disk dk ]} ->
  blk_open q st = Done (0, Some (IoDev q)) (MkDrvs (uarts st) {[ q := opened_disk dk ]}).
Proof.
  intros Hb. unfold blk_open, on_blk, bind at 1, lift. rewrite Hb, lookup_singleton_eq. cbn. unfold set_blk.
  by rewrite Hb, insert_singleton_eq.
Qed.

Lemma open_disk (k : kst) ds q dk :
  devtab (k_dev k) = table_of (ds ++ [MkDev (chars "blk") blk_open q]) -> (length ds < NDEV)%nat ->
  Forall (fun d => dev_name d = chars "ser") ds -> blks (drivers (k_dev k)) = {[ q := new_disk dk ]} ->
  on_dev (device_open (chars "blk") 0) k = Done (0, Some (IoDev q)) (with_blks {[ q := opened_disk dk ]} k).
Proof.
  intros Ht Hl Hs Hb. unfold on_dev, lift, device_open, bind, gets. rewrite Ht. unfold table_of.
  rewrite find_instance_table, named_blk by done. change ([?d] !! Z.to_nat (0 - 0)) with (Some d).
  cbn [openfn aux]. unfold lift. by rewrite (blk_open_new q dk _ Hb).
Qed.

(** ** The first program *)

(** The image of mkfs that the disk holds. *)
Record holds_image (dk : Dk) (fs : list host_file) : Prop := {
  hm_junk : exists junk, mkfs_args junk fs /\
    exists image, mkfs junk fs = inr image /\ holds (vd_byte dk) image /\
      Z.of_nat (length (concat image)) <= vd_capacity dk * 512 <= 2 ^ 32
}.

(** Mounting the disk and opening a program of the image. *)
Lemma mount_open dk fs k f (s0 : fstate (vioblk_device Dk)) :
  holds_image dk fs -> vd_slow dk -> fs !! k = Some f -> Forall unaligned (take k fs) -> program f ->
  fs_initialized s0 = false -> length (boot_block s0) = 4096%nat -> length (inode s0) = 4096%nat -> length (data_block s0) = 4096%nat ->
  exists s1 s2, fs_mount (opened_disk dk) s0 = Done 0 s1 /\ fs_open (name_of f) s1 = Done (inr 0%nat) s2 /\
    open_file s2 0 (MkFile 1 0 (fsize f) (Z.of_nat k) 1) /\ forall j, 0 <= j -> file_fn f j = kfs_data 0 s2 j.
Proof.
  intros [(junk & Ha & image & Em & Hd & Hsz)] Hslow Hk Hu HP Hi Hb Hn Hdb.
  destruct (mkfs_blocks junk fs Ha) as (bb & inos & Em' & Hlen & Hbytes & Hnd & Hni & Hil & Hfk).
  rewrite Em' in Em. injection Em as <-.
  assert (I : imaged junk fs bb inos (opened_disk dk)).
  { constructor; try assumption. apply opened_disk_ok; [lia|done]. }
  destruct (imaged_open_file junk fs bb inos _ I k f s0) as (s1 & s2 & E1 & E2 & HO & Hc); [done..|].
  exists s1, s2. split; [done|]. split; [done|]. split; [done|]. intros j Hj. unfold kfs_data. rewrite (get_open 0 _ _ HO).
  cbn [file_size]. unfold file_fn. destruct (Z.ltb_spec j (fsize f)) as [Hlt|Hge].
  - specialize (Hc (length (bytes f)) (le_n _)). rewrite take_ge in Hc by lia. unfold fsize in Hlt.
    rewrite <- Hc. unfold file_bytes. rewrite bytes_at_lookup, Z.add_0_l, Z2Nat.id by lia. reflexivity.
  - rewrite lookup_ge_None_2; [done|]. unfold fsize in Hge. lia.
Qed.

(** What the space of a program shows before it runs. *)
Definition program_image (f : host_file) : Z -> option (Z * Z) :=
  image (file_fn f) (all_segments (file_fn f) (fsize f)) (fun _ => None).

(** The loader on an open file with the bytes of [f], in an empty space. *)
Lemma exec_program (s : kst) i f fl own l last r :
  open_file (k_fs s) i fl -> file_position fl = 0 -> file_size fl = fsize f -> (forall j, 0 <= j -> file_fn f j = kfs_data i (k_fs s) j) ->
  program f -> active (mem_of_kstate s) own l last r -> frames (all_segments (file_fn f) (fsize f)) <= Z.of_nat (length l) ->
  (forall v, upper v -> uview (mem_of_kstate s) r v = None) ->
  exists s' own' l', process_exec (IoFile i) s = Done (inr (USER_STACK_VMA, e_entry (the_ehdr (file_fn f)))) s' /\ rest s' = rest s /\
    active (mem_of_kstate s') own' l' last r /\ forall v, upper v -> uview (mem_of_kstate s') r v = program_image f v.
Proof.
  intros HO Hp Hsz Hd HP HA Hfr He. pose proof (file_fn_range f HP) as Hr. set (d := kfs_data i (k_fs s)) in *.
  pose proof (ehdr_same _ _ Hd) as Eh. pose proof (segments_same _ _ (fsize f) Hd Hr) as Es. pose proof (verdict_same _ _ (fsize f) Hd Hr) as Ev.
  destruct (process_exec_run s i fl own l last r HO Hp HA) as (s' & E & Hrest & _ & H).
  - fold d. rewrite <- Eh. intros j Hj. apply (no_wrap_same _ _ Hd Hr); [lia|by apply (pg_wrap _ HP)].
  - fold d. rewrite Hsz, Es. apply (pg_segs _ HP).
  - fold d. by rewrite Hsz, Es.
  - fold d in E, H. rewrite Hsz, Ev, (pg_verdict _ HP), <- Eh, (bool_decide_eq_true_2 _ (pg_entry _ HP)) in E.
    rewrite Hsz in H. destruct (H ltac:(by rewrite Ev, (pg_verdict _ HP))) as (own' & l' & HA' & Sh).
    exists s', own', l'. split; [exact E|]. split; [done|]. split; [done|]. intros v Hv.
    rewrite (sh_view _ _ _ _ _ _ Sh v Hv), Es, (image_same _ _ Hd Hr) by apply (pg_segs _ HP).
    apply image_ext; [|done]. intros w Hw. unfold wipe. by rewrite He.
Qed.

Lemma start_init_run (k : kst) ds q dk fs j f own l last r :
  devtab (k_dev k) = table_of (ds ++ [MkDev (chars "blk") blk_open q]) -> (length ds < NDEV)%nat ->
  Forall (fun d => dev_name d = chars "ser") ds -> blks (drivers (k_dev k)) = {[ q := new_disk dk ]} ->
  holds_image dk fs -> vd_slow dk -> fs !! j = Some f -> Forall unaligned (take j fs) -> name_of f = INIT_PROC -> program f ->
  fs_initialized (k_fs k) = false -> length (boot_block (k_fs k)) = 4096%nat -> length (inode (k_fs k)) = 4096%nat ->
  length (data_block (k_fs k)) = 4096%nat ->
  active (mem_of_kstate k) own l last r -> frames (all_segments (file_fn f) (fsize f)) <= Z.of_nat (length l) ->
  (forall v, upper v -> uview (mem_of_kstate k) r v = None) ->
  exists k' own' l', start_init k = Done (USER_STACK_VMA, e_entry (the_ehdr (file_fn f))) k' /\
    k_tm k' = k_tm k /\ k_procs k' = k_procs k /\ proctab k' = proctab k /\
    active (mem_of_kstate k') own' l' last r /\ forall v, upper v -> uview (mem_of_kstate k') r v = program_image f v.
Proof.
  intros Ht Hl Hs Hb HI Hslow Hj Hu Hn HP F1 F2 F3 F4 HA Hfr He.
  destruct (mount_open dk fs j f (k_fs k) HI Hslow Hj Hu HP F1 F2 F3 F4) as (f1 & f2 & E2 & E3 & HO & Hd). rewrite Hn in E3.
  unfold start_init. mstep (open_disk k ds q dk Ht Hl Hs Hb). cbn [fst snd]. change (negb (0 =? 0)) with false. cbv iota.
  assert (E2' : mount_dev q (with_blks {[ q := opened_disk dk ]} k) = Done 0 (set_k_fs f1 (with_blks ∅ k))).
  { unfold mount_dev, on_drivers, on_dev, on_fs, lift, bind, get, modify. cbn [with_blks k_dev set_k_dev drivers blks].
    rewrite lookup_singleton_eq. cbn -[fs_mount opened_disk delete]. rewrite E2, delete_singleton_eq. done. }
  mstep E2'. change (negb (0 =? 0)) with false. cbv iota.
  assert (E3' : on_fs (fs_open INIT_PROC) (set_k_fs f1 (with_blks ∅ k)) = Done (inr 0%nat) (set_k_fs f2 (with_blks ∅ k))).
  { unfold on_fs, lift. cbn [k_fs set_k_fs]. by rewrite E3. }
  mstep E3'. set (k3 := set_k_fs f2 (with_blks ∅ k)).
  destruct (exec_program k3 0 f _ own l last r HO eq_refl eq_refl Hd HP HA Hfr He) as (k' & own' & l' & E & Hr & HA' & Hv).
  mstep E. injection Hr as R1 R2 R3 _ _ _. exists k', own', l'. by split_and!.
Qed.
End Main.

(** ** [main] *)

Section Whole.
Context {C : Type} {UR : UartRegs C} {UA : Uart16550 C}.
Context {D : Type} {MM : Mmio D} {M8 : Mmio64 D} {PS : PlicSpec D} {VB : VirtioBus D}.
Context {Dk : Type} {VD : VirtioDisk Dk} {VS : VirtioDiskSpec Dk}.
Context (uart_isr_fn vioblk_isr_fn : Z -> Z -> M (tmstate * drvs Dk) unit) (disk_at : Z -> Dk) (uninit : list Z).
Context (L : layout) (main_proc main_thr idle_thr : Z).
Abbreviation bst := (bstate C D Dk).
Abbreviation kst := (kstate (vioblk_device Dk) (drvs Dk)).

Definition interrupts_on (k : kst) : kst := set_k_tm (set_ts (set_sie true (ts (k_tm k))) (k_tm k)) k.

Lemma intr_enable_boot (k : kst) : exists b, on_threads intr_enable k = Done b (interrupts_on k).
Proof. eexists. unfold interrupts_on. by destruct k as [[? ? ? ? ? ? []] [? ? ? []] ? ? ? ? ?]. Qed.

Lemma started_interrupts k own l blocks :
  started L main_proc main_thr idle_thr k own l blocks -> started L main_proc main_thr idle_thr (interrupts_on k) own l blocks.
Proof.
  intros [H1 H2 [i Ht] H4 H5 H6 H7 H8 H9 H10]. constructor; try done. exists true. unfold threads, interrupts_on in *. cbn. by rewrite Ht.
Qed.

(** C2: Start-up.  The machine has one disk with 512-byte blocks whose interrupts
    arrive after the driver sleeps ([vd_slow]); on it is the image that [mkfs] made of
    a list of files, and the kernel has been loaded with .bss zeroed.  If no file
    before init_shell in the image has a length that is a multiple of the block size
    (mkfs.c counts a block too many for it), init_shell is a program the loader
    accepts ([program]: it passes the checks, no sum of header fields wraps, its
    segments have p_paddr = p_vaddr, a rounded size that covers the offset in the
    page, and no page in common) and there is memory for it, then [main] ends by entering user mode at the entry point of that program,
    with the stack at the top of the user range and interrupts enabled.  The running
    thread belongs to the first process, which has no open files; its address space
    is that of the kernel's main page table, and shows above the kernel exactly what
    the program headers describe: the bytes given to [mkfs], with the permissions of
    their segments, zeros behind them, and nothing else. *)
Theorem main_starts_init (s : bst) n fs j f :
  layout_ok L -> statics_ok L main_proc main_thr idle_thr -> cold L main_proc s -> machine disk_at s n ->
  length uninit = VIRTIO_FEATLEN -> holds_image (disk_at (slot_base n)) fs -> vd_slow (disk_at (slot_base n)) ->
  fs !! j = Some f -> Forall unaligned (take j fs) -> name_of f = INIT_PROC -> program f ->
  6 + frames (all_segments (file_fn f) (fsize f)) <= Z.of_nat (pool_count L) ->
  exists s' own l, main uart_isr_fn vioblk_isr_fn disk_at uninit L main_proc main_thr idle_thr s =
      Done (USER_STACK_VMA, e_entry (the_ehdr (file_fn f))) s' /\
    runs (b_k s') main_proc /\ sie (threads (b_k s')) = true /\
    (exists x, k_procs (b_k s') !! main_proc = Some x /\ root_of x = main_pt2 L /\ iotab x = replicate PROCESS_IOMAX None) /\
    active (mem_of_kstate (b_k s')) own l (pool_base L) (main_pt2 L) /\
    (forall v, upper v -> uview (mem_of_kstate (b_k s')) (main_pt2 L) v = program_image f v) /\
    described (file_fn f) (all_segments (file_fn f) (fsize f)) (fun _ => None) (uview (mem_of_kstate (b_k s')) (main_pt2 L)).
Proof.
  intros HL HS HC HM Hun HI Hslow Hj Hu Hn HP Hfr.
  destruct (statics_apart L main_proc main_thr idle_thr HS) as (_ & Hm0 & _ & _).
  destruct (init_managers_run L main_proc main_thr idle_thr s HL Hm0 HC) as (s1 & h & E1 & HG).
  pose proof (managed_started L main_proc main_thr idle_thr HL HS s s1 h HG) as S1. destruct HC as [_ _ _ Cd Cf (Cb & Ci & Cdb)].
  set (own := boot_own _ _) in S1.
  assert (A1 : attached L main_proc main_thr idle_thr s s1 own (pool_pages L) (static_blocks main_proc main_thr idle_thr) [] ∅).
  { destruct HG as [_ _ _ _ _ Hdev Hfs Hinfo]. rewrite Cd in Hdev. constructor; rewrite ?Hdev; try done. }
  assert (Hpc : length (pool_pages L) = pool_count L) by apply pages_down_length.
  destruct (attach_devices_run L main_proc main_thr idle_thr uart_isr_fn vioblk_isr_fn disk_at uninit s s1 own _ _ n A1 HM Hun)
    as (s2 & own2 & l2 & blocks2 & ds & q & E2 & A2 & Hds & Hser & Hl2).
  { rewrite Hpc. pose proof (frames_nonneg (all_segments (file_fn f) (fsize f))). lia. }
  destruct (intr_enable_boot (b_k s2)) as (b & E3). set (k3 := interrupts_on (b_k s2)).
  pose proof (started_interrupts _ _ _ _ (ad_started _ _ _ _ _ _ _ _ _ _ _ A2)) as S3. fold k3 in S3.
  destruct A2 as [_ T2 B2 _ F2 _].
  destruct (start_init_run k3 ds q (disk_at (slot_base n)) fs j f own2 l2 (pool_base L) (main_pt2 L)) as (k4 & own4 & l4 & E4 & R1 & R2 & R3 & HA & Hv);
    try done; try (unfold k3, interrupts_on; cbn; by rewrite F2).
  { rewrite Hds. unfold NDEV. lia. }
  { by eapply started_active. }
  { lia. }
  { apply (sd_empty _ _ _ _ _ _ _ _ S3). }
  exists (set_b_k k4 (set_b_k k3 s2)), own4, l4. split; [|split; [|split; [|split; [|split; [done|split; [done|]]]]]].
  - unfold main. mstep E1. mstep E2. mstep (on_kern_step _ s2 _ _ E3). exact (on_kern_step start_init (set_b_k k3 s2) _ _ E4).
  - destruct (started_runs _ _ _ _ HS _ _ _ _ S3) as [HR]. constructor. unfold cur_thread in *. cbn. by rewrite R1.
  - cbn. unfold threads. by rewrite R1.
  - exists (main_process (satp (h_vm (k_heap k3)))). cbn. rewrite R2, (sd_procs _ _ _ _ _ _ _ _ S3), lookup_singleton_eq.
    split; [done|]. split; [|done]. exact (sd_satp _ _ _ _ _ _ _ _ S3).
  - eapply described_same; [apply image_described; [apply (pg_segs _ HP)|apply (pg_separate _ HP)]|exact Hv].
Qed.
End Whole.

(** ** A start-up

    The machine of [Board] with a disk of 24 sectors in slot 2; on it the image of
    one file, the executable of [ElfProps] under the name init_shell. *)

Definition init_file : host_file := MkHost (up_user_bin ++ INIT_PROC) elf_bytes.
Definition init_image : list Z := concat (image_of [init_file]).
Definition init_disk : ramdisk := MkRam 24 (fun i => default 0 (init_image !! Z.to_nat i)) false.
Definition init_board : board :=
  MkBoard demo_plic (fun i => MkToyV (if i =? 2 then 2 else 0) (fun w => if w =? 0 then 268436544 else 256) (fun _ => 0) 0 0 0) (fun _ => 24).
(** The service routines of the drivers; the serial ports are idle. *)
Definition init_ser_isr : Z -> Z -> M (tmstate * drvs ramdisk) unit := ser_isr (fun _ => LSR_THRE) (fun _ => 0).
Definition cold_fs : fstate (vioblk_device ramdisk) :=
  MkFs (new_disk (MkRam 0 (fun _ => 0) false)) false zeros [] zeros zeros false.
Definition cold_state : bstate toy_uart board ramdisk :=
  MkBoot (toy_console [] false) (replicate 32 (MkIsr None 0 0)) false false init_board
    (MkK (MkTm ∅ 0 0 0 false false (thread_init 0x80007000 0x80008000)) MemInit.boot_state cold_fs (empty_devices (MkDrvs ∅ ∅))
       {[ 0x80006000 := static_process ]} (0x80006000 :: replicate 15 NULL) false).

Lemma init_program : program init_file.
Proof.
  constructor.
  - exact elf_bytes_range.
  - by vm_compute.
  - unfold user_vma. by vm_compute.
  - change (e_phnum _) with 1. intros j Hj. assert (j = 0) as -> by lia. constructor; by vm_compute.
  - replace (all_segments _ _) with [exec_phdr] by (by vm_compute). apply Forall_singleton. exact exec_seg_ok.
  - replace (all_segments _ _) with [exec_phdr] by (by vm_compute). split; [apply Forall_nil_2|done].
Qed.

Lemma init_args : mkfs_args (fun _ => zeros) [init_file].
Proof.
  constructor.
  - apply Forall_singleton. split; [|apply (bool_decide_unpack _); by vm_compute].
    change (name_of init_file) with INIT_PROC. unfold cstr. apply (bool_decide_unpack _). by vm_compute.
  - apply (bool_decide_unpack _). by vm_compute.
  - by vm_compute.
  - apply Forall_singleton. by vm_compute.
  - intros k. apply length_replicate.
Qed.

Lemma init_bytes : Forall (fun c => 0 <= c < 256) init_image.
Proof.
  assert (H : forallb (fun c => (0 <=? c) && (c <? 256)) init_image = true) by (by vm_compute).
  apply list.Forall_forall. intros c Hc. rewrite forallb_forall in H. apply list_elem_of_In in Hc. specialize (H c Hc). lia.
Qed.

Lemma init_holds : holds_image init_disk [init_file].
Proof.
  constructor. exists (fun _ => zeros). split; [exact init_args|]. exists (image_of [init_file]). split; [by vm_compute|]. split.
  - intros i Hi. cbn. change (concat (image_of [init_file])) with init_image in *.
    destruct (lookup_lt_is_Some_2 init_image (Z.to_nat i)) as [c Hc]; [lia|]. rewrite Hc. cbn. f_equal.
    symmetry. apply w8_small. exact (Forall_lookup_1 _ _ _ _ init_bytes Hc).
  - split; by vm_compute.
Qed.

Lemma init_machine : machine (fun _ => init_disk) cold_state 2.
Proof.
  constructor; [lia|by constructor; try done; vm_compute|].
  intros i Hi Hne. right. right. do 8 (destruct i as [|i]; [done|]). lia.
Qed.

Lemma init_statics : statics_ok boot_layout 0x80006000 0x80007000 0x80008000.
Proof.
  constructor; unfold static_blocks, apart, inside; cbn; unfold SIZEOF_PROCESS, SIZEOF_THREAD, NULL, PAGE_SIZE.
  - repeat split; repeat apply Forall_cons_2; try apply Forall_nil_2; intros a; unfold inside; cbn; lia.
  - repeat apply Forall_cons_2; try apply Forall_nil_2; cbn; lia.
  - repeat apply Forall_cons_2; try apply Forall_nil_2; intros a; unfold inside; cbn; lia.
Qed.

(** The first instruction of the program is in place, and there is nothing behind
    its page. *)
Lemma main_starts_init_witness :
  exists s', main init_ser_isr blk_isr (fun _ => init_disk) [9; 9; 9; 9] boot_layout 0x80006000 0x80007000 0x80008000 cold_state =
      Done (0xD0000000, 0xC0000000) s' /\
    uview (mem_of_kstate (b_k s')) 0x8000C000 0xC0000000 = Some (115, leaf_flags (Z.lor (Z.lor PTE_R PTE_X) PTE_U)) /\
    uview (mem_of_kstate (b_k s')) 0x8000C000 0xC0001000 = None.
Proof.
  destruct (main_starts_init init_ser_isr blk_isr (fun _ => init_disk) [9; 9; 9; 9] boot_layout 0x80006000 0x80007000 0x80008000
    cold_state 2 [init_file] 0 init_file) as (s' & own & l & E & _ & _ & _ & _ & V & _).
  - exact boot_layout_ok.
  - exact init_statics.
  - constructor; first [done|exact boot_bss].
  - exact init_machine.
  - done.
  - exact init_holds.
  - reflexivity.
  - done.
  - apply Forall_nil_2.
  - by vm_compute.
  - exact init_program.
  - apply Z.leb_le. by vm_compute.
  - exists s'. split; [exact E|].
    change (uview (mem_of_kstate (b_k s')) (main_pt2 boot_layout) 0xC0000000 = Some (115, leaf_flags (Z.lor (Z.lor PTE_R PTE_X) PTE_U)) /\
      uview (mem_of_kstate (b_k s')) (main_pt2 boot_layout) 0xC0001000 = None).
    rewrite !V by (apply user_upper; unfold user_vma, USER_START_VMA, USER_END_VMA; lia). split; by vm_compute.
Defined.
